(* ===== verification/_CoqProject ===== *)
-Q . S2P
Prelude.v
PyValue.v
Readiness.v
Store.v
Sweep.v
Hashing.v
Service.v
JsonFacts.v
Errors.v
JobService.v
Dispatcher.v
Janitor.v
Scheduler.v
TaskRows.v
SweepFacts.v
Lifecycle.v
Execution.v
Propagation.v
Submission.v
System.v
Guarantees.v
JobGuarantees.v
Attributes.v
Processors.v
Pipelines.v
PipelineFacts.v
PipelineGuarantees.v
HubState.v
HubRouting.v
HubGuarantees.v
HubManifest.v
HubGraph.v
HubGraphFacts.v
GraphGuarantees.v
Blobs.v
BlobFacts.v
Uploads.v
UploadFacts.v
UploadGuarantees.v
ArtifactVocab.v
Conversion.v
ConversionGuarantees.v
Artifacts.v
ArtifactFacts.v
ArtifactGuarantees.v
PathSafety.v
ImageMetadata.v
ImageGuarantees.v
Datasets.v
DatasetFacts.v
DatasetInvariant.v
DatasetGuarantees.v
Capabilities.v
Backends.v
BackendGuarantees.v
Stages.v
ReconStages.v
Recipes.v
StageFacts.v
Server.v
ServerInvariant.v
Recurrence.v
StageGuarantees.v
Dataflow.v
DataflowFacts.v
DataflowGuarantees.v
Snapshots.v
SnapshotGuarantees.v
PublicOutputs.v
PublicGuarantees.v
Radiance.v
RadianceTasks.v
RadianceFacts.v
RadianceGuarantees.v
ArtifactJobs.v
ArtifactValidation.v
ArtifactJobGuarantees.v
