(* ===== verification/Prelude.v ===== *)
(** * SceneAPI: a verified model

    SceneAPI is a server that runs structure-from-motion jobs on pluggable
    backends. A client registers projects, datasets and images and submits a stage or a
    recipe; the server turns it into a graph of tasks, queues the ready ones, runs them
    in worker processes under leases, and rolls their outcomes up into jobs. Around this
    core sit typed pipelines (which processor may feed which), a plugin hub (manifests,
    installed plugins, routing of a stage to a provider), the registry the active plugins
    extend, chunked uploads into a content-addressed blob store, sealed snapshots,
    conversion, import and validation of artifacts, the training and evaluation of radiance
    fields, and a sanitizer between what workers return and what clients see. This library models these parts as
    executable functions and proves what they promise. File names below are relative
    to [src/sceneapi/server/] unless they start with [sfm_hub/].

    ** How the parts interact

    Submission ([Scheduler]) validates nothing by itself: it takes task nodes, asks
    the job service ([JobService]) to persist them, with results of equal cache keys
    ([Hashing]) reused, and returns the ids to enqueue. A worker's pickup
    ([Dispatcher]) takes a lease and starts a handler if the readiness rules
    ([Readiness]) allow; its completion records the outcome if the lease is still its
    own, propagates it to dependents and rolls the job up. The janitor ([Janitor])
    reclaims expired leases, propagates terminal dependencies, re-enqueues ready tasks
    and deletes old jobs; resume resets failed work. All of them act on the rows of
    one store ([Store]); [System] lets them interleave. The stage services ([Stages],
    [ReconStages], [Recipes]) validate requests against the capabilities and options of
    a deployment ([Capabilities], [Backends]), ensure the reconstruction and runtime
    version rows, and submit task nodes; [Server] joins them with the data requests
    ([Datasets]) and the orchestrator into one transition system. The typed layer
    ([Attributes], [Processors], [Pipelines]) decides which step lists may be submitted,
    and [Dataflow] builds the registry it consults from the core and the plugins. The hub
    ([HubState], [HubRouting], [HubManifest], [HubGraph]) decides which plugins extend
    that layer and which provider runs a stage. Uploads ([Uploads]) work on rows, a
    working area and a blob store known only by its interface ([Blobs]). Radiance
    requests ([Radiance]) submit jobs through [Stages] on tables next to the server's;
    their tasks ([RadianceTasks]) return outputs that a hook of the dispatcher records,
    each public field through the sanitizer ([PublicOutputs]).

    ** Files

    Shared: [Prelude] (errors as a result monad, ordered dictionaries, Python string
    and sorting helpers, tactics, hints), [PyValue] (JSON values, [repr]), [Sweep]
    (the [while progressed] loop shared by dispatcher and janitor), [Service] (calls on
    a state that may raise, with their inversion tactic and postcondition rules),
    [JsonFacts] (canonical JSON determines float-free values up to member order).

    Orchestration
    - [Readiness]: [orchestrator/readiness.py], dependency states.
    - [Store]: [db/models.py], the rows as records in maps keyed by id, and the
      statements issued on them; a transaction is a function on the store.
    - [Hashing]: [core/hashing.py] over an executable SHA-256; [Errors]:
      [core/errors.py].
    - [JobService]: [orchestrator/lease.py], [orchestrator/dag.py] and
      [services/job_service.py]; [Dispatcher]: [workers/tasks/_registry.py] and
      [workers/dispatcher.py]; [Janitor]: [orchestrator/janitor.py]; [Scheduler]:
      [orchestrator/scheduler.py] and [orchestrator/resume.py].
    - [System]: the transition system; a worker's step is split at the handler, which runs
      between its pickup and its completion.
    - [TaskRows], [SweepFacts], [Lifecycle], [Execution], [Propagation], [Submission]:
      lemmas, one group of operations each.
    - [Guarantees]: running handlers have finished inputs, rows follow the status
      graph, stale workers change nothing, sweeps settle, acyclic work is never stuck.
      [JobGuarantees]: roll-up, resume, retention, cache keys, submission; the
      janitor's tick, a task's successful run, lease exclusion and reclaim as lemmas.

    Typed pipelines
    - [Attributes], [Processors], [Pipelines]: [core/attributes.py],
      [core/processors.py] (with [operations.py] and [config_stages.py]),
      [core/pipelines.py]; [PipelineFacts]: the typing rules on their own.
    - [PipelineGuarantees]: the validators decide the typing rules, valid pipelines are
      fed DAGs; wire references round-trip and the core registry is valid (lemmas).

    Plugin hub
    - [HubState]: [sfm_hub/state.py]; [HubRouting]: [sfm_hub/routing.py];
      [HubManifest], [HubGraph]: [sfm_hub/models/dataflow.py] and the manifest checks
      that call it; [HubGraphFacts]: lemmas.
    - [HubGuarantees]: precedence and determinism of routing, no ambiguity from
      configured state, disabled plugins never chosen. [GraphGuarantees]: acceptance
      of plugins is exact; that it is conservative and agrees with the server's validator
      are lemmas.
    - [Dataflow]: [services/dataflow_registry_service.py], the registry in effect;
      [DataflowFacts]: the tables it is assembled from, entry by entry;
      [DataflowGuarantees]: the registry is well-formed, grows the core's processors only
      by special inputs and attributes, and does not depend on the manifests' order.

    Uploads and artifacts
    - [Blobs]: [storage/blobs.py], the class [BlobStore] of stores with its laws, the
      in-memory and file-system instances, and the working area; [BlobFacts]: both
      instances satisfy the laws, reads lose nothing for any chunk size.
    - [Uploads]: [services/upload_service.py], [services/quota_service.py] and the
      chunk route of [api/v1/uploads.py], a state-and-error monad over rows, working
      area and store; [UploadFacts]; [UploadGuarantees]: the invariant of every
      reachable world, failed commits included, and the round trip of an upload.
    - [ArtifactVocab]: [core/artifacts.py], the tables built at import and the lookups
      between kinds, formats, datatypes and roles, with the format a plugin declares
      for a kind ([adapters/backend_artifacts.py]).
    - [Artifacts]: [services/artifact_service.py], descriptors, outputs, recorded rows
      and input resolution, with the naming rules of [core/public_outputs.py];
      [ArtifactFacts]: what a checked descriptor is; [ArtifactGuarantees]: accepted
      outputs can be recorded, stages only get artifacts they may use.
    - [Conversion]: the planning part of [services/artifact_conversion_service.py];
      [ConversionGuarantees]: breadth-first search by invariant, plans are shortest and
      exist exactly when a path does.
    - [PathSafety]: [core/path_safety.py] and the confinement of accepted paths.
    - [ArtifactJobs]: the rest of that service (submission of a conversion, import,
      validation), the task [workers/tasks/convert_artifact.py] and the manifest schemas
      of [core/artifacts.py]; [ArtifactValidation]: validation decides a relation between
      descriptors, content and schemas defined on its own; [ArtifactJobGuarantees]: the
      task of a conversion carries out the plan it was submitted with, and imports are
      exact.

    Datasets and images
    - [ImageMetadata]: [core/image_metadata.py] on bytes; [ImageGuarantees]: parsing terminates in range on every input, and the dimensions
      written in a header of each format are read back.
    - [Datasets]: [services/project_service.py], [services/dataset_service.py],
      [services/image_service.py] and the routes that change rows ([api/v1/projects.py],
      [datasets.py], [images.py]); a request is a [data_op], [serve] its transaction.
    - [DatasetFacts], [DatasetInvariant]: the tables' invariant and each operation's
      effect on it; [DatasetGuarantees]: the invariant holds after any requests, the
      manifest hash identifies a dataset's images, tenants do not touch each other.

    Stages and the whole server
    - [Capabilities]: [core/capabilities.py], whose listings are ordered and distinct; [Backends]: [adapters/registry.py],
      [adapters/_descriptor_registry.py], [adapters/backend_config.py];
      [BackendGuarantees]: options
      pass exactly when a row that applies accepts them.
    - [Stages]: [services/_sfm_stage_core.py], [services/_sfm_stage_dataset.py] and the
      services they call; [ReconStages]: [services/_sfm_stage_recon.py],
      [services/reconstruction_service.py]; [Recipes]: [services/_sfm_stage_recipes.py]
      and the run routes of [api/v1/pipelines.py]; [StageFacts]: what a submission adds.
    - [Server]: the tables of [Datasets] and of [Store] under one transition system with
      the cascades of the foreign keys; [ServerInvariant]: its invariant;
      [Recurrence]: a request asked again over what its first run left.
    - [StageGuarantees]: the server refines the orchestrator, reconstructions are unique,
      a repeated request is answered from what was computed.

    Files on disk
    - [Snapshots]: [storage/snapshots.py], each operation as its file-system actions;
      [SnapshotGuarantees]: readers see whole snapshots wherever sealing stops, and what
      a stop leaves behind.

    Public outputs
    - [PublicOutputs]: [core/public_outputs.py] with the parts of [urllib.parse] it calls
      and a backtracking matcher for the regular expressions of the source.
    - [PublicGuarantees]: what the sanitizer returns holds no private member and no
      secret text, at any depth, and it returns on texts without brackets.

    Radiance fields
    - [Radiance]: [services/radiance_service.py] and the requests of
      [schemas/api/radiance.py]; [RadianceTasks]: [workers/tasks/radiance_train.py],
      [workers/tasks/radiance_eval.py] and [workers/_task_io.py].
    - [RadianceFacts]: the tables' invariant and each operation's effect on it, and that
      the scan for links finds every link of a directory; [RadianceGuarantees]: the
      invariant next to the server's, and what a training returns is recorded.

    ** Conventions and bounds

    A raised exception is the [Err] of a result, an ordered dictionary an association
    list, time an integer argument; a transaction reads the clock once. Texts are byte
    strings. Loops that are not structural carry fuel, and theorems show it is
    enough: a sweep over [n] rows gets [n + 1] passes, since each pass but the last
    settles a row; a streaming loop gets one round more than the bytes left; the
    conversion search gets two rounds more than the steps, since each format is queued
    once; a scan over an image header gets one round more than it has bytes, since each
    round moves on; a scan of a directory for links gets one round more than it has
    directories; the matcher of words that look alike loses a character a round. The
    sanitizer reads ASCII texts. SHA-256 reads sixteen words a block and gets one round more than the padded
    text has blocks.

    ** Parameters

    Task handlers and hooks, the format registry of the contract package, the core
    datatype vocabulary, the discovery of manifests, the contract rows of a backend, the
    file system behind path resolution and the order directories are walked in are
    arguments of the definitions that use them, and so are, for [PublicOutputs], the
    check of a bracketed host, the class of an IP address and [abspath], for [Radiance],
    the answers of the disk, and for [RadianceTasks], the JSON text of a file, the
    address of a provider's service and its reply; for [ArtifactJobs], the content of
    files, the JSON parsed from it, and a backend's conversion. [Artifacts] and [Dispatcher] take the
    redaction of texts as an argument, which [PublicOutputs] defines; for the orchestration
    files output normalisation as a whole is one too. The format check of digests is
    taken to accept digests. A deployment gives the probes of capabilities, the listings
    of a backend, the settings, the fields of artifact rows and a supply of fresh ids,
    which is taken to be injective.

    ** Not modelled

    Each database block of [execute_task] is one atomic step; isolation below that is
    the database's. A queue is the list of ids an operation returns. The janitor's
    tick is the one in which no phase raises. [list_jobs] (pagination), progress
    reporting, logging and metrics change no modelled state. The lock, the atomic
    replace and the JSON text of the hub's state file are taken as given. The HTTP,
    MCP and command-line layers bind parameters for the services; other task
    handlers, tiles and image sources call third-party tools and files; the S3 blob
    store wraps a client library; adapters load plugins by reflection; discovery,
    diagnosis and provisioning drive processes and containers; migrations, schemas and
    settings are declarations. Paginated listings are left out throughout. Of the stage
    services, [submit_render_cubemap] needs defaults of its request model, and tasks run
    inline by the in-process queue are left to the worker's steps. Of a snapshot, the
    summary's text is an argument. A radiance transaction sees one state of the disk;
    its hooks are steps of their own beside the dispatcher's. *)
From stdpp Require Export base decidable list strings sorting pretty numbers sets gmap.
From stdpp Require Import options.
From Stdlib Require Export Ascii ZArith Lia.

#[export] Set Default Proof Using "Type".

Declare Scope scene_scope.
Delimit Scope scene_scope with scene.
#[global] Open Scope scene_scope.

(** Membership in a literal list. *)
Ltac list_in := repeat first [apply list_elem_of_here | apply list_elem_of_further].

(** A decidable closed fact, such as non-membership in a literal list. *)
Ltac not_listed := match goal with |- ?P => apply (bool_decide_eq_true_1 P); vm_compute; reflexivity end.

(** ** Results: a value or the exception a Python call raises *)

Inductive res (E A : Type) : Type :=
  | Ok (a : A)
  | Err (e : E).
Arguments Ok {E A} a.
Arguments Err {E A} e.

#[export] Instance res_ret E : MRet (res E) := λ A a, Ok a.
#[export] Instance res_bind E : MBind (res E) := λ A B f m,
  match m with Ok a => f a | Err e => Err e end.
#[export] Instance res_fmap E : FMap (res E) := λ A B f m,
  match m with Ok a => Ok (f a) | Err e => Err e end.

#[export] Instance res_eq_dec E A `{EqDecision E, EqDecision A} : EqDecision (res E A).
Proof. solve_decision. Defined.

(** [raise_if b e]: [if b: raise e]. *)
Definition raise_if {E} (b : bool) (e : E) : res E unit := if b then Err e else Ok tt.

(** [for x in l: f x], where [f] may raise. *)
Fixpoint for_each {E A} (f : A → res E unit) (l : list A) : res E unit :=
  match l with
  | [] => Ok tt
  | x :: l => f x ≫= λ _, for_each f l
  end.

(** A loop threading a state through a body that may raise. *)
Fixpoint fold_res {E A S} (f : S → A → res E S) (s : S) (l : list A) : res E S :=
  match l with
  | [] => Ok s
  | x :: l => f s x ≫= λ s, fold_res f s l
  end.

Lemma bind_Ok {E A B} (m : res E A) (f : A → res E B) b :
  (m ≫= f) = Ok b ↔ ∃ a, m = Ok a ∧ f a = Ok b.
Proof. destruct m; cbn; naive_solver. Qed.

Lemma raise_if_Ok {E} (b : bool) (e : E) : raise_if b e = Ok tt ↔ b = false.
Proof. by destruct b. Qed.

Lemma for_each_Ok {E A} (f : A → res E unit) l :
  for_each f l = Ok tt ↔ ∀ x, x ∈ l → f x = Ok tt.
Proof.
  induction l as [|x l IH]; cbn; [set_solver|].
  rewrite bind_Ok. setoid_rewrite elem_of_cons. split.
  - intros ([] & Hx & Hl) y [->|Hy]; [done|]. by apply IH.
  - intros H. exists tt. split; [by apply H; left|]. apply IH. auto.
Qed.

Lemma fold_res_ind {E A S} (f : S → A → res E S) (P : S → Prop) l s s' :
  P s → (∀ s x s', x ∈ l → P s → f s x = Ok s' → P s') → fold_res f s l = Ok s' → P s'.
Proof.
  revert s. induction l as [|x l IH]; cbn; [by intros s Hs _ [= <-]|].
  intros s Hs Hf (s1 & H1 & H2)%bind_Ok. apply (IH s1); [|by intros ? y ? Hy; apply Hf; right|done].
  by apply (Hf s x); [left|..].
Qed.

(** ** Ordered dictionaries

    A Python [dict] keeps its insertion order and overwrites in place, so it
    is an association list with distinct keys. *)

Abbreviation dict V := (list (string * V)).

Fixpoint dict_get {V} (k : string) (d : dict V) : option V :=
  match d with
  | [] => None
  | (k', v) :: d => if decide (k = k') then Some v else dict_get k d
  end.

Abbreviation dict_keys d := (d.*1).

Definition dict_mem {V} (k : string) (d : dict V) : bool := bool_decide (k ∈ dict_keys d).

(** [d[k] = v]: overwrite in place, append a new key at the end. *)
Fixpoint dict_set {V} (k : string) (v : V) (d : dict V) : dict V :=
  match d with
  | [] => [(k, v)]
  | (k', v') :: d =>
      if decide (k = k') then (k, v) :: d else (k', v') :: dict_set k v d
  end.

(** [{**a, **b}], also [a.update(b)]. *)
Definition dict_merge {V} (a b : dict V) : dict V :=
  foldl (λ d kv, dict_set kv.1 kv.2 d) a b.

Lemma dict_get_None {V} k (d : dict V) : dict_get k d = None ↔ k ∉ dict_keys d.
Proof.
  induction d as [|[k' v] d IH]; cbn; [set_solver|].
  case_decide; set_solver.
Qed.

Lemma dict_get_Some_key {V} k (v : V) d : dict_get k d = Some v → k ∈ dict_keys d.
Proof. intros H. destruct (decide (k ∈ dict_keys d)) as [|Hn]; [done|].
  apply dict_get_None in Hn. congruence. Qed.

Lemma dict_get_elem {V} k (v : V) d : dict_get k d = Some v → (k, v) ∈ d.
Proof.
  induction d as [|[k' v'] d IH]; cbn; [done|].
  case_decide; intros; simplify_eq; set_solver.
Qed.

Lemma dict_elem_get {V} k (v : V) d :
  NoDup (dict_keys d) → (k, v) ∈ d → dict_get k d = Some v.
Proof.
  induction d as [|[k' v'] d IH]; cbn; [by intros _ ?%elem_of_nil|].
  intros [Hk Hd]%NoDup_cons [?|Hin]%elem_of_cons; simplify_eq; case_decide; simplify_eq; auto.
  destruct Hk. apply list_elem_of_fmap. by exists (k', v).
Qed.

Lemma dict_mem_true {V} k (d : dict V) : dict_mem k d = true ↔ k ∈ dict_keys d.
Proof. unfold dict_mem. by rewrite bool_decide_eq_true. Qed.

Lemma dict_mem_false {V} k (d : dict V) : dict_mem k d = false ↔ k ∉ dict_keys d.
Proof. unfold dict_mem. by rewrite bool_decide_eq_false. Qed.

Lemma dict_get_set_eq {V} k (v : V) d : dict_get k (dict_set k v d) = Some v.
Proof. induction d as [|[k' v'] d IH]; cbn; repeat (case_decide; cbn); congruence. Qed.

Lemma dict_get_set_ne {V} k k' (v : V) d :
  k ≠ k' → dict_get k (dict_set k' v d) = dict_get k d.
Proof. intros. induction d as [|[k'' v'] d IH]; cbn; repeat (case_decide; cbn); congruence. Qed.

Lemma dict_keys_set {V} k (v : V) d x : x ∈ dict_keys (dict_set k v d) ↔ x = k ∨ x ∈ dict_keys d.
Proof.
  induction d as [|[k' v'] d IH]; cbn; [set_solver|].
  case_decide; cbn; set_solver.
Qed.

Lemma dict_set_NoDup {V} k (v : V) d : NoDup (dict_keys d) → NoDup (dict_keys (dict_set k v d)).
Proof.
  induction d as [|[k' v'] d IH]; cbn; [intros; by apply NoDup_singleton|].
  intros [Hk Hd]%NoDup_cons. case_decide; simplify_eq/=; apply NoDup_cons; split; auto.
  rewrite dict_keys_set. set_solver.
Qed.

Lemma dict_set_fresh {V} k (v : V) d : k ∉ dict_keys d → dict_set k v d = d ++ [(k, v)].
Proof.
  induction d as [|[k' v'] d IH]; cbn; [done|]. intros Hk. rewrite decide_False by set_solver.
  rewrite IH by set_solver. done.
Qed.

Lemma dict_set_elem {V} k (x : V) d k' x' : (k', x') ∈ dict_set k x d → (k', x') ∈ d ∨ (k' = k ∧ x' = x).
Proof.
  induction d as [|[k0 x0] d IH]; cbn; [intros [= -> ->]%list_elem_of_singleton; by right|].
  case_decide; intros [[= -> ->]|Hin]%elem_of_cons.
  - by right.
  - left. by right.
  - left. by left.
  - destruct (IH Hin); [left; by right|by right].
Qed.

Lemma dict_set_elem_ne {V} k (v : V) d kv : kv ∈ d → kv.1 ≠ k → kv ∈ dict_set k v d.
Proof.
  induction d as [|[k' v'] d IH]; cbn; [set_solver|]. intros [->|Hd]%elem_of_cons Hne; cbn in *.
  - rewrite decide_False by congruence. list_in.
  - case_decide; [by apply list_elem_of_further|]. apply list_elem_of_further. auto.
Qed.

Lemma dict_merge_elem_l {V} (a b : dict V) kv : kv ∈ a → kv.1 ∉ dict_keys b → kv ∈ dict_merge a b.
Proof.
  unfold dict_merge. revert a. induction b as [|[k v] b IH]; intros a Ha Hb; cbn; [done|].
  cbn in Hb. apply IH; [|set_solver]. apply dict_set_elem_ne; [done|set_solver].
Qed.

Lemma dict_get_app {V} k (d1 d2 : dict V) :
  dict_get k (d1 ++ d2) = match dict_get k d1 with Some v => Some v | None => dict_get k d2 end.
Proof. induction d1 as [|[k' v'] d1 IH]; cbn; [done|]. by case_decide. Qed.

Lemma dict_merge_get_l {V} (a b : dict V) k : k ∉ dict_keys b → dict_get k (dict_merge a b) = dict_get k a.
Proof.
  unfold dict_merge. revert a. induction b as [|[k' v] b IH]; intros a Hk; cbn; [done|]. cbn in Hk.
  rewrite IH by set_solver. apply dict_get_set_ne. set_solver.
Qed.

Lemma dict_keys_merge {V} (a b : dict V) k : k ∈ dict_keys (dict_merge a b) ↔ k ∈ dict_keys a ∨ k ∈ dict_keys b.
Proof.
  unfold dict_merge. revert a. induction b as [|[k' v] b IH]; intros a; cbn; [set_solver|].
  rewrite IH, dict_keys_set. set_solver.
Qed.

Lemma dict_get_is_Some {V} k (d : dict V) : is_Some (dict_get k d) ↔ k ∈ dict_keys d.
Proof.
  split; [intros [v Hv]; by eapply dict_get_Some_key|]. intros Hk.
  destruct (dict_get k d) eqn:E; [done|]. by apply dict_get_None in E.
Qed.

Lemma dict_merge_NoDup {V} (a b : dict V) :
  NoDup (dict_keys a) → NoDup (dict_keys (dict_merge a b)).
Proof.
  unfold dict_merge. revert a. induction b as [|[k v] b IH]; intros a Ha; cbn; auto using dict_set_NoDup.
Qed.

(** ** Strings *)

#[local] Arguments String.append !_ _ / : simpl nomatch.

Fixpoint starts_with (pre s : string) : bool :=
  match pre, s with
  | EmptyString, _ => true
  | String a pre, String b s => if decide (a = b) then starts_with pre s else false
  | String _ _, EmptyString => false
  end.

(** [s.removeprefix(pre)] *)
Definition remove_prefix (pre s : string) : string :=
  if starts_with pre s then String.substring (String.length pre) (String.length s) s else s.

Fixpoint str_mem (c : ascii) (s : string) : bool :=
  match s with
  | EmptyString => false
  | String a s => if decide (a = c) then true else str_mem c s
  end.

(** [s.split(c)] *)
Fixpoint split_on (c : ascii) (s : string) : list string :=
  match s with
  | EmptyString => [""]
  | String a s =>
      if decide (a = c) then "" :: split_on c s
      else match split_on c s with
           | [] => [String a ""]
           | w :: ws => String a w :: ws
           end
  end.

(** [s.rsplit(c, 1)] when [c] occurs in [s]: the text before and after the
    last occurrence. *)
Fixpoint rsplit1 (c : ascii) (s : string) : option (string * string) :=
  match s with
  | EmptyString => None
  | String a s =>
      match rsplit1 c s with
      | Some (l, r) => Some (String a l, r)
      | None => if decide (a = c) then Some ("", s) else None
      end
  end.

(** [s.partition(c)], without the separator: [None] when [c] is absent. *)
Fixpoint partition_on (c : ascii) (s : string) : option (string * string) :=
  match s with
  | EmptyString => None
  | String a s =>
      if decide (a = c) then Some ("", s)
      else match partition_on c s with
           | Some (l, r) => Some (String a l, r)
           | None => None
           end
  end.

(** [sep.join(l)] *)
Fixpoint join (sep : string) (l : list string) : string :=
  match l with
  | [] => ""
  | [x] => x
  | x :: l => x +:+ sep +:+ join sep l
  end.

Lemma str_app_assoc (a b c : string) : a +:+ (b +:+ c) = (a +:+ b) +:+ c.
Proof. induction a; cbn; congruence. Qed.

Lemma str_app_inj (a b c : string) : a +:+ b = a +:+ c → b = c.
Proof. induction a as [|x a IH]; [done|]. intros H. injection H as H. by apply IH. Qed.

Lemma str_app_nil_r (a : string) : a +:+ "" = a.
Proof. induction a; cbn; congruence. Qed.

Lemma str_mem_app c a b : str_mem c (a +:+ b) = str_mem c a || str_mem c b.
Proof. induction a as [|x a IH]; cbn; [done|]. by case_decide. Qed.

Lemma starts_with_app pre s : starts_with pre (pre +:+ s) = true.
Proof. induction pre; cbn; [done|]. by rewrite decide_True. Qed.

Lemma starts_with_spec pre s : starts_with pre s = true ↔ ∃ r, s = pre +:+ r.
Proof.
  revert s. induction pre as [|a pre IH]; intros s; cbn.
  { split; [intros _; by exists s|done]. }
  destruct s as [|b s]; cbn; [naive_solver|]. case_decide; [|naive_solver]. subst.
  rewrite IH. naive_solver.
Qed.

Lemma substring_app pre s n :
  String.length s ≤ n → String.substring (String.length pre) n (pre +:+ s) = s.
Proof.
  intros Hn. induction pre as [|a pre IH]; cbn; [|done].
  revert n Hn. induction s as [|b s IH]; intros [|n] Hn; cbn in *; try lia; try done.
  f_equal. apply IH. lia.
Qed.

Lemma str_length_app a b : String.length (a +:+ b) = String.length a + String.length b.
Proof. induction a; cbn; congruence. Qed.

Lemma remove_prefix_app pre s : remove_prefix pre (pre +:+ s) = s.
Proof.
  unfold remove_prefix. rewrite starts_with_app. apply substring_app.
  rewrite str_length_app. lia.
Qed.

Lemma rsplit1_absent c s : str_mem c s = false → rsplit1 c s = None.
Proof. induction s as [|a s IH]; cbn; [done|]. case_decide; [done|]. intros Hs. by rewrite IH. Qed.

Lemma rsplit1_app c l r :
  str_mem c r = false → rsplit1 c (l +:+ String c r) = Some (l, r).
Proof.
  intros H. induction l as [|a l IH]; cbn.
  - rewrite rsplit1_absent by done. by rewrite decide_True.
  - by rewrite IH.
Qed.

Lemma rsplit1_Some c s l r :
  rsplit1 c s = Some (l, r) → s = l +:+ String c r ∧ str_mem c r = false.
Proof.
  revert l r. induction s as [|a s IH]; intros l r; cbn; [done|].
  destruct (rsplit1 c s) as [[l' r']|] eqn:E.
  - intros [= <- <-]. destruct (IH l' r' eq_refl) as [-> ?]. done.
  - case_decide; [|done]. intros [= <- <-]. subst. split; [done|].
    clear IH. revert E. induction s as [|b s IH]; cbn; [done|].
    destruct (rsplit1 c s) as [[? ?]|]; [done|]. case_decide; [done|]. auto.
Qed.

Lemma partition_on_app c l r :
  str_mem c l = false → partition_on c (l +:+ String c r) = Some (l, r).
Proof.
  induction l as [|a l IH]; cbn; [by rewrite decide_True|].
  case_decide; [done|]. intros Hs. by rewrite IH.
Qed.

Lemma partition_on_None c s : partition_on c s = None ↔ str_mem c s = false.
Proof.
  induction s as [|a s IH]; cbn; [done|]. case_decide; [done|].
  destruct (partition_on c s) as [[? ?]|]; naive_solver.
Qed.

(** ** Sorting: [sorted(xs)] on strings compares by code point *)

Definition py_sorted (l : list string) : list string := merge_sort String.le l.

(** [sorted(set(xs))] *)
Definition py_sorted_set (l : list string) : list string := py_sorted (remove_dups l).

(** [sorted({x for x in xs if xs.count(x) > 1})] *)
Definition occurrences (x : string) (l : list string) : nat := length (filter (x =.) l).

Definition py_duplicates (l : list string) : list string :=
  py_sorted_set (filter (λ x, 1 < occurrences x l) l).

(** [sorted(set(xs) - set(ys))] *)
Definition py_difference (xs ys : list string) : list string :=
  py_sorted_set (filter (.∉ ys) xs).

(** [sorted(set(xs) & set(ys))] *)
Definition py_intersection (xs ys : list string) : list string :=
  py_sorted_set (filter (.∈ ys) xs).

Lemma py_sorted_perm l : py_sorted l ≡ₚ l.
Proof. apply merge_sort_Permutation. Qed.

Lemma elem_of_py_sorted x l : x ∈ py_sorted l ↔ x ∈ l.
Proof. by rewrite py_sorted_perm. Qed.

Lemma py_sorted_permut l1 l2 : l1 ≡ₚ l2 → py_sorted l1 = py_sorted l2.
Proof.
  intros H. apply (Sorted_unique String.le); [apply (Sorted_merge_sort _)..|].
  by rewrite !py_sorted_perm.
Qed.

Lemma elem_of_py_sorted_set x l : x ∈ py_sorted_set l ↔ x ∈ l.
Proof. unfold py_sorted_set. by rewrite elem_of_py_sorted, elem_of_remove_dups. Qed.

Lemma py_sorted_set_NoDup l : NoDup (py_sorted_set l).
Proof. unfold py_sorted_set. rewrite py_sorted_perm. apply NoDup_remove_dups. Qed.

(** A sorted set depends only on the elements, not on their order or number. *)
Lemma py_sorted_set_ext l1 l2 : (∀ x, x ∈ l1 ↔ x ∈ l2) → py_sorted_set l1 = py_sorted_set l2.
Proof.
  intros H. apply py_sorted_permut. apply NoDup_Permutation; [apply NoDup_remove_dups..|].
  intros x. rewrite !elem_of_remove_dups. apply H.
Qed.

Lemma and_iff_compat (P1 P2 Q1 Q2 : Prop) : (P1 ↔ Q1) → (P2 ↔ Q2) → (P1 ∧ P2) ↔ (Q1 ∧ Q2).
Proof. tauto. Qed.

Lemma list_nil_elem {A} (l : list A) : l = [] ↔ ∀ x, x ∉ l.
Proof. destruct l; set_solver. Qed.

Lemma py_difference_nil xs ys : py_difference xs ys = [] ↔ xs ⊆ ys.
Proof.
  rewrite list_nil_elem. unfold py_difference. setoid_rewrite elem_of_py_sorted_set.
  setoid_rewrite list_elem_of_filter. split; [|set_solver].
  intros H x Hx. destruct (decide (x ∈ ys)); [done|]. destruct (H x). done.
Qed.

Lemma elem_of_py_intersection x xs ys : x ∈ py_intersection xs ys ↔ x ∈ xs ∧ x ∈ ys.
Proof.
  unfold py_intersection. rewrite elem_of_py_sorted_set, list_elem_of_filter. tauto.
Qed.

Lemma py_intersection_nil xs ys : py_intersection xs ys = [] ↔ ∀ x, x ∈ xs → x ∉ ys.
Proof.
  rewrite list_nil_elem. setoid_rewrite elem_of_py_intersection. naive_solver.
Qed.

Lemma occurrences_cons x y l :
  occurrences x (y :: l) = (if decide (x = y) then 1 else 0) + occurrences x l.
Proof. unfold occurrences. rewrite filter_cons. by case_decide. Qed.

Lemma occurrences_elem x l : x ∈ l ↔ 1 ≤ occurrences x l.
Proof.
  induction l as [|y l IH]; [split; [set_solver|cbn; lia]|].
  rewrite occurrences_cons, elem_of_cons, IH. case_decide; [|naive_solver lia].
  split; [lia|auto].
Qed.

Lemma NoDup_occurrences l : NoDup l ↔ ∀ x, x ∈ l → occurrences x l ≤ 1.
Proof.
  induction l as [|y l IH]; [split; [set_solver|constructor]|].
  rewrite NoDup_cons, IH. setoid_rewrite occurrences_cons. split.
  - intros [Hy Hl] x Hx. case_decide as Hxy; [|apply Hl; set_solver]. subst.
    rewrite occurrences_elem in Hy. lia.
  - intros H. split.
    + specialize (H y ltac:(set_solver)). rewrite decide_True in H by done.
      rewrite occurrences_elem. lia.
    + intros x Hx. specialize (H x ltac:(set_solver)). lia.
Qed.

(** The "report the duplicates" idiom reports nothing exactly on duplicate-free
    lists. *)
Lemma py_duplicates_nil l : py_duplicates l = [] ↔ NoDup l.
Proof.
  rewrite list_nil_elem, NoDup_occurrences. unfold py_duplicates.
  setoid_rewrite elem_of_py_sorted_set. setoid_rewrite list_elem_of_filter.
  split; intros H x; [intros Hx|intros [? Hx]].
  - destruct (decide (1 < occurrences x l)); [|lia]. by destruct (H x).
  - specialize (H x Hx). lia.
Qed.

Definition is_nil {A} (l : list A) : bool := match l with [] => true | _ => false end.

Lemma is_nil_iff {A} (l : list A) : is_nil l = true ↔ l = [].
Proof. by destruct l. Qed.

(** A report is empty exactly when every part of it is. *)
Lemma fmap_nil_iff {A B} (f : A → B) l : f <$> l = [] ↔ l = [].
Proof. by destruct l. Qed.

Lemma bind_nil {A B} (f : A → list B) l : l ≫= f = [] ↔ ∀ x, x ∈ l → f x = [].
Proof.
  induction l as [|x l IH]; cbn; [split; [intros _ ? ?%elem_of_nil; done|done]|].
  rewrite app_nil. setoid_rewrite elem_of_cons. rewrite IH. naive_solver.
Qed.

(** ** Hints and tactics *)

Create HintDb scene.
#[export] Hint Resolve dict_set_NoDup dict_merge_NoDup py_sorted_set_NoDup : scene.
Create Rewrite HintDb scene_rw.
#[export] Hint Rewrite @bind_Ok @raise_if_Ok @for_each_Ok @dict_mem_true @dict_mem_false
  py_difference_nil py_duplicates_nil py_intersection_nil : scene_rw.

(** Break a hypothesis [... = Ok x] over the error monad into its steps. *)
Ltac inv_ok :=
  repeat match goal with
  | H : (_ ≫= _) = Ok _ |- _ => apply bind_Ok in H; destruct H as (? & ? & H)
  | H : raise_if _ _ = Ok _ |- _ => apply raise_if_Ok in H
  | x : unit |- _ => destruct x
  | H : Ok _ = Ok _ |- _ => injection H as H
  | H : Err _ = Ok _ |- _ => discriminate H
  end.

(** Split on membership in a literal list. *)
Ltac in_cases H :=
  repeat (apply elem_of_cons in H as [H|H]; [try subst|]); try (by apply elem_of_nil in H).

(** Case analysis on every [match]/[if] scrutinee in the goal or a hypothesis. *)
Ltac split_cases :=
  repeat (case_match || case_decide || case_bool_decide); simplify_eq/=.
