(* ===== verification/PyValue.v ===== *)
(** Python values as JSON bodies and attribute bindings carry them, with the
    [isinstance] tests, the numeric comparison and the [str()] forms the
    sources apply to them. *)
From S2P Require Import Prelude.
From stdpp Require Import options.
From Stdlib Require Import QArith.

#[local] Open Scope Z_scope.

(** A [float]: its exact value (every finite float is a rational; Python
    compares numbers by exact value) and the text [repr] prints for it. *)
Inductive float_value : Type :=
  | FFinite (q : Q)
  | FPosInf
  | FNegInf
  | FNaN.

Record pyfloat : Type := PyFloat { fl_value : float_value; fl_repr : string }.

Inductive value : Type :=
  | VNone
  | VBool (b : bool)
  | VInt (z : Z)
  | VFloat (f : pyfloat)
  | VStr (s : string)
  | VList (l : list value)
  | VDict (d : list (string * value)).

Definition is_str (v : value) : bool := match v with VStr _ => true | _ => false end.
Definition is_bool (v : value) : bool := match v with VBool _ => true | _ => false end.
Definition is_dict (v : value) : bool := match v with VDict _ => true | _ => false end.
Definition is_list (v : value) : bool := match v with VList _ => true | _ => false end.
Definition is_none (v : value) : bool := match v with VNone => true | _ => false end.

(** [isinstance(v, int)]: [bool] is a subclass of [int]. *)
Definition is_int (v : value) : bool :=
  match v with VInt _ | VBool _ => true | _ => false end.

Definition is_float (v : value) : bool := match v with VFloat _ => true | _ => false end.

(** The truth value [bool(v)]. *)
Definition truthy (v : value) : bool :=
  match v with
  | VNone => false
  | VBool b => b
  | VInt z => negb (z =? 0)
  | VFloat f => match fl_value f with FFinite q => negb (Qnum q =? 0) | _ => true end
  | VStr s => match s with EmptyString => false | _ => true end
  | VList l => match l with [] => false | _ => true end
  | VDict d => match d with [] => false | _ => true end
  end.

(** ** Numbers: [int | float] bounds *)

Inductive number : Type :=
  | NInt (z : Z)
  | NFloat (f : pyfloat).

Definition number_value (n : number) : float_value :=
  match n with NInt z => FFinite (inject_Z z) | NFloat f => fl_value f end.

(** [str(n)] inside an f-string. *)
Definition number_str (n : number) : string :=
  match n with NInt z => pretty z | NFloat f => fl_repr f end.

Definition float_lt (a b : float_value) : bool :=
  match a, b with
  | FNaN, _ | _, FNaN => false
  | FFinite p, FFinite q => Qnum p * QDen q <? Qnum q * QDen p
  | FNegInf, FNegInf => false
  | FNegInf, _ => true
  | _, FPosInf => match a with FPosInf => false | _ => true end
  | _, _ => false
  end.

(** The number a value is in a comparison ([True] counts as 1), or [None]
    where comparing it with a number raises [TypeError]. *)
Definition as_number (v : value) : option float_value :=
  match v with
  | VInt z => Some (FFinite (inject_Z z))
  | VBool b => Some (FFinite (inject_Z (if b then 1 else 0)))
  | VFloat f => Some (fl_value f)
  | _ => None
  end.

Lemma float_lt_irrefl a : float_lt a a = false.
Proof. destruct a; cbn; try done. apply Z.ltb_irrefl. Qed.

Lemma float_lt_int a b : float_lt (FFinite (inject_Z a)) (FFinite (inject_Z b)) = (a <? b).
Proof. cbn. by rewrite !Z.mul_1_r. Qed.

(** ** Text forms *)

Definition hex_char (n : nat) : ascii :=
  match String.get n "0123456789abcdef" with Some c => c | None => "0"%char end.

(** One character of a [repr] delimited by [q]; bytes above 127 are parts of
    printable characters. *)
Definition repr_char (q a : ascii) : string :=
  let n := nat_of_ascii a in
  if decide (n = 92)%nat then "\\"
  else if decide (a = q) then String "\" (String a "")
  else if decide (n = 10)%nat then "\n"
  else if decide (n = 13)%nat then "\r"
  else if decide (n = 9)%nat then "\t"
  else if decide (n < 32 ∨ n = 127)%nat then
    String "\" (String "x" (String (hex_char (n / 16)) (String (hex_char (n mod 16)) "")))
  else String a "".

Fixpoint repr_chars (q : ascii) (s : string) : string :=
  match s with EmptyString => "" | String a s => repr_char q a +:+ repr_chars q s end.

(** [repr(s)]: single quotes, unless the text has a single quote and no double
    one. *)
Definition str_repr (s : string) : string :=
  let single := ascii_of_nat 39 in
  let double := ascii_of_nat 34 in
  let q := if str_mem single s && negb (str_mem double s) then double else single in
  String q (repr_chars q s +:+ String q "").

(** [d.get(k)] on a JSON object, [None] when absent or null. *)
Definition value_get (k : string) (d : list (string * value)) : value :=
  match dict_get k d with Some v => v | None => VNone end.

Definition VStrs (l : list string) : value := VList (VStr <$> l).

Definition VNumber (n : number) : value :=
  match n with NInt z => VInt z | NFloat f => VFloat f end.

(** ** [repr] on strings is injective *)

Definition unhex (c : ascii) : nat :=
  let n := nat_of_ascii c in if (n <? 58)%nat then (n - 48)%nat else (n - 87)%nat.

(** Read one character back. *)
Definition unrepr (s : string) : option (ascii * string) :=
  match s with
  | String "\" (String "x" (String h (String l s))) => Some (ascii_of_nat (unhex h * 16 + unhex l), s)
  | String "\" (String "n" s) => Some (ascii_of_nat 10, s)
  | String "\" (String "r" s) => Some (ascii_of_nat 13, s)
  | String "\" (String "t" s) => Some (ascii_of_nat 9, s)
  | String "\" (String c s) => Some (c, s)
  | String c s => Some (c, s)
  | EmptyString => None
  end.

Lemma unrepr_single a s : unrepr (repr_char (ascii_of_nat 39) a +:+ s) = Some (a, s).
Proof. destruct a as [[] [] [] [] [] [] [] []]; reflexivity. Qed.

Lemma unrepr_double a s : unrepr (repr_char (ascii_of_nat 34) a +:+ s) = Some (a, s).
Proof. destruct a as [[] [] [] [] [] [] [] []]; reflexivity. Qed.

Definition quote_char (q : ascii) : Prop := q = ascii_of_nat 39 ∨ q = ascii_of_nat 34.

Lemma unrepr_quote q a s : quote_char q → unrepr (repr_char q a +:+ s) = Some (a, s).
Proof. intros [->| ->]; [apply unrepr_single|apply unrepr_double]. Qed.

Lemma repr_chars_inj q s1 s2 : quote_char q → repr_chars q s1 = repr_chars q s2 → s1 = s2.
Proof.
  intros Hq. revert s2. induction s1 as [|a s1 IH]; intros [|b s2] H; cbn in H; [done|..].
  - pose proof (unrepr_quote q b (repr_chars q s2) Hq) as Hu. rewrite <-H in Hu. done.
  - pose proof (unrepr_quote q a (repr_chars q s1) Hq) as Hu. rewrite H in Hu. done.
  - pose proof (unrepr_quote q a (repr_chars q s1) Hq) as Ha. rewrite H, unrepr_quote in Ha by done.
    injection Ha as -> Hs. f_equal. auto.
Qed.

Lemma str_app_inj_r (a b c : string) : a +:+ c = b +:+ c → a = b.
Proof.
  intros H. assert (String.length a = String.length b) as Hl.
  { apply (f_equal String.length) in H. rewrite !str_length_app in H. lia. }
  revert b H Hl. induction a as [|x a IH]; intros [|y b] H Hl; try done.
  injection H as -> H. injection Hl as Hl. f_equal. auto.
Qed.

Definition quote_of (s : string) : ascii :=
  if str_mem (ascii_of_nat 39) s && negb (str_mem (ascii_of_nat 34) s) then ascii_of_nat 34 else ascii_of_nat 39.

Lemma quote_of_char s : quote_char (quote_of s).
Proof. unfold quote_of, quote_char. case_match; auto. Qed.

Lemma str_repr_inj s1 s2 : str_repr s1 = str_repr s2 → s1 = s2.
Proof.
  change (String (quote_of s1) (repr_chars (quote_of s1) s1 +:+ String (quote_of s1) "") =
          String (quote_of s2) (repr_chars (quote_of s2) s2 +:+ String (quote_of s2) "") → s1 = s2).
  intros H. injection H as Hq H. rewrite Hq in H. apply str_app_inj_r in H.
  apply (repr_chars_inj (quote_of s2)); [apply quote_of_char|done].
Qed.
