(* ===== verification/Readiness.v ===== *)
(** [sceneapi/server/orchestrator/readiness.py]: the shared vocabulary of task
    dependency states, used by the scheduler, the dispatcher and the janitor. *)
From S2P Require Import Prelude.
From stdpp Require Import options.

Module Readiness.

Definition READY_DEPENDENCY_STATUSES : gset string := {["succeeded"; "skipped"]}.
Definition FAILED_DEPENDENCY_STATUSES : gset string := {["failed"]}.
Definition CANCELLED_DEPENDENCY_STATUSES : gset string := {["cancelled"; "cancelled_dirty"]}.

(** [status_by_id.get(dep) in statuses] *)
Definition status_in (statuses : gset string) (s : option string) : bool :=
  match s with Some s => bool_decide (s ∈ statuses) | None => false end.

Definition dependencies_ready (deps : list string) (status_by_id : gmap string string) : bool :=
  forallb (λ dep, status_in READY_DEPENDENCY_STATUSES (status_by_id !! dep)) deps.

Definition dependency_state (deps : list string) (status_by_id : gmap string string) : string :=
  if existsb (λ dep, bool_decide (status_by_id !! dep = None)) deps then "failed"
  else if existsb (λ dep, status_in FAILED_DEPENDENCY_STATUSES (status_by_id !! dep)) deps
  then "failed"
  else if existsb (λ dep, bool_decide (status_by_id !! dep = Some "cancelled_dirty")) deps
  then "cancelled_dirty"
  else if existsb (λ dep, bool_decide (status_by_id !! dep = Some "cancelled")) deps
  then "cancelled"
  else if existsb (λ dep, negb (status_in READY_DEPENDENCY_STATUSES (status_by_id !! dep))) deps
  then "blocked"
  else "ready".

(** ** The declarative reading of the states *)

Definition dep_ready (m : gmap string string) (dep : string) : Prop :=
  m !! dep = Some "succeeded" ∨ m !! dep = Some "skipped".

Definition dep_doomed (m : gmap string string) (dep : string) : Prop :=
  m !! dep = None ∨ m !! dep = Some "failed".

Lemma status_in_true X s : status_in X s = true ↔ ∃ x, s = Some x ∧ x ∈ X.
Proof. destruct s; cbn; [rewrite bool_decide_eq_true|]; naive_solver. Qed.

Lemma status_in_ready (m : gmap string string) dep :
  status_in READY_DEPENDENCY_STATUSES (m !! dep) = true ↔ dep_ready m dep.
Proof. rewrite status_in_true. unfold READY_DEPENDENCY_STATUSES, dep_ready. set_solver. Qed.

Lemma status_in_failed (m : gmap string string) dep :
  status_in FAILED_DEPENDENCY_STATUSES (m !! dep) = true ↔ m !! dep = Some "failed".
Proof. rewrite status_in_true. unfold FAILED_DEPENDENCY_STATUSES. set_solver. Qed.

Lemma existsb_elem {A} (f : A → bool) l : existsb f l = true ↔ ∃ x, x ∈ l ∧ f x = true.
Proof. rewrite existsb_exists. by setoid_rewrite list_elem_of_In. Qed.

Lemma existsb_false {A} (f : A → bool) l : existsb f l = false ↔ ∀ x, x ∈ l → f x = false.
Proof.
  rewrite <-not_true_iff_false, existsb_elem. setoid_rewrite <-not_true_iff_false. naive_solver.
Qed.

Lemma forallb_elem {A} (f : A → bool) l : forallb f l = true ↔ ∀ x, x ∈ l → f x = true.
Proof. rewrite forallb_forall. by setoid_rewrite list_elem_of_In. Qed.

Lemma dependencies_ready_iff deps m :
  dependencies_ready deps m = true ↔ ∀ dep, dep ∈ deps → dep_ready m dep.
Proof.
  unfold dependencies_ready. rewrite forallb_elem. by setoid_rewrite status_in_ready.
Qed.

Inductive state_spec (deps : list string) (m : gmap string string) : string → Prop :=
  | spec_failed dep : dep ∈ deps → dep_doomed m dep → state_spec deps m "failed"
  | spec_dirty dep :
      (∀ d, d ∈ deps → ¬ dep_doomed m d) → dep ∈ deps → m !! dep = Some "cancelled_dirty" →
      state_spec deps m "cancelled_dirty"
  | spec_cancelled dep :
      (∀ d, d ∈ deps → ¬ dep_doomed m d ∧ m !! d ≠ Some "cancelled_dirty") →
      dep ∈ deps → m !! dep = Some "cancelled" → state_spec deps m "cancelled"
  | spec_blocked dep :
      (∀ d, d ∈ deps → ¬ dep_doomed m d ∧ m !! d ≠ Some "cancelled_dirty" ∧
                       m !! d ≠ Some "cancelled") →
      dep ∈ deps → ¬ dep_ready m dep → state_spec deps m "blocked"
  | spec_ready : (∀ d, d ∈ deps → dep_ready m d) → state_spec deps m "ready".

Lemma dependency_state_spec deps m : state_spec deps m (dependency_state deps m).
Proof.
  unfold dependency_state.
  destruct (existsb _ deps) eqn:E1.
  { apply existsb_elem in E1 as (d & Hd & Hm%bool_decide_eq_true).
    apply (spec_failed _ _ d); [done|by left]. }
  destruct (existsb _ deps) eqn:E2 in |- *.
  { apply existsb_elem in E2 as (d & Hd & Hm%status_in_failed).
    apply (spec_failed _ _ d); [done|by right]. }
  assert (∀ d, d ∈ deps → ¬ dep_doomed m d) as Hnd.
  { intros d Hd [Hm|Hm].
    - eapply existsb_false in E1; [|done]. by apply bool_decide_eq_false in E1.
    - eapply existsb_false in E2; [|done]. rewrite <-not_true_iff_false in E2.
      by rewrite status_in_failed in E2. }
  destruct (existsb _ deps) eqn:E3 in |- *.
  { apply existsb_elem in E3 as (d & Hd & Hm%bool_decide_eq_true). by eapply spec_dirty. }
  destruct (existsb _ deps) eqn:E4 in |- *.
  { apply existsb_elem in E4 as (d & Hd & Hm%bool_decide_eq_true).
    eapply spec_cancelled; [|done..]. intros d' Hd'. split; [by apply Hnd|].
    eapply existsb_false in E3; [|done]. by apply bool_decide_eq_false in E3. }
  destruct (existsb _ deps) eqn:E5 in |- *.
  { apply existsb_elem in E5 as (d & Hd & Hm%negb_true_iff).
    rewrite <-not_true_iff_false, status_in_ready in Hm.
    eapply spec_blocked; [|done..]. intros d' Hd'. split; [by apply Hnd|].
    eapply existsb_false in E3; [|done]. eapply existsb_false in E4; [|done].
    by apply bool_decide_eq_false in E3, E4. }
  apply spec_ready. intros d Hd. eapply existsb_false in E5; [|done].
  apply negb_false_iff in E5. by rewrite status_in_ready in E5.
Qed.

Lemma state_spec_functional deps m s1 s2 :
  state_spec deps m s1 → state_spec deps m s2 → s1 = s2.
Proof.
  intros H1 H2.
  destruct H1, H2; try done; exfalso;
    repeat match goal with
    | H : ∀ d, d ∈ deps → _, Hd : ?d ∈ deps |- _ =>
        learn_hyp (H d Hd)
    end; unfold dep_doomed, dep_ready in *; intuition congruence.
Qed.

(** A task whose edges are all satisfied is exactly one in state [ready]. *)
Lemma dependencies_ready_state deps m :
  dependencies_ready deps m = true ↔ dependency_state deps m = "ready".
Proof.
  rewrite dependencies_ready_iff. split.
  - intros H. eapply state_spec_functional; [apply dependency_state_spec|by constructor].
  - intros H. pose proof (dependency_state_spec deps m) as Hs. rewrite H in Hs.
    by inversion Hs.
Qed.

Lemma dependencies_ready_ext deps m m' :
  (∀ dep, dep ∈ deps → m !! dep = m' !! dep) → dependencies_ready deps m = dependencies_ready deps m'.
Proof.
  intros H. apply eq_true_iff_eq. rewrite !dependencies_ready_iff. unfold dep_ready.
  split; intros Hr dep Hdep; specialize (Hr dep Hdep); [by rewrite <-H|by rewrite H].
Qed.

(** The states the callers dispatch on. *)
Lemma dependency_state_cases deps m :
  dependency_state deps m ∈ ["failed"; "cancelled_dirty"; "cancelled"; "blocked"; "ready"].
Proof. destruct (dependency_state_spec deps m); set_solver. Qed.

End Readiness.
