(* ===== verification/Store.v ===== *)
(** The job store: the ORM rows of [sceneapi/server/db/models.py] the
    orchestrator reads and writes, the tables holding them, and the query and
    update statements the services issue against them.

    A table is the list of its rows in the order the engine returns them; every
    result below holds whatever that order is. Timestamps are integers. *)
From S2P Require Import Prelude PyValue.
From stdpp Require Import options.

#[local] Open Scope Z_scope.

(** One row of table [task]. [t_*] fields carry the name of the column after
    the prefix. *)
Record Task : Type := mkTask {
  task_id : string;
  t_tenant_id : string;
  t_job_id : string;
  kind : string;
  inputs_hash : string;
  params_hash : string;
  runtime_version_id : string;
  cache_key : string;
  depends_on_json : option (list string);
  gpu_required : bool;
  t_status : string;
  worker_id : option string;
  lease_expires_at : option Z;
  task_state_json : option value;
  outputs_ref_json : option value;
  t_error_class : option string;
  t_error_message : option string;
  t_started_at : option Z;
  t_finished_at : option Z;
  t_created_at : Z
}.

(** One row of table [job]. *)
Record Job : Type := mkJob {
  job_id : string;
  j_tenant_id : string;
  project_id : string;
  recipe : string;
  spec_json : option value;
  j_status : string;
  cancel_requested : bool;
  cancel_force : bool;
  pinned : bool;
  j_created_at : Z;
  j_started_at : option Z;
  j_finished_at : option Z;
  j_error_class : option string;
  j_error_message : option string
}.

(** Rows of [stage_artifact], [job_event] and [reconstruction], by the columns
    the orchestrator's statements mention; [*_payload] is the rest of the row. *)
Record StageArtifact : Type := mkStageArtifact {
  sa_tenant_id : string;
  sa_job_id : string;
  sa_task_id : string;
  sa_payload : value
}.

Record JobEvent : Type := mkJobEvent {
  je_event_id : Z;
  je_job_id : string;
  je_payload : value
}.

Record Reconstruction : Type := mkReconstruction {
  r_tenant_id : string;
  recon_id : string;
  r_status : string
}.

(** The database: the tables above and, in [db_other], the rows of the resource
    tables that only task handlers' lifecycle hooks touch, keyed by table and
    primary key. *)
Record Db : Type := mkDb {
  db_tasks : list Task;
  db_jobs : list Job;
  db_artifacts : list StageArtifact;
  db_events : list JobEvent;
  db_recons : list Reconstruction;
  db_other : gmap (string * string) value
}.

(** ** Column updates *)

Definition set_t_status (t : Task) (x : string) : Task :=
  {| task_id := task_id t; t_tenant_id := t_tenant_id t; t_job_id := t_job_id t; kind :=
     kind t; inputs_hash := inputs_hash t; params_hash := params_hash t; runtime_version_id
     := runtime_version_id t; cache_key := cache_key t; depends_on_json := depends_on_json
     t; gpu_required := gpu_required t; t_status := x; worker_id := worker_id t;
     lease_expires_at := lease_expires_at t; task_state_json := task_state_json t;
     outputs_ref_json := outputs_ref_json t; t_error_class := t_error_class t;
     t_error_message := t_error_message t; t_started_at := t_started_at t; t_finished_at :=
     t_finished_at t; t_created_at := t_created_at t |}.
Definition set_worker_id (t : Task) (x : option string) : Task :=
  {| task_id := task_id t; t_tenant_id := t_tenant_id t; t_job_id := t_job_id t; kind :=
     kind t; inputs_hash := inputs_hash t; params_hash := params_hash t; runtime_version_id
     := runtime_version_id t; cache_key := cache_key t; depends_on_json := depends_on_json
     t; gpu_required := gpu_required t; t_status := t_status t; worker_id := x;
     lease_expires_at := lease_expires_at t; task_state_json := task_state_json t;
     outputs_ref_json := outputs_ref_json t; t_error_class := t_error_class t;
     t_error_message := t_error_message t; t_started_at := t_started_at t; t_finished_at :=
     t_finished_at t; t_created_at := t_created_at t |}.
Definition set_lease_expires_at (t : Task) (x : option Z) : Task :=
  {| task_id := task_id t; t_tenant_id := t_tenant_id t; t_job_id := t_job_id t; kind :=
     kind t; inputs_hash := inputs_hash t; params_hash := params_hash t; runtime_version_id
     := runtime_version_id t; cache_key := cache_key t; depends_on_json := depends_on_json
     t; gpu_required := gpu_required t; t_status := t_status t; worker_id := worker_id t;
     lease_expires_at := x; task_state_json := task_state_json t; outputs_ref_json :=
     outputs_ref_json t; t_error_class := t_error_class t; t_error_message :=
     t_error_message t; t_started_at := t_started_at t; t_finished_at := t_finished_at t;
     t_created_at := t_created_at t |}.
Definition set_task_state_json (t : Task) (x : option value) : Task :=
  {| task_id := task_id t; t_tenant_id := t_tenant_id t; t_job_id := t_job_id t; kind :=
     kind t; inputs_hash := inputs_hash t; params_hash := params_hash t; runtime_version_id
     := runtime_version_id t; cache_key := cache_key t; depends_on_json := depends_on_json
     t; gpu_required := gpu_required t; t_status := t_status t; worker_id := worker_id t;
     lease_expires_at := lease_expires_at t; task_state_json := x; outputs_ref_json :=
     outputs_ref_json t; t_error_class := t_error_class t; t_error_message :=
     t_error_message t; t_started_at := t_started_at t; t_finished_at := t_finished_at t;
     t_created_at := t_created_at t |}.
Definition set_outputs_ref_json (t : Task) (x : option value) : Task :=
  {| task_id := task_id t; t_tenant_id := t_tenant_id t; t_job_id := t_job_id t; kind :=
     kind t; inputs_hash := inputs_hash t; params_hash := params_hash t; runtime_version_id
     := runtime_version_id t; cache_key := cache_key t; depends_on_json := depends_on_json
     t; gpu_required := gpu_required t; t_status := t_status t; worker_id := worker_id t;
     lease_expires_at := lease_expires_at t; task_state_json := task_state_json t;
     outputs_ref_json := x; t_error_class := t_error_class t; t_error_message :=
     t_error_message t; t_started_at := t_started_at t; t_finished_at := t_finished_at t;
     t_created_at := t_created_at t |}.
Definition set_t_error_class (t : Task) (x : option string) : Task :=
  {| task_id := task_id t; t_tenant_id := t_tenant_id t; t_job_id := t_job_id t; kind :=
     kind t; inputs_hash := inputs_hash t; params_hash := params_hash t; runtime_version_id
     := runtime_version_id t; cache_key := cache_key t; depends_on_json := depends_on_json
     t; gpu_required := gpu_required t; t_status := t_status t; worker_id := worker_id t;
     lease_expires_at := lease_expires_at t; task_state_json := task_state_json t;
     outputs_ref_json := outputs_ref_json t; t_error_class := x; t_error_message :=
     t_error_message t; t_started_at := t_started_at t; t_finished_at := t_finished_at t;
     t_created_at := t_created_at t |}.
Definition set_t_error_message (t : Task) (x : option string) : Task :=
  {| task_id := task_id t; t_tenant_id := t_tenant_id t; t_job_id := t_job_id t; kind :=
     kind t; inputs_hash := inputs_hash t; params_hash := params_hash t; runtime_version_id
     := runtime_version_id t; cache_key := cache_key t; depends_on_json := depends_on_json
     t; gpu_required := gpu_required t; t_status := t_status t; worker_id := worker_id t;
     lease_expires_at := lease_expires_at t; task_state_json := task_state_json t;
     outputs_ref_json := outputs_ref_json t; t_error_class := t_error_class t;
     t_error_message := x; t_started_at := t_started_at t; t_finished_at := t_finished_at t;
     t_created_at := t_created_at t |}.
Definition set_t_started_at (t : Task) (x : option Z) : Task :=
  {| task_id := task_id t; t_tenant_id := t_tenant_id t; t_job_id := t_job_id t; kind :=
     kind t; inputs_hash := inputs_hash t; params_hash := params_hash t; runtime_version_id
     := runtime_version_id t; cache_key := cache_key t; depends_on_json := depends_on_json
     t; gpu_required := gpu_required t; t_status := t_status t; worker_id := worker_id t;
     lease_expires_at := lease_expires_at t; task_state_json := task_state_json t;
     outputs_ref_json := outputs_ref_json t; t_error_class := t_error_class t;
     t_error_message := t_error_message t; t_started_at := x; t_finished_at := t_finished_at
     t; t_created_at := t_created_at t |}.
Definition set_t_finished_at (t : Task) (x : option Z) : Task :=
  {| task_id := task_id t; t_tenant_id := t_tenant_id t; t_job_id := t_job_id t; kind :=
     kind t; inputs_hash := inputs_hash t; params_hash := params_hash t; runtime_version_id
     := runtime_version_id t; cache_key := cache_key t; depends_on_json := depends_on_json
     t; gpu_required := gpu_required t; t_status := t_status t; worker_id := worker_id t;
     lease_expires_at := lease_expires_at t; task_state_json := task_state_json t;
     outputs_ref_json := outputs_ref_json t; t_error_class := t_error_class t;
     t_error_message := t_error_message t; t_started_at := t_started_at t; t_finished_at :=
     x; t_created_at := t_created_at t |}.

Definition set_j_status (j : Job) (x : string) : Job :=
  {| job_id := job_id j; j_tenant_id := j_tenant_id j; project_id := project_id j; recipe :=
     recipe j; spec_json := spec_json j; j_status := x; cancel_requested := cancel_requested
     j; cancel_force := cancel_force j; pinned := pinned j; j_created_at := j_created_at j;
     j_started_at := j_started_at j; j_finished_at := j_finished_at j; j_error_class :=
     j_error_class j; j_error_message := j_error_message j |}.
Definition set_cancel_requested (j : Job) (x : bool) : Job :=
  {| job_id := job_id j; j_tenant_id := j_tenant_id j; project_id := project_id j; recipe :=
     recipe j; spec_json := spec_json j; j_status := j_status j; cancel_requested := x;
     cancel_force := cancel_force j; pinned := pinned j; j_created_at := j_created_at j;
     j_started_at := j_started_at j; j_finished_at := j_finished_at j; j_error_class :=
     j_error_class j; j_error_message := j_error_message j |}.
Definition set_cancel_force (j : Job) (x : bool) : Job :=
  {| job_id := job_id j; j_tenant_id := j_tenant_id j; project_id := project_id j; recipe :=
     recipe j; spec_json := spec_json j; j_status := j_status j; cancel_requested :=
     cancel_requested j; cancel_force := x; pinned := pinned j; j_created_at := j_created_at
     j; j_started_at := j_started_at j; j_finished_at := j_finished_at j; j_error_class :=
     j_error_class j; j_error_message := j_error_message j |}.
Definition set_j_started_at (j : Job) (x : option Z) : Job :=
  {| job_id := job_id j; j_tenant_id := j_tenant_id j; project_id := project_id j; recipe :=
     recipe j; spec_json := spec_json j; j_status := j_status j; cancel_requested :=
     cancel_requested j; cancel_force := cancel_force j; pinned := pinned j; j_created_at :=
     j_created_at j; j_started_at := x; j_finished_at := j_finished_at j; j_error_class :=
     j_error_class j; j_error_message := j_error_message j |}.
Definition set_j_finished_at (j : Job) (x : option Z) : Job :=
  {| job_id := job_id j; j_tenant_id := j_tenant_id j; project_id := project_id j; recipe :=
     recipe j; spec_json := spec_json j; j_status := j_status j; cancel_requested :=
     cancel_requested j; cancel_force := cancel_force j; pinned := pinned j; j_created_at :=
     j_created_at j; j_started_at := j_started_at j; j_finished_at := x; j_error_class :=
     j_error_class j; j_error_message := j_error_message j |}.
Definition set_j_error_class (j : Job) (x : option string) : Job :=
  {| job_id := job_id j; j_tenant_id := j_tenant_id j; project_id := project_id j; recipe :=
     recipe j; spec_json := spec_json j; j_status := j_status j; cancel_requested :=
     cancel_requested j; cancel_force := cancel_force j; pinned := pinned j; j_created_at :=
     j_created_at j; j_started_at := j_started_at j; j_finished_at := j_finished_at j;
     j_error_class := x; j_error_message := j_error_message j |}.
Definition set_j_error_message (j : Job) (x : option string) : Job :=
  {| job_id := job_id j; j_tenant_id := j_tenant_id j; project_id := project_id j; recipe :=
     recipe j; spec_json := spec_json j; j_status := j_status j; cancel_requested :=
     cancel_requested j; cancel_force := cancel_force j; pinned := pinned j; j_created_at :=
     j_created_at j; j_started_at := j_started_at j; j_finished_at := j_finished_at j;
     j_error_class := j_error_class j; j_error_message := x |}.

Definition set_r_status (s : string) (r : Reconstruction) : Reconstruction :=
  mkReconstruction (r_tenant_id r) (recon_id r) s.

Definition with_tasks (ts : list Task) (db : Db) : Db :=
  mkDb ts (db_jobs db) (db_artifacts db) (db_events db) (db_recons db) (db_other db).
Definition with_jobs (js : list Job) (db : Db) : Db :=
  mkDb (db_tasks db) js (db_artifacts db) (db_events db) (db_recons db) (db_other db).

(** ** Statements *)

(** [UPDATE table SET f WHERE p]: the new rows; [row_count] is its rowcount. *)
Definition update_where {A} (p : A → bool) (f : A → A) (rows : list A) : list A :=
  (λ r, if p r then f r else r) <$> rows.

Definition row_count {A} (p : A → bool) (rows : list A) : nat := length (List.filter p rows).

(** [SELECT ... WHERE p] *)
Definition select {A} (p : A → bool) (rows : list A) : list A := List.filter p rows.

(** [DELETE FROM table WHERE p] *)
Definition delete_where {A} (p : A → bool) (rows : list A) : list A :=
  List.filter (λ r, negb (p r)) rows.

(** [session.get(Model, pk)] and [select(...).where(pk == id).scalar_one_or_none()]. *)
Fixpoint row_get {A} (key : A → string) (id : string) (rows : list A) : option A :=
  match rows with
  | [] => None
  | r :: rows => if decide (key r = id) then Some r else row_get key id rows
  end.

Definition get_task (id : string) (db : Db) : option Task := row_get task_id id (db_tasks db).
Definition get_job (id : string) (db : Db) : option Job := row_get job_id id (db_jobs db).

(** Write back the row with [r]'s primary key. *)
Definition put_row {A} (key : A → string) (r : A) (rows : list A) : list A :=
  update_where (λ r', bool_decide (key r' = key r)) (λ _, r) rows.

Definition put_task (t : Task) (db : Db) : Db := with_tasks (put_row task_id t (db_tasks db)) db.
Definition put_job (j : Job) (db : Db) : Db := with_jobs (put_row job_id j (db_jobs db)) db.

(** [[str(dep) for dep in (task.depends_on_json or [])]] *)
Definition task_deps (t : Task) : list string := default [] (depends_on_json t).

(** [{t.task_id: t.status for t in rows}] *)
Definition status_map (rows : list Task) : gmap string string :=
  foldl (λ m t, <[task_id t := t_status t]> m) ∅ rows.

Definition job_tasks (job : string) (db : Db) : list Task :=
  select (λ t, bool_decide (t_job_id t = job)) (db_tasks db).

(** ** Laws *)

(** Primary keys are unique. *)
Definition keys_unique (db : Db) : Prop :=
  NoDup (task_id <$> db_tasks db) ∧ NoDup (job_id <$> db_jobs db).

Lemma elem_of_select {A} (p : A → bool) rows r : r ∈ select p rows ↔ p r = true ∧ r ∈ rows.
Proof. unfold select. rewrite !list_elem_of_In, filter_In. tauto. Qed.

Lemma elem_of_delete_where {A} (p : A → bool) rows r :
  r ∈ delete_where p rows ↔ p r = false ∧ r ∈ rows.
Proof. unfold delete_where. rewrite !list_elem_of_In, filter_In, negb_true_iff. tauto. Qed.

Lemma elem_of_update_where {A} (p : A → bool) f rows r :
  r ∈ update_where p f rows ↔ ∃ r', r' ∈ rows ∧ r = if p r' then f r' else r'.
Proof. unfold update_where. rewrite list_elem_of_fmap. naive_solver. Qed.

Lemma row_get_elem {A} (key : A → string) id rows r :
  row_get key id rows = Some r → r ∈ rows ∧ key r = id.
Proof.
  induction rows as [|r' rows IH]; cbn; [done|].
  case_decide; [intros [= ->]; set_solver|]. intros [? ?]%IH. set_solver.
Qed.

Lemma row_get_None {A} (key : A → string) id rows :
  row_get key id rows = None ↔ ∀ r, r ∈ rows → key r ≠ id.
Proof.
  induction rows as [|r' rows IH]; cbn; [set_solver|].
  case_decide; [split; [done|]; intros Hx; destruct (Hx r'); set_solver|].
  rewrite IH. set_solver.
Qed.

Lemma elem_row_get {A} (key : A → string) rows r :
  NoDup (key <$> rows) → r ∈ rows → row_get key (key r) rows = Some r.
Proof.
  induction rows as [|r' rows IH]; cbn; [set_solver|].
  intros [Hn Hd]%NoDup_cons [->|Hr]%elem_of_cons; [by rewrite decide_True|].
  rewrite decide_False; [by apply IH|]. intros He. destruct Hn. rewrite He.
  by apply list_elem_of_fmap_2.
Qed.

Lemma row_get_unique {A} (key : A → string) rows r r' :
  NoDup (key <$> rows) → r ∈ rows → r' ∈ rows → key r = key r' → r = r'.
Proof.
  intros Hd Hr Hr' He. apply (elem_row_get key) in Hr, Hr'; [|done..].
  rewrite He in Hr. congruence.
Qed.

Lemma row_get_update {A} (key : A → string) p f rows id :
  (∀ r, key (f r) = key r) →
  row_get key id (update_where p f rows) =
    (λ r, if p r then f r else r) <$> row_get key id rows.
Proof.
  intros Hf. induction rows as [|r rows IH]; [done|]. cbn.
  assert (key (if p r then f r else r) = key r) as -> by (destruct (p r); auto).
  by case_decide.
Qed.

Lemma update_where_keys {A} (key : A → string) p f rows :
  (∀ r, key (f r) = key r) → key <$> update_where p f rows = key <$> rows.
Proof.
  intros Hf. unfold update_where. rewrite <-list_fmap_compose.
  apply list_fmap_ext. intros i r Hr. cbn. destruct (p r); auto.
Qed.

Lemma update_where_none {A} (p : A → bool) f rows :
  (∀ r, r ∈ rows → p r = false) → update_where p f rows = rows.
Proof.
  intros H. unfold update_where. transitivity (id <$> rows); [|by rewrite list_fmap_id].
  apply list_fmap_ext. intros i r Hr%list_elem_of_lookup_2. by rewrite H.
Qed.

Lemma put_row_keys {A} (key : A → string) r rows : key <$> put_row key r rows = key <$> rows.
Proof.
  unfold put_row, update_where. rewrite <-list_fmap_compose.
  apply list_fmap_ext. intros i r' Hr. cbn. case_bool_decide; auto.
Qed.

Lemma row_get_put_row {A} (key : A → string) r rows id :
  row_get key id (put_row key r rows) =
    if decide (id = key r) then (λ _, r) <$> row_get key id rows else row_get key id rows.
Proof.
  unfold put_row, update_where. induction rows as [|r' rows IH]; cbn; [by case_decide|].
  case_bool_decide as Hk; cbn.
  - rewrite Hk. destruct (decide (key r = id)) as [->|Hne].
    + by rewrite decide_True.
    + rewrite IH. by rewrite decide_False.
  - destruct (decide (key r' = id)) as [<-|Hne]; [by rewrite decide_False|done].
Qed.

Lemma elem_of_put_row {A} (key : A → string) r rows x :
  x ∈ put_row key r rows → x = r ∨ (x ∈ rows ∧ key x ≠ key r).
Proof.
  unfold put_row. rewrite elem_of_update_where. intros (r' & Hr & ->).
  case_bool_decide; auto.
Qed.

Lemma put_put_row {A} (key : A → string) r r' rows :
  key r = key r' → put_row key r (put_row key r' rows) = put_row key r rows.
Proof.
  intros Hk. unfold put_row, update_where. rewrite <-list_fmap_compose.
  apply list_fmap_ext. intros i x Hx. cbn. rewrite Hk.
  repeat (case_bool_decide; cbn); congruence.
Qed.

Lemma row_get_delete_where {A} (key : A → string) p rows id :
  NoDup (key <$> rows) →
  row_get key id (delete_where p rows) =
    (row_get key id rows ≫= λ r, if p r then None else Some r).
Proof.
  induction rows as [|r rows IH]; [done|]. cbn. intros [Hn Hd]%NoDup_cons.
  specialize (IH Hd). unfold delete_where in *. destruct (p r) eqn:Hp; cbn.
  - case_decide; [|done]. subst. cbn. rewrite Hp. apply row_get_None.
    intros r' Hr' He. destruct Hn. rewrite <-He. apply list_elem_of_fmap_2.
    by apply (elem_of_delete_where p rows) in Hr' as [_ ?].
  - case_decide; cbn; [by rewrite Hp|done].
Qed.

Lemma delete_where_NoDup {A} (key : A → string) p rows :
  NoDup (key <$> rows) → NoDup (key <$> delete_where p rows).
Proof.
  induction rows as [|r rows IH]; [done|]. cbn. intros [Hn Hd]%NoDup_cons.
  unfold delete_where in *. destruct (p r); cbn; [auto|].
  apply NoDup_cons. split; [|auto]. intros (r' & He & Hr')%list_elem_of_fmap.
  apply (elem_of_delete_where p rows) in Hr' as [_ ?]. destruct Hn. rewrite He.
  by apply list_elem_of_fmap_2.
Qed.

Lemma row_get_select {A} (key : A → string) (p : A → bool) rows id :
  NoDup (key <$> rows) →
  row_get key id (select p rows) = (row_get key id rows ≫= λ r, if p r then Some r else None).
Proof.
  intros Hd. pose proof (row_get_delete_where key (λ r, negb (p r)) rows id Hd) as H.
  unfold delete_where, select in *. rewrite (List.filter_ext p (λ r, negb (negb (p r)))).
  { rewrite H. destruct (row_get key id rows); cbn; [|done]. by destruct (p _). }
  intros r. by rewrite negb_involutive.
Qed.

(** The status map of a table is the lookup of its rows. *)
Lemma status_map_lookup rows id :
  NoDup (task_id <$> rows) → status_map rows !! id = t_status <$> row_get task_id id rows.
Proof.
  unfold status_map. cut (∀ m : gmap string string, NoDup (task_id <$> rows) →
    foldl (λ m t, <[task_id t := t_status t]> m) m rows !! id =
      match row_get task_id id rows with Some t => Some (t_status t) | None => m !! id end).
  { intros H Hd. rewrite H by done. by destruct (row_get _ _ _). }
  induction rows as [|t rows IH]; intros m; cbn; [done|].
  intros [Hn Hd]%NoDup_cons. rewrite IH by done. case_decide as Hid; subst.
  - replace (row_get task_id (task_id t) rows) with (@None Task).
    { by rewrite lookup_insert_eq. }
    symmetry. apply row_get_None. intros r Hr He. destruct Hn. rewrite <-He.
    by apply list_elem_of_fmap_2.
  - destruct (row_get task_id id rows); [done|]. by rewrite lookup_insert_ne.
Qed.

Lemma select_NoDup {A} (key : A → string) p rows :
  NoDup (key <$> rows) → NoDup (key <$> select p rows).
Proof.
  intros H. apply (delete_where_NoDup key (λ r, negb (p r))) in H.
  unfold delete_where in H. unfold select. erewrite List.filter_ext; [exact H|].
  intros r. cbn. by rewrite negb_involutive.
Qed.

Lemma elem_of_job_tasks job db t : t ∈ job_tasks job db ↔ t_job_id t = job ∧ t ∈ db_tasks db.
Proof. unfold job_tasks. rewrite elem_of_select, bool_decide_eq_true. done. Qed.

Lemma get_task_elem id db t : get_task id db = Some t → t ∈ db_tasks db ∧ task_id t = id.
Proof. apply row_get_elem. Qed.

Lemma get_put_task t db id :
  get_task id (put_task t db) =
    if decide (id = task_id t) then (λ _, t) <$> get_task id db else get_task id db.
Proof. apply row_get_put_row. Qed.

Lemma get_task_put_job j db id : get_task id (put_job j db) = get_task id db.
Proof. done. Qed.

#[export] Hint Rewrite @elem_of_select @elem_of_delete_where get_put_task get_task_put_job : scene_rw.
#[export] Hint Resolve select_NoDup delete_where_NoDup : scene.
