(* ===== verification/Sweep.v ===== *)
(** Fixed-point sweeps: [while progressed: for row in rows: ...], the loop shape
    the dispatcher and the janitor share. The body may rewrite the row and a
    state, and reports whether it did. *)
From S2P Require Import Prelude.
From stdpp Require Import options.

Section sweep.
Context {A St : Type} (body : St → A → A * St * bool).

(** One [for] loop over the rows. *)
Fixpoint sweep_pass (s : St) (rows : list A) : list A * St * bool :=
  match rows with
  | [] => ([], s, false)
  | a :: rows =>
      let '(a, s, changed) := body s a in
      let '(rows, s, changed') := sweep_pass s rows in
      (a :: rows, s, changed || changed')
  end.

(** The [while] loop, cut off after [fuel] passes; the last component says it
    ended by its own condition. *)
Fixpoint sweep_loop (fuel : nat) (s : St) (rows : list A) : list A * St * bool :=
  match fuel with
  | O => (rows, s, false)
  | S fuel =>
      let '(rows, s, changed) := sweep_pass s rows in
      if changed then sweep_loop fuel s rows else (rows, s, true)
  end.

(** A body that reports no change makes none. *)
Hypothesis body_idle : ∀ s a a' s', body s a = (a', s', false) → a' = a ∧ s' = s.

Lemma sweep_pass_idle s rows rows' s' :
  sweep_pass s rows = (rows', s', false) →
  rows' = rows ∧ s' = s ∧ ∀ a, a ∈ rows → body s a = (a, s, false).
Proof using body_idle.
  revert rows' s'. induction rows as [|a rows IH]; intros rows' s'; cbn.
  { intros [= <- <-]. set_solver. }
  destruct (body s a) as [[a1 s1] c1] eqn:Ha.
  destruct (sweep_pass s1 rows) as [[rows1 s2] c2] eqn:Hp. intros [= <- <- Hc].
  apply orb_false_iff in Hc as [-> ->]. apply body_idle in Ha as Ha'. destruct Ha' as [-> ->].
  destruct (IH _ _ Hp) as (-> & -> & H). split_and!; [done..|].
  intros x [->|Hx]%elem_of_cons; auto.
Qed.

(** When the loop ends by itself, its result is a fixed point of the body. *)
Lemma sweep_loop_fixpoint fuel s rows rows' s' :
  sweep_loop fuel s rows = (rows', s', true) →
  ∀ a, a ∈ rows' → body s' a = (a, s', false).
Proof using body_idle.
  revert s rows. induction fuel as [|fuel IH]; intros s rows; cbn; [done|].
  destruct (sweep_pass s rows) as [[rows1 s1] c1] eqn:Hp. destruct c1; [apply IH|].
  intros [= <- <-]. by apply sweep_pass_idle in Hp as (-> & -> & H).
Qed.

(** A preorder the body moves each row along is respected by the whole sweep. *)
Section rows_relation.
Context (R : A → A → Prop) `{!PreOrder R}.
Hypothesis body_R : ∀ s a a' s' c, body s a = (a', s', c) → R a a'.

Lemma sweep_pass_rel s rows rows' s' c :
  sweep_pass s rows = (rows', s', c) → Forall2 R rows rows'.
Proof using body_R.
  revert s rows' s' c. induction rows as [|a rows IH]; intros s rows' s' c; cbn.
  { intros [= <- _ _]. constructor. }
  destruct (body s a) as [[a1 s1] c1] eqn:Ha.
  destruct (sweep_pass s1 rows) as [[rows1 s2] c2] eqn:Hp. intros [= <- _ _].
  constructor; eauto.
Qed.

Lemma sweep_loop_rel fuel s rows rows' s' c :
  sweep_loop fuel s rows = (rows', s', c) → Forall2 R rows rows'.
Proof using body_R PreOrder0.
  revert s rows. induction fuel as [|fuel IH]; intros s rows; cbn.
  { intros [= <- _ _]. reflexivity. }
  destruct (sweep_pass s rows) as [[rows1 s1] c1] eqn:Hp. apply sweep_pass_rel in Hp.
  destruct c1; [|by intros [= <- _ _]]. intros H%IH. by transitivity rows1.
Qed.
End rows_relation.

(** An invariant tying the state to the rows, and the measure that bounds the
    number of passes. *)
Section invariant.
Context (P : St → list A → Prop) (active : A → bool).
Hypothesis body_P : ∀ s l1 a l2 a' s' c,
  P s (l1 ++ a :: l2) → body s a = (a', s', c) → P s' (l1 ++ a' :: l2).
Hypothesis body_active : ∀ s l1 a l2 a' s',
  P s (l1 ++ a :: l2) → body s a = (a', s', true) → active a = true ∧ active a' = false.

Definition active_count (rows : list A) : nat := length (List.filter active rows).

Lemma active_count_le rows : active_count rows ≤ length rows.
Proof. apply List.filter_length_le. Qed.

Lemma sweep_pass_inv s l1 rows rows' s' c :
  P s (l1 ++ rows) → sweep_pass s rows = (rows', s', c) →
  P s' (l1 ++ rows') ∧ active_count rows' ≤ active_count rows ∧
  (c = true → active_count rows' < active_count rows).
Proof using body_P body_active body_idle.
  revert s l1 rows' s' c. induction rows as [|a rows IH]; intros s l1 rows' s' c HP; cbn.
  { intros [= <- <- <-]. by split_and!. }
  destruct (body s a) as [[a1 s1] c1] eqn:Ha.
  destruct (sweep_pass s1 rows) as [[rows1 s2] c2] eqn:Hp. intros [= <- <- <-].
  pose proof (body_P _ _ _ _ _ _ _ HP Ha) as HP1.
  rewrite cons_middle, app_assoc in HP1. destruct (IH _ _ _ _ _ HP1 Hp) as (HP2 & Hle & Hlt).
  rewrite <-app_assoc in HP2. split; [done|]. unfold active_count in *. cbn.
  destruct c1; cbn.
  - destruct (body_active _ _ _ _ _ _ HP Ha) as [-> ->]. cbn. split; [|intros _]; lia.
  - apply body_idle in Ha as [-> ->]. destruct (active a); cbn; split; intros; try lia;
      specialize (Hlt ltac:(done)); lia.
Qed.

Lemma sweep_loop_inv fuel s rows rows' s' c :
  P s rows → sweep_loop fuel s rows = (rows', s', c) → P s' rows'.
Proof using body_P body_active body_idle.
  revert s rows. induction fuel as [|fuel IH]; intros s rows HP; cbn.
  { by intros [= <- <- _]. }
  destruct (sweep_pass s rows) as [[rows1 s1] c1] eqn:Hp.
  apply (sweep_pass_inv s []) in Hp as (HP1 & _); [|done].
  destruct c1; [by apply IH|]. by intros [= <- <- _].
Qed.

(** Each changing pass deactivates a row, so one pass per row and a last one to
    see that nothing changes are enough. *)
Lemma sweep_loop_terminates fuel s rows :
  P s rows → active_count rows < fuel → (sweep_loop fuel s rows).2 = true.
Proof using body_P body_active body_idle.
  revert s rows. induction fuel as [|fuel IH]; intros s rows HP Hf; cbn; [lia|].
  destruct (sweep_pass s rows) as [[rows1 s1] c1] eqn:Hp.
  apply (sweep_pass_inv s []) in Hp as (HP1 & Hle & Hlt); [|done].
  destruct c1; [|done]. apply IH; [done|]. specialize (Hlt ltac:(done)). lia.
Qed.
End invariant.
End sweep.
