(* ===== verification/Hashing.v ===== *)
(** [sceneapi/server/core/hashing.py]: canonical JSON and content addresses,
    over an executable SHA-256 ([hashlib.sha256]) on byte strings. *)
From S2P Require Import Prelude PyValue.
From stdpp Require Import options.

#[local] Open Scope Z_scope.

(** ** SHA-256 on 32-bit words *)
Module Sha256.

Definition w32 (x : Z) : Z := x mod 2 ^ 32.
Definition add32 (x y : Z) : Z := w32 (x + y).
Definition rotr (n x : Z) : Z := Z.lor (Z.shiftr x n) (w32 (Z.shiftl x (32 - n))).

(** The constants, as FIPS 180-4 defines them: the first 32 bits of the
    fractional parts of the cube roots of the first 64 primes, and of the square
    roots of the first 8. *)
Definition is_prime (n : Z) : bool :=
  forallb (λ d, negb (n mod d =? 0)) (Z.of_nat <$> seq 2 (Z.to_nat n - 2)).

Definition primes (bound : nat) : list Z :=
  List.filter is_prime (Z.of_nat <$> seq 2 (bound - 2)).

(** The integer cube root, one bit at a time. *)
Fixpoint cbrt_bits (n : nat) (acc x : Z) : Z :=
  match n with
  | O => acc
  | S n =>
      let c := acc + 2 ^ Z.of_nat n in
      cbrt_bits n (if c * c * c <=? x then c else acc) x
  end.

Definition K : list Z :=
  Eval vm_compute in (λ p, w32 (cbrt_bits 36 0 (Z.shiftl p 96))) <$> primes 312.

Definition H0 : list Z :=
  Eval vm_compute in (λ p, w32 (Z.sqrt (Z.shiftl p 64))) <$> take 8 (primes 20).

Definition nthZ (n : nat) (l : list Z) : Z := nth n l 0.

(** The message schedule, newest word first. *)
Fixpoint schedule (n : nat) (ws : list Z) : list Z :=
  match n with
  | O => ws
  | S n =>
      let w15 := nthZ 14 ws in
      let w2 := nthZ 1 ws in
      let s0 := Z.lxor (Z.lxor (rotr 7 w15) (rotr 18 w15)) (Z.shiftr w15 3) in
      let s1 := Z.lxor (Z.lxor (rotr 17 w2) (rotr 19 w2)) (Z.shiftr w2 10) in
      schedule n (w32 (nthZ 15 ws + s0 + nthZ 6 ws + s1) :: ws)
  end.

Definition round (st : list Z) (kw : Z * Z) : list Z :=
  match st with
  | [a; b; c; d; e; f; g; h] =>
      let S1 := Z.lxor (Z.lxor (rotr 6 e) (rotr 11 e)) (rotr 25 e) in
      let ch := Z.lxor (Z.land e f) (Z.land (Z.lxor e (2 ^ 32 - 1)) g) in
      let t1 := w32 (h + S1 + ch + kw.1 + kw.2) in
      let S0 := Z.lxor (Z.lxor (rotr 2 a) (rotr 13 a)) (rotr 22 a) in
      let maj := Z.lxor (Z.lxor (Z.land a b) (Z.land a c)) (Z.land b c) in
      [add32 t1 (add32 S0 maj); a; b; c; add32 d t1; e; f; g]
  | _ => st
  end.

Fixpoint be_word (acc : Z) (bs : list Z) : Z :=
  match bs with [] => acc | b :: bs => be_word (acc * 256 + b) bs end.

Fixpoint words_of (fuel : nat) (bs : list Z) : list Z :=
  match fuel with
  | O => []
  | S n => be_word 0 (take 4 bs) :: words_of n (drop 4 bs)
  end.

Definition compress (h : list Z) (block : list Z) : list Z :=
  let ws := reverse (schedule 48 (reverse (words_of 16 block))) in
  zip_with add32 h (foldl round h (zip K ws)).

Fixpoint blocks (fuel : nat) (h bs : list Z) : list Z :=
  match fuel with
  | O => h
  | S n => match bs with [] => h | _ => blocks n (compress h (take 64 bs)) (drop 64 bs) end
  end.

Fixpoint be_bytes (n : nat) (z : Z) : list Z :=
  match n with O => [] | S n => be_bytes n (z / 256) ++ [z mod 256] end.

Definition pad (bs : list Z) : list Z :=
  let len := Z.of_nat (length bs) in
  bs ++ [128] ++ replicate (Z.to_nat ((55 - len) mod 64)) 0 ++ be_bytes 8 (len * 8).

Definition digest (bs : list Z) : list Z :=
  let p := pad bs in blocks (S (length p / 64)) H0 p.

End Sha256.

Definition byte_of (a : ascii) : Z := Z.of_nat (nat_of_ascii a).

Fixpoint bytes_of (s : string) : list Z :=
  match s with EmptyString => [] | String a s => byte_of a :: bytes_of s end.

Definition hex_digit (n : Z) : ascii :=
  match String.get (Z.to_nat n) "0123456789abcdef" with Some c => c | None => "0"%char end.

Fixpoint hex_bytes (bs : list Z) : string :=
  match bs with
  | [] => ""
  | b :: bs => String (hex_digit (b / 16)) (String (hex_digit (b mod 16)) (hex_bytes bs))
  end.

(** [hashlib.sha256(data).hexdigest()] *)
Definition sha256_hex (data : string) : string :=
  hex_bytes (Sha256.digest (bytes_of data) ≫= Sha256.be_bytes 4).

(** [h = hashlib.sha256(); for c in chunks: h.update(c); h.hexdigest()]: the
    digest of the concatenation of the chunks. *)
Definition sha256_chunks (chunks : list string) : string := sha256_hex (foldr String.append "" chunks).

Example sha256_abc :
  sha256_hex "abc" = "ba7816bf8f01cfea414140de5dae2223b00361a396177a9cb410ff61f20015ad".
Proof. vm_compute. reflexivity. Qed.

Example sha256_empty :
  sha256_hex "" = "e3b0c44298fc1c149afbf4c8996fb92427ae41e4649b934ca495991b7852b855".
Proof. vm_compute. reflexivity. Qed.

(** ** Canonical JSON *)

Definition hex4 (n : Z) : string :=
  String (hex_digit (n / 4096 mod 16)) (String (hex_digit (n / 256 mod 16))
    (String (hex_digit (n / 16 mod 16)) (String (hex_digit (n mod 16)) ""))).

Definition quote_char : ascii := Ascii false true false false false true false false.

(** [json]'s escaping of one character under [ensure_ascii=False]. *)
Definition json_char (a : ascii) : string :=
  let n := byte_of a in
  if n =? 34 then String "\" (String quote_char "")
  else if n =? 92 then "\\"
  else if n =? 10 then "\n"
  else if n =? 13 then "\r"
  else if n =? 9 then "\t"
  else if n =? 8 then "\b"
  else if n =? 12 then "\f"
  else if n <? 32 then String "\" (String "u" (hex4 n))
  else String a "".

Fixpoint json_chars (s : string) : string :=
  match s with EmptyString => "" | String a s => String.append (json_char a) (json_chars s) end.

Definition json_string (s : string) : string :=
  String quote_char (String.append (json_chars s) (String quote_char "")).

Definition json_float (f : pyfloat) : string :=
  match fl_value f with
  | FFinite _ => fl_repr f
  | FPosInf => "Infinity"
  | FNegInf => "-Infinity"
  | FNaN => "NaN"
  end.

(** Insert a key into members sorted by key ([sort_keys=True]). *)
Fixpoint insert_member (kv : string * string) (l : list (string * string)) : list (string * string) :=
  match l with
  | [] => [kv]
  | kv' :: l => if decide (String.le kv.1 kv'.1) then kv :: kv' :: l else kv' :: insert_member kv l
  end.

Definition member_text (kv : string * string) : string := json_string kv.1 +:+ ":" +:+ kv.2.

(** [json.dumps(v, sort_keys=True, separators=(",", ":"), ensure_ascii=False)] *)
Fixpoint canonical_json (v : value) : string :=
  match v with
  | VNone => "null"
  | VBool b => if b then "true" else "false"
  | VInt z => pretty z
  | VFloat f => json_float f
  | VStr s => json_string s
  | VList l =>
      "[" +:+ join "," ((fix go (l : list value) : list string :=
         match l with [] => [] | v :: l => canonical_json v :: go l end) l) +:+ "]"
  | VDict d =>
      "{" +:+ join "," (member_text <$>
        ((fix go (d : list (string * value)) : list (string * string) :=
            match d with
            | [] => []
            | (k, v) :: d => insert_member (k, canonical_json v) (go d)
            end) d)) +:+ "}"
  end.

Definition content_address (data : string) : string := sha256_hex data.

Definition hash_dict (v : value) : string := content_address (canonical_json v).

(** ** Reading a JSON string literal back *)

Definition hex_value (a : ascii) : option Z :=
  let n := byte_of a in
  if (48 <=? n) && (n <=? 57) then Some (n - 48)
  else if (97 <=? n) && (n <=? 102) then Some (n - 87)
  else None.

Definition hex4_value (a b c d : ascii) : option ascii :=
  a ← hex_value a; b ← hex_value b; c ← hex_value c; d ← hex_value d;
  let n := ((a * 16 + b) * 16 + c) * 16 + d in
  if n <? 256 then Some (ascii_of_nat (Z.to_nat n)) else None.

Definition unescape1 (a : ascii) : option ascii :=
  let n := byte_of a in
  if n =? 34 then Some quote_char
  else if n =? 92 then Some "\"%char
  else if n =? 110 then Some (ascii_of_nat 10)
  else if n =? 114 then Some (ascii_of_nat 13)
  else if n =? 116 then Some (ascii_of_nat 9)
  else if n =? 98 then Some (ascii_of_nat 8)
  else if n =? 102 then Some (ascii_of_nat 12)
  else None.

(** The reader of a string literal's body: the text up to the closing quote and
    what follows it. *)
Fixpoint read_chars (s : string) : option (string * string) :=
  match s with
  | EmptyString => None
  | String a s =>
      if decide (a = quote_char) then Some ("", s)
      else if decide (a = "\"%char) then
        match s with
        | String "u" (String x1 (String x2 (String x3 (String x4 s)))) =>
            c ← hex4_value x1 x2 x3 x4; '(t, r) ← read_chars s; Some (String c t, r)
        | String e s => c ← unescape1 e; '(t, r) ← read_chars s; Some (String c t, r)
        | EmptyString => None
        end
      else '(t, r) ← read_chars s; Some (String a t, r)
  end.

Lemma read_json_char a s :
  read_chars (String.append (json_char a) s) =
    '(t, r) ← read_chars s; Some (String a t, r).
Proof. destruct a as [[] [] [] [] [] [] [] []]; reflexivity. Qed.

Lemma read_json_chars s r : read_chars (String.append (json_chars s) (String quote_char r)) = Some (s, r).
Proof.
  induction s as [|a s IH]; [reflexivity|]. cbn [json_chars].
  rewrite <-str_app_assoc, read_json_char, IH. done.
Qed.

Lemma json_string_inj_app s1 s2 r1 r2 :
  String.append (json_string s1) r1 = String.append (json_string s2) r2 → s1 = s2 ∧ r1 = r2.
Proof.
  unfold json_string. intros H.
  change (String quote_char (String.append (String.append (json_chars s1) (String quote_char "")) r1) =
          String quote_char (String.append (String.append (json_chars s2) (String quote_char "")) r2)) in H.
  injection H as H. rewrite <-!str_app_assoc in H.
  apply (f_equal read_chars) in H.
  change (String quote_char "" +:+ r1) with (String quote_char r1) in H.
  change (String quote_char "" +:+ r2) with (String quote_char r2) in H.
  rewrite !read_json_chars in H. by simplify_eq.
Qed.

(** Two texts that start with a member of the same key agree on its value. *)
Lemma member_inj k v1 v2 r1 r2 :
  member_text (k, json_string v1) +:+ r1 = member_text (k, json_string v2) +:+ r2 → v1 = v2 ∧ r1 = r2.
Proof.
  unfold member_text. cbn [fst snd]. rewrite <-!str_app_assoc. intros H%str_app_inj%str_app_inj.
  by apply json_string_inj_app.
Qed.
