(* ===== verification/Service.v ===== *)
(** Service calls: operations on a state that may raise. A call that raises leaves no
    state, because the session of a request ([db/session.py]) rolls back when its
    handler raises. *)
From S2P Require Import Prelude.
From stdpp Require Import options.

Definition svc (E W A : Type) : Type := W → res E (A * W).

#[export] Instance svc_ret E W : MRet (svc E W) := λ A a w, Ok (a, w).
#[export] Instance svc_bind E W : MBind (svc E W) := λ A B f m w,
  match m w with Ok (a, w) => f a w | Err e => Err e end.

Section ops.
Context {E W : Type}.

Definition raise {A} (e : E) : svc E W A := λ _, Err e.
(** [if not ok: raise e] *)
Definition guard (ok : bool) (e : E) : svc E W unit := if ok then mret tt else raise e.
Definition gets {A} (f : W → A) : svc E W A := λ w, Ok (f w, w).
Definition modify (f : W → W) : svc E W unit := λ w, Ok (tt, f w).
(** A computation that does not touch the state. *)
Definition lift {A} (r : res E A) : svc E W A := λ w, match r with Ok a => Ok (a, w) | Err e => Err e end.
(** The row a query found, or the error of finding none. *)
Definition found {A} (x : option A) (e : E) : svc E W A := match x with Some a => mret a | None => raise e end.

(** [for x in l: f x] *)
Fixpoint each {A} (f : A → svc E W unit) (l : list A) : svc E W unit :=
  match l with [] => mret tt | x :: l => f x ≫= λ _, each f l end.

(** [[f(x) for x in l]] *)
Fixpoint map_each {A B} (f : A → svc E W B) (l : list A) : svc E W (list B) :=
  match l with [] => mret [] | x :: l => f x ≫= λ y, map_each f l ≫= λ ys, mret (y :: ys) end.
End ops.

(** A call on a part of the state. *)
Definition on_part {E W V A} (part : W → V) (set_part : V → W → W) (m : svc E V A) : svc E W A :=
  λ w, match m (part w) with Ok (a, v) => Ok (a, set_part v w) | Err e => Err e end.

(** A call whose errors are among those of the caller. *)
Definition with_error {E F W A} (f : E → F) (m : svc E W A) : svc F W A :=
  λ w, match m w with Ok aw => Ok aw | Err e => Err (f e) end.

(** ** What a call that returns went through *)

Section facts.
Context {E W : Type}.
Implicit Types w : W.

Lemma svc_bind_Ok {A B} (m : svc E W A) (f : A → svc E W B) w b w' :
  (m ≫= f) w = Ok (b, w') ↔ ∃ a w1, m w = Ok (a, w1) ∧ f a w1 = Ok (b, w').
Proof.
  unfold mbind, svc_bind. destruct (m w) as [[a w1]|e]; [|naive_solver].
  split; [intros H; by exists a, w1|]. by intros (? & ? & [= <- <-] & ?).
Qed.

Lemma svc_ret_Ok {A} (a b : A) w w' : (mret a : svc E W A) w = Ok (b, w') ↔ a = b ∧ w = w'.
Proof. unfold mret, svc_ret. split; [intros [= <- <-]|intros [<- <-]]; done. Qed.

Lemma gets_Ok {A} (f : W → A) w (a : A) w' : gets (E := E) f w = Ok (a, w') ↔ f w = a ∧ w = w'.
Proof. unfold gets. split; [intros [= <- <-]|intros [<- <-]]; done. Qed.

Lemma modify_Ok (f : W → W) w w' u : modify (E := E) f w = Ok (u, w') ↔ f w = w'.
Proof. unfold modify. destruct u. split; congruence. Qed.

Lemma guard_Ok ok (e : E) w w' u : guard ok e w = Ok (u, w') ↔ ok = true ∧ w = w'.
Proof. destruct ok, u; cbn; [|by split; [|intros []]]. split; [by intros [= ->]|by intros [_ ->]]. Qed.

Lemma lift_Ok {A} (r : res E A) w a w' : lift r w = Ok (a, w') ↔ r = Ok a ∧ w = w'.
Proof. unfold lift. destruct r; (split; [|by intros [[= <-] ->]]); [by intros [= -> ->]|done]. Qed.

Lemma found_Ok {A} (x : option A) (e : E) w a w' : found x e w = Ok (a, w') ↔ x = Some a ∧ w = w'.
Proof. destruct x; cbn; (split; [|by intros [[= <-] ->]]); [by intros [= -> ->]|done]. Qed.

Lemma raise_Ok {A} (e : E) w (a : A) w' : raise e w = Ok (a, w') ↔ False.
Proof. unfold raise. by split. Qed.

(** ** Postconditions *)

(** From a state with [P], a return value and a state with [Q]. *)
Definition ensures {A} (P : W → Prop) (m : svc E W A) (Q : A → W → Prop) : Prop :=
  ∀ w a w', P w → m w = Ok (a, w') → Q a w'.

Definition preserves {A} (I : W → Prop) (m : svc E W A) : Prop := ensures I m (λ _, I).

Lemma ensures_bind {A B} P (m : svc E W A) Q (f : A → svc E W B) R :
  ensures P m Q → (∀ a, ensures (Q a) (f a) R) → ensures P (m ≫= f) R.
Proof. intros Hm Hf w b w' Hw (a & w1 & H1 & H2)%svc_bind_Ok. eapply Hf; [|done]. by eapply Hm. Qed.

Lemma ensures_weaken {A} (P P' : W → Prop) (m : svc E W A) (Q Q' : A → W → Prop) :
  ensures P m Q → (∀ w, P' w → P w) → (∀ a w, Q a w → Q' a w) → ensures P' m Q'.
Proof. intros Hm HP HQ w a w' Hw H. eapply HQ, Hm; eauto. Qed.

Lemma preserves_each {A} (I : W → Prop) (f : A → svc E W unit) l :
  (∀ x, x ∈ l → preserves I (f x)) → preserves I (each f l).
Proof.
  induction l as [|x l IH]; intros Hf; [by intros w [] w' Hw [_ <-]%svc_ret_Ok|].
  apply (ensures_bind _ _ (λ _, I)); [apply Hf; list_in|]. intros _. apply IH. intros y Hy. apply Hf. by constructor.
Qed.

Lemma preserves_map_each {A B} (I : W → Prop) (f : A → svc E W B) l :
  (∀ x, x ∈ l → preserves I (f x)) → preserves I (map_each f l).
Proof.
  induction l as [|x l IH]; intros Hf; [by intros w a w' Hw [_ <-]%svc_ret_Ok|].
  apply (ensures_bind _ _ (λ _, I)); [apply Hf; list_in|]. intros y.
  apply (ensures_bind _ _ (λ _, I)); [apply IH; intros z Hz; apply Hf; by constructor|].
  intros ys w a w' Hw. by intros [_ <-]%svc_ret_Ok.
Qed.

End facts.

Lemma on_part_Ok {E W V A} (part : W → V) (set_part : V → W → W) (m : svc E V A) w (a : A) w' :
  on_part part set_part m w = Ok (a, w') ↔ ∃ v, m (part w) = Ok (a, v) ∧ w' = set_part v w.
Proof.
  unfold on_part. destruct (m (part w)) as [[b v]|]; [|split; [done|by intros (? & ? & _)]].
  split; [intros [= <- <-]; by exists v|]. by intros (? & [= <- <-] & ->).
Qed.

Lemma with_error_Ok {E F W A} (f : E → F) (m : svc E W A) w (aw : A * W) :
  with_error f m w = Ok aw ↔ m w = Ok aw.
Proof. unfold with_error. destruct (m w); split; congruence. Qed.

(** Invert a call that returned into the steps it took. *)
Ltac svc_inv H :=
  lazymatch type of H with
  | (_ ≫= _) _ = Ok _ =>
      let a := fresh "a" in let w := fresh "w" in let H1 := fresh "H" in let H2 := fresh "H" in
      apply svc_bind_Ok in H as (a & w & H1 & H2); svc_inv H1; svc_inv H2
  | mret _ _ = Ok _ => apply svc_ret_Ok in H as [? ?]; try subst
  | gets _ _ = Ok _ => apply gets_Ok in H as [? ?]; try subst
  | modify _ _ = Ok _ => apply modify_Ok in H; try subst
  | guard _ _ _ = Ok _ => apply guard_Ok in H as [H ?]; try subst
  | lift _ _ = Ok _ => apply lift_Ok in H as [H ?]; try subst
  | found _ _ _ = Ok _ => apply found_Ok in H as [H ?]; try subst
  | raise _ _ = Ok _ => apply raise_Ok in H; destruct H
  | on_part _ _ _ _ = Ok _ =>
      let v := fresh "v" in apply on_part_Ok in H as (v & H & ?); try subst; svc_inv H
  | with_error _ _ _ = Ok _ => apply with_error_Ok in H; svc_inv H
  | _ => idtac
  end.
