(* ===== verification/JsonFacts.v ===== *)
(** Canonical JSON ([core/hashing.py]) is injective on values without floats, up to
    the order of object members: what is hashed determines the document. *)
From S2P Require Import Prelude PyValue Hashing.
From stdpp Require Import options.

#[local] Open Scope Z_scope.
#[local] Arguments String.append !_ _ / : simpl nomatch.

(** ** Induction on values *)

Lemma value_nested_ind (P : value → Prop) :
  P VNone → (∀ b, P (VBool b)) → (∀ z, P (VInt z)) → (∀ f, P (VFloat f)) → (∀ s, P (VStr s)) →
  (∀ l, Forall P l → P (VList l)) → (∀ d, Forall (λ kv : string * value, P kv.2) d → P (VDict d)) → ∀ v, P v.
Proof.
  intros Hn Hb Hi Hf Hs Hl Hd. fix IH 1. intros [|b|z|f|s|l|d]; [apply Hn|apply Hb|apply Hi|apply Hf|apply Hs|..].
  - apply Hl. induction l as [|v l IHl]; [by constructor|]. constructor; [apply IH|exact IHl].
  - apply Hd. induction d as [|[k v] d IHd]; [by constructor|]. constructor; [apply IH|exact IHd].
Qed.

(** ** Values up to member order *)

Fixpoint insert_key {A} (kv : string * A) (l : list (string * A)) : list (string * A) :=
  match l with
  | [] => [kv]
  | kv' :: l => if decide (String.le kv.1 kv'.1) then kv :: kv' :: l else kv' :: insert_key kv l
  end.

(** The value with the members of every object sorted by key. *)
Fixpoint sorted_members (v : value) : value :=
  match v with
  | VList l =>
      VList ((fix go (l : list value) : list value := match l with [] => [] | v :: l => sorted_members v :: go l end) l)
  | VDict d =>
      VDict ((fix go (d : list (string * value)) : list (string * value) :=
                match d with [] => [] | (k, v) :: d => insert_key (k, sorted_members v) (go d) end) d)
  | v => v
  end.

Definition same_json (v w : value) : Prop := sorted_members v = sorted_members w.

#[export] Instance same_json_equiv : Equivalence same_json.
Proof. unfold same_json. split; congruence. Qed.

Fixpoint float_free (v : value) : bool :=
  match v with
  | VFloat _ => false
  | VList l => (fix go (l : list value) : bool := match l with [] => true | v :: l => float_free v && go l end) l
  | VDict d =>
      (fix go (d : list (string * value)) : bool := match d with [] => true | (_, v) :: d => float_free v && go d end) d
  | _ => true
  end.

Definition sort_dict (d : list (string * value)) : list (string * value) :=
  foldr (λ kv l, insert_key (kv.1, sorted_members kv.2) l) [] d.

Lemma sorted_members_list l : sorted_members (VList l) = VList (sorted_members <$> l).
Proof. reflexivity. Qed.

Lemma sorted_members_dict d : sorted_members (VDict d) = VDict (sort_dict d).
Proof. cbn. f_equal. induction d as [|[k v] d IH]; cbn; [done|]. by rewrite IH. Qed.

Lemma float_free_list l : float_free (VList l) = true ↔ Forall (λ v, float_free v = true) l.
Proof.
  cbn. induction l as [|v l IH]; [by split; [constructor|]|]. rewrite andb_true_iff, IH, Forall_cons. done.
Qed.

Lemma float_free_dict d : float_free (VDict d) = true ↔ Forall (λ kv, float_free kv.2 = true) d.
Proof.
  cbn. induction d as [|[k v] d IH]; [by split; [constructor|]|]. rewrite andb_true_iff, IH, Forall_cons. done.
Qed.

Lemma insert_key_perm {A} (kv : string * A) l : insert_key kv l ≡ₚ kv :: l.
Proof.
  induction l as [|kv' l IH]; cbn; [done|]. case_decide; [done|]. rewrite IH. apply Permutation_swap.
Qed.

Lemma sort_dict_perm d : sort_dict d ≡ₚ (λ kv, (kv.1, sorted_members kv.2)) <$> d.
Proof. induction d as [|kv d IH]; cbn; [done|]. by rewrite insert_key_perm, IH. Qed.

(** Same objects have the same keys, with the same values. *)
Lemma same_json_members d1 d2 :
  same_json (VDict d1) (VDict d2) →
  (λ kv, (kv.1, sorted_members kv.2)) <$> d1 ≡ₚ (λ kv, (kv.1, sorted_members kv.2)) <$> d2.
Proof.
  unfold same_json. rewrite !sorted_members_dict. intros [= H]. by rewrite <-!sort_dict_perm, H.
Qed.

Lemma same_json_keys d1 d2 k : same_json (VDict d1) (VDict d2) → k ∈ dict_keys d1 ↔ k ∈ dict_keys d2.
Proof.
  intros H%same_json_members%(fmap_Permutation fst). rewrite <-!list_fmap_compose in H.
  change ((fst ∘ λ kv : string * value, (kv.1, sorted_members kv.2)) <$> d1) with (d1.*1) in H.
  change ((fst ∘ λ kv : string * value, (kv.1, sorted_members kv.2)) <$> d2) with (d2.*1) in H. by rewrite H.
Qed.

Lemma same_json_get d1 d2 k v :
  same_json (VDict d1) (VDict d2) → NoDup (dict_keys d2) → dict_get k d1 = Some v →
  ∃ w, dict_get k d2 = Some w ∧ same_json v w.
Proof.
  intros H%same_json_members Hd Hv%dict_get_elem.
  apply (list_elem_of_fmap_2 (λ kv, (kv.1, sorted_members kv.2))) in Hv. rewrite H in Hv.
  apply list_elem_of_fmap in Hv as ([k' w] & [= -> Hw] & Hin). exists w. split; [by apply dict_elem_get|done].
Qed.

Lemma same_json_lists l1 l2 : same_json (VList l1) (VList l2) → Forall2 same_json l1 l2.
Proof.
  unfold same_json. rewrite !sorted_members_list. intros [= H]. apply Forall2_fmap.
  rewrite H. apply Forall_Forall2_diag, Forall_true. done.
Qed.

Lemma same_json_str s v : same_json (VStr s) v → v = VStr s.
Proof. unfold same_json. destruct v; cbn; congruence. Qed.

(** ** The text of a sorted value *)

Fixpoint plain_json (v : value) : string :=
  match v with
  | VNone => "null"
  | VBool b => if b then "true" else "false"
  | VInt z => pretty z
  | VFloat f => json_float f
  | VStr s => json_string s
  | VList l =>
      "[" +:+ join "," ((fix go (l : list value) : list string :=
         match l with [] => [] | v :: l => plain_json v :: go l end) l) +:+ "]"
  | VDict d =>
      "{" +:+ join "," ((fix go (d : list (string * value)) : list string :=
            match d with [] => [] | (k, v) :: d => member_text (k, plain_json v) :: go d end) d) +:+ "}"
  end.

Definition plain_member (kv : string * value) : string := member_text (kv.1, plain_json kv.2).

Lemma plain_json_list l : plain_json (VList l) = "[" +:+ join "," (plain_json <$> l) +:+ "]".
Proof. reflexivity. Qed.

Lemma plain_json_dict d : plain_json (VDict d) = "{" +:+ join "," (plain_member <$> d) +:+ "}".
Proof. cbn. do 3 f_equal. induction d as [|[k v] d IH]; cbn; [done|]. by rewrite IH. Qed.

Lemma insert_member_map (k : string) (v : value) l :
  insert_member (k, plain_json v) ((λ kv, (kv.1, plain_json kv.2)) <$> l) =
    (λ kv, (kv.1, plain_json kv.2)) <$> insert_key (k, v) l.
Proof.
  induction l as [|[k' v'] l IH]; cbn; [done|]. case_decide; cbn; [done|]. by rewrite IH.
Qed.

Lemma canonical_json_sorted v : canonical_json v = plain_json (sorted_members v).
Proof.
  induction v as [|b|z|f|s|l IH|d IH] using value_nested_ind; try done.
  - rewrite sorted_members_list, plain_json_list. cbn. do 3 f_equal.
    induction IH as [|v l Hv _ IHl]; cbn; [done|]. by rewrite Hv, IHl.
  - rewrite sorted_members_dict, plain_json_dict. cbn. do 3 f_equal.
    assert (∀ d', plain_member <$> d' = member_text <$> ((λ kv, (kv.1, plain_json kv.2)) <$> d')) as Hm
      by (intros; rewrite <-list_fmap_compose; done).
    rewrite Hm. f_equal. induction IH as [|[k v] d Hv _ IHd]; cbn in *; [done|].
    by rewrite Hv, IHd, insert_member_map.
Qed.

(** ** Reading a text back *)

Definition num_char (a : ascii) : bool :=
  bool_decide (a = "-"%char) || (48 <=? byte_of a) && (byte_of a <=? 57).

(** The longest numeric prefix, and the rest. *)
Fixpoint span_num (s : string) : string * string :=
  match s with
  | EmptyString => ("", "")
  | String a s => if num_char a then (String a (span_num s).1, (span_num s).2) else ("", String a s)
  end.

Fixpoint all_num (s : string) : bool := match s with EmptyString => true | String a s => num_char a && all_num s end.

(** A text that does not go on with a number. *)
Definition ends_num (r : string) : Prop := match r with EmptyString => True | String a _ => num_char a = false end.

Lemma span_num_app s r : all_num s = true → ends_num r → span_num (s +:+ r) = (s, r).
Proof.
  intros Hs Hr. induction s as [|a s IH]; cbn.
  - destruct r as [|a r]; cbn in *; [done|]. by rewrite Hr.
  - cbn in Hs. apply andb_true_iff in Hs as [-> Hs]. by rewrite IH.
Qed.

Lemma pretty_N_go_num x s : all_num s = true → all_num (pretty_N_go x s) = true.
Proof.
  revert s. induction (N.lt_wf_0 x) as [x _ IH]; intros s Hs.
  destruct (decide (0 < x)%N) as [Hx|Hx]; [|by assert (x = 0%N) as -> by lia].
  rewrite pretty_N_go_step by done. apply IH; [by apply N.div_lt|]. cbn. rewrite Hs, andb_true_r.
  unfold pretty_N_char. by repeat case_match.
Qed.

Lemma pretty_pos_num p : all_num (pretty (Npos p)) = true.
Proof. unfold pretty, pretty_N. rewrite decide_False by done. by apply pretty_N_go_num. Qed.

Lemma pretty_Z_num (z : Z) : all_num (pretty z) = true.
Proof. destruct z as [|p|p]; [done|apply pretty_pos_num|]. cbn. apply pretty_pos_num. Qed.

Lemma pretty_Z_ne (z : Z) : ∃ a s, pretty z = String a s ∧ num_char a = true.
Proof.
  pose proof (pretty_Z_num z) as Hn. destruct (pretty z) as [|a s] eqn:E.
  - exfalso. destruct z as [|p|p]; [done| |done]. cbn in E. unfold pretty, pretty_positive in E.
    assert (pretty (Npos p) = pretty 0%N → False) as Hf by (intros H%(inj pretty); done).
    assert (∀ x s, s ≠ "" → pretty_N_go x s ≠ "") as Hne.
    { intros x. induction (N.lt_wf_0 x) as [x _ IH]; intros s Hs.
      destruct (decide (0 < x)%N) as [Hx|Hx]; [|by assert (x = 0%N) as -> by lia].
      rewrite pretty_N_go_step by done. by apply IH; [apply N.div_lt|]. }
    unfold pretty, pretty_N in E. rewrite decide_False in E by done.
    rewrite pretty_N_go_step in E by done. by apply Hne in E.
  - exists a, s. cbn in Hn. by apply andb_true_iff in Hn as [? _].
Qed.

(** The kind of value a text starts. *)
Definition text_tag (s : string) : nat :=
  match s with
  | EmptyString => 9
  | String a _ =>
      if num_char a then 2
      else if decide (a = quote_char) then 3
      else if decide (a = "["%char) then 4
      else if decide (a = "{"%char) then 5
      else if decide (a = "n"%char) then 0
      else if decide (a = "t"%char) then 1
      else if decide (a = "f"%char) then 6
      else 9
  end%nat.

Definition value_tag (v : value) : nat :=
  match v with
  | VNone => 0 | VBool true => 1 | VBool false => 6 | VInt _ => 2 | VFloat _ => 7 | VStr _ => 3 | VList _ => 4 | VDict _ => 5
  end%nat.

Lemma text_tag_json v r : float_free v = true → text_tag (plain_json v +:+ r) = value_tag v.
Proof.
  destruct v as [|[]|z|f|s|l|d]; try done. intros _. cbn.
  destruct (pretty_Z_ne z) as (a & s & -> & Ha). cbn. by rewrite Ha.
Qed.

(** ** Injectivity *)

Section joined.
Context {A : Type} (text : A → string) (good : A → Prop).

(** [text x] can be told from the text of every good element, whatever follows. *)
Definition readable (x : A) : Prop :=
  ∀ y r1 r2, good y → ends_num r1 → ends_num r2 → text x +:+ r1 = text y +:+ r2 → x = y ∧ r1 = r2.

Definition tail_text (l : list A) : string := foldr (λ x s, "," +:+ text x +:+ s) "" l.

Lemma join_cons x l : join "," (text <$> x :: l) = text x +:+ tail_text l.
Proof.
  revert x. induction l as [|y l IH]; intros x; [cbn; by rewrite str_app_nil_r|].
  change (text x +:+ "," +:+ join "," (text <$> y :: l) = text x +:+ tail_text (y :: l)). by rewrite IH.
Qed.

Lemma tail_text_inj c l1 l2 r1 r2 :
  c ≠ ","%char → num_char c = false → Forall readable l1 → Forall good l2 →
  tail_text l1 +:+ String c r1 = tail_text l2 +:+ String c r2 → l1 = l2 ∧ r1 = r2.
Proof.
  intros Hc Hn H1. revert l2. induction H1 as [|x l1 Hx _ IH]; intros [|y l2] H2 He; cbn in He.
  - by simplify_eq.
  - simplify_eq.
  - simplify_eq.
  - apply Forall_cons in H2 as [Hy H2]. injection He as He. rewrite <-!str_app_assoc in He.
    assert (∀ l r, ends_num (tail_text l +:+ String c r)) as Hend by (by intros [|z l] r).
    apply Hx in He as [<- He]; auto. by apply IH in He as [<- <-].
Qed.

Lemma join_inj c l1 l2 r1 r2 :
  c ≠ ","%char → num_char c = false → (∀ x r, good x → ∀ s, text x +:+ r ≠ String c s) →
  Forall readable l1 → Forall good l1 → Forall good l2 →
  join "," (text <$> l1) +:+ String c r1 = join "," (text <$> l2) +:+ String c r2 → l1 = l2 ∧ r1 = r2.
Proof.
  intros Hc Hn Hstart H1 Hg1 H2 He. destruct l1 as [|x l1], l2 as [|y l2].
  - cbn in He. by simplify_eq.
  - rewrite join_cons in He. cbn in He. apply Forall_cons in H2 as [Hy _]. rewrite <-str_app_assoc in He.
    by destruct (Hstart _ _ Hy _ (eq_sym He)).
  - rewrite join_cons in He. cbn in He. apply Forall_cons in Hg1 as [Hy _]. rewrite <-str_app_assoc in He.
    by destruct (Hstart _ _ Hy _ He).
  - rewrite !join_cons, <-!str_app_assoc in He. apply Forall_cons in H2 as [Hy H2]. apply Forall_cons in H1 as [Hx H1].
    assert (∀ l r, ends_num (tail_text l +:+ String c r)) as Hend by (by intros [|z l] r).
    apply Hx in He as [<- He]; auto. by apply tail_text_inj in He as [<- <-].
Qed.

End joined.

(** Strip the texts around an injective piece. *)
Lemma bracketed_app (a b s r : string) : (a +:+ s +:+ b) +:+ r = a +:+ (s +:+ (b +:+ r)).
Proof. by rewrite <-!str_app_assoc. Qed.

Lemma plain_json_start v c r s : float_free v = true → text_tag (String c s) = 9%nat → plain_json v +:+ r ≠ String c s.
Proof. intros Hv Hc He. rewrite <-He, text_tag_json in Hc by done. by destruct v as [|[]| | | | |]. Qed.

Lemma plain_member_readable kv :
  readable plain_json (λ w, float_free w = true) kv.2 → readable plain_member (λ kv, float_free kv.2 = true) kv.
Proof.
  intros Hkv [k w] r1 r2 Hw Hr1 Hr2 He. destruct kv as [k' v]. unfold plain_member, member_text in He. cbn [fst snd] in *.
  rewrite <-!str_app_assoc in He. apply json_string_inj_app in He as [-> He%str_app_inj].
  by apply Hkv in He as [-> ->].
Qed.

Lemma plain_json_inj v :
  float_free v = true → readable plain_json (λ w, float_free w = true) v.
Proof.
  induction v as [|b|z|f|s|l IH|d IH] using value_nested_ind; intros Hv w r1 r2 Hw Hr1 Hr2 He.
  all: pose proof (f_equal text_tag He) as Ht; rewrite !text_tag_json in Ht by done.
  all: destruct w as [|b'|z'|f'|s'|l'|d']; try (by (try destruct b); (try destruct b')); try (by destruct b).
  - by apply str_app_inj in He.
  - destruct b, b'; try done; by apply str_app_inj in He.
  - cbn in He. apply (f_equal span_num) in He. rewrite !span_num_app in He by (done || apply pretty_Z_num).
    injection He as Hz ->. by apply (inj pretty) in Hz as ->.
  - by apply json_string_inj_app in He as [-> ->].
  - rewrite !plain_json_list, !bracketed_app in He. apply str_app_inj in He.
    apply float_free_list in Hv. apply float_free_list in Hw.
    change ("]" +:+ r1) with (String "]" r1) in He. change ("]" +:+ r2) with (String "]" r2) in He.
    apply (join_inj plain_json (λ w, float_free w = true)) in He as [-> ->]; try done.
    + intros x r Hx s. by apply plain_json_start.
    + apply Forall_forall. intros x Hx. rewrite Forall_forall in IH, Hv. auto.
  - rewrite !plain_json_dict, !bracketed_app in He. apply str_app_inj in He.
    apply float_free_dict in Hv. apply float_free_dict in Hw.
    change ("}" +:+ r1) with (String "}" r1) in He. change ("}" +:+ r2) with (String "}" r2) in He.
    apply (join_inj plain_member (λ kv, float_free kv.2 = true)) in He as [-> ->]; try done.
    apply Forall_forall. intros x Hx. rewrite Forall_forall in IH, Hv. apply plain_member_readable. auto.
Qed.

Lemma sorted_members_float_free v : float_free (sorted_members v) = float_free v.
Proof.
  induction v as [|b|z|f|s|l IH|d IH] using value_nested_ind; try done; apply eq_true_iff_eq.
  - rewrite sorted_members_list, !float_free_list, Forall_fmap. rewrite Forall_forall in IH.
    rewrite !Forall_forall. split; intros H v Hv; specialize (H v Hv); cbn in *; rewrite (IH v Hv) in *; done.
  - rewrite sorted_members_dict, !float_free_dict, (sort_dict_perm d), Forall_fmap. rewrite Forall_forall in IH.
    rewrite !Forall_forall. split; intros H v Hv; specialize (H v Hv); cbn in *; rewrite (IH v Hv) in *; done.
Qed.

(** The canonical text determines the value up to member order, and only that. *)
Theorem canonical_json_inj v w :
  float_free v = true → float_free w = true → canonical_json v = canonical_json w ↔ same_json v w.
Proof.
  intros Hv Hw. rewrite !canonical_json_sorted. unfold same_json. split; [|by intros ->]. intros He.
  assert (plain_json (sorted_members v) +:+ "" = plain_json (sorted_members w) +:+ "") as Ha by (by rewrite He).
  apply plain_json_inj in Ha as [? _]; by rewrite ?sorted_members_float_free.
Qed.

Lemma same_json_canonical v w : same_json v w → canonical_json v = canonical_json w.
Proof. rewrite !canonical_json_sorted. by intros ->. Qed.

(** ** Content addresses *)

(** Two different texts with one digest. *)
Definition collide (d1 d2 : string) : Prop := d1 ≠ d2 ∧ sha256_hex d1 = sha256_hex d2.

Lemma digest_inj d1 d2 : sha256_hex d1 = sha256_hex d2 → d1 = d2 ∨ collide d1 d2.
Proof. intros H. destruct (decide (d1 = d2)); [by left|by right]. Qed.

Lemma hash_dict_inj v w :
  float_free v = true → float_free w = true →
  hash_dict v = hash_dict w → same_json v w ∨ collide (canonical_json v) (canonical_json w).
Proof.
  intros Hv Hw [Hj|Hc]%digest_inj; [left; by apply canonical_json_inj|by right].
Qed.
