(* ===== verification/Errors.v ===== *)
(** [sceneapi/server/core/errors.py]: the domain error hierarchy and its
    RFC 7807 problem envelope; plus the general exception value a task handler
    or a hook can raise. *)
From S2P Require Import Prelude PyValue.
From stdpp Require Import options.

Module Errors.

(** The concrete classes; [PycolmapUnavailableError] and
    [BackendUnavailableError] refine [CapabilityUnavailableError]. *)
Inductive error_class : Type :=
  | BadRequestError
  | NotFoundError
  | ConflictError
  | ValidationError
  | TenantViolationError
  | CapabilityUnavailableError
  | BackendUnavailableError
  | PycolmapUnavailableError
  | QuotaExceededError
  | StorageError.

#[export] Instance error_class_eq_dec : EqDecision error_class.
Proof. solve_decision. Defined.

Definition status_code (c : error_class) : Z :=
  match c with
  | BadRequestError => 400
  | NotFoundError => 404
  | ConflictError => 409
  | ValidationError => 422
  | TenantViolationError => 403
  | CapabilityUnavailableError | BackendUnavailableError | PycolmapUnavailableError => 501
  | QuotaExceededError => 429
  | StorageError => 507
  end.

Definition error_type (c : error_class) : string :=
  match c with
  | BadRequestError => "bad_request"
  | NotFoundError => "not_found"
  | ConflictError => "conflict"
  | ValidationError => "validation"
  | TenantViolationError => "tenant_violation"
  | CapabilityUnavailableError => "capability_unavailable"
  | BackendUnavailableError => "backend_unavailable"
  | PycolmapUnavailableError => "pycolmap_unavailable"
  | QuotaExceededError => "quota_exceeded"
  | StorageError => "storage"
  end.

Definition title (c : error_class) : string :=
  match c with
  | BadRequestError => "Bad request"
  | NotFoundError => "Resource not found"
  | ConflictError => "Conflict"
  | ValidationError => "Validation error"
  | TenantViolationError => "Tenant boundary violation"
  | CapabilityUnavailableError => "Capability not available in this deployment"
  | BackendUnavailableError => "Backend engine not available in this deployment"
  | PycolmapUnavailableError => "pycolmap not available in this deployment"
  | QuotaExceededError => "Quota exceeded"
  | StorageError => "Storage error"
  end.

(** [type(e).__name__] *)
Definition class_name (c : error_class) : string :=
  match c with
  | BadRequestError => "BadRequestError"
  | NotFoundError => "NotFoundError"
  | ConflictError => "ConflictError"
  | ValidationError => "ValidationError"
  | TenantViolationError => "TenantViolationError"
  | CapabilityUnavailableError => "CapabilityUnavailableError"
  | BackendUnavailableError => "BackendUnavailableError"
  | PycolmapUnavailableError => "PycolmapUnavailableError"
  | QuotaExceededError => "QuotaExceededError"
  | StorageError => "StorageError"
  end.

Record api_error : Type := mkApiError {
  err_class : error_class;
  err_detail : string;
  err_extras : dict value
}.

(** [SfmApiError.__init__]: an empty detail falls back to the class title. *)
Definition api_error_init (c : error_class) (detail : string) (extras : dict value) : api_error :=
  mkApiError c (if decide (detail = "") then title c else detail) extras.

(** [as_problem]: [instance] is added when non-empty, then the extras overlay
    the envelope. *)
Definition as_problem (e : api_error) (inst : option string) : dict value :=
  let out :=
    [("type", VStr ("https://sfmapi.github.io/errors/" +:+ error_type (err_class e)));
     ("title", VStr (title (err_class e)));
     ("status", VInt (status_code (err_class e)));
     ("detail", VStr (err_detail e))] in
  let out := match inst with
             | Some i => if decide (i = "") then out else dict_set "instance" (VStr i) out
             | None => out
             end in
  dict_merge out (err_extras e).

(** ** Exceptions raised by handlers, hooks and services *)

(** An exception value: its class name and text, and whether it is an instance
    of [BackendUnavailableError] (which the dispatcher catches first). *)
Record exn : Type := mkExn {
  exn_class : string;
  exn_text : string;
  exn_backend_unavailable : bool
}.

Definition exn_of_api_error (e : api_error) : exn :=
  mkExn (class_name (err_class e)) (err_detail e)
    (bool_decide (err_class e = BackendUnavailableError ∨ err_class e = PycolmapUnavailableError)).

End Errors.
