(* ===== verification/JobService.v ===== *)
(** Leases ([orchestrator/lease.py]), task nodes ([orchestrator/dag.py]) and
    the job service ([services/job_service.py]): persisting a job's tasks with
    cache short-circuits, and rolling a job's status up from its tasks. *)
From S2P Require Import Prelude PyValue Errors Readiness Store Hashing.
From stdpp Require Import options.
Import Errors.

#[local] Open Scope Z_scope.

Module Lease.

(** [timedelta(seconds=n)] in the unit of the clock (microseconds). *)
Definition seconds (n : Z) : Z := n * 1000000.

(** [lease_col IS NULL OR lease_col < now] *)
Definition lease_free (now : Z) (t : Task) : bool :=
  match lease_expires_at t with None => true | Some e => e <? now end.

Definition try_acquire_lease (pk_value worker : string) (ttl_seconds now : Z)
    (extra_where : Task → bool) (rows : list Task) : bool * list Task :=
  let p t := bool_decide (task_id t = pk_value) && lease_free now t && extra_where t in
  let new_expiry := now + seconds ttl_seconds in
  ((row_count p rows =? 1)%nat,
   update_where p (λ t, set_worker_id (set_lease_expires_at t (Some new_expiry)) (Some worker)) rows).

Definition refresh_lease (pk_value worker : string) (ttl_seconds now : Z)
    (rows : list Task) : bool * list Task :=
  let p t := bool_decide (task_id t = pk_value) && bool_decide (worker_id t = Some worker) in
  ((row_count p rows =? 1)%nat,
   update_where p (λ t, set_lease_expires_at t (Some (now + seconds ttl_seconds))) rows).

End Lease.

Module Dag.

Record TaskNode : Type := mkTaskNode {
  n_task_id : string;
  n_kind : string;
  n_inputs_hash : string;
  n_params_hash : string;
  n_depends_on : list string;
  n_gpu_required : bool;
  n_metadata : dict value
}.

(** The document whose content address is the cache key. *)
Definition cache_key_doc (kind inputs_hash params_hash rv : string) : value :=
  VDict [("kind", VStr kind); ("inputs_hash", VStr inputs_hash);
         ("params_hash", VStr params_hash); ("rv", VStr rv)].

Definition cache_key (n : TaskNode) (runtime_version_id : string) : string :=
  content_address (canonical_json
    (cache_key_doc (n_kind n) (n_inputs_hash n) (n_params_hash n) runtime_version_id)).

Definition hash_params (spec : value) : string := content_address (canonical_json spec).
Definition hash_inputs (refs : value) : string := content_address (canonical_json refs).

Definition set_n_task_id (id : string) (n : TaskNode) : TaskNode :=
  mkTaskNode id (n_kind n) (n_inputs_hash n) (n_params_hash n) (n_depends_on n)
    (n_gpu_required n) (n_metadata n).

End Dag.

(** What [artifact_service] and [dataset_service] do on the store when a task's
    outputs are normalised, its artifacts recorded and its derived dataset
    registered. None of them touches the task or job tables; the ones that
    rewrite the outputs object in place return its new value. *)
Record ArtifactServices : Type := mkArtifactServices {
  normalize_task_outputs : Task → value → res exn value;
  record_task_artifacts :
    Task → value → list StageArtifact → res exn (value * list StageArtifact);
  register_derived_dataset :
    Task → value → gmap (string * string) value → res exn (value * gmap (string * string) value)
}.

Module JobService.
Import Dag.

Section with_services.
Context (svc : ArtifactServices).

(** A fresh [Job] row, with the column defaults the flush fills in. *)
Definition create_job (new_id : string) (now : Z) (tenant project recipe : string)
    (spec : option value) (db : Db) : Job * Db :=
  let j := mkJob new_id tenant project recipe spec "pending" false false false now None None None None in
  (j, with_jobs (db_jobs db ++ [j]) db).

Definition find_job (tenant job : string) (db : Db) : res api_error Job :=
  match row_get job_id job (select (λ j, bool_decide (j_tenant_id j = tenant)) (db_jobs db)) with
  | Some j => Ok j
  | None => Err (api_error_init NotFoundError ("Job " +:+ job +:+ " not found") [])
  end.

(** [ORDER BY finished_at DESC LIMIT 1]: the first row no other beats; NULL
    sorts below every timestamp. *)
Definition finished_before (a b : Task) : bool :=
  match t_finished_at a, t_finished_at b with
  | None, Some _ => true
  | Some x, Some y => x <? y
  | _, None => false
  end.

Fixpoint latest_finished (best : option Task) (rows : list Task) : option Task :=
  match rows with
  | [] => best
  | t :: rows =>
      latest_finished
        (match best with
         | None => Some t
         | Some b => if finished_before b t then Some t else Some b
         end) rows
  end.

Definition lookup_cached_task (tenant ck : string) (db : Db) : option Task :=
  latest_finished None
    (select (λ t, bool_decide (t_tenant_id t = tenant) && bool_decide (Store.cache_key t = ck) &&
                  bool_decide (t_status t = "succeeded")) (db_tasks db)).

(** One iteration of the loop of [materialize_dag]: the row for node [n], and
    whether it was a cache hit. *)
Definition materialize_node (tenant job rv : string) (now : Z) (db : Db) (n : TaskNode) : Task * bool :=
  let ck := Dag.cache_key n rv in
  let t := mkTask (n_task_id n) tenant job (n_kind n) (n_inputs_hash n) (n_params_hash n) rv ck
    (Some (n_depends_on n)) (n_gpu_required n) "pending" None None
    (match n_metadata n with [] => None | m => Some (VDict m) end)
    None None None None None now in
  match lookup_cached_task tenant ck db with
  | Some cached => (set_outputs_ref_json (set_t_status t "succeeded") (outputs_ref_json cached), true)
  | None => (t, false)
  end.

Fixpoint materialize_nodes (tenant job rv : string) (now : Z) (db : Db) (nodes : list TaskNode) :
    list (Task * bool) * Db :=
  match nodes with
  | [] => ([], db)
  | n :: nodes =>
      let '(t, hit) := materialize_node tenant job rv now db n in
      let db := with_tasks (db_tasks db ++ [t]) db in
      let '(out, db) := materialize_nodes tenant job rv now db nodes in
      ((t, hit) :: out, db)
  end.

(** The second loop: normalise a cache hit's outputs and record its artifacts. *)
Definition record_cached (t : Task) (db : Db) : res exn (Task * Db) :=
  outputs ← normalize_task_outputs svc t (default (VDict []) (outputs_ref_json t));
  '(outputs, arts) ← record_task_artifacts svc (set_outputs_ref_json t (Some outputs)) outputs
                       (db_artifacts db);
  let t := set_outputs_ref_json t (Some outputs) in
  let db := put_task t db in
  Ok (t, mkDb (db_tasks db) (db_jobs db) arts (db_events db) (db_recons db) (db_other db)).

Fixpoint record_all_cached (ts : list (Task * bool)) (db : Db) : res exn (list Task * Db) :=
  match ts with
  | [] => Ok ([], db)
  | (t, hit) :: ts =>
      if hit : bool then
        '(t, db) ← record_cached t db;
        '(ts, db) ← record_all_cached ts db;
        Ok (t :: ts, db)
      else
        '(ts, db) ← record_all_cached ts db;
        Ok (t :: ts, db)
  end.

Definition materialize_dag (tenant job rv : string) (now : Z) (nodes : list TaskNode) (db : Db) :
    res exn (list Task * Db) :=
  let '(out, db) := materialize_nodes tenant job rv now db nodes in
  record_all_cached out db.

End with_services.

(** ** Job roll-up *)

Definition has_status (s : string) (rows : list Task) : bool :=
  existsb (λ t, bool_decide (t_status t = s)) rows.

(** The status a job takes from a non-empty set of tasks none of which is in
    flight; [None] while one is. *)
Definition rollup (rows : list Task) : option string :=
  if has_status "pending" rows || has_status "running" rows then None
  else if has_status "failed" rows then Some "failed"
  else if has_status "cancelled" rows || has_status "cancelled_dirty" rows then Some "cancelled"
  else Some "succeeded".

(** [for task in rows: if task.status == "failed": ...; break] *)
Definition first_failed (rows : list Task) : option Task :=
  head (select (λ t, bool_decide (t_status t = "failed")) rows).

Definition copy_first_error (rows : list Task) (j : Job) : Job :=
  match first_failed rows with
  | Some t => set_j_error_message (set_j_error_class j (t_error_class t)) (t_error_message t)
  | None => j
  end.

Definition finalize_job_if_ready (now : Z) (job : string) (db : Db) : option Job * Db :=
  let rows := job_tasks job db in
  match rows with
  | [] => (None, db)
  | _ =>
      match rollup rows with
      | None => (None, db)
      | Some new_status =>
          match get_job job db with
          | None => (None, db)
          | Some j =>
              let j := if decide (j_status j = new_status) then j
                       else set_j_finished_at (set_j_status j new_status) (Some now) in
              let j := if decide (new_status = "failed") then copy_first_error rows j else j in
              (Some j, put_job j db)
          end
      end
  end.

Definition cancel_job (tenant job : string) (force : bool) (db : Db) : res api_error (Job * Db) :=
  j ← find_job tenant job db;
  let j := set_cancel_force (set_cancel_requested j true) (force || cancel_force j) in
  Ok (j, put_job j db).

End JobService.
