(* ===== verification/Dispatcher.v ===== *)
(** The worker side: handler registration ([workers/tasks/_registry.py]) and the
    queue-agnostic dispatcher ([workers/dispatcher.py]).

    [execute_task] is two database transactions with the handler running in
    between: [pickup] and [commit_success] / [commit_failure]. An exception
    inside a transaction leaves the store as of the last commit. *)
From S2P Require Import Prelude PyValue Errors Readiness Store Sweep JobService.
From stdpp Require Import options.
Import Errors.

#[local] Open Scope Z_scope.

(** ** The handler registry *)
Module Registry.

(** The resource rows a lifecycle hook may rewrite. *)
Definition resources : Type := list Reconstruction * gmap (string * string) value.

Definition Handler : Type := Task → res exn value.
Definition StatusHook : Type := Task → string → resources → res exn resources.
Definition SuccessHook : Type := Task → value → resources → res exn resources.

Record Registry : Type := mkRegistry {
  _HANDLERS : dict Handler;
  _STATUS_HOOKS : dict StatusHook;
  _SUCCESS_HOOKS : dict SuccessHook
}.

Definition empty : Registry := mkRegistry [] [] [].

(** The decorator: re-registration of a kind raises. *)
Definition task_handler (kind : string) (on_status : option StatusHook)
    (on_success : option SuccessHook) (fn : Handler) (r : Registry) : res exn Registry :=
  if dict_mem kind (_HANDLERS r) then
    Err (mkExn "RuntimeError" ("task handler for '" +:+ kind +:+ "' already registered") false)
  else
    Ok (mkRegistry (dict_set kind fn (_HANDLERS r))
          (match on_status with Some h => dict_set kind h (_STATUS_HOOKS r)
           | None => _STATUS_HOOKS r end)
          (match on_success with Some h => dict_set kind h (_SUCCESS_HOOKS r)
           | None => _SUCCESS_HOOKS r end)).

Definition get_registered (r : Registry) : dict Handler := _HANDLERS r.
Definition get_status_hook (kind : string) (r : Registry) : option StatusHook :=
  dict_get kind (_STATUS_HOOKS r).
Definition get_success_hook (kind : string) (r : Registry) : option SuccessHook :=
  dict_get kind (_SUCCESS_HOOKS r).

End Registry.

Module Dispatcher.
Import Registry Readiness Lease JobService.

(** The JSON object [execute_task] returns. *)
Record TaskResult : Type := mkTaskResult {
  result_status : string;
  result_error : option string;
  result_outputs : option value
}.

Definition returned (s : string) : TaskResult := mkTaskResult s None None.

(** ** Dependency states over the store *)

Definition _task_dependency_state (db : Db) (t : Task) : string :=
  match task_deps t with
  | [] => "ready"
  | deps =>
      let rows := select (λ r, bool_decide (task_id r ∈ deps)) (db_tasks db) in
      dependency_state deps (status_map rows)
  end.

(** [status = "failed"; error_class = "DependencyFailed"; ...] *)
Definition dependency_failed (now : Z) (message : string) (t : Task) : Task :=
  set_t_finished_at
    (set_t_error_message
      (set_t_error_class (set_t_status t "failed") (Some "DependencyFailed"))
      (Some message)) (Some now).

Definition dependency_cancelled (now : Z) (state : string) (t : Task) : Task :=
  set_t_finished_at
    (set_t_error_message
      (set_t_error_class (set_t_status t state) (Some "DependencyCancelled"))
      (Some "upstream dependency cancelled")) (Some now).

(** One iteration of the inner loop of [_mark_dependency_failures_and_ready]. *)
Definition mark_task (now : Z) (m : gmap string string) (t : Task) :
    Task * gmap string string * bool :=
  if decide (t_status t ≠ "pending") then (t, m, false)
  else match task_deps t with
  | [] => (t, m, false)
  | deps =>
      let state := dependency_state deps m in
      if decide (state = "failed") then
        let t := dependency_failed now "upstream dependency failed" t in
        (t, <[task_id t := t_status t]> m, true)
      else if decide (state ∈ CANCELLED_DEPENDENCY_STATUSES) then
        let t := dependency_cancelled now state t in
        (t, <[task_id t := t_status t]> m, true)
      else (t, m, false)
  end.

(** [while changed: for task in rows: ...], with the number of passes bounded by
    [fuel]; the last component says the loop left by its own condition. *)
Definition mark_loop (fuel : nat) (now : Z) (m : gmap string string) (rows : list Task) :
    list Task * gmap string string * bool :=
  sweep_loop (mark_task now) fuel m rows.

(** The tasks the last loop of the function selects. *)
Definition ready_task (m : gmap string string) (t : Task) : bool :=
  bool_decide (t_status t = "pending") &&
  match task_deps t with
  | [] => false
  | deps => forallb (λ dep, status_in READY_DEPENDENCY_STATUSES (m !! dep)) deps
  end.

(** Write changed ORM rows back to the task table. *)
Definition write_rows (rows : list Task) (db : Db) : Db :=
  with_tasks ((λ t, default t (row_get task_id (task_id t) rows)) <$> db_tasks db) db.

Definition _mark_dependency_failures_and_ready (now : Z) (job : string) (db : Db) :
    list string * Db :=
  let rows := job_tasks job db in
  let '(rows, m, _) := mark_loop (S (length rows)) now (status_map rows) rows in
  (task_id <$> select (ready_task m) rows, write_rows rows db).

(** Returns the ids handed to [_enqueue_task_ids]. *)
Definition _advance_job_after_terminal (now : Z) (job : string) (db : Db) : list string * Db :=
  let '(ready, db) := _mark_dependency_failures_and_ready now job db in
  let '(_, db) := finalize_job_if_ready now job db in
  (ready, db).

(** [_maybe_finalize_job]: the dispatcher's own roll-up. *)
Definition _maybe_finalize_job (now : Z) (job : string) (db : Db) : Db :=
  let rows := job_tasks job db in
  match rows with
  | [] => db
  | _ =>
      if has_status "pending" rows || has_status "running" rows then db
      else
        let new_status :=
          if has_status "failed" rows then "failed"
          else if has_status "cancelled" rows || has_status "cancelled_dirty" rows then "cancelled"
          else "succeeded" in
        match get_job job db with
        | None => db
        | Some j =>
            if decide (j_status j = new_status) then db
            else
              let j := set_j_finished_at (set_j_status j new_status) (Some now) in
              put_job (if decide (new_status = "failed") then copy_first_error rows j else j) db
        end
  end.

Definition _post_terminal (now : Z) (job : string) (db : Db) : list string * Db :=
  _advance_job_after_terminal now job (_maybe_finalize_job now job db).

(** [name.removesuffix("Error")] *)
Definition remove_error_suffix (name : string) : string :=
  let n := (String.length name - 5)%nat in
  if decide (5 ≤ String.length name)%nat then
    if decide (String.substring n 5 name = "Error") then String.substring 0 n name else name
  else name.

Section dispatcher.
Context (reg : Registry) (svc : ArtifactServices).
Context (sanitize_public_error_message : exn → string).
Context (WORKER_ID : string) (lease_ttl_seconds : Z).

Definition _owns_live_running_lease (now : Z) (t : Task) : bool :=
  bool_decide (t_status t = "running") &&
  bool_decide (worker_id t = Some WORKER_ID) &&
  match lease_expires_at t with Some e => now <? e | None => false end.

Definition with_resources (r : resources) (db : Db) : Db :=
  mkDb (db_tasks db) (db_jobs db) (db_artifacts db) (db_events db) r.1 r.2.

Definition _run_status_hook (t : Task) (status : string) (db : Db) : res exn Db :=
  match get_status_hook (kind t) reg with
  | None => Ok db
  | Some hook => r ← hook t status (db_recons db, db_other db); Ok (with_resources r db)
  end.

Definition _run_success_hook (t : Task) (outputs : value) (db : Db) : res exn Db :=
  match get_success_hook (kind t) reg with
  | None => Ok db
  | Some hook => r ← hook t outputs (db_recons db, db_other db); Ok (with_resources r db)
  end.

Definition _finalize_task (now : Z) (t : Task) (status : string)
    (error_class error_message : option string) (db : Db) : res exn Db :=
  let t := set_t_status t status in
  let t := match error_class with Some c => set_t_error_class t (Some c) | None => t end in
  let t := match error_message with Some m => set_t_error_message t (Some m) | None => t end in
  let t := set_t_finished_at t (Some now) in
  _run_status_hook t "failed" (put_task t db).

(** ** First transaction: task pickup *)

Inductive pickup_result : Type :=
  | Returned (r : TaskResult)
  | Started (t : Task)
  | Raised (e : exn).

Definition cancel_before_start (now : Z) (t : Task) (j : Job) (db : Db) :
    pickup_result * Db * list string :=
  match _finalize_task now t (if cancel_force j then "cancelled_dirty" else "cancelled")
          None None db with
  | Err e => (Raised e, db, [])
  | Ok db =>
      let '(queued, db) := _post_terminal now (t_job_id t) db in
      (Returned (returned "cancelled"), db, queued)
  end.

Definition start_task (now : Z) (t : Task) (db : Db) : pickup_result * Db * list string :=
  let t := set_t_started_at (set_t_status t "running") (Some now) in
  match _run_status_hook t "running" (put_task t db) with
  | Err e => (Raised e, db, [])
  | Ok db => (Started t, db, [])
  end.

(** From the lease acquisition to the end of the block. [db0] is the store an
    exception rolls back to. *)
Definition acquire_and_start (now : Z) (tid : string) (db0 : Db) : pickup_result * Db * list string :=
  let '(acquired, rows) :=
    try_acquire_lease tid WORKER_ID lease_ttl_seconds now
      (λ t, bool_decide (t_status t = "pending")) (db_tasks db0) in
  if negb acquired then (Returned (returned "busy"), db0, [])
  else
    let db := with_tasks rows db0 in
    match get_task tid db with
    | None => (Returned (returned "busy"), db0, [])
    | Some t =>
        let '(r, db, queued) :=
          match get_job (t_job_id t) db with
          | Some j => if cancel_requested j then cancel_before_start now t j db
                      else start_task now t db
          | None => start_task now t db
          end in
        match r with Raised _ => (r, db0, []) | _ => (r, db, queued) end
    end.

Definition pickup (now : Z) (tid : string) (db : Db) : pickup_result * Db * list string :=
  match get_task tid db with
  | None => (Returned (returned "missing"), db, [])
  | Some t =>
      if decide (t_status t ≠ "pending") then (Returned (returned (t_status t)), db, [])
      else
        let dep_state := _task_dependency_state db t in
        if decide (dep_state = "blocked") then (Returned (returned "blocked"), db, [])
        else if decide (dep_state = "failed") then
          let db := put_task (dependency_failed now "upstream dependency failed" t) db in
          let '(queued, db) := _advance_job_after_terminal now (t_job_id t) db in
          (Returned (mkTaskResult "failed" (Some "dependency_failed") None), db, queued)
        else if decide (dep_state ∈ CANCELLED_DEPENDENCY_STATUSES) then
          let db := put_task (dependency_cancelled now dep_state t) db in
          let '(queued, db) := _advance_job_after_terminal now (t_job_id t) db in
          (Returned (returned dep_state), db, queued)
        else acquire_and_start now tid db
  end.

(** ** Second transaction: committing what the handler did *)

(** Look the task up again and go on only if this worker still holds its live
    lease. *)
Definition if_still_owned (now : Z) (tid : string) (db : Db)
    (k : Task → res exn (TaskResult * Db * list string)) : res exn (TaskResult * Db * list string) :=
  match get_task tid db with
  | None => Ok (returned "missing", db, [])
  | Some t => if _owns_live_running_lease now t then k t else Ok (returned "lost_lease", db, [])
  end.

Definition cancel_after_handler (now : Z) (t : Task) (db : Db) :
    res exn (TaskResult * Db * list string) :=
  db ← _finalize_task now t "cancelled_dirty" (Some "Cancelled")
         (Some "job cancellation requested before task commit") db;
  let '(queued, db) := _post_terminal now (t_job_id t) db in
  Ok (returned "cancelled_dirty", db, queued).

Definition record_success (now : Z) (t : Task) (outputs : value) (db : Db) :
    res exn (TaskResult * Db * list string) :=
  '(outputs, other) ← register_derived_dataset svc t outputs (db_other db);
  let t := set_t_finished_at (set_outputs_ref_json (set_t_status t "succeeded") (Some outputs))
             (Some now) in
  '(outputs, arts) ← record_task_artifacts svc t outputs (db_artifacts db);
  let t := set_outputs_ref_json t (Some outputs) in
  let db := put_task t
    (mkDb (db_tasks db) (db_jobs db) arts (db_events db) (db_recons db) other) in
  db ← _run_success_hook t outputs db;
  let '(queued, db) := _post_terminal now (t_job_id t) db in
  Ok (mkTaskResult "succeeded" None (Some outputs), db, queued).

Definition job_cancel_requested (t : Task) (db : Db) : bool :=
  match get_job (t_job_id t) db with Some j => cancel_requested j | None => false end.

Definition commit_success (now : Z) (tid : string) (outputs : value) (db : Db) :
    res exn (TaskResult * Db * list string) :=
  if_still_owned now tid db (λ t,
    if job_cancel_requested t db then cancel_after_handler now t db
    else record_success now t outputs db).

Definition commit_failure (now : Z) (tid : string) (cls msg : string) (error : option string)
    (db : Db) : res exn (TaskResult * Db * list string) :=
  if_still_owned now tid db (λ t,
    db ← _finalize_task now t "failed" (Some cls) (Some msg) db;
    let '(queued, db) := _post_terminal now (t_job_id t) db in
    Ok (mkTaskResult "failed" error None, db, queued)).

(** The two [except] clauses. *)
Definition handle_exception (now : Z) (tid : string) (e : exn) (db : Db) :
    res exn (TaskResult * Db * list string) :=
  let public_error := sanitize_public_error_message e in
  if exn_backend_unavailable e then
    commit_failure now tid (remove_error_suffix (exn_class e)) public_error
      (Some "backend_unavailable") db
  else commit_failure now tid (exn_class e) public_error (Some public_error) db.

(** Everything after the handler returned or raised. An exception the second
    transaction raises rolls it back and is handled like the handler's own. *)
Definition complete (now : Z) (tid : string) (outcome : res exn value) (db : Db) :
    res exn (TaskResult * Db * list string) :=
  match outcome with
  | Err e => handle_exception now tid e db
  | Ok outputs =>
      match commit_success now tid outputs db with
      | Err e => handle_exception now tid e db
      | Ok r => Ok r
      end
  end.

(** No handler registered for the task's kind. *)
Definition complete_unknown (now : Z) (tid kind : string) (db : Db) :
    res exn (TaskResult * Db * list string) :=
  commit_failure now tid "UnknownTask" ("No handler for kind=" +:+ kind) None db.

Definition run_handler (h : Handler) (t : Task) : res exn value :=
  raw ← h t; normalize_task_outputs svc t raw.

(** [execute_task]: [interfere] is what the rest of the system does to the store
    while the handler runs; [now0] and [now1] are the clock readings of the two
    transactions. *)
Definition execute_task (now0 now1 : Z) (interfere : Db → Db) (tid : string) (db : Db) :
    res exn TaskResult * Db * list string :=
  let '(r, db, queued) := pickup now0 tid db in
  match r with
  | Returned r => (Ok r, db, queued)
  | Raised e => (Err e, db, queued)
  | Started t =>
      let db := interfere db in
      let done :=
        match dict_get (kind t) (get_registered reg) with
        | None => complete_unknown now1 tid (kind t) db
        | Some h => complete now1 tid (run_handler h t) db
        end in
      match done with
      | Ok (r, db, queued') => (Ok r, db, queued ++ queued')
      | Err e => (Err e, db, queued)
      end
  end.

(** One beat of [_heartbeat]; [false] ends the loop. *)
Definition heartbeat (now : Z) (tid : string) (db : Db) : bool * Db :=
  let '(refreshed, rows) := refresh_lease tid WORKER_ID lease_ttl_seconds now (db_tasks db) in
  (refreshed, with_tasks rows db).

End dispatcher.
End Dispatcher.
