(* ===== verification/Janitor.v ===== *)
(** The background sweeps of [orchestrator/janitor.py]: reclaiming expired
    leases, propagating terminal dependencies, finding the pending tasks to
    enqueue, and deleting old job records. *)
From S2P Require Import Prelude PyValue Errors Readiness Store Sweep JobService.
From stdpp Require Import options.

#[local] Open Scope Z_scope.

Module Janitor.
Import Readiness JobService.

Definition TERMINAL_JOB_STATUSES : list string :=
  ["succeeded"; "failed"; "cancelled"; "cancelled_dirty"].

(** [task.task_state_json["inputs"]["recon_id"]], when each level is there with
    the right type and the id is a non-empty string. *)
Definition _task_recon_id (t : Task) : option string :=
  match task_state_json t with
  | Some (VDict state) =>
      match dict_get "inputs" state with
      | Some (VDict inputs) =>
          match dict_get "recon_id" inputs with
          | Some (VStr r) => if decide (r = "") then None else Some r
          | _ => None
          end
      | _ => None
      end
  | _ => None
  end.

Definition _resource_status_for_task (t : Task) : option string :=
  if decide (t_status t = "failed") then Some "failed"
  else if decide (t_status t ∈ ["cancelled"; "cancelled_dirty"]) then Some (t_status t)
  else None.

(** ** Lease reclaim *)

Definition lease_expired (now : Z) (t : Task) : bool :=
  bool_decide (t_status t = "running") &&
  match lease_expires_at t with Some e => e <? now | None => false end.

Definition reset_lease (t : Task) : Task :=
  set_lease_expires_at (set_worker_id (set_t_status t "pending") None) None.

Definition reclaim_expired_leases (now : Z) (db : Db) : list string * Db :=
  let reclaimed := task_id <$> select (lease_expired now) (db_tasks db) in
  match reclaimed with
  | [] => ([], db)
  | _ =>
      (reclaimed,
       with_tasks (update_where (λ t, lease_expired now t && bool_decide (task_id t ∈ reclaimed))
                     reset_lease (db_tasks db)) db)
  end.

(** ** Dependency sweeps *)

(** The pending rows, and the statuses of those rows and of every row they
    depend on. *)
Definition _load_pending_tasks_with_dep_statuses (db : Db) : list Task * gmap string string :=
  let pending := select (λ t, bool_decide (t_status t = "pending")) (db_tasks db) in
  let status_by_id := status_map pending in
  let dep_ids := pending ≫= task_deps in
  let unknown := filter (λ dep, status_by_id !! dep = None) dep_ids in
  let rows := select (λ t, bool_decide (task_id t ∈ unknown)) (db_tasks db) in
  (pending, status_map rows ∪ status_by_id).

Definition find_ready_pending_tasks (db : Db) : list string :=
  let '(pending, status_by_id) := _load_pending_tasks_with_dep_statuses db in
  task_id <$> select (λ t,
    match task_state_json t with
    | None => false
    | Some _ => dependencies_ready (task_deps t) status_by_id
    end) pending.

(** What one sweep accumulates besides the rows themselves. *)
Record SweepState : Type := mkSweepState {
  sw_status : gmap string string;
  sw_changed : list string;
  sw_jobs : list string;
  sw_recons : gmap (string * string) string
}.

Definition terminal_message (deps : list string) (m : gmap string string) : string :=
  if existsb (λ dep, bool_decide (m !! dep = None)) deps
  then "upstream dependency missing" else "upstream dependency failed".

(** The new row of a pending task whose dependency state is terminal. *)
Definition terminate (now : Z) (m : gmap string string) (t : Task) (state : string) : Task :=
  let t :=
    if decide (state = "failed") then
      set_t_error_message
        (set_t_error_class (set_t_status t "failed") (Some "DependencyFailed"))
        (Some (terminal_message (task_deps t) m))
    else
      set_t_error_message
        (set_t_error_class (set_t_status t state) (Some "DependencyCancelled"))
        (Some "upstream dependency cancelled") in
  set_t_finished_at t (Some now).

(** One iteration of the inner loop of [propagate_terminal_dependencies]; the
    last component is whether the task progressed. *)
Definition propagate_task (now : Z) (s : SweepState) (t : Task) : Task * SweepState * bool :=
  if decide (sw_status s !! task_id t ≠ Some "pending") then (t, s, false)
  else
    let state := dependency_state (task_deps t) (sw_status s) in
    if decide (state ∈ ["ready"; "blocked"]) then (t, s, false)
    else
      let t := terminate now (sw_status s) t state in
      let recons :=
        match _task_recon_id t, _resource_status_for_task t with
        | Some r, Some st => <[(t_tenant_id t, r) := st]> (sw_recons s)
        | _, _ => sw_recons s
        end in
      (t, mkSweepState (<[task_id t := t_status t]> (sw_status s)) (sw_changed s ++ [task_id t])
            (sw_jobs s ++ [t_job_id t]) recons, true).

(** [while progressed: for task in pending: ...], at most [fuel] passes; the last
    component says the loop left by its own condition. *)
Definition propagate_loop (fuel : nat) (now : Z) (s : SweepState) (rows : list Task) :
    list Task * SweepState * bool :=
  sweep_loop (propagate_task now) fuel s rows.

Definition update_recons (affected : gmap (string * string) string) (rs : list Reconstruction) :
    list Reconstruction :=
  (λ r, match affected !! (r_tenant_id r, recon_id r) with
        | Some s => set_r_status s r
        | None => r
        end) <$> rs.

(** [for job_id in affected_jobs: finalize_job_if_ready] over the set of jobs. *)
Definition finalize_jobs (now : Z) (jobs : list string) (db : Db) : Db :=
  foldl (λ db job, (finalize_job_if_ready now job db).2) db jobs.

Definition write_back (rows : list Task) (affected : gmap (string * string) string) (db : Db) : Db :=
  mkDb ((λ t, default t (row_get task_id (task_id t) rows)) <$> db_tasks db)
    (db_jobs db) (db_artifacts db) (db_events db) (update_recons affected (db_recons db)) (db_other db).

Definition propagate_terminal_dependencies (now : Z) (db : Db) : list string * Db :=
  let '(pending, status_by_id) := _load_pending_tasks_with_dep_statuses db in
  let '(rows, s, _) :=
    propagate_loop (S (length pending)) now (mkSweepState status_by_id [] [] ∅) pending in
  match sw_changed s with
  | [] => ([], db)
  | changed => (changed, finalize_jobs now (remove_dups (sw_jobs s)) (write_back rows (sw_recons s) db))
  end.

(** ** Retention *)

Definition days (n : Z) : Z := n * 86400 * 1000000.

Definition gc_eligible (cutoff : Z) (j : Job) : bool :=
  bool_decide (j_status j ∈ TERMINAL_JOB_STATUSES) && negb (pinned j) &&
  match j_finished_at j with Some f => f <? cutoff | None => false end.

Definition gc_expired_job_records (retention_days : option Z) (now : Z) (db : Db) : nat * Db :=
  match retention_days with
  | None => (0%nat, db)
  | Some d =>
      let jobs := select (gc_eligible (now - days d)) (db_jobs db) in
      match jobs with
      | [] => (0%nat, db)
      | _ =>
          let job_ids := job_id <$> jobs in
          let doomed (id : string) := bool_decide (id ∈ job_ids) in
          (length jobs,
           mkDb (delete_where (λ t, doomed (t_job_id t)) (db_tasks db))
             (delete_where (λ j, doomed (job_id j)) (db_jobs db))
             (delete_where (λ a, doomed (sa_job_id a)) (db_artifacts db))
             (delete_where (λ e, doomed (je_job_id e)) (db_events db))
             (db_recons db) (db_other db))
      end
  end.

(** [run_janitor_once], every phase succeeding: the reclaimed ids, the ids
    handed to the queue, and the store. [dict.fromkeys] keeps first
    occurrences. *)
Fixpoint first_occurrences (seen l : list string) : list string :=
  match l with
  | [] => []
  | x :: l => if decide (x ∈ seen) then first_occurrences seen l
              else x :: first_occurrences (x :: seen) l
  end.

Definition run_janitor_once (retention_days : option Z) (now : Z) (db : Db) :
    list string * list string * Db :=
  let '(reclaimed, db) := reclaim_expired_leases now db in
  let '(_, db) := propagate_terminal_dependencies now db in
  let ready_pending := find_ready_pending_tasks db in
  let enqueue_ids := first_occurrences [] (reclaimed ++ ready_pending) in
  let '(_, db) := gc_expired_job_records retention_days now db in
  (reclaimed, enqueue_ids, db).

End Janitor.
