(* ===== verification/Scheduler.v ===== *)
(** Submitting a job ([orchestrator/scheduler.py]) and resuming one
    ([orchestrator/resume.py]). *)
From S2P Require Import Prelude PyValue Errors Readiness Store JobService.
From stdpp Require Import options.
Import Errors.

#[local] Open Scope Z_scope.

Module Scheduler.
Import Readiness Dag JobService.

(** Add to [status_by_id] the statuses of the dependencies outside the
    submission. *)
Definition _resolve_external_dep_statuses (db : Db) (tasks : list Task) (m : gmap string string) :
    gmap string string :=
  let external := filter (λ dep, m !! dep = None) (tasks ≫= task_deps) in
  match external with
  | [] => m
  | _ => status_map (select (λ t, bool_decide (task_id t ∈ external)) (db_tasks db)) ∪ m
  end.

(** [for n in nodes: if not n.task_id: n.task_id = new_id()]: the i-th fresh id
    is [new_id i]. *)
Fixpoint assign_ids (new_id : nat → string) (i : nat) (nodes : list TaskNode) : list TaskNode :=
  match nodes with
  | [] => []
  | n :: nodes =>
      (if decide (n_task_id n = "") then set_n_task_id (new_id i) n else n)
        :: assign_ids new_id (S i) nodes
  end.

Section with_services.
Context (svc : ArtifactServices).

(** [submit_job_dag]: the job id, the task rows, the ids enqueued, the store. *)
Definition submit_job_dag (new_id : nat → string) (rv : string) (now : Z)
    (tenant project recipe : string) (spec : option value) (nodes : list TaskNode) (db : Db) :
    res exn (string * list Task * list string * Db) :=
  let '(job, db) := create_job (new_id 0%nat) now tenant project recipe spec db in
  let nodes := assign_ids new_id 1 nodes in
  '(tasks, db) ← materialize_dag svc tenant (job_id job) rv now nodes db;
  let status_by_id := status_map tasks in
  let pending := select (λ t, negb (bool_decide (t_status t = "succeeded"))) tasks in
  match pending with
  | [] =>
      let '(_, db) := finalize_job_if_ready now (job_id job) db in
      Ok (job_id job, tasks, [], db)
  | _ =>
      let status_by_id := _resolve_external_dep_statuses db pending status_by_id in
      let ready := select (λ t, dependencies_ready (task_deps t) status_by_id) pending in
      Ok (job_id job, tasks, task_id <$> ready, db)
  end.

End with_services.

(** ** Resume *)

Definition RESUMABLE : list string := ["failed"; "cancelled"; "cancelled_dirty"].

Definition reset_task (t : Task) : Task :=
  set_t_finished_at
    (set_t_started_at
      (set_worker_id
        (set_lease_expires_at
          (set_t_error_message (set_t_error_class (set_t_status t "pending") None) None)
          None) None) None) None.

Definition reset_job (j : Job) : Job :=
  set_j_finished_at
    (set_j_started_at
      (set_j_error_message
        (set_j_error_class
          (set_j_status (set_cancel_force (set_cancel_requested j false) false) "pending")
          None) None) None) None.

Definition resumable (t : Task) : bool := bool_decide (t_status t ∈ RESUMABLE).

(** [resume_job]: the job, the ids enqueued, the store. *)
Definition resume_job (tenant job : string) (db : Db) : res api_error (Job * list string * Db) :=
  j ← find_job tenant job db;
  _ ← raise_if (negb (bool_decide (j_status j ∈ RESUMABLE)))
        (api_error_init ValidationError
          ("Job " +:+ job +:+ " is not resumable from status '" +:+ j_status j +:+ "'") []);
  let tasks := job_tasks job db in
  _ ← raise_if (bool_decide (length (select resumable tasks) = 0%nat))
        (api_error_init ValidationError
          ("Job " +:+ job +:+ " has no failed or cancelled tasks to resume") []);
  let tasks := update_where resumable reset_task tasks in
  let db := with_tasks
    (update_where (λ t, bool_decide (t_job_id t = job) && resumable t) reset_task (db_tasks db)) db in
  let j := reset_job j in
  let db := put_job j db in
  let status_by_id := status_map tasks in
  let ready_ids := task_id <$> select (λ t,
    bool_decide (t_status t = "pending") && dependencies_ready (task_deps t) status_by_id) tasks in
  Ok (j, ready_ids, db).

End Scheduler.
