(* ===== verification/TaskRows.v ===== *)
(** How the orchestrator's statements move task rows: the columns that never
    change, the relations between a row before and after, and the facts about
    whole-table updates that the lifecycle proofs rest on. *)
From S2P Require Import Prelude PyValue Errors Readiness Store Sweep JobService Dispatcher Janitor.
From stdpp Require Import options.
Import Readiness.

#[local] Open Scope Z_scope.

(** ** Identity columns *)

(** The columns written once, at insertion. *)
Record same_identity (t t' : Task) : Prop := {
  same_id : task_id t' = task_id t;
  same_tenant : t_tenant_id t' = t_tenant_id t;
  same_job : t_job_id t' = t_job_id t;
  same_kind : kind t' = kind t;
  same_key : Store.cache_key t' = Store.cache_key t;
  same_deps : depends_on_json t' = depends_on_json t;
  same_state : task_state_json t' = task_state_json t
}.

#[export] Instance same_identity_preorder : PreOrder same_identity.
Proof.
  split; [by intros t|]. intros t1 t2 t3 [] []. split; congruence.
Qed.

(** Terminal statuses a row can be given without running its handler. *)
Definition doomed_status (s : string) : Prop :=
  s = "failed" ∨ s = "cancelled" ∨ s = "cancelled_dirty".

(** A sweep leaves a row alone or moves it from [pending] to a doomed status;
    lease, worker and outputs stay. *)
Definition doom (t t' : Task) : Prop :=
  t' = t ∨
  (t_status t = "pending" ∧ doomed_status (t_status t') ∧ same_identity t t' ∧
   outputs_ref_json t' = outputs_ref_json t ∧ worker_id t' = worker_id t ∧
   lease_expires_at t' = lease_expires_at t).

#[export] Instance doom_preorder : PreOrder doom.
Proof.
  split; [by left|]. intros t1 t2 t3 [->|H12] [->|H23]; [by left|by right|by right|].
  destruct H12 as (? & [Hs|[Hs|Hs]] & _), H23 as (? & _); congruence.
Qed.

Lemma doom_identity t t' : doom t t' → same_identity t t'.
Proof. intros [->|(_ & _ & ? & _)]; [reflexivity|done]. Qed.

Lemma doom_not_pending t t' : doom t t' → t_status t ≠ "pending" → t' = t.
Proof. intros [|(? & _)]; congruence. Qed.

(** ** Whole tables *)

(** Row-by-row relation between the task tables of two stores. *)
Definition tasks_rel (R : Task → Task → Prop) (db db' : Db) : Prop :=
  Forall2 R (db_tasks db) (db_tasks db').

Lemma tasks_rel_refl (R : Task → Task → Prop) `{!Reflexive R} db db' :
  db_tasks db' = db_tasks db → tasks_rel R db db'.
Proof. unfold tasks_rel. intros ->. reflexivity. Qed.

Lemma tasks_rel_keys R db db' :
  (∀ t t', R t t' → task_id t' = task_id t) → tasks_rel R db db' →
  task_id <$> db_tasks db' = task_id <$> db_tasks db.
Proof.
  intros HR H. unfold tasks_rel in H. induction H as [|t t' l l' Ht Hl IH]; [done|].
  cbn. rewrite IH. f_equal. auto.
Qed.

Lemma tasks_rel_elem R db db' t' :
  tasks_rel R db db' → t' ∈ db_tasks db' → ∃ t, t ∈ db_tasks db ∧ R t t'.
Proof.
  intros H Ht. eapply Forall2_flip in H. unfold flip in H.
  induction H as [|x y l l' ? ? IH]; [by apply elem_of_nil in Ht|].
  apply elem_of_cons in Ht as [->|Ht]; [set_solver|].
  destruct (IH Ht) as (t & ? & ?). set_solver.
Qed.

Lemma tasks_rel_elem_l R db db' t :
  tasks_rel R db db' → t ∈ db_tasks db → ∃ t', t' ∈ db_tasks db' ∧ R t t'.
Proof.
  unfold tasks_rel. intros H Ht.
  induction H as [|x y l l' ? ? IH]; [by apply elem_of_nil in Ht|].
  apply elem_of_cons in Ht as [->|Ht]; [set_solver|].
  destruct (IH Ht) as (t' & ? & ?). set_solver.
Qed.

Lemma tasks_rel_get R db db' id :
  (∀ t t', R t t' → task_id t' = task_id t) → tasks_rel R db db' →
  match get_task id db, get_task id db' with
  | Some t, Some t' => R t t'
  | None, None => True
  | _, _ => False
  end.
Proof.
  intros HR H. unfold tasks_rel, get_task in *. induction H as [|t t' l l' Ht Hl IH]; [done|].
  cbn. rewrite (HR _ _ Ht). by case_decide.
Qed.

Lemma Forall2_compose {A} (P Q R : A → A → Prop) l1 l2 l3 :
  (∀ x y z, P x y → Q y z → R x z) → Forall2 P l1 l2 → Forall2 Q l2 l3 → Forall2 R l1 l3.
Proof.
  intros HR H12. revert l3. induction H12; intros l3 H23; inversion H23; subst; constructor; eauto.
Qed.

Lemma tasks_rel_compose P Q R db1 db2 db3 :
  (∀ x y z, P x y → Q y z → R x z) →
  tasks_rel P db1 db2 → tasks_rel Q db2 db3 → tasks_rel R db1 db3.
Proof. unfold tasks_rel. apply Forall2_compose. Qed.

Lemma tasks_rel_mono (P Q : Task → Task → Prop) db db' :
  (∀ x y, P x y → Q x y) → tasks_rel P db db' → tasks_rel Q db db'.
Proof. intros HPQ. unfold tasks_rel. intros H. eapply Forall2_impl; eauto. Qed.

Lemma fmap_Forall2 {A} (R : A → A → Prop) (f : A → A) l :
  (∀ x, x ∈ l → R x (f x)) → Forall2 R l (f <$> l).
Proof.
  induction l as [|x l IH]; intros H; cbn; constructor; [apply H; set_solver|].
  apply IH. set_solver.
Qed.

(** Replacing one row. *)
Lemma tasks_rel_put t t0 db :
  keys_unique db → get_task (task_id t) db = Some t0 →
  tasks_rel (λ x x', x' = x ∨ (x = t0 ∧ x' = t)) db (put_task t db).
Proof.
  intros [Hk _] [Ht0 Hid]%get_task_elem. unfold tasks_rel. cbn. apply fmap_Forall2.
  intros x Hx. case_bool_decide as Heq; [right|by left]. split; [|done].
  eapply row_get_unique; [exact Hk|done..|congruence].
Qed.

(** ** Writing back the rows a sweep produced *)

Lemma Forall2_row_get (R : Task → Task → Prop) rows rows' id :
  (∀ t t', R t t' → task_id t' = task_id t) → Forall2 R rows rows' →
  match row_get task_id id rows, row_get task_id id rows' with
  | Some t, Some t' => R t t'
  | None, None => True
  | _, _ => False
  end.
Proof.
  intros HR. induction 1 as [|t t' l l' Ht Hl IH]; cbn; [done|].
  rewrite (HR _ _ Ht). by case_decide.
Qed.

Definition written (rows : list Task) (t : Task) : Task :=
  default t (row_get task_id (task_id t) rows).

(** [sel] are rows of the table, [rows] what the sweep made of them. *)
Lemma written_rel (R : Task → Task → Prop) `{!Reflexive R} tasks sel rows t :
  (∀ t t', R t t' → task_id t' = task_id t) →
  NoDup (task_id <$> tasks) → (∀ x, x ∈ sel → x ∈ tasks) → Forall2 R sel rows →
  t ∈ tasks → R t (written rows t).
Proof.
  intros HR Hd Hsub Hrows Ht. unfold written.
  pose proof (Forall2_row_get R sel rows (task_id t) HR Hrows) as H.
  destruct (row_get task_id (task_id t) rows) as [t'|]; cbn; [|reflexivity].
  destruct (row_get task_id (task_id t) sel) as [t0|] eqn:Hsel; [|done].
  apply row_get_elem in Hsel as [Hin Hid].
  by rewrite (row_get_unique task_id tasks t t0 Hd Ht (Hsub _ Hin)).
Qed.

Lemma written_other tasks sel rows t :
  NoDup (task_id <$> tasks) → (∀ x, x ∈ sel → x ∈ tasks) →
  task_id <$> rows = task_id <$> sel → t ∈ tasks → t ∉ sel → written rows t = t.
Proof.
  intros Hd Hsub Hk Ht Hn. unfold written.
  destruct (row_get task_id (task_id t) rows) as [t'|] eqn:Hg; [|done].
  apply row_get_elem in Hg as [Hin Hid]. exfalso.
  assert (task_id t ∈ task_id <$> sel) as (s & Hs & Hsel)%list_elem_of_fmap.
  { rewrite <-Hk, <-Hid. by apply list_elem_of_fmap_2. }
  by rewrite (row_get_unique task_id tasks t s Hd Ht (Hsub _ Hsel) Hs) in Hn.
Qed.

Lemma Forall2_keys (R : Task → Task → Prop) rows rows' :
  (∀ t t', R t t' → task_id t' = task_id t) → Forall2 R rows rows' →
  task_id <$> rows' = task_id <$> rows.
Proof.
  intros HR. induction 1 as [|t t' l l' Ht Hl IH]; [done|]. cbn. rewrite IH. f_equal. auto.
Qed.

(** A status map that agrees with the rows it was made from. *)
Definition agrees (m : gmap string string) (rows : list Task) : Prop :=
  NoDup (task_id <$> rows) ∧ ∀ t, t ∈ rows → m !! task_id t = Some (t_status t).

Lemma status_map_agrees rows : NoDup (task_id <$> rows) → agrees (status_map rows) rows.
Proof.
  intros Hd. split; [done|]. intros t Ht. rewrite status_map_lookup by done.
  by rewrite elem_row_get.
Qed.

Lemma agrees_replace m l1 t l2 t' :
  agrees m (l1 ++ t :: l2) → task_id t' = task_id t →
  agrees (<[task_id t' := t_status t']> m) (l1 ++ t' :: l2).
Proof.
  unfold agrees. rewrite !fmap_app, !fmap_cons. intros [Hd Hm] Hid. rewrite Hid. split; [done|].
  intros x Hx. rewrite elem_of_app, elem_of_cons in Hx.
  destruct (decide (task_id x = task_id t)) as [He|Hne].
  - rewrite He, lookup_insert_eq.
    apply NoDup_app in Hd as (Hd1 & Hd2 & Hd3). apply NoDup_cons in Hd3 as [Hd4 _].
    destruct Hx as [Hx|[->|Hx]]; [|done|].
    + apply list_elem_of_fmap_2 with (f := task_id) in Hx. rewrite He in Hx.
      apply Hd2 in Hx. set_solver.
    + apply list_elem_of_fmap_2 with (f := task_id) in Hx. by rewrite He in Hx.
  - rewrite lookup_insert_ne by done. apply Hm. rewrite elem_of_app, elem_of_cons.
    destruct Hx as [?|[->|?]]; [by left|done|by right; right].
Qed.

(** [finalize_job_if_ready] writes the job table only. *)
Lemma finalize_job_tasks now job db :
  db_tasks (JobService.finalize_job_if_ready now job db).2 = db_tasks db.
Proof. unfold JobService.finalize_job_if_ready. repeat case_match; done. Qed.

Lemma maybe_finalize_tasks now job db :
  db_tasks (Dispatcher._maybe_finalize_job now job db) = db_tasks db.
Proof. unfold Dispatcher._maybe_finalize_job. repeat case_match; done. Qed.

Lemma put_job_keys j db : keys_unique db → keys_unique (put_job j db).
Proof. intros [? ?]. split; [done|]. cbn. by rewrite put_row_keys. Qed.

Lemma finalize_job_keys now job db :
  keys_unique db → keys_unique (JobService.finalize_job_if_ready now job db).2.
Proof.
  intros H. unfold JobService.finalize_job_if_ready. repeat case_match; cbn; auto using put_job_keys.
Qed.

Lemma maybe_finalize_keys now job db :
  keys_unique db → keys_unique (Dispatcher._maybe_finalize_job now job db).
Proof.
  intros H. unfold Dispatcher._maybe_finalize_job. repeat case_match; cbn; auto using put_job_keys.
Qed.

Lemma tasks_rel_unique R db db' :
  (∀ t t', R t t' → task_id t' = task_id t) → tasks_rel R db db' → job_id <$> db_jobs db' = job_id <$> db_jobs db →
  keys_unique db → keys_unique db'.
Proof.
  intros HR Hrel Hj [Ht Hjj]. split; [by rewrite (tasks_rel_keys R db db')|by rewrite Hj].
Qed.

Lemma row_get_app {A} (key : A → string) id l1 l2 :
  row_get key id (l1 ++ l2) =
    match row_get key id l1 with Some r => Some r | None => row_get key id l2 end.
Proof. induction l1 as [|r l1 IH]; cbn; [done|]. by case_decide. Qed.

Lemma status_map_replace l1 t l2 t' :
  NoDup (task_id <$> l1 ++ t :: l2) → task_id t' = task_id t →
  <[task_id t' := t_status t']> (status_map (l1 ++ t :: l2)) = status_map (l1 ++ t' :: l2).
Proof.
  intros Hd Hid. apply map_eq. intros id.
  assert (NoDup (task_id <$> l1 ++ t' :: l2)) as Hd'.
  { by rewrite !fmap_app, !fmap_cons, Hid in *. }
  rewrite (status_map_lookup (l1 ++ t' :: l2)), Hid by done.
  destruct (decide (task_id t = id)) as [<-|Hne].
  - rewrite lookup_insert_eq, <-Hid, elem_row_get; [done|done|set_solver].
  - rewrite lookup_insert_ne, status_map_lookup by done. rewrite !row_get_app. cbn.
    rewrite Hid. by rewrite !decide_False by done.
Qed.

Lemma written_fmap sel rows :
  NoDup (task_id <$> sel) → Forall2 (λ t t', task_id t' = task_id t) sel rows →
  written rows <$> sel = rows.
Proof.
  intros Hd H. apply list_eq. intros i. rewrite list_lookup_fmap.
  pose proof (Forall2_keys _ _ _ (λ _ _ H, H) H) as Hk.
  destruct (sel !! i) as [t|] eqn:Hi; cbn.
  - destruct (Forall2_lookup_l _ _ _ _ _ H Hi) as (t' & Hi' & Hid). rewrite Hi'. f_equal.
    unfold written. rewrite <-Hid.
    rewrite elem_row_get; [done|by rewrite Hk|by eapply list_elem_of_lookup_2].
  - symmetry. apply lookup_ge_None. apply lookup_ge_None in Hi.
    by rewrite <-(Forall2_length _ _ _ H).
Qed.

Lemma select_fmap {A} (p : A → bool) (f : A → A) rows :
  (∀ x, x ∈ rows → p (f x) = p x) → select p (f <$> rows) = f <$> select p rows.
Proof.
  intros H. unfold select. induction rows as [|x rows IH]; [done|]. cbn.
  rewrite (H x) by set_solver. rewrite IH by set_solver. by destruct (p x).
Qed.

(** What is selected after the write-back is what the sweep produced. *)
Lemma select_write_back (p : Task → bool) tasks rows :
  NoDup (task_id <$> tasks) → Forall2 same_identity (select p tasks) rows →
  (∀ t t', same_identity t t' → t ∈ select p tasks → t' ∈ rows → p t' = p t) →
  select p (written rows <$> tasks) = rows.
Proof.
  intros Hd Hrows Hp.
  assert (∀ x, x ∈ tasks → same_identity x (written rows x)) as Hid.
  { intros x Hx. eapply (written_rel same_identity tasks (select p tasks)); [by intros ?? []|done| |done|done].
    intros y Hy. by apply elem_of_select in Hy as [_ ?]. }
  rewrite select_fmap.
  - apply written_fmap; [by apply select_NoDup|]. eapply Forall2_impl; [exact Hrows|]. by intros ?? [].
  - intros x Hx. destruct (p x) eqn:Hpx.
    + rewrite <-Hpx. apply Hp; [by apply Hid|by apply elem_of_select|].
      unfold written. destruct (row_get task_id (task_id x) rows) as [r|] eqn:Hg.
      { cbn. by apply row_get_elem in Hg as [? _]. }
      exfalso. rewrite row_get_None in Hg.
      assert (task_id x ∈ task_id <$> rows) as (r & Hr & Hin)%list_elem_of_fmap.
      { rewrite (Forall2_keys same_identity (select p tasks) rows); [|by intros ?? []|done].
        apply list_elem_of_fmap_2. by apply elem_of_select. }
      by apply (Hg r).
    + rewrite (written_other tasks (select p tasks) rows x); [done|done| | |done|].
      * intros y Hy. by apply elem_of_select in Hy as [_ ?].
      * apply (Forall2_keys same_identity); [by intros ?? []|done].
      * intros Hy. apply elem_of_select in Hy as [Hy _]. congruence.
Qed.

(** The roll-ups and sweeps leave the artifact table alone. *)
Lemma post_terminal_artifacts now job db q db' :
  Dispatcher._post_terminal now job db = (q, db') → db_artifacts db' = db_artifacts db.
Proof.
  unfold Dispatcher._post_terminal, Dispatcher._advance_job_after_terminal,
    Dispatcher._mark_dependency_failures_and_ready.
  destruct (Dispatcher.mark_loop _ _ _ _) as [[rows m] b].
  destruct (JobService.finalize_job_if_ready _ _ _) as [o db2] eqn:Hf. intros [= _ <-].
  assert (∀ d, db_artifacts (Dispatcher._maybe_finalize_job now job d) = db_artifacts d) as Hm.
  { intros d. unfold Dispatcher._maybe_finalize_job. repeat case_match; done. }
  apply (f_equal (λ p, db_artifacts p.2)) in Hf. cbn in Hf. rewrite <-Hf.
  unfold JobService.finalize_job_if_ready. repeat case_match; cbn; apply Hm.
Qed.
