(* ===== verification/SweepFacts.v ===== *)
(** Facts about the two dependency sweeps: the dispatcher's
    [_mark_dependency_failures_and_ready] and the janitor's
    [propagate_terminal_dependencies]. *)
From S2P Require Import Prelude PyValue Errors Readiness Store Sweep JobService Dispatcher Janitor TaskRows.
From stdpp Require Import options.
Import Readiness.

#[local] Open Scope Z_scope.

Lemma state_cancelled deps m :
  dependency_state deps m ∈ CANCELLED_DEPENDENCY_STATUSES ↔
  dependency_state deps m = "cancelled" ∨ dependency_state deps m = "cancelled_dirty".
Proof. unfold CANCELLED_DEPENDENCY_STATUSES. set_solver. Qed.

(** ** The dispatcher's sweep *)
Section mark.
Import Dispatcher.

Lemma mark_task_cases now m t t' m' c :
  mark_task now m t = (t', m', c) →
  (c = false ∧ t' = t ∧ m' = m ∧
   (t_status t = "pending" → task_deps t ≠ [] →
    dependency_state (task_deps t) m ∈ ["ready"; "blocked"])) ∨
  (c = true ∧ doom t t' ∧ t_status t = "pending" ∧ doomed_status (t_status t') ∧
   task_deps t ≠ [] ∧ t_status t' = dependency_state (task_deps t) m ∧
   m' = <[task_id t' := t_status t']> m).
Proof.
  unfold mark_task. destruct (decide _) as [Hp|Hp].
  { intros [= <- <- <-]. left. split_and!; done. }
  apply dec_stable in Hp. destruct (task_deps t) as [|d deps] eqn:Hdeps.
  { intros [= <- <- <-]. left. split_and!; done. }
  pose proof (dependency_state_cases (d :: deps) m) as Hcases.
  destruct (decide _) as [Hf|Hf].
  { intros [= <- <- <-]. right. split_and!; try done; [|by left].
    right. split_and!; try done. by left. }
  destruct (decide _) as [Hc|Hc].
  - intros [= <- <- <-]. right. rewrite state_cancelled in Hc.
    assert (doomed_status (dependency_state (d :: deps) m)) by (destruct Hc as [-> | ->]; unfold doomed_status; tauto).
    split_and!; try done. right. split_and!; done.
  - intros [= <- <- <-]. left. split_and!; [done..|]. rewrite state_cancelled in Hc. set_solver.
Qed.

Lemma mark_task_idle now m t t' m' : mark_task now m t = (t', m', false) → t' = t ∧ m' = m.
Proof. intros [(_ & ? & ? & _)|(? & _)]%mark_task_cases; done. Qed.

Lemma mark_task_doom now m t t' m' c : mark_task now m t = (t', m', c) → doom t t'.
Proof. intros [(_ & -> & _)|(_ & ? & _)]%mark_task_cases; [by left|done]. Qed.

Definition mark_invariant (m : gmap string string) (rows : list Task) : Prop :=
  NoDup (task_id <$> rows) ∧ m = status_map rows.

Definition is_pending (t : Task) : bool := bool_decide (t_status t = "pending").

Lemma mark_invariant_step now m l1 t l2 t' m' c :
  mark_invariant m (l1 ++ t :: l2) → mark_task now m t = (t', m', c) →
  mark_invariant m' (l1 ++ t' :: l2).
Proof.
  intros [Hd ->] H. pose proof (same_id _ _ (doom_identity _ _ (mark_task_doom _ _ _ _ _ _ H))) as Hid.
  apply mark_task_cases in H as [(_ & -> & -> & _)|(_ & _ & _ & _ & _ & _ & ->)]; [by split|].
  split; [|by apply status_map_replace]. by rewrite !fmap_app, !fmap_cons, Hid in *.
Qed.

Lemma mark_task_active now m l1 t l2 t' m' :
  mark_invariant m (l1 ++ t :: l2) → mark_task now m t = (t', m', true) →
  is_pending t = true ∧ is_pending t' = false.
Proof.
  intros _ [(? & _)|(_ & _ & Hp & Hs & _)]%mark_task_cases; [done|].
  unfold is_pending. rewrite bool_decide_eq_true, bool_decide_eq_false.
  split; [done|]. destruct Hs as [-> |[-> | ->]]; done.
Qed.

(** Everything about one run of the marking loop over the rows of a job. *)
Lemma mark_loop_spec now rows :
  NoDup (task_id <$> rows) →
  ∃ rows' m', mark_loop (S (length rows)) now (status_map rows) rows = (rows', m', true) ∧
    Forall2 doom rows rows' ∧ m' = status_map rows' ∧
    ∀ t, t ∈ rows' → t_status t = "pending" → task_deps t ≠ [] →
      dependency_state (task_deps t) m' ∈ ["ready"; "blocked"].
Proof.
  intros Hd. unfold mark_loop.
  destruct (sweep_loop _ _ _ _) as [[rows' m'] b] eqn:H.
  assert (mark_invariant (status_map rows) rows) as Hinv by (by split).
  assert (b = true) as ->.
  { pose proof (sweep_loop_terminates (mark_task now) (mark_task_idle now) mark_invariant is_pending
      (mark_invariant_step now) (mark_task_active now) (S (length rows)) _ _ Hinv) as Ht.
    rewrite H in Ht. apply Ht. pose proof (active_count_le is_pending rows). lia. }
  exists rows', m'. split; [done|].
  pose proof (sweep_loop_rel (mark_task now) doom (mark_task_doom now) _ _ _ _ _ _ H).
  pose proof (sweep_loop_inv (mark_task now) (mark_task_idle now) mark_invariant is_pending
    (mark_invariant_step now) (mark_task_active now) _ _ _ _ _ _ Hinv H) as [_ ->].
  split_and!; [done..|]. intros t Ht Hp Hdeps.
  pose proof (sweep_loop_fixpoint (mark_task now) (mark_task_idle now) _ _ _ _ _ H t Ht) as Hfix.
  apply mark_task_cases in Hfix as [(_ & _ & _ & Hs)|(? & _)]; [by apply Hs|done].
Qed.

(** The store after the sweep: every row is left alone or doomed, and the job's
    rows are the ones the loop ended with. *)
Lemma mark_store_spec now job db ready db' :
  keys_unique db → _mark_dependency_failures_and_ready now job db = (ready, db') →
  tasks_rel doom db db' ∧ db_jobs db' = db_jobs db ∧
  (∀ t, t ∈ db_tasks db → t_job_id t ≠ job → t ∈ db_tasks db') ∧
  (∀ t, t ∈ job_tasks job db' → t_status t = "pending" → task_deps t ≠ [] →
     dependency_state (task_deps t) (status_map (job_tasks job db')) ∈ ["ready"; "blocked"]) ∧
  ready = task_id <$> select (ready_task (status_map (job_tasks job db'))) (job_tasks job db').
Proof.
  intros [Hk Hj]. unfold _mark_dependency_failures_and_ready.
  assert (NoDup (task_id <$> job_tasks job db)) as Hd by (by apply select_NoDup).
  destruct (mark_loop_spec now (job_tasks job db) Hd) as (rows' & m' & Hl & Hdoom & Hm & Hfix).
  rewrite Hl. intros [= <- <-].
  assert (∀ x, x ∈ job_tasks job db → x ∈ db_tasks db) as Hsub.
  { intros x Hx. by apply elem_of_job_tasks in Hx as [_ ?]. }
  assert (job_tasks job (write_rows rows' db) = rows') as Hrows.
  { unfold job_tasks at 1, write_rows. cbn. apply select_write_back; [done| |].
    - eapply Forall2_impl; [exact Hdoom|]. apply doom_identity.
    - intros t t' Hi _ _. by rewrite (same_job _ _ Hi). }
  rewrite Hrows. split_and!.
  - unfold tasks_rel, write_rows. cbn. apply fmap_Forall2. intros x Hx.
    eapply (written_rel doom); [|exact Hk|exact Hsub|exact Hdoom|done].
    intros ?? Hdm. apply (same_id _ _ (doom_identity _ _ Hdm)).
  - done.
  - intros t Ht Hjob. unfold write_rows. cbn. apply list_elem_of_fmap. exists t.
    split; [|done]. symmetry. eapply (written_other (db_tasks db)); [exact Hk|exact Hsub| |done|].
    + apply (Forall2_keys doom); [|done]. intros ?? Hdm. apply (same_id _ _ (doom_identity _ _ Hdm)).
    + intros Hin. by apply elem_of_job_tasks in Hin as [? _].
  - by rewrite <-Hm.
  - by rewrite Hm.
Qed.

Lemma advance_rel now job db queued db' :
  keys_unique db → _advance_job_after_terminal now job db = (queued, db') →
  tasks_rel doom db db' ∧ keys_unique db'.
Proof.
  intros Hk. unfold _advance_job_after_terminal.
  destruct (_mark_dependency_failures_and_ready now job db) as [ready db1] eqn:Hm.
  pose proof (finalize_job_tasks now job db1) as Ht. pose proof (finalize_job_keys now job db1) as Hkk.
  destruct (JobService.finalize_job_if_ready now job db1) as [o db2]. intros [= <- <-].
  apply mark_store_spec in Hm as (Hrel & Hjobs & _); [|done].
  assert (tasks_rel doom db db2) as Hrel2 by (unfold tasks_rel in *; cbn in Ht; by rewrite Ht).
  split; [done|]. apply Hkk. eapply tasks_rel_unique; [|exact Hrel|by rewrite Hjobs|done].
  intros ?? Hdm. apply (same_id _ _ (doom_identity _ _ Hdm)).
Qed.

Lemma post_terminal_rel now job db queued db' :
  keys_unique db → _post_terminal now job db = (queued, db') →
  tasks_rel doom db db' ∧ keys_unique db'.
Proof.
  intros Hk H. apply advance_rel in H as [Hrel Hk']; [|by apply maybe_finalize_keys].
  split; [|done]. unfold tasks_rel in *. by rewrite maybe_finalize_tasks in Hrel.
Qed.
End mark.
