(* ===== verification/Lifecycle.v ===== *)
(** The task state machine: which row changes the dispatcher's two transactions
    make ([pickup], [complete]), as instances of one row relation. *)
From S2P Require Import Prelude PyValue Errors Readiness Store Sweep JobService Dispatcher Janitor TaskRows SweepFacts.
From stdpp Require Import options.
Import Readiness Dispatcher.

#[local] Open Scope Z_scope.

(** ** The relation *)

(** The edges of the status graph. *)
Definition status_edges : list (string * string) :=
  [("pending", "running"); ("pending", "failed"); ("pending", "cancelled");
   ("pending", "cancelled_dirty"); ("running", "succeeded"); ("running", "failed");
   ("running", "cancelled_dirty"); ("running", "pending"); ("failed", "pending");
   ("cancelled", "pending"); ("cancelled_dirty", "pending")].

(** One operation moves a row along at most one edge; a row whose status stays
    keeps every column but its lease. *)
Record row_step (t t' : Task) : Prop := {
  step_identity : same_identity t t';
  step_edge : t_status t' = t_status t ∨ (t_status t, t_status t') ∈ status_edges;
  step_frozen : t_status t' = t_status t → ∃ e, t' = set_lease_expires_at t e
}.

Lemma set_same_lease t : set_lease_expires_at t (lease_expires_at t) = t.
Proof. by destruct t. Qed.

Lemma row_step_refl t : row_step t t.
Proof. split; [reflexivity|by left|]. intros _. exists (lease_expires_at t). by rewrite set_same_lease. Qed.

#[export] Instance row_step_reflexive : Reflexive row_step := row_step_refl.

(** A change of status along an edge. *)
Lemma row_step_edge t t' :
  same_identity t t' → (t_status t, t_status t') ∈ status_edges → row_step t t'.
Proof.
  intros Hi He. split; [done|by right|]. intros Hs. exfalso. rewrite Hs in He.
  unfold status_edges in He. repeat (apply elem_of_cons in He as [He|He]; [congruence|]).
  by apply elem_of_nil in He.
Qed.

Lemma row_step_lease t e : row_step t (set_lease_expires_at t e).
Proof. split; [by split|by left|]. by eexists. Qed.

Lemma row_step_id t t' : row_step t t' → task_id t' = task_id t.
Proof. intros [[] _ _]. done. Qed.

Lemma doom_row_step t t' : doom t t' → row_step t t'.
Proof.
  intros [->|(Hp & Hs & Hi & _)]; [apply row_step_refl|]. apply row_step_edge; [done|].
  rewrite Hp. unfold status_edges. destruct Hs as [-> |[-> | ->]]; set_solver.
Qed.

Lemma tasks_doom_row_step db db' : tasks_rel doom db db' → tasks_rel row_step db db'.
Proof. apply tasks_rel_mono, doom_row_step. Qed.

(** A reusable status never changes again. *)
Lemma row_step_ready t t' :
  row_step t t' → t_status t ∈ ["succeeded"; "skipped"] → t_status t' = t_status t.
Proof.
  intros [_ [?|He] _] Hs; [done|]. exfalso. unfold status_edges in He.
  repeat (apply elem_of_cons in He as [[= Ha Hb]|He]; [rewrite Ha in Hs; set_solver|]).
  by apply elem_of_nil in He.
Qed.

(** ** Dependency statuses over the whole table *)

Definition statuses (db : Db) : gmap string string := status_map (db_tasks db).

Lemma statuses_lookup db id :
  keys_unique db → statuses db !! id = t_status <$> get_task id db.
Proof. intros [Hk _]. by apply status_map_lookup. Qed.

(** The rows a task's dependency check loads are enough. *)
Lemma dependency_state_ext deps m m' :
  (∀ dep, dep ∈ deps → m !! dep = m' !! dep) → dependency_state deps m = dependency_state deps m'.
Proof.
  intros H. eapply (state_spec_functional deps m'); [|apply dependency_state_spec].
  pose proof (dependency_state_spec deps m) as Hs. unfold dep_ready, dep_doomed in *.
  destruct Hs as [d Hd Hm|d Hn Hd Hm|d Hn Hd Hm|d Hn Hd Hm|Hr].
  - apply (spec_failed _ _ d); [done|]. unfold dep_doomed in *. by rewrite <-H.
  - apply (spec_dirty _ _ d); [|done|by rewrite <-H]. intros d' Hd'. unfold dep_doomed in *.
    rewrite <-H by done. by apply Hn.
  - apply (spec_cancelled _ _ d); [|done|by rewrite <-H]. intros d' Hd'. unfold dep_doomed in *.
    rewrite <-H by done. by apply Hn.
  - apply (spec_blocked _ _ d); [|done|unfold dep_ready in *; by rewrite <-H].
    intros d' Hd'. unfold dep_doomed in *. rewrite <-H by done. by apply Hn.
  - apply spec_ready. intros d Hd. unfold dep_ready in *. rewrite <-H by done. by apply Hr.
Qed.

Lemma task_dependency_state_eq db t :
  keys_unique db → _task_dependency_state db t = dependency_state (task_deps t) (statuses db).
Proof.
  intros [Hk Hj]. unfold _task_dependency_state. destruct (task_deps t) as [|d deps] eqn:Hd; [done|].
  apply dependency_state_ext. intros dep Hdep. unfold statuses.
  rewrite !status_map_lookup, row_get_select; [|done|done|by apply select_NoDup].
  destruct (row_get task_id dep (db_tasks db)) as [t'|] eqn:Hg; [|done]. cbn.
  apply row_get_elem in Hg as [_ <-]. by rewrite bool_decide_true.
Qed.

(** ** The lease *)

Lemma row_count_filter {A} (p : A → bool) rows : row_count p rows = length (List.filter p rows).
Proof. done. Qed.

Lemma row_count_one (p : Task → bool) rows id :
  NoDup (task_id <$> rows) → (∀ t, p t = true → task_id t = id) →
  row_count p rows =
    (match row_get task_id id rows with Some t => if p t then 1 else 0 | None => 0 end)%nat.
Proof.
  intros Hd Hp. unfold row_count. induction rows as [|t rows IH]; [done|]. cbn in *.
  apply NoDup_cons in Hd as [Hn Hd]. destruct (decide (task_id t = id)) as [Hid|Hid].
  - assert (List.filter p rows = []) as Hf.
    { apply list_nil_elem. intros x Hx. rewrite list_elem_of_In, filter_In in Hx.
      destruct Hx as [Hx Hpx]. apply Hn. rewrite Hid, <-(Hp x Hpx).
      apply list_elem_of_fmap_2. by rewrite list_elem_of_In. }
    rewrite Hf. by destruct (p t).
  - destruct (p t) eqn:Hpt; [by apply Hp in Hpt|]. by apply IH.
Qed.

Definition leased (t : Task) (w : string) (e : Z) : Task :=
  set_worker_id (set_lease_expires_at t (Some e)) (Some w).

(** Acquisition succeeds exactly on a pending row with a free lease, and then
    writes the worker and the expiry into that row only. *)
Lemma try_acquire_spec tid w ttl now db :
  keys_unique db →
  let r := Lease.try_acquire_lease tid w ttl now (λ t, bool_decide (t_status t = "pending"))
             (db_tasks db) in
  r.1 = match get_task tid db with
        | Some t => Lease.lease_free now t && bool_decide (t_status t = "pending")
        | None => false
        end ∧
  (r.1 = true → ∃ t, get_task tid db = Some t ∧ t_status t = "pending" ∧
     r.2 = db_tasks (put_task (leased t w (now + Lease.seconds ttl)) db)).
Proof.
  intros [Hk Hj]. unfold Lease.try_acquire_lease, get_task. cbn.
  rewrite (row_count_one _ _ tid Hk).
  2:{ intros t. rewrite !andb_true_iff, bool_decide_eq_true. naive_solver. }
  destruct (row_get task_id tid (db_tasks db)) as [t|] eqn:Hg; [|done].
  apply row_get_elem in Hg as [Hin Hid]. rewrite bool_decide_true by done. cbn.
  destruct (Lease.lease_free now t) eqn:Hf; cbn; [|done].
  case_bool_decide as Hs; [|done]. split; [done|]. intros _. exists t. split_and!; [done..|].
  unfold put_row, update_where. apply list_fmap_ext. intros i x Hx%list_elem_of_lookup_2. cbn.
  destruct (decide (task_id x = tid)) as [He|Hne].
  - assert (x = t) as -> by (eapply row_get_unique; [exact Hk|done|done|congruence]).
    by rewrite Hf, (bool_decide_true (task_id t = tid)), (bool_decide_true (t_status t = _)),
      (bool_decide_true (task_id t = task_id t)) by done.
  - by rewrite (bool_decide_false (task_id x = tid)), (bool_decide_false (task_id x = task_id t))
      by congruence.
Qed.

(** ** The two transactions of [execute_task] *)
Section transactions.
Context (reg : Registry.Registry) (svc : ArtifactServices) (sanitize : Errors.exn → string).
Context (w : string) (ttl : Z).

(** Where running rows come from. *)
Definition running_from (db db' : Db) (from : string → Task → Prop) : Prop :=
  ∀ id t', get_task id db' = Some t' → t_status t' = "running" →
    (∃ t, get_task id db = Some t ∧ t_status t = "running" ∧ task_deps t' = task_deps t) ∨ from id t'.

Lemma running_from_rel (R : Task → Task → Prop) db db' :
  (∀ t t', R t t' → task_id t' = task_id t) →
  (∀ t t', R t t' → t_status t' = "running" → t_status t = "running" ∧ task_deps t' = task_deps t) →
  tasks_rel R db db' → running_from db db' (λ _ _, False).
Proof.
  intros Hid Hrun Hrel id t' Hg Hs. left.
  pose proof (tasks_rel_get R db db' id Hid Hrel) as H. rewrite Hg in H.
  destruct (get_task id db) as [t|]; [|done]. exists t. by destruct (Hrun _ _ H Hs).
Qed.

Lemma same_task_deps t t' : same_identity t t' → task_deps t' = task_deps t.
Proof. intros Hi. unfold task_deps. by rewrite (same_deps _ _ Hi). Qed.

Lemma doom_running t t' :
  doom t t' → t_status t' = "running" → t_status t = "running" ∧ task_deps t' = task_deps t.
Proof. intros [->|(_ & [Hs|[Hs|Hs]] & _)]; [done|congruence..]. Qed.

Lemma run_status_hook_tables t s db db' :
  _run_status_hook reg t s db = Ok db' → db_tasks db' = db_tasks db ∧ db_jobs db' = db_jobs db.
Proof.
  unfold _run_status_hook. destruct (Registry.get_status_hook _ _); [|by intros [= <-]].
  intros H. inv_ok. by subst.
Qed.

Lemma run_success_hook_tables t o db db' :
  _run_success_hook reg t o db = Ok db' → db_tasks db' = db_tasks db ∧ db_jobs db' = db_jobs db.
Proof.
  unfold _run_success_hook. destruct (Registry.get_success_hook _ _); [|by intros [= <-]].
  intros H. inv_ok. by subst.
Qed.

Definition finalized_row (now : Z) (t : Task) (status : string) (ec em : option string) : Task :=
  let t := set_t_status t status in
  let t := match ec with Some c => set_t_error_class t (Some c) | None => t end in
  let t := match em with Some m => set_t_error_message t (Some m) | None => t end in
  set_t_finished_at t (Some now).

Lemma finalized_row_spec now t status ec em :
  same_identity t (finalized_row now t status ec em) ∧
  t_status (finalized_row now t status ec em) = status.
Proof. unfold finalized_row. destruct ec, em; by repeat split. Qed.

Lemma finalize_task_tables now t status ec em db db' :
  _finalize_task reg now t status ec em db = Ok db' →
  db_tasks db' = db_tasks (put_task (finalized_row now t status ec em) db) ∧
  db_jobs db' = db_jobs db.
Proof. intros H. by apply run_status_hook_tables in H. Qed.

Lemma terminal_not_active s :
  s ∈ ["succeeded"; "failed"; "cancelled"; "cancelled_dirty"] → s ≠ "pending" ∧ s ≠ "running".
Proof.
  intros H. split; intros ->; repeat (apply elem_of_cons in H as [H|H]; [done|]); by apply elem_of_nil in H.
Qed.

(** What every transaction of the worker does to the task table: rows move along
    at most one edge, keys stay unique, and running rows come from running rows
    or from [from]. *)
Record moved (db db' : Db) (from : string → Task → Prop) : Prop := {
  moved_rel : tasks_rel row_step db db';
  moved_keys : keys_unique db';
  moved_running : running_from db db' from
}.

Lemma moved_refl db from : keys_unique db → moved db db from.
Proof.
  intros Hk. split; [by apply tasks_rel_refl; [apply _|]|done|]. intros id t Hg Hs. left. by exists t.
Qed.

Lemma put_keys t0 t1 db db1 :
  keys_unique db → get_task (task_id t1) db = Some t0 →
  db_tasks db1 = db_tasks (put_task t1 db) → db_jobs db1 = db_jobs db → keys_unique db1.
Proof.
  intros [Hk Hj] Hg Ht Hjobs. split; [|by rewrite Hjobs]. rewrite Ht. cbn. by rewrite put_row_keys.
Qed.

Lemma put_put_tasks t t' db db1 :
  db_tasks db1 = db_tasks (put_task t' db) → task_id t = task_id t' →
  db_tasks (put_task t db1) = db_tasks (put_task t db).
Proof.
  intros Ht Hid. change (put_row task_id t (db_tasks db1) = put_row task_id t (db_tasks db)).
  rewrite Ht. exact (put_put_row task_id t t' _ Hid).
Qed.

(** A transaction that moves row [t0] to a terminal [t1] and then sweeps: the
    row takes its edge, the others are at most doomed. *)
Lemma put_then_sweep db db1 db2 t0 t1 :
  keys_unique db → get_task (task_id t1) db = Some t0 →
  db_tasks db1 = db_tasks (put_task t1 db) →
  row_step t0 t1 → t_status t1 ∈ ["succeeded"; "failed"; "cancelled"; "cancelled_dirty"] →
  tasks_rel doom db1 db2 → keys_unique db2 →
  moved db db2 (λ _ _, False) ∧ get_task (task_id t1) db2 = Some t1.
Proof.
  intros Hk Hg Ht Hstep Hs Hdoom Hk2.
  pose proof (tasks_rel_put t1 t0 db Hk Hg) as Hput1.
  assert (tasks_rel (λ x x', x' = x ∨ (x = t0 ∧ x' = t1)) db db1) as Hput.
  { unfold tasks_rel in *. by rewrite Ht. }
  destruct (terminal_not_active _ Hs) as [Hnp Hnr].
  assert (tasks_rel (λ x z, doom x z ∨ (x = t0 ∧ z = t1)) db db2) as Hall.
  { eapply tasks_rel_compose; [|exact Hput|exact Hdoom]. cbn.
    intros x y z [->|[-> ->]] Hyz; [by left|]. right. split; [done|].
    by apply doom_not_pending in Hyz. }
  split; [split; [|done|]|].
  - eapply tasks_rel_mono; [|exact Hall]. cbn. intros x z [?|[-> ->]]; [by apply doom_row_step|done].
  - eapply running_from_rel; [| |exact Hall]; cbn.
    + intros x z [Hd|[-> ->]]; [apply (same_id _ _ (doom_identity _ _ Hd))|by apply row_step_id].
    + intros x z [Hd|[-> ->]]; [by apply doom_running|done].
  - pose proof (tasks_rel_get doom db1 db2 (task_id t1)) as H.
    specialize (H (λ x z Hd, same_id _ _ (doom_identity _ _ Hd)) Hdoom).
    unfold get_task at 1 in H. rewrite Ht in H. change (db_tasks _) with (db_tasks (put_task t1 db)) in H.
    fold (get_task (task_id t1) (put_task t1 db)) in H.
    rewrite get_put_task, decide_True, Hg in H by done. cbn in H.
    destruct (get_task (task_id t1) db2) as [t2|]; [|done].
    by rewrite (doom_not_pending _ _ H Hnp).
Qed.
End transactions.
