(* ===== verification/Execution.v ===== *)
(** The dispatcher's transactions as row relations: what [pickup] and
    [complete] can do to the task table, on every branch. *)
From S2P Require Import Prelude PyValue Errors Readiness Store Sweep JobService Dispatcher Janitor TaskRows SweepFacts Lifecycle.
From stdpp Require Import options.
Import Readiness Dispatcher.

#[local] Open Scope Z_scope.

Section execution.
Context (reg : Registry.Registry) (svc : ArtifactServices) (sanitize : Errors.exn → string).
Context (w : string) (ttl : Z).

Lemma dependency_failed_step now msg t :
  t_status t = "pending" → row_step t (dependency_failed now msg t).
Proof. intros Hp. apply row_step_edge; [by split|]. rewrite Hp. unfold status_edges. set_solver. Qed.

Lemma dependency_cancelled_step now s t :
  t_status t = "pending" → s ∈ CANCELLED_DEPENDENCY_STATUSES → row_step t (dependency_cancelled now s t).
Proof.
  intros Hp Hs. apply row_step_edge; [by split|]. rewrite Hp. cbn.
  unfold CANCELLED_DEPENDENCY_STATUSES in Hs. unfold status_edges. set_solver.
Qed.

Lemma leased_step t e : t_status t = "pending" → same_identity t (leased t w e).
Proof. by split. Qed.

(** The two ways out of an acquired lease. *)
Definition started (now : Z) (t : Task) : Task :=
  set_t_started_at (set_t_status (leased t w (now + Lease.seconds ttl)) "running") (Some now).

Lemma started_step now t : t_status t = "pending" → row_step t (started now t).
Proof. intros Hp. apply row_step_edge; [by split|]. rewrite Hp. unfold status_edges. set_solver. Qed.

Lemma put_running db db1 t0 t1 :
  keys_unique db → get_task (task_id t1) db = Some t0 → row_step t0 t1 →
  db_tasks db1 = db_tasks (put_task t1 db) → db_jobs db1 = db_jobs db →
  moved db db1 (λ id _, id = task_id t1).
Proof.
  intros Hk Hg Hstep Ht Hj. pose proof (tasks_rel_put t1 t0 db Hk Hg) as Hput1.
  assert (tasks_rel (λ x x', x' = x ∨ (x = t0 ∧ x' = t1)) db db1) as Hput.
  { unfold tasks_rel in *. by rewrite Ht. }
  split; [|by eapply put_keys|].
  - eapply tasks_rel_mono; [|exact Hput]. cbn. intros x z [->|[-> ->]]; [reflexivity|done].
  - intros id t' Hg' Hs. destruct (decide (id = task_id t1)) as [->|Hne]; [by right|left].
    unfold get_task at 1 in Hg'. rewrite Ht in Hg'. change (row_get task_id id _) with (get_task id (put_task t1 db)) in Hg'.
    rewrite get_put_task, decide_False in Hg' by done. by exists t'.
Qed.

(** What a pickup's outcome says about the tables. *)
Definition pickup_post (now : Z) (tid : string) (db db' : Db) (r : pickup_result) : Prop :=
  match r with
  | Started t =>
      moved db db' (λ id _, id = tid) ∧ get_task tid db' = Some t ∧
      (∃ t0, get_task tid db = Some t0 ∧ t_status t0 = "pending" ∧ t = started now t0 ∧
         Lease.lease_free now t0 = true ∧
         ∀ j, get_job (t_job_id t0) db = Some j → cancel_requested j = false)
  | Returned _ => moved db db' (λ _ _, False)
  | Raised _ => db' = db
  end.

Lemma cancel_before_start_post now t0 j db db1 r db' queued :
  keys_unique db → get_task (task_id t0) db = Some t0 → t_status t0 = "pending" →
  db_tasks db1 = db_tasks (put_task (leased t0 w (now + Lease.seconds ttl)) db) → db_jobs db1 = db_jobs db →
  cancel_before_start reg now (leased t0 w (now + Lease.seconds ttl)) j db1 = (r, db', queued) →
  match r with Raised _ => True | Started _ => False | Returned _ => moved db db' (λ _ _, False) end.
Proof.
  intros Hk Hg Hp Ht Hj. unfold cancel_before_start.
  destruct (_finalize_task _ _ _ _ _ _ _) as [db2|e] eqn:Hf; [|by intros [= <- _ _]].
  destruct (_post_terminal _ _ _) as [q db3] eqn:Hpost. intros [= <- <- <-].
  apply finalize_task_tables in Hf as [Ht2 Hj2].
  set (s := if cancel_force j then _ else _) in *.
  destruct (finalized_row_spec now (leased t0 w (now + Lease.seconds ttl)) s None None) as [Hi Hs].
  set (t1 := finalized_row _ _ _ _ _) in *.
  assert (task_id t1 = task_id t0) as Hid by (by rewrite (same_id _ _ Hi)).
  assert (db_tasks db2 = db_tasks (put_task t1 db)) as Ht2'.
  { rewrite Ht2. by eapply put_put_tasks. }
  assert (keys_unique db2) as Hk2.
  { eapply (put_keys t0 t1 db); [done|by rewrite Hid|done|by rewrite Hj2]. }
  destruct (post_terminal_rel _ _ _ _ _ Hk2 Hpost) as [Hdoom Hk3].
  eapply (put_then_sweep db db2 db3 t0 t1); [done|by rewrite Hid|done| | |done|done].
  - apply row_step_edge; [by destruct Hi|]. rewrite Hs, Hp. unfold status_edges, s.
    destruct (cancel_force j); set_solver.
  - rewrite Hs. unfold s. destruct (cancel_force j); set_solver.
Qed.

Lemma start_task_post now t0 db db1 r db' queued :
  keys_unique db → get_task (task_id t0) db = Some t0 → t_status t0 = "pending" →
  db_tasks db1 = db_tasks (put_task (leased t0 w (now + Lease.seconds ttl)) db) → db_jobs db1 = db_jobs db →
  start_task reg now (leased t0 w (now + Lease.seconds ttl)) db1 = (r, db', queued) →
  match r with
  | Raised _ => True | Returned _ => False
  | Started t => t = started now t0 ∧ moved db db' (λ id _, id = task_id t0) ∧
                 get_task (task_id t0) db' = Some t
  end.
Proof.
  intros Hk Hg Hp Ht Hj. unfold start_task.
  destruct (_run_status_hook _ _ _ _) as [db2|e] eqn:Hf; [|by intros [= <- _ _]].
  intros [= <- <- <-]. apply run_status_hook_tables in Hf as [Ht2 Hj2]. fold (started now t0) in *.
  assert (db_tasks db2 = db_tasks (put_task (started now t0) db)) as Ht2'.
  { rewrite Ht2. by eapply put_put_tasks. }
  split_and!; [done| |].
  - apply (put_running db db2 t0 (started now t0)); [done|done|by apply started_step|done|].
    by rewrite Hj2.
  - unfold get_task. rewrite Ht2'.
    change (get_task (task_id t0) (put_task (started now t0) db) = Some (started now t0)).
    by rewrite get_put_task, decide_True, Hg.
Qed.

Lemma acquire_and_start_post now tid t0 db r db' queued :
  keys_unique db → get_task tid db = Some t0 → t_status t0 = "pending" →
  acquire_and_start reg w ttl now tid db = (r, db', queued) → pickup_post now tid db db' r.
Proof.
  intros Hk Hg Hp. pose proof (get_task_elem _ _ _ Hg) as [_ Hid].
  unfold acquire_and_start. destruct (try_acquire_spec tid w ttl now db Hk) as [Ha Hrows].
  destruct (Lease.try_acquire_lease _ _ _ _ _ _) as [acq rows]. cbn in Ha, Hrows. rewrite Hg in Ha.
  destruct acq; cbn [negb]; [|intros [= <- <- <-]; by apply moved_refl].
  destruct (Hrows eq_refl) as (t & Hg' & _ & ->). rewrite Hg in Hg'. injection Hg' as <-.
  symmetry in Ha. apply andb_true_iff in Ha as [Hfree _].
  set (lt := leased t0 w _). set (db1 := with_tasks _ db).
  assert (db_tasks db1 = db_tasks (put_task lt db)) as Ht by done.
  assert (get_task tid db1 = Some lt) as ->.
  { change (get_task tid (put_task lt db) = Some lt). rewrite get_put_task.
    change (task_id lt) with (task_id t0). by rewrite decide_True, Hg by done. }
  rewrite <-Hid in Hg.
  assert (∀ r1 db2 q2, start_task reg now lt db1 = (r1, db2, q2) →
    (∀ j, get_job (t_job_id t0) db = Some j → cancel_requested j = false) →
    (match r1 with Raised _ => (r1, db, []) | _ => (r1, db2, q2) end) = (r, db', queued) →
    pickup_post now tid db db' r) as Hstart.
  { intros r1 db2 q2 Hs Hc. apply (start_task_post now t0 db) in Hs; try done.
    destruct r1 as [|t|]; [done| |by intros [= <- <- <-]].
    intros [= <- <- <-]. destruct Hs as (-> & Hm & Hg2). rewrite Hid in Hm, Hg2, Hg.
    split_and!; [done..|]. by exists t0. }
  change (get_job (t_job_id lt) db1) with (get_job (t_job_id t0) db).
  destruct (get_job (t_job_id t0) db) as [j|] eqn:Hj; [destruct (cancel_requested j) eqn:Hc|].
  - destruct (cancel_before_start _ _ _ _ _) as [[r1 db2] q2] eqn:Hcb.
    apply (cancel_before_start_post now t0 j db) in Hcb; try done.
    destruct r1; [|done|]; by intros [= <- <- <-].
  - destruct (start_task _ _ _ _) as [[r1 db2] q2] eqn:Hs. eapply Hstart; [done|]. congruence.
  - destruct (start_task _ _ _ _) as [[r1 db2] q2] eqn:Hs. eapply Hstart; [done|]. congruence.
Qed.

(** The dependency-terminal branches of [pickup]. *)
Lemma doomed_pickup_post now tid t0 t1 db queued db' :
  keys_unique db → get_task tid db = Some t0 → row_step t0 t1 →
  t_status t1 ∈ ["succeeded"; "failed"; "cancelled"; "cancelled_dirty"] →
  _advance_job_after_terminal now (t_job_id t0) (put_task t1 db) = (queued, db') →
  moved db db' (λ _ _, False).
Proof.
  intros Hk Hg Hstep Hs H. pose proof (get_task_elem _ _ _ Hg) as [_ Hid].
  assert (task_id t1 = tid) as Hid1 by (rewrite (row_step_id _ _ Hstep); done).
  rewrite <-Hid1 in Hg. apply advance_rel in H as [Hdoom Hk2]; [|by eapply put_keys].
  by eapply (put_then_sweep db (put_task t1 db) db' t0 t1).
Qed.

Lemma pickup_spec now tid db r db' queued :
  keys_unique db → pickup reg w ttl now tid db = (r, db', queued) →
  pickup_post now tid db db' r ∧
  match r with
  | Started t => dependency_state (task_deps t) (statuses db) = "ready"
  | _ => True
  end.
Proof.
  intros Hk. unfold pickup.
  destruct (get_task tid db) as [t0|] eqn:Hg; [|intros [= <- <- <-]; by split; [apply moved_refl|]].
  destruct (decide _) as [Hp|Hp%dec_stable]; [intros [= <- <- <-]; by split; [apply moved_refl|]|].
  rewrite task_dependency_state_eq by done. pose proof (dependency_state_cases (task_deps t0) (statuses db)) as Hc.
  destruct (decide _) as [Hb|Hb]; [intros [= <- <- <-]; by split; [apply moved_refl|]|].
  destruct (decide _) as [Hf|Hf].
  { destruct (_advance_job_after_terminal _ _ _) as [q db2] eqn:Ha. intros [= <- <- <-]. split; [|done].
    cbn. eapply doomed_pickup_post; [exact Hk|exact Hg|by apply dependency_failed_step| |exact Ha].
    cbn. set_solver. }
  destruct (decide _) as [Hcan|Hcan].
  { destruct (_advance_job_after_terminal _ _ _) as [q db2] eqn:Ha. intros [= <- <- <-]. split; [|done].
    cbn. eapply doomed_pickup_post; [exact Hk|exact Hg|by apply dependency_cancelled_step| |exact Ha].
    cbn. rewrite state_cancelled in Hcan. set_solver. }
  intros Ha. apply (acquire_and_start_post now tid t0) in Ha; [|done..]. split; [done|].
  destruct r as [|t|]; [done| |done]. destruct Ha as (_ & _ & t1 & Hg1 & _ & -> & _).
  rewrite Hg in Hg1. injection Hg1 as <-. change (task_deps (started now t0)) with (task_deps t0).
  rewrite state_cancelled in Hcan. set_solver.
Qed.

(** *** The second transaction *)

Definition owned (now : Z) (tid : string) (db : Db) : bool :=
  match get_task tid db with Some t => _owns_live_running_lease w now t | None => false end.

Lemma owns_running now t : _owns_live_running_lease w now t = true → t_status t = "running".
Proof. unfold _owns_live_running_lease. rewrite !andb_true_iff, bool_decide_eq_true. tauto. Qed.

(** A worker that no longer holds the live lease changes nothing; one that does
    moves its row to a terminal status. *)
Definition complete_post (now : Z) (tid : string) (db : Db) (r : TaskResult) (db' : Db)
    (queued : list string) : Prop :=
  if owned now tid db then
    moved db db' (λ _ _, False) ∧
    ∃ t, get_task tid db' = Some t ∧ t_status t = result_status r ∧
      t_status t ∈ ["succeeded"; "failed"; "cancelled_dirty"]
  else db' = db ∧ queued = [] ∧ result_status r ∈ ["missing"; "lost_lease"].

Lemma if_still_owned_post now tid db k r db' queued :
  (∀ t, get_task tid db = Some t → _owns_live_running_lease w now t = true →
     k t = Ok (r, db', queued) → complete_post now tid db r db' queued) →
  if_still_owned w now tid db k = Ok (r, db', queued) → complete_post now tid db r db' queued.
Proof.
  unfold if_still_owned, complete_post, owned. intros Hk.
  destruct (get_task tid db) as [t|] eqn:Hg; [|intros [= <- <- <-]; split_and!; [done..|]; cbn; list_in].
  destruct (_owns_live_running_lease w now t) eqn:Ho; [|intros [= <- <- <-]; split_and!; [done..|]; cbn; list_in].
  intros H. by apply (Hk t).
Qed.

Lemma committed_edge s :
  s ∈ ["succeeded"; "failed"; "cancelled_dirty"] → ("running", s) ∈ status_edges.
Proof. intros Hs. unfold status_edges. in_cases Hs; list_in. Qed.

Lemma committed_terminal s :
  s ∈ ["succeeded"; "failed"; "cancelled_dirty"] →
  s ∈ ["succeeded"; "failed"; "cancelled"; "cancelled_dirty"].
Proof. intros Hs. in_cases Hs; list_in. Qed.

(** The common shape of the committing branches: the owned row [t0] is
    rewritten to [t1], then the job is rolled up and swept. *)
Lemma commit_post now tid db db1 t0 t1 r q db2 :
  keys_unique db → get_task tid db = Some t0 → _owns_live_running_lease w now t0 = true →
  same_identity t0 t1 → t_status t1 = result_status r →
  t_status t1 ∈ ["succeeded"; "failed"; "cancelled_dirty"] →
  db_tasks db1 = db_tasks (put_task t1 db) → db_jobs db1 = db_jobs db →
  _post_terminal now (t_job_id t0) db1 = (q, db2) → complete_post now tid db r db2 q.
Proof.
  intros Hk Hg Ho Hi Hr Hs Ht Hj Hpost. unfold complete_post, owned. rewrite Hg, Ho.
  pose proof (get_task_elem _ _ _ Hg) as [_ Hid].
  assert (task_id t1 = tid) as Hid1 by (by rewrite (same_id _ _ Hi)).
  rewrite <-Hid1 in Hg |- *.
  assert (keys_unique db1) as Hk1 by (by eapply put_keys).
  destruct (post_terminal_rel _ _ _ _ _ Hk1 Hpost) as [Hdoom Hk2].
  destruct (put_then_sweep db db1 db2 t0 t1) as [Hm Hg2]; try done; [| |by split; [|exists t1]].
  - apply row_step_edge; [done|]. rewrite (owns_running _ _ Ho). by apply committed_edge.
  - by apply committed_terminal.
Qed.

Lemma finalize_and_post now tid db t0 s ec em r db1 q db2 :
  keys_unique db → get_task tid db = Some t0 → _owns_live_running_lease w now t0 = true →
  s = result_status r → s ∈ ["succeeded"; "failed"; "cancelled_dirty"] →
  _finalize_task reg now t0 s ec em db = Ok db1 →
  _post_terminal now (t_job_id t0) db1 = (q, db2) → complete_post now tid db r db2 q.
Proof.
  intros Hk Hg Ho Hr Hs Hf Hpost. apply finalize_task_tables in Hf as [Ht Hj].
  destruct (finalized_row_spec now t0 s ec em) as [Hi Hst].
  eapply (commit_post now tid db db1 t0); [done..| | |exact Ht|exact Hj|exact Hpost].
  - by rewrite Hst.
  - by rewrite Hst.
Qed.

Lemma commit_failure_post now tid cls msg error db r db' queued :
  keys_unique db → commit_failure reg w now tid cls msg error db = Ok (r, db', queued) →
  complete_post now tid db r db' queued.
Proof.
  intros Hk. apply if_still_owned_post. intros t0 Hg Ho (db1 & Hf & H)%bind_Ok.
  destruct (_post_terminal _ _ _) as [q db2] eqn:Hpost. injection H as <- <- <-.
  eapply (finalize_and_post _ _ _ t0 "failed"); [done..| |exact Hf|exact Hpost]. list_in.
Qed.

Lemma run_success_hook_put t1 outputs db db2 arts other db1 :
  keys_unique db →
  _run_success_hook reg t1 outputs (put_task t1
    (mkDb (db_tasks db) (db_jobs db) arts (db_events db) (db_recons db) other)) = Ok db1 →
  db2 = db1 → db_tasks db2 = db_tasks (put_task t1 db) ∧ db_jobs db2 = db_jobs db.
Proof. intros Hk H%run_success_hook_tables ->. done. Qed.

Lemma commit_success_post now tid outputs db r db' queued :
  keys_unique db → commit_success reg svc w now tid outputs db = Ok (r, db', queued) →
  complete_post now tid db r db' queued.
Proof.
  intros Hk. apply if_still_owned_post. intros t0 Hg Ho. destruct (job_cancel_requested _ _).
  - intros (db1 & Hf & H)%bind_Ok.
    destruct (_post_terminal _ _ _) as [q db2] eqn:Hpost. injection H as <- <- <-.
    eapply (finalize_and_post _ _ _ t0 "cancelled_dirty"); [done..| |exact Hf|exact Hpost]. list_in.
  - intros ([o1 other] & _ & ([o2 arts] & _ & (db1 & Hh & H)%bind_Ok)%bind_Ok)%bind_Ok.
    destruct (run_success_hook_put _ _ _ _ _ _ _ Hk Hh eq_refl) as [Ht Hj].
    destruct (_post_terminal _ _ _) as [q db2] eqn:Hpost. injection H as <- <- <-.
    eapply (commit_post now tid db db1 t0 _ _ _ _ Hk Hg Ho); [| | |exact Ht|exact Hj|exact Hpost];
      [done..|]. cbn. list_in.
Qed.

Lemma handle_exception_post now tid e db r db' queued :
  keys_unique db → handle_exception reg sanitize w now tid e db = Ok (r, db', queued) →
  complete_post now tid db r db' queued.
Proof. intros Hk. unfold handle_exception. case_match; by apply commit_failure_post. Qed.

Lemma complete_spec now tid outcome db r db' queued :
  keys_unique db → complete reg svc sanitize w now tid outcome db = Ok (r, db', queued) →
  complete_post now tid db r db' queued.
Proof.
  intros Hk. unfold complete. destruct outcome as [outputs|e]; [|by apply handle_exception_post].
  destruct (commit_success _ _ _ _ _ _ _) as [[[r1 db1] q1]|e] eqn:Hc; [|by apply handle_exception_post].
  intros [= <- <- <-]. by eapply commit_success_post.
Qed.

Lemma complete_unknown_spec now tid k db r db' queued :
  keys_unique db → complete_unknown reg w now tid k db = Ok (r, db', queued) →
  complete_post now tid db r db' queued.
Proof. apply commit_failure_post. Qed.
End execution.
