(* ===== verification/Propagation.v ===== *)
(** The janitor's dependency sweep, [propagate_terminal_dependencies]: it
    terminates, dooms pending rows only, and leaves no pending row whose
    dependencies already decide its fate. *)
From S2P Require Import Prelude PyValue Errors Readiness Store Sweep JobService Dispatcher Janitor TaskRows SweepFacts Lifecycle.
From stdpp Require Import options.
Import Readiness Janitor.

#[local] Open Scope Z_scope.

(** ** One row *)

Lemma terminate_spec now m t :
  let t' := terminate now m t (dependency_state (task_deps t) m) in
  dependency_state (task_deps t) m ∉ ["ready"; "blocked"] → t_status t = "pending" →
  doom t t' ∧ t_status t' = dependency_state (task_deps t) m ∧ doomed_status (t_status t').
Proof.
  intros t' Hn Hp. pose proof (dependency_state_cases (task_deps t) m) as Hc.
  assert (doomed_status (dependency_state (task_deps t) m)) as Hd.
  { unfold doomed_status. set (s := dependency_state _ _) in *. clearbody s.
    in_cases Hc; try tauto; subst; destruct Hn; list_in. }
  assert (t_status t' = dependency_state (task_deps t) m) as Hs.
  { subst t'. unfold terminate. by case_decide as Hf. }
  split_and!; [|done|by rewrite Hs]. right. rewrite Hs. split_and!; [done..| | | |];
    subst t'; unfold terminate; by case_decide.
Qed.

Lemma propagate_task_cases now s t t' s' c :
  sw_status s !! task_id t = Some (t_status t) →
  propagate_task now s t = (t', s', c) →
  (c = false ∧ t' = t ∧ s' = s ∧
   (t_status t = "pending" → dependency_state (task_deps t) (sw_status s) ∈ ["ready"; "blocked"])) ∨
  (c = true ∧ doom t t' ∧ t_status t = "pending" ∧ doomed_status (t_status t') ∧
   t_status t' = dependency_state (task_deps t) (sw_status s) ∧
   sw_status s' = <[task_id t' := t_status t']> (sw_status s) ∧
   sw_changed s' = sw_changed s ++ [task_id t'] ∧ sw_jobs s' = sw_jobs s ++ [t_job_id t']).
Proof.
  intros Hm. unfold propagate_task. rewrite Hm. destruct (decide _) as [Hp|Hp%dec_stable].
  { intros [= <- <- <-]. left. split_and!; [done..|]. congruence. }
  injection Hp as Hp. destruct (decide _) as [Hs|Hs].
  { intros [= <- <- <-]. left. by split_and!. }
  destruct (terminate_spec now (sw_status s) t Hs Hp) as (Hdoom & Hst & Hd).
  intros [= <- <- <-]. right. by split_and!.
Qed.

Lemma propagate_task_idle now s t t' s' : propagate_task now s t = (t', s', false) → t' = t ∧ s' = s.
Proof. unfold propagate_task. repeat case_decide; by intros [= <- <-]. Qed.

(** ** The loop *)
Section loop.
Context (now : Z) (m0 : gmap string string) (rows0 : list Task).

(** What holds between two iterations: the map agrees with the rows, rows are at
    most doomed, other entries of the map are the loaded ones, and the
    accumulators name exactly the rows that are not pending any more. *)
Record sweep_ok (s : SweepState) (rows : list Task) : Prop := {
  ok_agrees : agrees (sw_status s) rows;
  ok_doom : Forall2 doom rows0 rows;
  ok_outside : ∀ id, id ∉ task_id <$> rows → sw_status s !! id = m0 !! id;
  ok_pending : ∀ t, t ∈ rows →
    t_status t = "pending" ∨ (task_id t ∈ sw_changed s ∧ t_job_id t ∈ sw_jobs s);
  ok_changed : ∀ id, id ∈ sw_changed s → ∃ t, t ∈ rows ∧ task_id t = id ∧ t_status t ≠ "pending";
  ok_once : NoDup (sw_changed s)
}.

Lemma doomed_not_pending s : doomed_status s → s ≠ "pending".
Proof. by intros [-> |[-> | ->]]. Qed.

Lemma Forall2_doom_replace l1 t l2 t' :
  Forall2 doom rows0 (l1 ++ t :: l2) → doom t t' → Forall2 doom rows0 (l1 ++ t' :: l2).
Proof.
  intros H Ht. eapply (Forall2_compose doom doom doom); [intros ???; apply transitivity|exact H|].
  apply Forall2_app; [reflexivity|]. constructor; [done|reflexivity].
Qed.

Lemma sweep_ok_step s l1 t l2 t' s' c :
  sweep_ok s (l1 ++ t :: l2) → propagate_task now s t = (t', s', c) → sweep_ok s' (l1 ++ t' :: l2).
Proof.
  intros Hok H. destruct Hok as [Ha Hd Ho Hp Hc Hn].
  assert (t ∈ l1 ++ t :: l2) as Hin by set_solver.
  assert (sw_status s !! task_id t = Some (t_status t)) as Hmt by (by apply Ha).
  destruct (propagate_task_cases _ _ _ _ _ _ Hmt H)
    as [(_ & -> & -> & _)|(_ & Hdm & Hpt & Hdt & _ & Hm & Hch & Hj)]; [by split|].
  pose proof (same_id _ _ (doom_identity _ _ Hdm)) as Hid.
  assert (∀ x, x ∈ l1 ++ t' :: l2 → x = t' ∨ x ∈ l1 ++ t :: l2) as Hsub by set_solver.
  assert (task_id <$> l1 ++ t' :: l2 = task_id <$> l1 ++ t :: l2) as Hk.
  { by rewrite !fmap_app, !fmap_cons, Hid. }
  split; rewrite ?Hm, ?Hch, ?Hj.
  - by eapply agrees_replace.
  - by eapply Forall2_doom_replace.
  - rewrite Hk. intros id Hout. rewrite lookup_insert_ne; [by apply Ho|]. intros <-. apply Hout.
    rewrite Hid. by apply list_elem_of_fmap_2.
  - intros x [->|Hx]%Hsub; [right; set_solver|]. destruct (Hp x Hx) as [|[? ?]]; [by left|right].
    set_solver.
  - intros id [Hid'|Hid']%elem_of_app.
    + destruct (Hc _ Hid') as (x & Hx & Hxid & Hxp). exists x. split_and!; [|done..].
      assert (x ≠ t) by congruence. set_solver.
    + apply list_elem_of_singleton in Hid' as ->. exists t'. split_and!; [set_solver|done|].
      by apply doomed_not_pending.
  - apply NoDup_app. split_and!; [done| |apply NoDup_singleton].
    intros id Hid' ->%list_elem_of_singleton. destruct (Hc _ Hid') as (x & Hx & Hxid & Hxp).
    apply Hxp. rewrite (row_get_unique task_id (l1 ++ t :: l2) x t); [done| |done|done|congruence].
    by destruct Ha.
Qed.

Lemma sweep_ok_active s l1 t l2 t' s' :
  sweep_ok s (l1 ++ t :: l2) → propagate_task now s t = (t', s', true) →
  is_pending t = true ∧ is_pending t' = false.
Proof.
  intros Hok H. apply propagate_task_cases in H as [(? & _)|(_ & _ & Hp & Hd & _)]; [done| |].
  - unfold is_pending. rewrite bool_decide_eq_true, bool_decide_eq_false.
    split; [done|by apply doomed_not_pending].
  - apply (ok_agrees _ _ Hok). set_solver.
Qed.

Lemma propagate_loop_spec :
  sweep_ok (mkSweepState m0 [] [] ∅) rows0 →
  ∃ rows s, propagate_loop (S (length rows0)) now (mkSweepState m0 [] [] ∅) rows0 = (rows, s, true) ∧
    sweep_ok s rows ∧
    ∀ t, t ∈ rows → t_status t = "pending" →
      dependency_state (task_deps t) (sw_status s) ∈ ["ready"; "blocked"].
Proof.
  intros Hinit. unfold propagate_loop. destruct (sweep_loop _ _ _ _) as [[rows s] b] eqn:H.
  assert (b = true) as ->.
  { pose proof (sweep_loop_terminates (propagate_task now) (propagate_task_idle now) sweep_ok is_pending
      sweep_ok_step sweep_ok_active (S (length rows0)) _ _ Hinit) as Ht.
    rewrite H in Ht. apply Ht. pose proof (active_count_le is_pending rows0). lia. }
  pose proof (sweep_loop_inv (propagate_task now) (propagate_task_idle now) sweep_ok is_pending
    sweep_ok_step sweep_ok_active _ _ _ _ _ _ Hinit H) as Hok.
  exists rows, s. split_and!; [done..|]. intros t Ht Hp.
  pose proof (sweep_loop_fixpoint (propagate_task now) (propagate_task_idle now) _ _ _ _ _ H t Ht) as Hfix.
  apply propagate_task_cases in Hfix as [(_ & _ & _ & Hs)|(? & _)]; [by apply Hs|done|].
  by apply (ok_agrees _ _ Hok).
Qed.
End loop.

(** ** What the sweep loads *)

Definition pending_rows (db : Db) : list Task :=
  select (λ t, bool_decide (t_status t = "pending")) (db_tasks db).

Lemma elem_of_pending_rows db t : t ∈ pending_rows db ↔ t ∈ db_tasks db ∧ t_status t = "pending".
Proof. unfold pending_rows. rewrite elem_of_select, bool_decide_eq_true. tauto. Qed.

Lemma load_pending db : (_load_pending_tasks_with_dep_statuses db).1 = pending_rows db.
Proof. done. Qed.

Lemma status_map_select p db id :
  keys_unique db →
  status_map (select p (db_tasks db)) !! id =
    (get_task id db ≫= λ t, if p t then Some (t_status t) else None).
Proof.
  intros [Hk _]. rewrite status_map_lookup, row_get_select by auto with scene.
  unfold get_task. destruct (row_get task_id id (db_tasks db)) as [t|]; cbn; [|done].
  by destruct (p t).
Qed.

(** The loaded map gives the true status of every pending row and of every
    dependency of one. *)
Lemma load_statuses db id :
  keys_unique db →
  (∃ t, t ∈ pending_rows db ∧ (id = task_id t ∨ id ∈ task_deps t)) →
  (_load_pending_tasks_with_dep_statuses db).2 !! id = statuses db !! id.
Proof.
  intros Hk (t & Ht & Hid). unfold _load_pending_tasks_with_dep_statuses. cbn.
  rewrite lookup_union, statuses_lookup by done.
  rewrite !(status_map_select _ db id Hk).
  destruct (get_task id db) as [r|] eqn:Hg; cbn; [|done].
  pose proof (get_task_elem _ _ _ Hg) as [Hr Hrid].
  case_bool_decide as Hu; [by destruct (if bool_decide _ then _ else _)|].
  destruct (decide (t_status r = "pending")) as [Hp|Hp]; [by rewrite bool_decide_true by done|].
  exfalso. apply Hu. apply list_elem_of_filter. split.
  - unfold pending_rows. rewrite status_map_select, Hrid, Hg by done. cbn. by rewrite bool_decide_false.
  - apply list_elem_of_bind. exists t. rewrite Hrid. split; [|done].
    destruct Hid as [->|?]; [|done]. exfalso. apply Hp.
    apply elem_of_pending_rows in Ht as [Ht Hpt]. unfold get_task in Hg.
    destruct Hk as [Hk _]. rewrite (elem_row_get task_id _ t) in Hg by done. congruence.
Qed.

Lemma agrees_sub db rows :
  keys_unique db → (∀ t, t ∈ rows → t ∈ db_tasks db) → NoDup (task_id <$> rows) →
  ∀ m : gmap string string, (∀ t, t ∈ rows → m !! task_id t = statuses db !! task_id t) → agrees m rows.
Proof.
  intros Hk Hsub Hd m Hm. split; [done|]. intros t Ht. rewrite Hm, statuses_lookup by done.
  unfold get_task. by rewrite elem_row_get by (try apply Hk; auto).
Qed.

(** ** The store after the sweep *)

Lemma finalize_jobs_tasks now jobs db : db_tasks (finalize_jobs now jobs db) = db_tasks db.
Proof.
  unfold finalize_jobs. revert db. induction jobs as [|j jobs IH]; intros db; [done|]. cbn [foldl].
  rewrite IH. apply finalize_job_tasks.
Qed.

Lemma finalize_jobs_keys now jobs db : keys_unique db → keys_unique (finalize_jobs now jobs db).
Proof.
  revert db. induction jobs as [|j jobs IH]; intros db Hk; [done|]. cbn. apply IH.
  by apply finalize_job_keys.
Qed.

(** No pending row is left whose dependencies decide its fate. *)
Definition settled (db : Db) : Prop :=
  ∀ t, t ∈ db_tasks db → t_status t = "pending" →
    dependency_state (task_deps t) (statuses db) ∈ ["ready"; "blocked"].

Lemma sweep_init db :
  keys_unique db →
  sweep_ok (_load_pending_tasks_with_dep_statuses db).2 (pending_rows db)
    (mkSweepState (_load_pending_tasks_with_dep_statuses db).2 [] [] ∅) (pending_rows db).
Proof.
  intros Hk. split; cbn.
  - apply (agrees_sub db); [done| |apply select_NoDup, Hk|].
    + intros t Ht. by apply elem_of_pending_rows in Ht as [? _].
    + intros t Ht. apply load_statuses; [done|]. exists t. by split; [|left].
  - reflexivity.
  - done.
  - intros t Ht. left. by apply elem_of_pending_rows in Ht as [_ ?].
  - intros id Hid. by apply elem_of_nil in Hid.
  - constructor.
Qed.

(** [written] on the table, for the rows the sweep ended with. *)
Lemma written_get db rows id :
  keys_unique db → Forall2 doom (pending_rows db) rows →
  row_get task_id id (written rows <$> db_tasks db) = written rows <$> get_task id db.
Proof.
  intros [Hk _] Hrows. unfold get_task.
  assert (∀ x, x ∈ db_tasks db → task_id (written rows x) = task_id x) as Hid.
  { intros x Hx. apply (same_id x (written rows x)), doom_identity.
    eapply (written_rel doom (db_tasks db) (pending_rows db)); [|done| |done|done].
    - intros ?? Hd. apply (same_id _ _ (doom_identity _ _ Hd)).
    - intros y Hy. by apply elem_of_pending_rows in Hy as [? _]. }
  clear Hk Hrows. revert Hid. generalize (db_tasks db) as l. induction l as [|x l IH]; intros Hid; [done|].
  cbn. rewrite Hid by set_solver. case_decide; [done|]. apply IH. set_solver.
Qed.

Lemma written_rows rows t sel :
  NoDup (task_id <$> rows) → Forall2 doom sel rows → t ∈ rows → written rows t = t.
Proof. intros Hd _ Ht. unfold written. by rewrite (elem_row_get task_id rows t). Qed.

(** The sweep changed a row exactly when it reports its id. *)
Lemma changed_iff db rows s m0 db2 id :
  keys_unique db → sweep_ok m0 (pending_rows db) s rows →
  db_tasks db2 = written rows <$> db_tasks db →
  id ∈ sw_changed s ↔ ∃ t t', get_task id db = Some t ∧ t_status t = "pending" ∧
                           get_task id db2 = Some t' ∧ t_status t' ≠ "pending".
Proof.
  intros Hk Hok Ht. pose proof (ok_doom _ _ _ _ Hok) as Hd. pose proof (ok_agrees _ _ _ _ Hok) as [Hnd _].
  assert (get_task id db2 = written rows <$> get_task id db) as Hg2.
  { unfold get_task at 1. rewrite Ht. by apply written_get. }
  rewrite Hg2. split.
  - intros Hc. destruct (ok_changed _ _ _ _ Hok _ Hc) as (t' & Hin & Hid & Hp).
    assert (task_id t' ∈ task_id <$> pending_rows db) as (t & Hidt & Hpend)%list_elem_of_fmap.
    { rewrite <-(Forall2_keys doom (pending_rows db) rows); [by apply list_elem_of_fmap_2| |done].
      intros ?? Hdm. apply (same_id _ _ (doom_identity _ _ Hdm)). }
    apply elem_of_pending_rows in Hpend as [Ht0 Hp0]. exists t, t'.
    unfold get_task. rewrite <-Hid, Hidt, (elem_row_get task_id _ t) by (try apply Hk; done). cbn.
    split_and!; [done..| |done]. f_equal. unfold written. by rewrite <-Hidt, (elem_row_get task_id rows t').
  - intros (t & t' & Hg & Hp & Hw & Hp'). rewrite Hg in Hw. injection Hw as <-.
    pose proof (get_task_elem _ _ _ Hg) as [Hin Hid]. unfold written in Hp'.
    destruct (row_get task_id (task_id t) rows) as [r|] eqn:Hr; [|done]. cbn in Hp'.
    apply row_get_elem in Hr as [Hr Hrid].
    destruct (ok_pending _ _ _ _ Hok r Hr) as [?|[Hc _]]; [done|]. congruence.
Qed.

(** The map the loop ends with gives the final statuses of the dependencies. *)
Lemma final_statuses db rows s db2 t dep :
  keys_unique db → keys_unique db2 →
  sweep_ok (_load_pending_tasks_with_dep_statuses db).2 (pending_rows db) s rows →
  db_tasks db2 = written rows <$> db_tasks db → t ∈ pending_rows db → dep ∈ task_deps t →
  sw_status s !! dep = statuses db2 !! dep.
Proof.
  intros Hk Hk2 Hok Ht Htp Hdep. pose proof (ok_agrees _ _ _ _ Hok) as [Hnd Ha].
  rewrite statuses_lookup by done. unfold get_task at 1. rewrite Ht.
  rewrite (written_get db rows dep Hk (ok_doom _ _ _ _ Hok)).
  destruct (decide (dep ∈ task_id <$> rows)) as [(r & -> & Hr)%list_elem_of_fmap|Hout].
  - rewrite Ha by done.
    assert (task_id r ∈ task_id <$> pending_rows db) as (x & Hidx & Hx)%list_elem_of_fmap.
    { rewrite <-(Forall2_keys doom (pending_rows db) rows); [by apply list_elem_of_fmap_2| |apply Hok].
      intros ?? Hdm. apply (same_id _ _ (doom_identity _ _ Hdm)). }
    apply elem_of_pending_rows in Hx as [Hx _]. unfold get_task.
    rewrite Hidx, (elem_row_get task_id _ x) by (try apply Hk; done). cbn. f_equal. unfold written.
    by rewrite <-Hidx, (elem_row_get task_id rows r).
  - rewrite (ok_outside _ _ _ _ Hok) by done. rewrite load_statuses by (try done; exists t; auto).
    rewrite statuses_lookup by done. destruct (get_task dep db) as [x|] eqn:Hg; [|done]. cbn. f_equal.
    unfold written. destruct (row_get task_id (task_id x) rows) as [r|] eqn:Hr; [|done].
    apply row_get_elem in Hr as [Hr Hid]. apply get_task_elem in Hg as [_ Hgid].
    destruct Hout. rewrite <-Hgid, <-Hid. by apply list_elem_of_fmap_2.
Qed.

(** What the written-back table satisfies. *)
Lemma write_back_spec db rows s db2 :
  keys_unique db →
  sweep_ok (_load_pending_tasks_with_dep_statuses db).2 (pending_rows db) s rows →
  (∀ t, t ∈ rows → t_status t = "pending" →
    dependency_state (task_deps t) (sw_status s) ∈ ["ready"; "blocked"]) →
  db_tasks db2 = written rows <$> db_tasks db → keys_unique db2 →
  tasks_rel doom db db2 ∧ settled db2.
Proof.
  intros Hk Hok Hfix Ht Hk2.
  assert (tasks_rel doom db db2) as Hrel.
  { unfold tasks_rel. rewrite Ht. apply fmap_Forall2. intros x Hx.
    eapply (written_rel doom (db_tasks db) (pending_rows db)); [|apply Hk| |apply Hok|done].
    - intros ?? Hd. apply (same_id _ _ (doom_identity _ _ Hd)).
    - intros y Hy. by apply elem_of_pending_rows in Hy as [? _]. }
  split; [done|]. intros t Htin Hp.
  destruct (tasks_rel_elem _ _ _ _ Hrel Htin) as (t0 & Ht0 & Hd).
  assert (t = t0) as ->.
  { destruct Hd as [->|(_ & Hdd & _)]; [done|]. by apply doomed_not_pending in Hdd. }
  assert (t0 ∈ pending_rows db) as Hpend by (by apply elem_of_pending_rows).
  rewrite <-(dependency_state_ext (task_deps t0) (sw_status s)).
  2:{ intros dep Hdep. by apply (final_statuses db rows s db2 t0). }
  apply Hfix; [|done]. rewrite Ht in Htin. apply list_elem_of_fmap in Htin as (x & Hx & Hxin).
  assert (written rows t0 = t0) as Hw.
  { assert (x = t0) as ->; [|done].
    apply (row_get_unique task_id (db_tasks db)); [apply Hk|done|done|].
    symmetry. rewrite Hx. apply (same_id x (written rows x)), doom_identity.
    eapply (written_rel doom (db_tasks db) (pending_rows db)); [|apply Hk| |apply Hok|done].
    - intros ?? Hdm. apply (same_id _ _ (doom_identity _ _ Hdm)).
    - intros y Hy. by apply elem_of_pending_rows in Hy as [? _]. }
  assert (task_id t0 ∈ task_id <$> rows) as (r & Hr & Hrin)%list_elem_of_fmap.
  { rewrite (Forall2_keys doom (pending_rows db) rows); [by apply list_elem_of_fmap_2| |apply Hok].
    intros ?? Hdm. apply (same_id _ _ (doom_identity _ _ Hdm)). }
  unfold written in Hw. rewrite Hr, (elem_row_get task_id rows r) in Hw by (try apply Hok; done).
  cbn in Hw. by rewrite <-Hw.
Qed.

Lemma written_keys db rows :
  keys_unique db → Forall2 doom (pending_rows db) rows →
  task_id <$> (written rows <$> db_tasks db) = task_id <$> db_tasks db.
Proof.
  intros [Hk _] Hrows. rewrite <-list_fmap_compose. apply list_fmap_ext.
  intros i x Hx%list_elem_of_lookup_2. apply (same_id x (written rows x)), doom_identity.
  eapply (written_rel doom (db_tasks db) (pending_rows db)); [|done| |done|done].
  - intros ?? Hd. apply (same_id _ _ (doom_identity _ _ Hd)).
  - intros y Hy. by apply elem_of_pending_rows in Hy as [? _].
Qed.

Lemma all_pending_same sel rows :
  Forall2 doom sel rows → (∀ r, r ∈ rows → t_status r = "pending") → sel = rows.
Proof.
  induction 1 as [|x y l l' Hd _ IH]; intros Hp; [done|]. rewrite IH by set_solver. f_equal.
  destruct Hd as [->|(_ & Hdd & _)]; [done|]. apply doomed_not_pending in Hdd. destruct Hdd. set_solver.
Qed.

Lemma written_pending db : keys_unique db → written (pending_rows db) <$> db_tasks db = db_tasks db.
Proof.
  intros [Hk _]. transitivity (id <$> db_tasks db); [|by rewrite list_fmap_id].
  apply list_fmap_ext. intros i x Hx%list_elem_of_lookup_2. symmetry.
  apply (written_rel eq (db_tasks db) (pending_rows db)); [by intros ?? ->|done| |reflexivity|done].
  intros y Hy. by apply elem_of_pending_rows in Hy as [? _].
Qed.

Lemma propagate_store_spec now db changed db' :
  keys_unique db → propagate_terminal_dependencies now db = (changed, db') →
  tasks_rel doom db db' ∧ keys_unique db' ∧ settled db' ∧ NoDup changed ∧
  ∀ id, id ∈ changed ↔ ∃ t t', get_task id db = Some t ∧ t_status t = "pending" ∧
                             get_task id db' = Some t' ∧ t_status t' ≠ "pending".
Proof.
  intros Hk. unfold propagate_terminal_dependencies.
  pose proof (sweep_init db Hk) as Hinit. pose proof (load_pending db) as Hpend.
  destruct (propagate_loop_spec now _ _ Hinit) as (rows & s & Hl & Hok & Hfix).
  rewrite (surjective_pairing (_load_pending_tasks_with_dep_statuses db)), Hpend, Hl.
  assert (∀ db2, db_tasks db2 = written rows <$> db_tasks db → keys_unique db2 →
    tasks_rel doom db db2 ∧ keys_unique db2 ∧ settled db2 ∧ NoDup (sw_changed s) ∧
    ∀ id, id ∈ sw_changed s ↔ ∃ t t', get_task id db = Some t ∧ t_status t = "pending" ∧
                             get_task id db2 = Some t' ∧ t_status t' ≠ "pending") as Hmain.
  { intros db2 Ht Hk2. destruct (write_back_spec db rows s db2 Hk Hok Hfix Ht Hk2) as [Hrel Hset].
    split_and!; [done..|by apply Hok|]. intros id. by eapply changed_iff. }
  assert (db_tasks (write_back rows (sw_recons s) db) = written rows <$> db_tasks db) as Hw by done.
  assert (keys_unique (write_back rows (sw_recons s) db)) as Hkw.
  { split; [|apply Hk]. rewrite Hw, written_keys; [apply Hk|done|apply Hok]. }
  destruct (sw_changed s) as [|c cs] eqn:Hc.
  - intros [= <- <-]. apply Hmain; [|done].
    assert (pending_rows db = rows) as <- by (apply all_pending_same; [apply Hok|]; intros r Hr;
      destruct (ok_pending _ _ _ _ Hok r Hr) as [?|[Hin _]]; [done|rewrite Hc in Hin; set_solver]).
    by rewrite written_pending.
  - intros [= <- <-]. apply Hmain; [by rewrite finalize_jobs_tasks|].
    by apply finalize_jobs_keys.
Qed.

(** ** Finding work *)

Lemma elem_of_find_ready db id :
  keys_unique db →
  id ∈ find_ready_pending_tasks db ↔
  ∃ t, t ∈ pending_rows db ∧ task_id t = id ∧ task_state_json t ≠ None ∧
       dependencies_ready (task_deps t) (statuses db) = true.
Proof.
  intros Hk. unfold find_ready_pending_tasks.
  rewrite (surjective_pairing (_load_pending_tasks_with_dep_statuses db)), load_pending.
  assert (∀ t, t ∈ pending_rows db →
    dependencies_ready (task_deps t) (_load_pending_tasks_with_dep_statuses db).2 =
    dependencies_ready (task_deps t) (statuses db)) as Heq.
  { intros t Ht. apply dependencies_ready_ext. intros dep Hdep. apply load_statuses; [done|].
    exists t. split; [done|by right]. }
  rewrite list_elem_of_fmap. split.
  - intros (t & -> & [Hr Ht]%elem_of_select). exists t. rewrite <-(Heq t Ht).
    destruct (task_state_json t); [|done]. by split_and!.
  - intros (t & Ht & <- & Hs & Hr). exists t. split; [done|]. apply elem_of_select. split; [|done].
    destruct (task_state_json t); [|done]. by rewrite Heq.
Qed.

Lemma find_ready_sound db id :
  keys_unique db → id ∈ find_ready_pending_tasks db →
  ∃ t, get_task id db = Some t ∧ t_status t = "pending" ∧
       dependencies_ready (task_deps t) (statuses db) = true.
Proof.
  intros Hk (t & Ht & <- & _ & Hr)%elem_of_find_ready; [|done].
  apply elem_of_pending_rows in Ht as [Ht Hp]. exists t. split_and!; [|done..].
  by apply elem_row_get; [apply Hk|].
Qed.

Lemma find_ready_complete db t :
  keys_unique db → t ∈ db_tasks db → t_status t = "pending" → task_state_json t ≠ None →
  dependencies_ready (task_deps t) (statuses db) = true → task_id t ∈ find_ready_pending_tasks db.
Proof.
  intros Hk Ht Hp Hs Hr. apply elem_of_find_ready; [done|]. exists t. split_and!; [|done..].
  by apply elem_of_pending_rows.
Qed.
