(* ===== verification/Submission.v ===== *)
(** The remaining operations as row relations: heartbeat, lease reclaim, the janitor's
    sweep, retention, cancellation, resume; and submission: the rows [materialize_dag]
    appends, the cache short-circuit, and what [submit_job_dag] hands to the queue. *)
From S2P Require Import Prelude PyValue Errors Readiness Store Sweep JobService Dispatcher Janitor Scheduler TaskRows SweepFacts Lifecycle Propagation.
From stdpp Require Import options.
Import Readiness Dag JobService Scheduler.

#[local] Open Scope Z_scope.

Section operations.

(** An update that moves every selected row along an edge and makes none
    running. *)
Lemma update_where_moved (p : Task → bool) (f : Task → Task) db db' :
  keys_unique db → db_tasks db' = update_where p f (db_tasks db) →
  job_id <$> db_jobs db' = job_id <$> db_jobs db →
  (∀ t, t ∈ db_tasks db → p t = true → row_step t (f t)) →
  (∀ t, p t = true → t_status (f t) = "running" → t_status t = "running") →
  moved db db' (λ _ _, False).
Proof.
  intros Hk Ht Hj Hstep Hrun.
  assert (tasks_rel (λ t t', row_step t t' ∧ (t_status t' = "running" → t_status t = "running")) db db') as Hrel.
  { unfold tasks_rel. rewrite Ht. apply fmap_Forall2. intros t Hin. destruct (p t) eqn:Hp; [|by split].
    split; [by apply Hstep|by apply Hrun]. }
  split.
  - eapply tasks_rel_mono; [|exact Hrel]. by intros ?? [].
  - eapply (tasks_rel_unique _ db db'); [|exact Hrel|done|done]. intros ?? [? _]. by apply row_step_id.
  - eapply running_from_rel; [| |exact Hrel].
    + intros ?? [? _]. by apply row_step_id.
    + intros x z [Hs Hr] Hz. split; [by apply Hr|]. apply same_task_deps, Hs.
Qed.

Lemma heartbeat_moved w ttl now tid db b db' :
  keys_unique db → Dispatcher.heartbeat w ttl now tid db = (b, db') → moved db db' (λ _ _, False).
Proof.
  intros Hk. unfold Dispatcher.heartbeat, Lease.refresh_lease. intros [= _ <-].
  eapply update_where_moved; [done|reflexivity|done| |done]. intros t _ _. apply row_step_lease.
Qed.

Lemma reset_lease_step now t : Janitor.lease_expired now t = true → row_step t (Janitor.reset_lease t).
Proof.
  unfold Janitor.lease_expired. rewrite andb_true_iff, bool_decide_eq_true. intros [Hs _].
  apply row_step_edge; [by split|]. rewrite Hs. unfold status_edges. list_in.
Qed.

Lemma reclaim_update now db :
  db_tasks (Janitor.reclaim_expired_leases now db).2 =
    update_where (Janitor.lease_expired now) Janitor.reset_lease (db_tasks db) ∧
  db_jobs (Janitor.reclaim_expired_leases now db).2 = db_jobs db ∧
  (Janitor.reclaim_expired_leases now db).1 =
    task_id <$> select (Janitor.lease_expired now) (db_tasks db).
Proof.
  unfold Janitor.reclaim_expired_leases.
  assert (∀ t, t ∈ db_tasks db → Janitor.lease_expired now t = true →
    task_id t ∈ task_id <$> select (Janitor.lease_expired now) (db_tasks db)) as Hin.
  { intros t Ht Hp. apply list_elem_of_fmap_2. by apply elem_of_select. }
  destruct (task_id <$> select _ _) as [|i ids] eqn:Hsel; cbn; split_and!; try done.
  - unfold update_where. transitivity (id <$> db_tasks db); [by rewrite list_fmap_id|].
    apply list_fmap_ext. intros k t Ht%list_elem_of_lookup_2. destruct (Janitor.lease_expired now t) eqn:Hp; [|done].
    destruct (not_elem_of_nil _ (Hin t Ht Hp)).
  - unfold update_where. apply list_fmap_ext. intros k t Ht%list_elem_of_lookup_2.
    destruct (Janitor.lease_expired now t) eqn:Hp; [|done]. by rewrite bool_decide_true by auto.
Qed.

Lemma reclaim_moved now db :
  keys_unique db → moved db (Janitor.reclaim_expired_leases now db).2 (λ _ _, False).
Proof.
  intros Hk. destruct (reclaim_update now db) as (Ht & Hj & _).
  eapply update_where_moved; [done|exact Ht|by rewrite Hj| |done].
  intros t _. apply reset_lease_step.
Qed.

Lemma propagate_moved now db changed db' :
  keys_unique db → Janitor.propagate_terminal_dependencies now db = (changed, db') →
  moved db db' (λ _ _, False).
Proof.
  intros Hk H. destruct (propagate_store_spec _ _ _ _ Hk H) as (Hrel & Hk' & _). split; [|done|].
  - by apply tasks_doom_row_step.
  - eapply running_from_rel; [| |exact Hrel].
    + intros ?? Hd. apply (same_id _ _ (doom_identity _ _ Hd)).
    + apply doom_running.
Qed.

Lemma cancel_moved tenant job force db j db' :
  keys_unique db → JobService.cancel_job tenant job force db = Ok (j, db') →
  moved db db' (λ _ _, False).
Proof.
  intros Hk (j0 & _ & [= <- <-])%bind_Ok. split; [by apply tasks_rel_refl; [apply _|]|by apply put_job_keys|].
  intros id t Hg Hs. left. by exists t.
Qed.

Lemma resumable_step t : Scheduler.resumable t = true → row_step t (Scheduler.reset_task t).
Proof.
  unfold Scheduler.resumable, Scheduler.RESUMABLE. rewrite bool_decide_eq_true. intros Hs.
  apply row_step_edge; [by split|]. cbn. unfold status_edges.
  set (s := t_status t) in *. clearbody s. in_cases Hs; list_in.
Qed.

Lemma resume_moved tenant job db j ready db' :
  keys_unique db → Scheduler.resume_job tenant job db = Ok (j, ready, db') →
  moved db db' (λ _ _, False).
Proof.
  intros Hk (j0 & _ & ([] & _ & ([] & _ & [= _ _ <-])%bind_Ok)%bind_Ok)%bind_Ok.
  eapply update_where_moved; [done|reflexivity| | |].
  - exact (put_row_keys job_id (Scheduler.reset_job j0) (db_jobs db)).
  - intros t _ [_ Hr]%andb_true_iff. by apply resumable_step.
  - intros t _ Hs. done.
Qed.

(** Retention only removes rows. *)
Lemma gc_tables days now db :
  let db' := (Janitor.gc_expired_job_records days now db).2 in
  keys_unique db →
  keys_unique db' ∧ (∀ id t, get_task id db' = Some t → get_task id db = Some t).
Proof.
  intros db' Hk. assert (keys_unique db ∧ ∀ id t, get_task id db = Some t → get_task id db = Some t) as Hsame by done.
  subst db'. unfold Janitor.gc_expired_job_records. destruct days as [d|]; [|done].
  destruct (select _ _) as [|j js] eqn:Hsel; [done|]. destruct Hk as [Hk Hj]. split.
  - split; cbn; by apply delete_where_NoDup.
  - intros id t. unfold get_task. cbn. rewrite row_get_delete_where by done.
    destruct (row_get task_id id (db_tasks db)) as [t'|]; cbn; [|done]. by case_bool_decide.
Qed.
End operations.

#[local] Opaque Dag.cache_key.

Section submission.
Context (svc : ArtifactServices).

(** ** Materialisation *)

(** The row of a node, up to the outputs a cache hit carries. *)
Record node_row (tenant job rv : string) (now : Z) (n : TaskNode) (t : Task) : Prop := {
  row_id : task_id t = n_task_id n;
  row_tenant : t_tenant_id t = tenant;
  row_job : t_job_id t = job;
  row_kind : kind t = n_kind n;
  row_key : Store.cache_key t = Dag.cache_key n rv;
  row_deps : task_deps t = n_depends_on n;
  row_status : t_status t = "pending" ∨ t_status t = "succeeded";
  row_unleased : lease_expires_at t = None ∧ worker_id t = None;
  row_state : task_state_json t = match n_metadata n with [] => None | m => Some (VDict m) end
}.

Lemma materialize_node_row tenant job rv now db n :
  node_row tenant job rv now n (materialize_node tenant job rv now db n).1 ∧
  ((materialize_node tenant job rv now db n).2 = true ↔
   t_status (materialize_node tenant job rv now db n).1 = "succeeded").
Proof.
  unfold materialize_node. destruct (lookup_cached_task _ _ _); cbn; (split; [split; cbn; auto|]); done.
Qed.

Lemma latest_finished_None best rows : latest_finished best rows = None ↔ best = None ∧ rows = [].
Proof.
  revert best. induction rows as [|t rows IH]; intros best; cbn; [tauto|].
  rewrite IH. split; [|by intros []]. destruct best as [b|]; [destruct (finished_before b t)|]; by intros [].
Qed.

Lemma lookup_cached_Some tenant ck db :
  is_Some (lookup_cached_task tenant ck db) ↔
  ∃ c, c ∈ db_tasks db ∧ t_tenant_id c = tenant ∧ Store.cache_key c = ck ∧ t_status c = "succeeded".
Proof.
  rewrite <-not_eq_None_Some. unfold lookup_cached_task. rewrite latest_finished_None. split.
  - intros H. destruct (select _ (db_tasks db)) as [|c cs] eqn:Hs; [destruct H; done|]. exists c.
    assert (c ∈ select (λ t, bool_decide (t_tenant_id t = tenant) && bool_decide (Store.cache_key t = ck) &&
                  bool_decide (t_status t = "succeeded")) (db_tasks db)) as Hc by (rewrite Hs; list_in).
    apply elem_of_select in Hc as [Hp ?]. rewrite !andb_true_iff, !bool_decide_eq_true in Hp. tauto.
  - intros (c & Hc & Ht & Hk & Hs) [_ Hnil].
    assert (c ∈ select (λ t, bool_decide (t_tenant_id t = tenant) && bool_decide (Store.cache_key t = ck) &&
                  bool_decide (t_status t = "succeeded")) (db_tasks db)) as Hin.
    { apply elem_of_select. by rewrite Ht, Hk, Hs, !bool_decide_true. }
    rewrite Hnil in Hin. by apply elem_of_nil in Hin.
Qed.

(** A reusable row for [t] among [rows]. *)
Definition cached_in (rows : list Task) (t : Task) : Prop :=
  ∃ c, c ∈ rows ∧ t_tenant_id c = t_tenant_id t ∧ Store.cache_key c = Store.cache_key t ∧
       t_status c = "succeeded".

Lemma materialize_node_cached tenant job rv now db n :
  t_status (materialize_node tenant job rv now db n).1 = "succeeded" ↔
  cached_in (db_tasks db) (materialize_node tenant job rv now db n).1.
Proof.
  unfold cached_in. pose proof (lookup_cached_Some tenant (Dag.cache_key n rv) db) as H.
  unfold materialize_node. destruct (lookup_cached_task _ _ _) as [c|]; cbn; split; intros Hs; try done.
  - by apply H.
  - destruct (proj2 H Hs) as [? [=]].
Qed.

Lemma materialize_nodes_cached tenant job rv now db nodes out db' i th :
  materialize_nodes tenant job rv now db nodes = (out, db') → out !! i = Some th →
  t_status th.1 = "succeeded" ↔ cached_in (db_tasks db ++ take i out.*1) th.1.
Proof.
  revert db out db' i. induction nodes as [|n nodes IH]; intros db out db' i; cbn [materialize_nodes].
  { by intros [= <- _]. }
  pose proof (materialize_node_cached tenant job rv now db n) as Hn.
  destruct (materialize_node tenant job rv now db n) as [t hit].
  destruct (materialize_nodes _ _ _ _ _ nodes) as [out1 db1] eqn:Hrest. intros [= <- _].
  destruct i as [|i]; cbn; [intros [= <-]; by rewrite app_nil_r|].
  intros Hi. rewrite (IH _ _ _ _ Hrest Hi). cbn. by rewrite <-app_assoc.
Qed.

Lemma materialize_nodes_spec tenant job rv now db nodes out db' :
  materialize_nodes tenant job rv now db nodes = (out, db') →
  db_tasks db' = db_tasks db ++ out.*1 ∧ db_jobs db' = db_jobs db ∧
  Forall2 (λ n th, node_row tenant job rv now n th.1 ∧ (th.2 = true ↔ t_status th.1 = "succeeded"))
    nodes out.
Proof.
  revert db out db'. induction nodes as [|n nodes IH]; intros db out db'; cbn [materialize_nodes].
  { intros [= <- <-]. rewrite app_nil_r. split_and!; [done..|constructor]. }
  pose proof (materialize_node_row tenant job rv now db n) as Hn.
  destruct (materialize_node tenant job rv now db n) as [t hit].
  destruct (materialize_nodes _ _ _ _ _ nodes) as [out1 db1] eqn:Hrest. intros [= <- <-].
  apply IH in Hrest as (Ht & Hj & Hf). cbn in Ht. rewrite <-app_assoc in Ht.
  split_and!; [done..|]. by constructor.
Qed.

(** ** Recording the cache hits *)

(** Recording rewrites the outputs column of a hit. *)
Definition recorded (th : Task * bool) (t' : Task) : Prop :=
  ∃ o, t' = set_outputs_ref_json th.1 o ∧ (th.2 = false → t' = th.1).

Lemma set_same_outputs t : set_outputs_ref_json t (outputs_ref_json t) = t.
Proof. by destruct t. Qed.

Lemma put_row_middle t' l1 t l2 :
  NoDup (task_id <$> l1 ++ t :: l2) → task_id t' = task_id t →
  put_row task_id t' (l1 ++ t :: l2) = l1 ++ t' :: l2.
Proof.
  intros Hd Hid. unfold put_row, update_where. rewrite fmap_app, fmap_cons, bool_decide_true by done.
  rewrite fmap_app, fmap_cons in Hd. apply NoDup_app in Hd as (_ & Hd1 & Hd2).
  apply NoDup_cons in Hd2 as [Hd2 _].
  assert (∀ l : list Task, task_id t ∉ task_id <$> l →
    (λ r, if bool_decide (task_id r = task_id t') then t' else r) <$> l = l) as Hl.
  { intros l Hn. transitivity (id <$> l); [|by rewrite list_fmap_id]. apply list_fmap_ext.
    intros i x Hx%list_elem_of_lookup_2. rewrite bool_decide_false; [done|]. rewrite Hid. intros He.
    apply Hn. rewrite <-He. by apply list_elem_of_fmap_2. }
  rewrite !Hl; [done|done|]. intros Hin. apply (Hd1 _ Hin). list_in.
Qed.

Lemma record_all_cached_spec pre ts db ts' db' :
  db_tasks db = pre ++ ts.*1 → NoDup (task_id <$> db_tasks db) →
  record_all_cached svc ts db = Ok (ts', db') →
  db_tasks db' = pre ++ ts' ∧ db_jobs db' = db_jobs db ∧ Forall2 recorded ts ts'.
Proof.
  revert pre db ts' db'. induction ts as [|[t hit] ts IH]; intros pre db ts' db' Ht Hd; cbn.
  { intros [= <- <-]. by split_and!. }
  assert (∀ t1 db1 ts1, recorded (t, hit) t1 → db_tasks db1 = pre ++ t1 :: ts.*1 → db_jobs db1 = db_jobs db →
    record_all_cached svc ts db1 = Ok (ts1, db') → t1 :: ts1 = ts' →
    db_tasks db' = pre ++ ts' ∧ db_jobs db' = db_jobs db ∧ Forall2 recorded ((t, hit) :: ts) ts') as Hstep.
  { intros t1 db1 ts1 Hrec Ht1 Hj1 Hr <-. apply (IH (pre ++ [t1])) in Hr as (Ha & Hb & Hc).
    - rewrite <-app_assoc in Ha. split_and!; [done|congruence|by constructor].
    - by rewrite Ht1, <-app_assoc.
    - rewrite Ht1. rewrite Ht in Hd. cbn in Hd. rewrite fmap_app, fmap_cons in *.
      destruct Hrec as (o & -> & _). done. }
  destruct hit.
  - intros ([t1 db1] & Hr & ([ts1 db2] & Hrest & [= <- <-])%bind_Ok)%bind_Ok.
    apply bind_Ok in Hr as (o & _ & ([o2 arts] & _ & [= <- <-])%bind_Ok).
    refine (Hstep _ _ ts1 _ _ _ Hrest eq_refl); [| |done].
    + exists (Some o2). by split.
    + cbn. rewrite Ht in *. by apply put_row_middle.
  - intros ([ts1 db1] & Hrest & [= <- <-])%bind_Ok.
    refine (Hstep t db ts1 _ _ _ Hrest eq_refl); [|done..].
    exists (outputs_ref_json t). by rewrite set_same_outputs.
Qed.

(** All of [materialize_dag]: one appended row per node. *)
Lemma materialize_dag_spec tenant job rv now nodes db tasks db' :
  NoDup ((task_id <$> db_tasks db) ++ (n_task_id <$> nodes)) →
  materialize_dag svc tenant job rv now nodes db = Ok (tasks, db') →
  db_tasks db' = db_tasks db ++ tasks ∧ db_jobs db' = db_jobs db ∧
  Forall2 (node_row tenant job rv now) nodes tasks.
Proof.
  intros Hd. unfold materialize_dag.
  destruct (materialize_nodes _ _ _ _ _ _) as [out db1] eqn:Hm.
  apply materialize_nodes_spec in Hm as (Ht & Hj & Hf). intros Hr.
  assert (task_id <$> out.*1 = n_task_id <$> nodes) as Hids.
  { clear -Hf. induction Hf as [|n [t h] nodes out [[Hid] _] _ IH]; [done|]. cbn in *. by rewrite IH, Hid. }
  apply (record_all_cached_spec (db_tasks db)) in Hr as (Ht' & Hj' & Hrec); [|done|].
  2:{ by rewrite Ht, fmap_app, Hids. }
  split_and!; [done|congruence|]. clear -Hf Hrec. revert tasks Hrec.
  induction Hf as [|n [t h] nodes out [Hrow _] _ IH]; intros tasks Hrec; inversion Hrec as [|? ? ? ? Hr]; subst;
    constructor; [|by apply IH].
  destruct Hr as (o & -> & _). destruct Hrow. by split.
Qed.

(** Recording keeps everything the cache looks at. *)
Lemma recorded_cached ts ts' pre i th t' :
  Forall2 recorded ts ts' → ts !! i = Some th → ts' !! i = Some t' →
  t_status t' = t_status th.1 ∧ (cached_in (pre ++ take i ts.*1) th.1 ↔ cached_in (pre ++ take i ts') t').
Proof.
  intros H Hi Hi'. pose proof (Forall2_lookup_lr _ _ _ _ _ _ H Hi Hi') as (o & -> & _). split; [done|].
  unfold cached_in. cbn. assert (Forall2 recorded (take i ts) (take i ts')) as Ht by (by apply Forall2_take).
  rewrite <-fmap_take. setoid_rewrite elem_of_app. generalize (take i ts) (take i ts') Ht. clear.
  intros l l' Hl. split; intros (c & [Hc|Hc] & Hp); try (exists c; tauto).
  - apply list_elem_of_fmap in Hc as (x & -> & [j Hj]%list_elem_of_lookup).
    destruct (Forall2_lookup_l _ _ _ _ _ Hl Hj) as (y & Hy & o' & -> & _).
    eexists. split; [right; by eapply list_elem_of_lookup_2|done].
  - apply list_elem_of_lookup in Hc as [j Hj].
    destruct (Forall2_lookup_r _ _ _ _ _ Hl Hj) as (x & Hx & o' & -> & _).
    exists x.1. split; [right; apply list_elem_of_fmap_2; by eapply list_elem_of_lookup_2|done].
Qed.

(** A new row is a cache hit exactly when an earlier row can be reused. *)
Lemma materialize_dag_cached tenant job rv now nodes db tasks db' i t :
  NoDup ((task_id <$> db_tasks db) ++ (n_task_id <$> nodes)) →
  materialize_dag svc tenant job rv now nodes db = Ok (tasks, db') → tasks !! i = Some t →
  t_status t = "succeeded" ↔ cached_in (db_tasks db ++ take i tasks) t.
Proof.
  intros Hd. unfold materialize_dag.
  destruct (materialize_nodes _ _ _ _ _ _) as [out db1] eqn:Hm.
  pose proof (materialize_nodes_spec _ _ _ _ _ _ _ _ Hm) as (Ht & _ & Hf). intros Hr Hi.
  assert (task_id <$> out.*1 = n_task_id <$> nodes) as Hids.
  { clear -Hf. induction Hf as [|n [t h] nodes out [[Hid] _] _ IH]; [done|]. cbn in *. by rewrite IH, Hid. }
  apply (record_all_cached_spec (db_tasks db)) in Hr as (_ & _ & Hrec); [|done|].
  2:{ by rewrite Ht, fmap_app, Hids. }
  destruct (Forall2_lookup_r _ _ _ _ _ Hrec Hi) as (th & Hth & _).
  destruct (recorded_cached _ _ (db_tasks db) _ _ _ Hrec Hth Hi) as [-> <-].
  by eapply materialize_nodes_cached.
Qed.

(** ** Resolving the dependencies *)

Lemma select_ext {A} (p q : A → bool) rows :
  (∀ x, x ∈ rows → p x = q x) → select p rows = select q rows.
Proof.
  unfold select. induction rows as [|x rows IH]; intros H; [done|]. cbn.
  rewrite (H x), IH by set_solver. done.
Qed.

Lemma select_select {A} (p q : A → bool) rows : select p (select q rows) = select (λ x, q x && p x) rows.
Proof.
  unfold select. induction rows as [|x rows IH]; [done|]. cbn. destruct (q x); cbn; [|done].
  by rewrite IH.
Qed.

Lemma resolve_external_lookup db tasks m dep :
  keys_unique db → dep ∈ tasks ≫= task_deps →
  (∀ s, m !! dep = Some s → statuses db !! dep = Some s) →
  _resolve_external_dep_statuses db tasks m !! dep = statuses db !! dep.
Proof.
  intros [Hk Hj] Hdep Hm. unfold _resolve_external_dep_statuses.
  set (ext := filter _ _).
  assert (status_map (select (λ t, bool_decide (task_id t ∈ ext)) (db_tasks db)) !! dep =
          if decide (dep ∈ ext) then statuses db !! dep else None) as Hs.
  { rewrite status_map_lookup, row_get_select by auto with scene. rewrite statuses_lookup by done.
    unfold get_task. destruct (row_get task_id dep (db_tasks db)) as [t|] eqn:Hg; cbn; [|by case_decide].
    apply row_get_elem in Hg as [_ ->]. by case_bool_decide; case_decide. }
  destruct (m !! dep) as [s|] eqn:Hmd.
  - rewrite (Hm s) by done. assert (dep ∉ ext) as Hn.
    { unfold ext. rewrite list_elem_of_filter. intros [? _]. congruence. }
    destruct ext; [by rewrite Hmd|]. rewrite lookup_union, Hs, decide_False, Hmd by done. done.
  - assert (dep ∈ ext) as Hin by (by apply list_elem_of_filter).
    destruct ext as [|e ext']; [by apply elem_of_nil in Hin|].
    rewrite lookup_union, Hs, decide_True, Hmd by done. by destruct (statuses db !! dep).
Qed.

(** The rows [submit_job_dag] makes, and the ids it enqueues: the pending new
    rows whose dependencies are all satisfied in the store it leaves. *)
Lemma submit_spec new_id rv now tenant project recipe spec nodes db jid tasks queued db' :
  keys_unique db → get_job (new_id 0%nat) db = None →
  NoDup ((task_id <$> db_tasks db) ++ (n_task_id <$> assign_ids new_id 1 nodes)) →
  submit_job_dag svc new_id rv now tenant project recipe spec nodes db = Ok (jid, tasks, queued, db') →
  jid = new_id 0%nat ∧ keys_unique db' ∧ db_tasks db' = db_tasks db ++ tasks ∧
  Forall2 (node_row tenant jid rv now) (assign_ids new_id 1 nodes) tasks ∧
  (∀ i t, tasks !! i = Some t → t_status t = "succeeded" ↔ cached_in (db_tasks db ++ take i tasks) t) ∧
  queued = task_id <$> select (λ t, bool_decide (t_status t = "pending") &&
                                    dependencies_ready (task_deps t) (statuses db')) tasks.
Proof.
  intros Hk Hjid Hd. unfold submit_job_dag. cbn [create_job].
  set (db0 := with_jobs _ db). cbn [job_id].
  intros ([tasks1 db1] & Hm & H)%bind_Ok.
  pose proof (λ i t, materialize_dag_cached tenant (new_id 0%nat) rv now _ db0 tasks1 db1 i t Hd Hm) as Hcache. cbn in Hcache.
  apply materialize_dag_spec in Hm as (Ht & Hj & Hrows); [|done]. cbn in Ht.
  assert (keys_unique db1) as Hk1.
  { split.
    - rewrite Ht, fmap_app. replace (task_id <$> tasks1) with (n_task_id <$> assign_ids new_id 1 nodes); [done|].
      clear -Hrows. induction Hrows as [|n t ns ts [] _ IH]; [done|]. cbn. congruence.
    - rewrite Hj. cbn. rewrite fmap_app. destruct Hk as [_ Hk]. apply NoDup_app.
      split_and!; [done| |apply NoDup_singleton]. intros x Hx ->%list_elem_of_singleton.
      apply list_elem_of_fmap in Hx as (j & Hxj & Hin). cbn in Hxj.
      unfold get_job in Hjid. rewrite row_get_None in Hjid. by apply (Hjid j). }
  assert (∀ t, t ∈ tasks1 → t_status t = "pending" ∨ t_status t = "succeeded") as Hst.
  { intros t Hin. apply list_elem_of_lookup in Hin as [i Hi].
    destruct (Forall2_lookup_r _ _ _ _ _ Hrows Hi) as (n & _ & Hn). apply Hn. }
  set (pend := select _ tasks1) in H.
  assert (pend = select (λ t, bool_decide (t_status t = "pending")) tasks1) as Hpend.
  { apply select_ext. intros t Hin. destruct (Hst t Hin) as [-> | ->]; done. }
  assert (∀ db2, db_tasks db2 = db_tasks db1 → keys_unique db2 →
    queued = task_id <$> select (λ t, dependencies_ready (task_deps t) (statuses db1)) pend →
    jid = new_id 0%nat → tasks = tasks1 → db' = db2 →
    jid = new_id 0%nat ∧ keys_unique db' ∧ db_tasks db' = db_tasks db ++ tasks ∧
    Forall2 (node_row tenant jid rv now) (assign_ids new_id 1 nodes) tasks ∧
    (∀ i t, tasks !! i = Some t → t_status t = "succeeded" ↔ cached_in (db_tasks db ++ take i tasks) t) ∧
    queued = task_id <$> select (λ t, bool_decide (t_status t = "pending") &&
                                      dependencies_ready (task_deps t) (statuses db')) tasks) as Hfin.
  { intros db2 Ht2 Hk2 Hq -> -> ->. split_and!; [done|done|by rewrite Ht2|done|done|].
    rewrite Hq, Hpend, select_select. unfold statuses. by rewrite Ht2. }
  destruct pend as [|p pend'] eqn:Hp.
  - destruct (finalize_job_if_ready now _ db1) as [o db2] eqn:Hfj. injection H as <- <- <- <-.
    pose proof (finalize_job_tasks now (new_id 0%nat) db1) as Ht2.
    pose proof (finalize_job_keys now (new_id 0%nat) db1 Hk1) as Hk2. rewrite Hfj in Ht2, Hk2.
    by apply (Hfin db2).
  - injection H as <- <- <- <-. apply (Hfin db1); try done.
    refine (f_equal (fmap task_id) (select_ext _ _ (p :: pend') _)). intros t Hin. apply dependencies_ready_ext. intros dep Hdep. apply resolve_external_lookup; [done| |].
    + apply list_elem_of_bind. by exists t.
    + intros st. rewrite status_map_lookup.
      * destruct (row_get task_id dep tasks1) as [t'|] eqn:Hg; [|done]. intros [= <-].
        apply row_get_elem in Hg as [Hin' <-]. rewrite statuses_lookup by done.
        unfold get_task. rewrite (elem_row_get task_id _ t'); [done|apply Hk1|]. rewrite Ht. set_solver.
      * destruct Hk1 as [Hk1 _]. rewrite Ht, fmap_app in Hk1. by apply NoDup_app in Hk1 as (_ & _ & ?).
Qed.
End submission.
