(* ===== verification/System.v ===== *)
(** The orchestrator as a transition system: any number of workers, the janitor
    and the API act on one store, each transaction atomic, in any order.
    Handlers run between the two transactions of [execute_task] and may outlive
    their lease or die with their worker. *)
From S2P Require Import Prelude PyValue Errors Readiness Store Sweep Hashing JobService Dispatcher Janitor Scheduler TaskRows SweepFacts Lifecycle Execution Propagation Submission.
From stdpp Require Import options.
From Stdlib Require Import Relations.
Import Readiness.

#[local] Open Scope Z_scope.

Module System.

(** What a deployment fixes. *)
Record Env : Type := mkEnv {
  env_registry : Registry.Registry;
  env_services : ArtifactServices;
  env_sanitize : Errors.exn → string;
  env_lease_ttl : Z;
  env_retention : option Z
}.

(** The store, the clock, and the handlers in progress: worker and task row as
    picked up. *)
Record Sys : Type := mkSys {
  s_db : Db;
  s_now : Z;
  s_runs : list (string * Task)
}.

(** How a handler ends: it returns or raises, or there was none for the kind. *)
Inductive ending : Type :=
  | Handled (outcome : res Errors.exn value)
  | NoHandler.

Section system.
Context (env : Env).

(** The second transaction's effect on the store; an exception that escapes it
    rolls it back. *)
Definition finish (w : string) (t : Task) (e : ending) (now : Z) (db : Db) : Db :=
  match
    (match e with
     | Handled outcome =>
         Dispatcher.complete (env_registry env) (env_services env) (env_sanitize env) w now
           (task_id t) outcome db
     | NoHandler => Dispatcher.complete_unknown (env_registry env) w now (task_id t) (kind t) db
     end)
  with
  | Ok (_, db, _) => db
  | Err _ => db
  end.

(** Ids a new row must not reuse: those of rows, and those rows or running
    handlers mention as dependencies. *)
Definition mentioned (s : Sys) (id : string) : Prop :=
  (∃ t, t ∈ db_tasks (s_db s) ∧ (task_id t = id ∨ id ∈ task_deps t)) ∨
  (∃ w t, (w, t) ∈ s_runs s ∧ id ∈ task_deps t).

(** Deleting jobs takes the rows that refer to them along. *)
Definition drop_jobs (doomed : string → bool) (db : Db) : Db :=
  mkDb (delete_where (λ t, doomed (t_job_id t)) (db_tasks db)) (delete_where (λ j, doomed (job_id j)) (db_jobs db))
    (delete_where (λ a, doomed (sa_job_id a)) (db_artifacts db)) (delete_where (λ e, doomed (je_job_id e)) (db_events db))
    (db_recons db) (db_other db).

(** What goes on between submissions. *)
Inductive work (s : Sys) : Sys → Prop :=
  | work_tick now :
      s_now s ≤ now → work s (mkSys (s_db s) now (s_runs s))
  | work_pickup w tid r db queued :
      Dispatcher.pickup (env_registry env) w (env_lease_ttl env) (s_now s) tid (s_db s) = (r, db, queued) →
      work s (mkSys db (s_now s)
                (match r with Dispatcher.Started t => (w, t) :: s_runs s | _ => s_runs s end))
  | work_finish w t e l1 l2 :
      s_runs s = l1 ++ (w, t) :: l2 →
      work s (mkSys (finish w t e (s_now s) (s_db s)) (s_now s) (l1 ++ l2))
  | work_beat w t :
      (w, t) ∈ s_runs s →
      work s (mkSys (Dispatcher.heartbeat w (env_lease_ttl env) (s_now s) (task_id t) (s_db s)).2
                (s_now s) (s_runs s))
  | work_crash run l1 l2 :
      s_runs s = l1 ++ run :: l2 → work s (mkSys (s_db s) (s_now s) (l1 ++ l2))
  | work_reclaim :
      work s (mkSys (Janitor.reclaim_expired_leases (s_now s) (s_db s)).2 (s_now s) (s_runs s))
  | work_propagate :
      work s (mkSys (Janitor.propagate_terminal_dependencies (s_now s) (s_db s)).2 (s_now s) (s_runs s))
  | work_gc :
      work s (mkSys (Janitor.gc_expired_job_records (env_retention env) (s_now s) (s_db s)).2
                (s_now s) (s_runs s))
  | work_cancel tenant job force j db :
      JobService.cancel_job tenant job force (s_db s) = Ok (j, db) →
      work s (mkSys db (s_now s) (s_runs s))
  | work_resume tenant job j ready db :
      Scheduler.resume_job tenant job (s_db s) = Ok (j, ready, db) →
      work s (mkSys db (s_now s) (s_runs s))
  | work_drop doomed : work s (mkSys (drop_jobs doomed (s_db s)) (s_now s) (s_runs s))
  | work_other artifacts events recons other :
      work s (mkSys (mkDb (db_tasks (s_db s)) (db_jobs (s_db s)) artifacts events recons other) (s_now s) (s_runs s)).

(** A submission comes with ids nobody uses. *)
Inductive step (s : Sys) : Sys → Prop :=
  | step_work s' : work s s' → step s s'
  | step_submit rv new_id tenant project recipe spec nodes r db :
      get_job (new_id 0%nat) (s_db s) = None →
      NoDup (Dag.n_task_id <$> Scheduler.assign_ids new_id 1 nodes) →
      (∀ id, id ∈ Dag.n_task_id <$> Scheduler.assign_ids new_id 1 nodes → ¬ mentioned s id) →
      Scheduler.submit_job_dag (env_services env) new_id rv (s_now s)
        tenant project recipe spec nodes (s_db s) = Ok (r, db) →
      step s (mkSys db (s_now s) (s_runs s)).

(** A start: no tasks, nothing running. *)
Definition initial (s : Sys) : Prop :=
  db_tasks (s_db s) = [] ∧ NoDup (job_id <$> db_jobs (s_db s)) ∧ s_runs s = [].

Inductive reachable : Sys → Prop :=
  | reach_initial s : initial s → reachable s
  | reach_step s s' : reachable s → step s s' → reachable s'.

(** ** The invariant *)

Definition finished (db : Db) (id : string) : Prop :=
  ∀ t, get_task id db = Some t → t_status t ∈ ["succeeded"; "skipped"].

(** Ids whose rows somebody runs on. *)
Definition needed (s : Sys) (id : string) : Prop :=
  (∃ t, t ∈ db_tasks (s_db s) ∧ t_status t = "running" ∧ id ∈ task_deps t) ∨
  (∃ w t, (w, t) ∈ s_runs s ∧ id ∈ task_deps t).

Record sys_ok (s : Sys) : Prop := {
  sys_keys : keys_unique (s_db s);
  sys_inputs : ∀ id, needed s id → finished (s_db s) id
}.

Lemma finished_moved db db' from id :
  moved db db' from → finished db id → finished db' id.
Proof.
  intros Hm Hf t' Hg. pose proof (tasks_rel_get row_step db db' id row_step_id (moved_rel _ _ _ Hm)) as H.
  rewrite Hg in H. destruct (get_task id db) as [t|] eqn:Hg0; [|done].
  rewrite (row_step_ready _ _ H); by apply Hf.
Qed.

Lemma elem_get_task db t : keys_unique db → t ∈ db_tasks db → get_task (task_id t) db = Some t.
Proof. intros [Hk _] Ht. by apply elem_row_get. Qed.

(** A transaction of the [moved] kind keeps the invariant when the rows it
    starts, and the handlers, have finished dependencies. *)
Lemma sys_ok_moved s db now runs from :
  sys_ok s → moved (s_db s) db from →
  (∀ id t dep, from id t → get_task id db = Some t → dep ∈ task_deps t → finished (s_db s) dep) →
  (∀ w t dep, (w, t) ∈ runs → dep ∈ task_deps t → (w, t) ∈ s_runs s ∨ finished (s_db s) dep) →
  sys_ok (mkSys db now runs).
Proof.
  intros [Hk Hin] Hm Hfrom Hruns. split; [apply Hm|]. cbn. intros id [(t & Ht & Hs & Hdep)|(w & t & Hrun & Hdep)].
  - cbn in Ht. eapply finished_moved; [exact Hm|].
    apply elem_get_task in Ht; [|apply Hm].
    destruct (moved_running _ _ _ Hm _ _ Ht Hs) as [(t0 & Hg & Hs0 & Hd)|Hf].
    + apply Hin. left. exists t0. apply get_task_elem in Hg as [? _]. rewrite <-Hd. by split_and!.
    + by eapply Hfrom.
  - cbn in Hrun. eapply finished_moved; [exact Hm|].
    destruct (Hruns w t id Hrun Hdep) as [?|?]; [|done]. apply Hin. right. by exists w, t.
Qed.

Lemma sys_ok_same s db now runs :
  sys_ok s → moved (s_db s) db (λ _ _, False) → (∀ run, run ∈ runs → run ∈ s_runs s) →
  sys_ok (mkSys db now runs).
Proof. intros Hok Hm Hsub. eapply sys_ok_moved; [done|done|done|]. auto. Qed.

(** A row whose dependency state is [ready] has finished dependencies. *)
Lemma ready_finished db t dep :
  keys_unique db → dependency_state (task_deps t) (statuses db) = "ready" → dep ∈ task_deps t →
  finished db dep.
Proof.
  intros Hk Hr Hdep d Hg. apply dependencies_ready_state, dependencies_ready_iff with (dep := dep) in Hr; [|done].
  unfold dep_ready in Hr. rewrite statuses_lookup, Hg in Hr by done. cbn in Hr.
  destruct Hr as [[= ->]|[= ->]]; list_in.
Qed.

Lemma finish_moved w t e now db : keys_unique db → moved db (finish w t e now db) (λ _ _, False).
Proof.
  intros Hk. unfold finish.
  destruct (match e with Handled _ => _ | NoHandler => _ end) as [[[r db'] q]|ex] eqn:H; [|by apply moved_refl].
  assert (complete_post w now (task_id t) db r db' q) as Hp.
  { destruct e; [by eapply complete_spec|by eapply complete_unknown_spec]. }
  unfold complete_post in Hp. destruct (owned _ _ _ _); [apply Hp|].
  destruct Hp as (-> & _). by apply moved_refl.
Qed.

Lemma sys_ok_pickup s w tid r db q :
  sys_ok s →
  Dispatcher.pickup (env_registry env) w (env_lease_ttl env) (s_now s) tid (s_db s) = (r, db, q) →
  sys_ok (mkSys db (s_now s)
            (match r with Dispatcher.Started t => (w, t) :: s_runs s | _ => s_runs s end)).
Proof.
  intros Hok H. pose proof (sys_keys _ Hok) as Hk.
  destruct (pickup_spec _ _ _ _ _ _ _ _ _ Hk H) as [Hp Hr]. destruct r as [r|t|e]; cbn in Hp.
  - by apply sys_ok_same with (s := s).
  - destruct Hp as (Hm & Hg & _). eapply sys_ok_moved; [done|exact Hm| |].
    + intros id t' dep -> Hg' Hdep. rewrite Hg in Hg'. injection Hg' as <-. by eapply ready_finished.
    + intros w' t' dep [[= -> ->]|?]%elem_of_cons Hdep; [right|by left]. by eapply ready_finished.
  - subst. apply sys_ok_same with (s := s); [done|by apply moved_refl|done].
Qed.

(** A transaction that only removes rows. *)
Lemma sys_ok_shrunk s db :
  sys_ok s → keys_unique db → (∀ id t, get_task id db = Some t → get_task id (s_db s) = Some t) →
  sys_ok (mkSys db (s_now s) (s_runs s)).
Proof.
  intros [Hk Hin] Hk' Hg. split; [done|]. cbn. intros id Hn t Ht. apply Hg in Ht. apply (Hin id); [|done].
  destruct Hn as [(t' & Ht' & Hs & Hdep)|?]; [|by right]. left. exists t'. split_and!; [|done..].
  cbn in Ht'. apply elem_get_task, Hg, get_task_elem in Ht' as [? _]; done.
Qed.

Lemma drop_jobs_tables doomed db :
  keys_unique db →
  keys_unique (drop_jobs doomed db) ∧ ∀ id t, get_task id (drop_jobs doomed db) = Some t → get_task id db = Some t.
Proof.
  intros [Hk Hj]. split; [split; cbn; by apply delete_where_NoDup|]. intros id t. unfold get_task. cbn.
  rewrite row_get_delete_where by done. destruct (row_get task_id id (db_tasks db)) as [t'|]; cbn; [|done]. by case_match.
Qed.

Lemma get_task_app db db' rows id :
  db_tasks db' = db_tasks db ++ rows →
  get_task id db' = match get_task id db with Some t => Some t | None => row_get task_id id rows end.
Proof. intros Ht. unfold get_task. by rewrite Ht, row_get_app. Qed.

Lemma sys_ok_submit s db tasks :
  sys_ok s → keys_unique db → db_tasks db = db_tasks (s_db s) ++ tasks →
  (∀ t, t ∈ tasks → ¬ mentioned s (task_id t) ∧ (t_status t = "pending" ∨ t_status t = "succeeded")) →
  sys_ok (mkSys db (s_now s) (s_runs s)).
Proof.
  intros [Hk Hin] Hk' Ht Hnew. split; [done|]. cbn. intros id Hn t Hg.
  rewrite (get_task_app (s_db s) db tasks) in Hg by done.
  assert (needed s id) as Hneed.
  { destruct Hn as [(t' & Ht' & Hs & Hdep)|?]; [left|by right]. exists t'. split_and!; [|done..].
    cbn in Ht'. rewrite Ht in Ht'. apply elem_of_app in Ht' as [?|Hnt]; [done|].
    destruct (Hnew _ Hnt) as [_ [?|?]]; congruence. }
  destruct (get_task id (s_db s)) as [t0|] eqn:Hg0; [injection Hg as <-; by apply (Hin id)|].
  apply row_get_elem in Hg as [Hnt <-]. destruct (Hnew _ Hnt) as [Hm _]. destruct Hm.
  destruct Hneed as [(t' & Ht' & _ & Hdep)|(w & t' & Hr & Hdep)].
  - left. exists t'. split; [done|by right].
  - right. by exists w, t'.
Qed.

(** A submitted row, as the step relation sees it. *)
Lemma submit_rows s rv new_id tenant project recipe spec nodes jid tasks queued db :
  sys_ok s → get_job (new_id 0%nat) (s_db s) = None →
  NoDup (Dag.n_task_id <$> Scheduler.assign_ids new_id 1 nodes) →
  (∀ id, id ∈ Dag.n_task_id <$> Scheduler.assign_ids new_id 1 nodes → ¬ mentioned s id) →
  Scheduler.submit_job_dag (env_services env) new_id rv (s_now s)
    tenant project recipe spec nodes (s_db s) = Ok (jid, tasks, queued, db) →
  keys_unique db ∧ db_tasks db = db_tasks (s_db s) ++ tasks ∧
  ∀ t, t ∈ tasks → ¬ mentioned s (task_id t) ∧ (t_status t = "pending" ∨ t_status t = "succeeded").
Proof.
  intros Hok Hj Hd Hm H. pose proof (sys_keys _ Hok) as Hk.
  eapply submit_spec in H as (_ & Hk' & Ht & Hrows & _); [|done|done|].
  - split_and!; [done..|]. intros t [i Hi]%list_elem_of_lookup.
    destruct (Forall2_lookup_r _ _ _ _ _ Hrows Hi) as (n & Hn & Hrow). split; [|apply Hrow].
    rewrite (row_id _ _ _ _ _ _ Hrow). apply Hm, list_elem_of_fmap_2. by eapply list_elem_of_lookup_2.
  - apply NoDup_app. split_and!; [apply Hk| |done]. intros id Hid Hnew. apply (Hm _ Hnew). left.
    apply list_elem_of_fmap in Hid as (t & -> & Ht). exists t. split; [done|by left].
Qed.

(** The other tables play no part. *)
Lemma moved_tables db from artifacts events recons other :
  keys_unique db → moved db (mkDb (db_tasks db) (db_jobs db) artifacts events recons other) from.
Proof. intros Hk. destruct (moved_refl db from Hk) as [H1 H2 H3]. split; [exact H1|exact H2|exact H3]. Qed.

Lemma sys_ok_step s s' : sys_ok s → step s s' → sys_ok s'.
Proof.
  intros Hok Hstep. pose proof (sys_keys _ Hok) as Hk. destruct Hstep as
    [s' [now Hn|w tid r db q H|w t e l1 l2 H|w t H|run l1 l2 H| | | |tenant job force j db H|tenant job j ready db H|
         doomed|arts events recons other]|
     rv new_id tenant project recipe spec nodes r db Hj Hd Hm H].
  - apply (sys_ok_same s); [done|by apply moved_refl|done].
  - by apply (sys_ok_pickup s w tid r db q).
  - apply (sys_ok_same s); [done|by apply finish_moved|]. rewrite H. set_solver.
  - apply (sys_ok_same s); [done| |done]. by eapply heartbeat_moved; [|apply surjective_pairing].
  - apply (sys_ok_same s); [done|by apply moved_refl|]. rewrite H. set_solver.
  - apply (sys_ok_same s); [done|by apply reclaim_moved|done].
  - apply (sys_ok_same s); [done| |done]. by eapply propagate_moved; [|apply surjective_pairing].
  - by apply sys_ok_shrunk; [|apply gc_tables..].
  - apply (sys_ok_same s); [done|by eapply cancel_moved|done].
  - apply (sys_ok_same s); [done|by eapply resume_moved|done].
  - by apply sys_ok_shrunk; [|apply drop_jobs_tables..].
  - apply (sys_ok_same s); [done|by apply moved_tables|done].
  - destruct r as [[jid tasks] queued].
    destruct (submit_rows _ _ _ _ _ _ _ _ _ _ _ _ Hok Hj Hd Hm H) as (Hk' & Ht & Hnew).
    by eapply sys_ok_submit.
Qed.

(** What one step does to the task table. *)
Lemma step_effect s s' :
  sys_ok s → step s s' →
  moved (s_db s) (s_db s') (λ id _, ∃ w t, (w, t) ∈ s_runs s' ∧ task_id t = id) ∨
  (∀ id t, get_task id (s_db s') = Some t → get_task id (s_db s) = Some t) ∨
  (∃ rows, db_tasks (s_db s') = db_tasks (s_db s) ++ rows ∧ ∀ t, t ∈ rows → ¬ mentioned s (task_id t)).
Proof.
  intros Hok Hstep. pose proof (sys_keys _ Hok) as Hk.
  assert (∀ db', moved (s_db s) db' (λ _ _, False) → ∀ runs : list (string * Task),
    moved (s_db s) db' (λ id _, ∃ w t, (w, t) ∈ runs ∧ task_id t = id)) as Hweak.
  { intros db' [Ha Hb Hc] runs. split; [done..|]. intros id t Hg Hs. destruct (Hc _ _ Hg Hs); [by left|done]. }
  destruct Hstep as
    [s' [now Hn|w tid r db q H|w t e l1 l2 H|w t H|run l1 l2 H| | | |tenant job force j db H|tenant job j ready db H|
         doomed|arts events recons other]|
     rv new_id tenant project recipe spec nodes r db Hj Hd Hm H]; cbn [s_db s_runs].
  - left. by apply Hweak, moved_refl.
  - left. destruct (pickup_spec _ _ _ _ _ _ _ _ _ Hk H) as [Hp _]. destruct r as [r|t|e]; cbn in Hp.
    + by apply Hweak.
    + destruct Hp as ([Ha Hb Hc] & Hg & _). split; [done..|]. intros id t' Hg' Hs.
      destruct (Hc _ _ Hg' Hs) as [?| ->]; [by left|right]. exists w, t. split; [list_in|].
      by apply get_task_elem in Hg as [_ ?].
    + subst. by apply Hweak, moved_refl.
  - left. by apply Hweak, finish_moved.
  - left. apply Hweak. by eapply heartbeat_moved; [|apply surjective_pairing].
  - left. by apply Hweak, moved_refl.
  - left. by apply Hweak, reclaim_moved.
  - left. apply Hweak. by eapply propagate_moved; [|apply surjective_pairing].
  - right. left. by apply gc_tables.
  - left. apply Hweak. by eapply cancel_moved.
  - left. apply Hweak. by eapply resume_moved.
  - right. left. by apply drop_jobs_tables.
  - left. by apply Hweak, moved_tables.
  - right. right. destruct r as [[jid tasks] queued].
    destruct (submit_rows _ _ _ _ _ _ _ _ _ _ _ _ Hok Hj Hd Hm H) as (Hk' & Ht & Hnew).
    exists tasks. split; [done|]. intros t Hin. by apply Hnew.
Qed.

Lemma reachable_ok s : reachable s → sys_ok s.
Proof.
  induction 1 as [s (Ht & Hj & Hr)|s s' _ IH Hstep]; [|by eapply sys_ok_step].
  split; [split; [by rewrite Ht; constructor|done]|].
  intros id [(t & Hin & _)|(w & t & Hin & _)]; [rewrite Ht in Hin|rewrite Hr in Hin]; by apply elem_of_nil in Hin.
Qed.
End system.
End System.
