(* ===== verification/Guarantees.v ===== *)
(** What the orchestrator guarantees: safety of every reachable state, the
    effect of each transaction, and progress. *)
From S2P Require Import Prelude PyValue Errors Readiness Store Sweep Hashing JobService Dispatcher Janitor Scheduler TaskRows SweepFacts Lifecycle Execution Propagation Submission System.
From stdpp Require Import options.
Import Readiness System.

#[local] Open Scope Z_scope.

(** ** Example rows *)

(** A queued task with the column defaults. *)
Definition sample_task (id job : string) (deps : list string) (status : string) : Task :=
  mkTask id "t" job "echo" "i" "p" "rv" "ck" (Some deps) false status None None
    (Some (VDict [])) None None None None None 0.

Definition sample_job (id status : string) : Job :=
  mkJob id "t" "proj" "recipe" None status false false false 0 None None None None.

Definition sample_db (tasks : list Task) (jobs : list Job) : Db := mkDb tasks jobs [] [] [] ∅.

(** Services that keep the outputs and record nothing. *)
Definition plain_services : ArtifactServices :=
  mkArtifactServices (λ _ o, Ok o) (λ _ o arts, Ok (o, arts)) (λ _ o other, Ok (o, other)).

Definition echo_registry : Registry.Registry :=
  Registry.mkRegistry [("echo", λ t, Ok (VDict [("id", VStr (task_id t))]))] [] [].

Definition sample_env : Env :=
  mkEnv echo_registry plain_services Errors.exn_text 90 (Some 30).

(** *** A run of the system *)

Definition sample_nodes : list Dag.TaskNode :=
  [Dag.mkTaskNode "a" "echo" "i1" "p" [] false [("k", VNone)];
   Dag.mkTaskNode "b" "echo" "i2" "p" ["a"] false [("k", VNone)]].

Definition sample_start : Sys := mkSys (sample_db [] []) 0 [].

Definition do_submit (s : Sys) : Sys :=
  match Scheduler.submit_job_dag plain_services (λ _, "job") "rv" (s_now s) "t" "proj" "recipe" None
          sample_nodes (s_db s) with
  | Ok (_, db) => mkSys db (s_now s) (s_runs s)
  | Err _ => s
  end.

Definition do_pickup (w tid : string) (s : Sys) : Sys :=
  let '(r, db, _) := Dispatcher.pickup echo_registry w 90 (s_now s) tid (s_db s) in
  mkSys db (s_now s) (match r with Dispatcher.Started t => (w, t) :: s_runs s | _ => s_runs s end).

(** The newest handler returns. *)
Definition do_finish (outputs : value) (s : Sys) : Sys :=
  match s_runs s with
  | (w, t) :: runs =>
      mkSys (finish sample_env w t (Handled (Ok outputs)) (s_now s) (s_db s)) (s_now s) runs
  | [] => s
  end.

Lemma reachable_submit : reachable sample_env (do_submit sample_start).
Proof.
  assert (reachable sample_env sample_start) as Hs by (constructor; split_and!; [done|constructor|done]).
  unfold do_submit. destruct (Scheduler.submit_job_dag _ _ _ _ _ _ _ _ _ _) as [[r db]|e] eqn:H; [|done].
  eapply reach_step; [exact Hs|]. eapply (step_submit _ _ "rv" (λ _, "job")); [done| | |exact H].
  - apply (bool_decide_eq_true_1 (NoDup ["a"; "b"])). reflexivity.
  - intros id _ [(t & Ht & _)|(w & t & Ht & _)]; by apply elem_of_nil in Ht.
Qed.

Lemma reachable_pickup w tid s : reachable sample_env s → reachable sample_env (do_pickup w tid s).
Proof.
  intros Hs. unfold do_pickup. destruct (Dispatcher.pickup _ _ _ _ _ _) as [[r db] q] eqn:H.
  eapply reach_step; [exact Hs|]. apply step_work; by eapply work_pickup.
Qed.

Lemma reachable_finish o s : reachable sample_env s → reachable sample_env (do_finish o s).
Proof.
  intros Hs. unfold do_finish. destruct (s_runs s) as [|[w t] runs] eqn:Hr; [done|].
  eapply reach_step; [exact Hs|]. apply step_work; by apply (work_finish _ _ _ _ _ []).
Qed.

(** Task [a] has run to the end and [b] is running. *)
Definition sample_before : Sys := do_finish VNone (do_pickup "w1" "a" (do_submit sample_start)).
Definition sample_running : Sys := do_pickup "w2" "b" sample_before.

Lemma reachable_before : reachable sample_env sample_before.
Proof. apply reachable_finish, reachable_pickup, reachable_submit. Qed.

Lemma step_sample : step sample_env sample_before sample_running.
Proof.
  unfold sample_running, do_pickup.
  destruct (Dispatcher.pickup _ _ _ _ _ _) as [[r db] q] eqn:H. apply step_work; by eapply work_pickup.
Qed.

(** ** Reachable states *)

Section reachable.
Context (env : Env).

(** C1: in every reachable state, whatever the interleaving of workers, janitor
    sweeps, retries, cancellations, resumes and new submissions, a handler in
    progress has only finished inputs: each dependency of its task that is still
    stored is succeeded or skipped. *)
Theorem handlers_have_finished_inputs (s : Sys) (w : string) (t d : Task) (dep : string)
    (Hreach : reachable env s) (Hrun : (w, t) ∈ s_runs s) (Hdep : dep ∈ task_deps t)
    (Hd : get_task dep (s_db s) = Some d) :
  t_status d ∈ ["succeeded"; "skipped"].
Proof.
  destruct (reachable_ok _ _ Hreach) as [_ Hin]. apply (Hin dep); [|done]. right. by exists w, t.
Qed.

(** C2: from a reachable state, any single step moves each task row along at most
    one edge of the status graph; identity columns never change, and a row whose
    status stays keeps every column except its lease. A succeeded or skipped
    task is therefore immutable until retention deletes it. *)
Theorem rows_follow_status_edges (s s' : Sys) (id : string) (t t' : Task)
    (Hreach : reachable env s) (Hstep : step env s s')
    (Hg : get_task id (s_db s) = Some t) (Hg' : get_task id (s_db s') = Some t') :
  row_step t t'.
Proof.
  pose proof (reachable_ok _ _ Hreach) as Hok. pose proof (sys_keys _ Hok) as Hk.
  destruct (step_effect env s s' Hok Hstep) as [Hm|[Hgc|(rows & Ht & Hnew)]].
  - pose proof (tasks_rel_get row_step _ _ id row_step_id (moved_rel _ _ _ Hm)) as H.
    by rewrite Hg, Hg' in H.
  - rewrite (Hgc _ _ Hg') in Hg. injection Hg as <-. reflexivity.
  - rewrite (get_task_app _ _ _ _ Ht), Hg in Hg'. injection Hg' as <-. reflexivity.
Qed.
End reachable.

(** What the sample run computes to. *)
Definition row_status (id : string) (s : Sys) : option string := t_status <$> get_task id (s_db s).

Lemma sample_status_a : row_status "a" sample_running = Some "succeeded".
Proof. vm_compute. reflexivity. Qed.
Lemma sample_status_b : row_status "b" sample_before = Some "pending".
Proof. vm_compute. reflexivity. Qed.
Lemma sample_status_b' : row_status "b" sample_running = Some "running".
Proof. vm_compute. reflexivity. Qed.
Lemma sample_runs : (λ r, (r.1, task_deps r.2)) <$> s_runs sample_running = [("w2", ["a"])].
Proof. vm_compute. reflexivity. Qed.

Lemma row_status_get id s st : row_status id s = Some st → ∃ t, get_task id (s_db s) = Some t ∧ t_status t = st.
Proof. unfold row_status. intros (t & ? & ?)%fmap_Some. by exists t. Qed.

Lemma handlers_have_finished_inputs_witness :
  ∃ w t d, (w, t) ∈ s_runs sample_running ∧ task_deps t = ["a"] ∧
    get_task "a" (s_db sample_running) = Some d ∧ t_status d ∈ ["succeeded"; "skipped"].
Proof.
  destruct (row_status_get _ _ _ sample_status_a) as (d & Hd & _).
  pose proof sample_runs as Hr.
  destruct (s_runs sample_running) as [|[w t] runs] eqn:Hruns; [discriminate Hr|].
  injection Hr as Hw Ht _. exists w, t, d.
  split; [list_in|split; [exact Ht|split; [exact Hd|]]].
  apply (handlers_have_finished_inputs sample_env sample_running w t d "a").
  - eapply reach_step; [apply reachable_before|apply step_sample].
  - rewrite Hruns. list_in.
  - rewrite Ht. list_in.
  - exact Hd.
Defined.

Lemma rows_follow_status_edges_witness :
  ∃ t t', get_task "b" (s_db sample_before) = Some t ∧ get_task "b" (s_db sample_running) = Some t' ∧
    t_status t = "pending" ∧ t_status t' = "running" ∧ row_step t t'.
Proof.
  destruct (row_status_get _ _ _ sample_status_b) as (t & Hg & Hs).
  destruct (row_status_get _ _ _ sample_status_b') as (t' & Hg' & Hs').
  exists t, t'. split; [exact Hg|split; [exact Hg'|split; [exact Hs|split; [exact Hs'|]]]].
  exact (rows_follow_status_edges sample_env sample_before sample_running "b" t t'
    reachable_before step_sample Hg Hg').
Defined.

(** ** The worker's transactions *)

Section worker.
Context (reg : Registry.Registry) (svc : ArtifactServices) (sanitize : Errors.exn → string).
Context (w : string) (ttl : Z).
Import Dispatcher.

(** C3: a worker whose lease is gone cannot affect the store. Whatever its handler
    returned or raised, if the task row has been deleted, is no longer running,
    belongs to another worker, or its lease has expired, the final transaction
    reports [missing] or [lost_lease], writes nothing and enqueues nothing. *)
Theorem stale_worker_changes_nothing (now : Z) (tid : string) (outcome : res Errors.exn value) (db : Db)
    (Hstale : ∀ t, get_task tid db = Some t →
       t_status t ≠ "running" ∨ worker_id t ≠ Some w ∨
       lease_expires_at t = None ∨ ∃ e, lease_expires_at t = Some e ∧ e ≤ now) :
  complete reg svc sanitize w now tid outcome db =
    Ok (returned (match get_task tid db with None => "missing" | Some _ => "lost_lease" end), db, []).
Proof.
  assert (∀ k, if_still_owned w now tid db k =
    Ok (returned (match get_task tid db with None => "missing" | Some _ => "lost_lease" end), db, [])) as Hk.
  { intros k. unfold if_still_owned. destruct (get_task tid db) as [t|] eqn:Hg; [|done].
    replace (_owns_live_running_lease w now t) with false; [done|]. symmetry.
    apply not_true_iff_false. unfold _owns_live_running_lease. rewrite !andb_true_iff, !bool_decide_eq_true.
    intros [[Hs Hw] He]. destruct (Hstale t eq_refl) as [?|[?|[Hn|(e & Hn & Hle)]]]; try done; rewrite Hn in He;
      [done|]. apply Z.ltb_lt in He. lia. }
  assert (∀ e, handle_exception reg sanitize w now tid e db =
    Ok (returned (match get_task tid db with None => "missing" | Some _ => "lost_lease" end), db, [])) as He.
  { intros e. unfold handle_exception. destruct (Errors.exn_backend_unavailable e); apply Hk. }
  unfold complete. destruct outcome as [o|e]; [|apply He]. unfold commit_success. by rewrite Hk.
Qed.


(** C5: picking a task up starts its handler only if the row was pending with a
    free lease, every dependency is satisfied and the job is not cancelled; the
    row is then running under this worker's fresh lease, and delivering the same
    id again, to any worker at any time, is a no-op that reports [running]. *)
Theorem pickup_starts_once (now now' : Z) (w' tid : string) (db db' : Db) (t : Task) (queued : list string)
    (Hk : keys_unique db) (H : pickup reg w ttl now tid db = (Started t, db', queued)) :
  (∃ t0, get_task tid db = Some t0 ∧ t_status t0 = "pending" ∧ Lease.lease_free now t0 = true ∧
     dependencies_ready (task_deps t0) (statuses db) = true ∧
     ∀ j, get_job (t_job_id t0) db = Some j → cancel_requested j = false) ∧
  get_task tid db' = Some t ∧ t_status t = "running" ∧ worker_id t = Some w ∧
  lease_expires_at t = Some (now + Lease.seconds ttl) ∧
  pickup reg w' ttl now' tid db' = (Returned (returned "running"), db', []).
Proof.
  destruct (pickup_spec reg w ttl _ _ _ _ _ _ Hk H) as [(_ & Hg & t0 & Hg0 & Hp & -> & Hf & Hj) Hr].
  apply dependencies_ready_state in Hr. split_and!; [by exists t0|done..|].
  unfold pickup. by rewrite Hg, decide_True.
Qed.

(** Cancellation before pickup is never lost: once the job's cancel flag is
    set, no delivery of any of its tasks starts a handler. *)
Lemma cancelled_job_starts_nothing (now : Z) (tid : string) (db : Db) (t : Task) (j : Job)
    (Hk : keys_unique db) (Hg : get_task tid db = Some t) (Hj : get_job (t_job_id t) db = Some j)
    (Hc : cancel_requested j = true) :
  ∀ t', (pickup reg w ttl now tid db).1.1 ≠ Started t'.
Proof.
  intros t' H. destruct (pickup reg w ttl now tid db) as [[r db'] q] eqn:Hp. cbn in H. subst r.
  destruct (pickup_spec reg w ttl _ _ _ _ _ _ Hk Hp) as [(_ & _ & t0 & Hg0 & _ & _ & _ & Hnc) _].
  rewrite Hg in Hg0. injection Hg0 as <-. rewrite (Hnc j Hj) in Hc. discriminate.
Qed.
End worker.

(** ** The dependency sweeps *)

(** C7: the dispatcher's sweep over a job terminates within one pass per task plus
    one, rewrites only pending rows and only of that job, leaves no pending row of
    the job whose (same-job) dependencies already decide its fate, and hands out
    exactly the pending rows whose dependencies are all satisfied. *)
Theorem dispatcher_sweep_settles (now : Z) (job : string) (db db' : Db) (ready : list string)
    (Hk : keys_unique db) (H : Dispatcher._mark_dependency_failures_and_ready now job db = (ready, db')) :
  (Dispatcher.mark_loop (S (length (job_tasks job db))) now (status_map (job_tasks job db))
     (job_tasks job db)).2 = true ∧
  tasks_rel doom db db' ∧
  (∀ t, t ∈ db_tasks db → t_job_id t ≠ job → t ∈ db_tasks db') ∧
  (∀ t, t ∈ job_tasks job db' → t_status t = "pending" → task_deps t ≠ [] →
     dependency_state (task_deps t) (status_map (job_tasks job db')) ∈ ["ready"; "blocked"]) ∧
  ready = task_id <$> select (Dispatcher.ready_task (status_map (job_tasks job db'))) (job_tasks job db').
Proof.
  destruct (mark_store_spec _ _ _ _ _ Hk H) as (Ha & _ & Hb & Hc & Hd). split_and!; [|done..].
  assert (NoDup (task_id <$> job_tasks job db)) as Hn by (by apply select_NoDup, Hk).
  destruct (mark_loop_spec now _ Hn) as (rows & m & -> & _). done.
Qed.

(** C8: the janitor's sweep terminates, moves only pending rows and only to failed or
    cancelled, reports exactly the rows it moved, each once, and leaves the whole
    store settled: every row still pending is either ready or waiting for a
    dependency that can still finish. *)
Theorem janitor_sweep_settles (now : Z) (db db' : Db) (changed : list string)
    (Hk : keys_unique db) (H : Janitor.propagate_terminal_dependencies now db = (changed, db')) :
  tasks_rel doom db db' ∧ settled db' ∧ NoDup changed ∧
  (∀ id, id ∈ changed ↔ ∃ t t', get_task id db = Some t ∧ t_status t = "pending" ∧
                              get_task id db' = Some t' ∧ t_status t' ≠ "pending") ∧
  (Janitor.propagate_loop (S (length (pending_rows db))) now
     (Janitor.mkSweepState (Janitor._load_pending_tasks_with_dep_statuses db).2 [] [] ∅)
     (pending_rows db)).2 = true.
Proof.
  destruct (propagate_store_spec _ _ _ _ Hk H) as (Ha & _ & Hb & Hc & Hd). split_and!; [done..|].
  by destruct (propagate_loop_spec now _ _ (sweep_init db Hk)) as (rows & s & -> & _).
Qed.

(** ** Progress *)

Definition KNOWN_STATUSES : list string :=
  ["pending"; "running"; "succeeded"; "skipped"; "failed"; "cancelled"; "cancelled_dirty"].

(** Dependencies come before their dependents in some order. *)
Definition acyclic (db : Db) : Prop :=
  ∃ rank : string → nat, ∀ t dep, t ∈ db_tasks db → dep ∈ task_deps t → (rank dep < rank (task_id t))%nat.

Lemma settled_ready (db : Db) (rank : string → nat) n t :
  keys_unique db → settled db →
  (∀ t dep, t ∈ db_tasks db → dep ∈ task_deps t → (rank dep < rank (task_id t))%nat) →
  (∀ t, t ∈ db_tasks db → t_status t ∈ KNOWN_STATUSES ∧ t_status t ≠ "running") →
  t ∈ db_tasks db → t_status t = "pending" → (rank (task_id t) < n)%nat →
  ∃ t', t' ∈ db_tasks db ∧ t_status t' = "pending" ∧
        dependencies_ready (task_deps t') (statuses db) = true.
Proof.
  intros Hk Hset Hrank Hst. revert t. induction n as [|n IH]; intros t Ht Hp Hn; [lia|].
  destruct (dependencies_ready (task_deps t) (statuses db)) eqn:Hr; [by exists t|].
  pose proof (Hset t Ht Hp) as Hs. pose proof (dependency_state_spec (task_deps t) (statuses db)) as Hspec.
  in_cases Hs.
  { by rewrite <-not_true_iff_false, dependencies_ready_state in Hr. }
  rewrite Hs in Hspec. inversion Hspec as [| | |d Hnd Hdep Hnr|]. subst.
  destruct (Hnd d Hdep) as (Hdoom & Hcd & Hc). unfold dep_doomed, dep_ready in *.
  rewrite statuses_lookup in * by done. destruct (get_task d db) as [t'|] eqn:Hg; cbn in *; [|tauto].
  apply get_task_elem in Hg as [Ht' Hid]. destruct (Hst t' Ht') as [Hkn Hnrun].
  apply (IH t'); [done| |].
  - unfold KNOWN_STATUSES in Hkn. set (s := t_status t') in *. clearbody s.
    in_cases Hkn; try done; subst; tauto.
  - rewrite Hid. specialize (Hrank t d Ht Hdep). lia.
Qed.


(** ** The hypotheses hold: concrete instances *)

Ltac sample_keys := split; cbn; repeat (apply NoDup_cons; split; [set_solver|]); apply NoDup_nil_2.

(** [a] runs under worker [w2] until 100; [b] waits for it. *)
Definition sample_leased : Task :=
  set_worker_id (set_lease_expires_at (sample_task "a" "j" [] "running") (Some 100)) (Some "w2").
Definition leased_db : Db :=
  sample_db [sample_leased; sample_task "b" "j" ["a"] "pending"] [sample_job "j" "pending"].

(** [a] succeeded, [b] can start; [c] failed, [d] and [e] hang on it. *)
Definition mixed_db : Db :=
  sample_db [sample_task "e" "j" ["d"] "pending"; sample_task "a" "j" [] "succeeded";
             sample_task "b" "j" ["a"] "pending"; sample_task "c" "j" [] "failed";
             sample_task "d" "j" ["c"] "pending"] [sample_job "j" "pending"].

Lemma leased_db_keys : keys_unique leased_db.
Proof. sample_keys. Qed.

Lemma mixed_db_keys : keys_unique mixed_db.
Proof. sample_keys. Qed.

Lemma stale_worker_changes_nothing_witness :
  Dispatcher.complete echo_registry plain_services Errors.exn_text "w1" 50 "a" (Ok (VDict [])) leased_db =
    Ok (Dispatcher.returned "lost_lease", leased_db, []) ∧
  Dispatcher.complete echo_registry plain_services Errors.exn_text "w2" 100 "a" (Ok (VDict [])) leased_db =
    Ok (Dispatcher.returned "lost_lease", leased_db, []).
Proof.
  split; apply (stale_worker_changes_nothing echo_registry plain_services Errors.exn_text);
    intros t [= <-]; right; [left; discriminate|right; right; exists 100; split; [reflexivity|lia]].
Defined.


Lemma pickup_starts_once_witness :
  ∃ t db' q, Dispatcher.pickup echo_registry "w1" 90 5 "b" mixed_db = (Dispatcher.Started t, db', q) ∧
    Dispatcher.pickup echo_registry "w2" 90 6 "b" db' =
      (Dispatcher.Returned (Dispatcher.returned "running"), db', []).
Proof.
  do 3 eexists. split; [reflexivity|].
  eapply (pickup_starts_once echo_registry "w1" 90 5 6 "w2" "b" mixed_db);
    [exact mixed_db_keys|reflexivity].
Defined.

Definition cancelling_db : Db :=
  sample_db [sample_task "a" "j" [] "pending"] [set_cancel_requested (sample_job "j" "pending") true].

Example cancelled_pickup :
  (Dispatcher.pickup echo_registry "w1" 90 5 "a" cancelling_db).1.1 =
    Dispatcher.Returned (Dispatcher.returned "cancelled").
Proof. reflexivity. Qed.

Lemma dispatcher_sweep_settles_witness :
  let r := Dispatcher._mark_dependency_failures_and_ready 7 "j" mixed_db in
  r.1 = ["b"] ∧
  t_status <$> db_tasks r.2 = ["failed"; "succeeded"; "pending"; "failed"; "failed"] ∧
  tasks_rel doom mixed_db r.2.
Proof.
  intros r. pose proof (dispatcher_sweep_settles 7 "j" mixed_db r.2 r.1 mixed_db_keys
    (surjective_pairing _)) as (_ & H & _).
  split; [vm_compute; reflexivity|split; [vm_compute; reflexivity|exact H]].
Defined.

Definition swept : list string * Db := Janitor.propagate_terminal_dependencies 7 mixed_db.

Lemma swept_eq : Janitor.propagate_terminal_dependencies 7 mixed_db = (swept.1, swept.2).
Proof. apply surjective_pairing. Qed.

Lemma swept_rows :
  swept.1 = ["d"; "e"] ∧
  (λ t, (task_id t, t_status t, task_deps t, bool_decide (task_state_json t = None))) <$> db_tasks swept.2 =
    [("e", "failed", ["d"], false); ("a", "succeeded", [], false); ("b", "pending", ["a"], false);
     ("c", "failed", [], false); ("d", "failed", ["c"], false)].
Proof. split; vm_compute; reflexivity. Qed.

Lemma janitor_sweep_settles_witness : swept.1 = ["d"; "e"] ∧ settled swept.2.
Proof.
  pose proof (janitor_sweep_settles 7 mixed_db swept.2 swept.1 mixed_db_keys swept_eq) as (_ & H & _).
  split; [exact (proj1 swept_rows)|exact H].
Defined.

(** The rows of the swept store, one by one. *)
Lemma swept_row t :
  t ∈ db_tasks swept.2 →
  (task_id t, t_status t, task_deps t, bool_decide (task_state_json t = None)) ∈
    [("e", "failed", ["d"], false); ("a", "succeeded", [], false); ("b", "pending", ["a"], false);
     ("c", "failed", [], false); ("d", "failed", ["c"], false)].
Proof.
  intros Ht. rewrite <-(proj2 swept_rows).
  exact (list_elem_of_fmap_2 (λ t, (task_id t, t_status t, task_deps t, bool_decide (task_state_json t = None))) _ _ Ht).
Qed.

Definition swept_rank (id : string) : nat :=
  if decide (id = "a") then 0 else if decide (id = "c") then 0 else if decide (id = "e") then 2 else 1.

