(* ===== verification/JobGuarantees.v ===== *)
(** What jobs are promised: the roll-up of a job from its tasks, lease exclusion,
    reclaim, resume, retention, cache keys and submission. *)
From S2P Require Import Prelude PyValue Errors Readiness Store Sweep Hashing JsonFacts JobService Dispatcher Janitor Scheduler TaskRows SweepFacts Lifecycle Execution Propagation Submission System Guarantees.
From stdpp Require Import options.
Import Readiness JobService.

#[local] Open Scope Z_scope.
#[local] Opaque Dag.cache_key content_address.

(** ** Roll-up *)

(** The documented rules. *)
Inductive rollup_spec (rows : list Task) : option string → Prop :=
  | rolled_in_flight t :
      t ∈ rows → t_status t ∈ ["pending"; "running"] → rollup_spec rows None
  | rolled_failed t :
      (∀ x, x ∈ rows → t_status x ∉ ["pending"; "running"]) →
      t ∈ rows → t_status t = "failed" → rollup_spec rows (Some "failed")
  | rolled_cancelled t :
      (∀ x, x ∈ rows → t_status x ∉ ["pending"; "running"; "failed"]) →
      t ∈ rows → t_status t ∈ ["cancelled"; "cancelled_dirty"] → rollup_spec rows (Some "cancelled")
  | rolled_succeeded :
      (∀ x, x ∈ rows →
        t_status x ∉ ["pending"; "running"; "failed"; "cancelled"; "cancelled_dirty"]) →
      rollup_spec rows (Some "succeeded").

Lemma has_status_true s rows : has_status s rows = true ↔ ∃ t, t ∈ rows ∧ t_status t = s.
Proof. unfold has_status. rewrite existsb_elem. by setoid_rewrite bool_decide_eq_true. Qed.

Lemma has_status_false s rows : has_status s rows = false ↔ ∀ t, t ∈ rows → t_status t ≠ s.
Proof. rewrite <-not_true_iff_false, has_status_true. naive_solver. Qed.

Lemma not_in_cons (s x : string) l : s ≠ x → s ∉ l → s ∉ x :: l.
Proof. rewrite elem_of_cons. tauto. Qed.

Lemma rollup_correct rows : rollup_spec rows (rollup rows).
Proof.
  unfold rollup. destruct (has_status "pending" rows) eqn:Hp; cbn.
  { apply has_status_true in Hp as (t & Ht & Hs). apply (rolled_in_flight _ t); [done|]. rewrite Hs. list_in. }
  destruct (has_status "running" rows) eqn:Hr; cbn.
  { apply has_status_true in Hr as (t & Ht & Hs). apply (rolled_in_flight _ t); [done|]. rewrite Hs. list_in. }
  rewrite has_status_false in Hp, Hr. destruct (has_status "failed" rows) eqn:Hf.
  { apply has_status_true in Hf as (t & Ht & Hs). apply (rolled_failed _ t); [|done..].
    intros x Hx. auto using not_in_cons, not_elem_of_nil. }
  rewrite has_status_false in Hf. destruct (has_status "cancelled" rows) eqn:Hc; cbn.
  { apply has_status_true in Hc as (t & Ht & Hs). apply (rolled_cancelled _ t); [|done|rewrite Hs; list_in].
    intros x Hx. auto using not_in_cons, not_elem_of_nil. }
  rewrite has_status_false in Hc. destruct (has_status "cancelled_dirty" rows) eqn:Hd; cbn.
  { apply has_status_true in Hd as (t & Ht & Hs). apply (rolled_cancelled _ t); [|done|rewrite Hs; list_in].
    intros x Hx. auto using not_in_cons, not_elem_of_nil. }
  rewrite has_status_false in Hd. apply rolled_succeeded. intros x Hx.
  auto 10 using not_in_cons, not_elem_of_nil.
Qed.

Lemma copy_first_error_id rows j : job_id (copy_first_error rows j) = job_id j.
Proof. unfold copy_first_error. by destruct (first_failed rows). Qed.

Lemma copy_first_error_status rows j :
  j_status (copy_first_error rows j) = j_status j ∧ j_finished_at (copy_first_error rows j) = j_finished_at j.
Proof. unfold copy_first_error. by destruct (first_failed rows). Qed.

Lemma copy_first_error_twice rows j : copy_first_error rows (copy_first_error rows j) = copy_first_error rows j.
Proof. unfold copy_first_error. by destruct (first_failed rows). Qed.

(** The job row the roll-up writes. *)
Definition rolled_job (now : Z) (rows : list Task) (s : string) (j : Job) : Job :=
  let j := if decide (j_status j = s) then j else set_j_finished_at (set_j_status j s) (Some now) in
  if decide (s = "failed") then copy_first_error rows j else j.

Lemma rolled_job_facts now rows s j :
  job_id (rolled_job now rows s j) = job_id j ∧ j_status (rolled_job now rows s j) = s ∧
  j_finished_at (rolled_job now rows s j) = (if decide (j_status j = s) then j_finished_at j else Some now).
Proof.
  unfold rolled_job. set (j1 := if decide (j_status j = s) then j else _).
  assert (job_id j1 = job_id j ∧ j_status j1 = s ∧
    j_finished_at j1 = if decide (j_status j = s) then j_finished_at j else Some now) as H.
  { unfold j1. destruct (decide (j_status j = s)); by split_and!. }
  destruct (decide (s = "failed")); [|done]. rewrite copy_first_error_id.
  by destruct (copy_first_error_status rows j1) as [-> ->].
Qed.

Lemma rolled_job_twice now now' rows s j :
  rolled_job now' rows s (rolled_job now rows s j) = rolled_job now rows s j.
Proof.
  destruct (rolled_job_facts now rows s j) as (_ & Hs & _).
  assert (∀ j1, j_status j1 = s →
    rolled_job now' rows s j1 = if decide (s = "failed") then copy_first_error rows j1 else j1) as H.
  { intros j1 H1. unfold rolled_job. by rewrite (decide_True (P := j_status j1 = s)). }
  rewrite H by done. destruct (decide (s = "failed")) as [Hf|]; [|done].
  unfold rolled_job. rewrite (decide_True (P := s = "failed")) by done. apply copy_first_error_twice.
Qed.

Lemma finalize_eq now job db :
  (finalize_job_if_ready now job db).2 =
    match job_tasks job db, rollup (job_tasks job db), get_job job db with
    | _ :: _, Some s, Some j => put_job (rolled_job now (job_tasks job db) s j) db
    | _, _, _ => db
    end.
Proof.
  unfold finalize_job_if_ready. destruct (job_tasks job db) as [|t ts]; [done|].
  destruct (rollup (t :: ts)), (get_job job db); done.
Qed.

Lemma get_put_job j db id :
  get_job id (put_job j db) = if decide (id = job_id j) then (λ _, j) <$> get_job id db else get_job id db.
Proof. apply row_get_put_row. Qed.

Lemma put_put_job j j' db : job_id j = job_id j' → put_job j (put_job j' db) = put_job j db.
Proof. 
  intros Hid. pose proof (put_put_row job_id j j' (db_jobs db) Hid) as H.
  unfold put_job, with_jobs. f_equal. exact H.
Qed.

(** C10: rolling a job up follows the documented rules: it stays as it is while a
    task is in flight; otherwise it becomes failed if a task failed, else cancelled
    if one was cancelled, else succeeded; [finished_at] is stamped when the status
    changes and kept otherwise; no other job and no task is touched; and repeating
    the call at any later time changes nothing. *)
Theorem finalize_rolls_up (now now' : Z) (job : string) (db : Db) (j : Job)
    (Hj : get_job job db = Some j) (Hrows : job_tasks job db ≠ []) :
  let db' := (finalize_job_if_ready now job db).2 in
  rollup_spec (job_tasks job db) (rollup (job_tasks job db)) ∧
  match rollup (job_tasks job db) with
  | None => db' = db
  | Some s => ∃ j', get_job job db' = Some j' ∧ j_status j' = s ∧
      j_finished_at j' = (if decide (j_status j = s) then j_finished_at j else Some now)
  end ∧
  db_tasks db' = db_tasks db ∧
  (∀ other, other ≠ job → get_job other db' = get_job other db) ∧
  (finalize_job_if_ready now' job db').2 = db'.
Proof.
  intros db'. pose proof (row_get_elem _ _ _ _ Hj) as [_ Hid]. split; [apply rollup_correct|].
  assert (∀ x, job_tasks job (put_job x db) = job_tasks job db) as Hput by done.
  subst db'. rewrite !finalize_eq, Hj. destruct (job_tasks job db) as [|t ts] eqn:Ht; [done|].
  destruct (rollup (t :: ts)) as [s|] eqn:Hr; [|by rewrite Ht, Hr].
  destruct (rolled_job_facts now (t :: ts) s j) as (Hid' & Hs & Hf).
  assert (get_job job (put_job (rolled_job now (t :: ts) s j) db) = Some (rolled_job now (t :: ts) s j)) as Hg.
  { rewrite get_put_job, decide_True, Hj by congruence. done. }
  split_and!; [by eexists|done| |].
  - intros other Hne. rewrite get_put_job, decide_False by congruence. done.
  - rewrite Hput, Hr, Hg, rolled_job_twice. by apply put_put_job.
Qed.

Definition done_db : Db :=
  sample_db [sample_task "a" "j" [] "succeeded"; sample_task "b" "j" ["a"] "failed"] [sample_job "j" "pending"].

Lemma finalize_rolls_up_witness :
  let db' := (finalize_job_if_ready 5 "j" done_db).2 in
  j_status <$> get_job "j" db' = Some "failed" ∧ (finalize_job_if_ready 9 "j" db').2 = db'.
Proof.
  intros db'. split; [reflexivity|].
  exact (proj2 (proj2 (proj2 (proj2
    (finalize_rolls_up 5 9 "j" done_db (sample_job "j" "pending") eq_refl ltac:(discriminate)))))).
Defined.

(** The two roll-ups of the code, the dispatcher's [_maybe_finalize_job] and the
    job service's [finalize_job_if_ready], make the same change whenever the job's
    status is not already the rolled-up one; when it is, the dispatcher's does
    nothing. *)
Theorem rollups_agree (now : Z) (job : string) (db : Db) (j : Job) (Hj : get_job job db = Some j) :
  Dispatcher._maybe_finalize_job now job db =
    if decide (rollup (job_tasks job db) = Some (j_status j)) then db
    else (finalize_job_if_ready now job db).2.
Proof.
  rewrite finalize_eq, Hj. unfold Dispatcher._maybe_finalize_job, rollup.
  destruct (job_tasks job db) as [|t ts] eqn:Ht; [by case_decide|].
  destruct (has_status "pending" _ || has_status "running" _); [by case_decide|]. rewrite Hj.
  set (s := if has_status "failed" _ then _ else _).
  assert ((if has_status "failed" (t :: ts) then Some "failed"
    else if has_status "cancelled" (t :: ts) || has_status "cancelled_dirty" (t :: ts) then Some "cancelled"
    else Some "succeeded") = Some s) as ->.
  { unfold s. by repeat case_match. }
  unfold rolled_job. destruct (decide (j_status j = s)) as [->|Hne]; [by rewrite decide_True|].
  rewrite (decide_False (P := Some s = Some _)) by congruence. done.
Qed.

Lemma rollups_agree_witness :
  Dispatcher._maybe_finalize_job 5 "j" done_db = (finalize_job_if_ready 5 "j" done_db).2.
Proof. exact (rollups_agree 5 "j" done_db (sample_job "j" "pending") eq_refl). Defined.

(** ** Leases *)

Section lease.
Import Lease.

Lemma acquire_inv pk w ttl now p rows rows' :
  NoDup (task_id <$> rows) → try_acquire_lease pk w ttl now p rows = (true, rows') →
  NoDup (task_id <$> rows') ∧ ∃ t, row_get task_id pk rows = Some t ∧
    row_get task_id pk rows' = Some (leased t w (now + seconds ttl)).
Proof.
  intros Hk. unfold try_acquire_lease. intros [= Hc <-]. split; [by rewrite update_where_keys|].
  rewrite (row_count_one _ _ pk) in Hc; [|done|intros t; rewrite !andb_true_iff, bool_decide_eq_true; tauto].
  rewrite row_get_update by done. destruct (row_get task_id pk rows) as [t|]; [|done]. exists t.
  split; [done|]. cbn. by destruct (_ && _).
Qed.

Lemma acquire_held pk w ttl now q rows t e :
  NoDup (task_id <$> rows) → row_get task_id pk rows = Some t → lease_expires_at t = Some e → now ≤ e →
  try_acquire_lease pk w ttl now q rows = (false, rows).
Proof.
  intros Hk Hg He Hle. unfold try_acquire_lease.
  assert (∀ r, r ∈ rows → bool_decide (task_id r = pk) && lease_free now r && q r = false) as Hno.
  { intros r Hr. case_bool_decide as Hid; [|done]. apply row_get_elem in Hg as [Ht Hid'].
    rewrite (row_get_unique task_id rows r t) by congruence. unfold lease_free. rewrite He.
    by replace (e <? now) with false by lia. }
  f_equal; [|by apply update_where_none].
  rewrite (row_count_one _ _ pk); [|done|intros r; rewrite !andb_true_iff, bool_decide_eq_true; tauto].
  rewrite Hg. apply row_get_elem in Hg as [Ht _]. by rewrite Hno.
Qed.

Lemma refresh_spec pk w ttl now rows t :
  NoDup (task_id <$> rows) → row_get task_id pk rows = Some t →
  refresh_lease pk w ttl now rows =
    if decide (worker_id t = Some w) then
      (true, put_row task_id (set_lease_expires_at t (Some (now + seconds ttl))) rows)
    else (false, rows).
Proof.
  intros Hk Hg. unfold refresh_lease.
  rewrite (row_count_one _ _ pk); [|done|intros r; rewrite andb_true_iff, bool_decide_eq_true; tauto].
  rewrite Hg. apply row_get_elem in Hg as [Ht Hid].
  assert (∀ r, r ∈ rows → task_id r = pk → r = t) as Hu.
  { intros r Hr Hrid. apply (row_get_unique task_id rows); congruence. }
  rewrite bool_decide_true by done. cbn. destruct (decide (worker_id t = Some w)) as [Hw|Hw].
  - rewrite bool_decide_true by done. f_equal. unfold put_row, update_where. apply list_fmap_ext.
    intros i r Hr%list_elem_of_lookup_2. cbn. rewrite Hid. case_bool_decide as Hrid; [|done].
    rewrite (Hu r Hr Hrid). by rewrite bool_decide_true.
  - rewrite bool_decide_false by done. f_equal. apply update_where_none. intros r Hr.
    case_bool_decide as Hrid; [|done]. rewrite (Hu r Hr Hrid). by rewrite bool_decide_false.
Qed.
End lease.

(** Mutual exclusion. Once a worker has acquired a row's lease, then until that
    lease runs out no acquisition of the row succeeds or changes anything, and no
    other worker can renew it; renewing it moves the expiry forward. *)
Theorem lease_excludes (pk w w' : string) (ttl ttl' now now' : Z) (p q : Task → bool) (rows rows' : list Task)
    (Hk : NoDup (task_id <$> rows))
    (Hacq : Lease.try_acquire_lease pk w ttl now p rows = (true, rows'))
    (Hlive : now' ≤ now + Lease.seconds ttl) (Hw : w' ≠ w) :
  (∃ t, row_get task_id pk rows' = Some t ∧ worker_id t = Some w ∧
        lease_expires_at t = Some (now + Lease.seconds ttl)) ∧
  Lease.try_acquire_lease pk w' ttl' now' q rows' = (false, rows') ∧
  Lease.try_acquire_lease pk w ttl' now' q rows' = (false, rows') ∧
  Lease.refresh_lease pk w' ttl' now' rows' = (false, rows') ∧
  (Lease.refresh_lease pk w ttl' now' rows').1 = true.
Proof.
  destruct (acquire_inv _ _ _ _ _ _ _ Hk Hacq) as (Hk' & t & _ & Hg).
  split_and!; [by eexists| | | |].
  - eapply acquire_held; [done|exact Hg|reflexivity|done].
  - eapply acquire_held; [done|exact Hg|reflexivity|done].
  - rewrite (refresh_spec _ _ _ _ _ _ Hk' Hg), decide_False; [done|]. cbn. congruence.
  - by rewrite (refresh_spec _ _ _ _ _ _ Hk' Hg), decide_True.
Qed.

Definition lease_rows : list Task := [sample_task "a" "j" [] "pending"; sample_task "b" "j" [] "pending"].

Lemma lease_excludes_witness :
  let rows' := (Lease.try_acquire_lease "a" "w1" 90 0 (λ _, true) lease_rows).2 in
  Lease.try_acquire_lease "a" "w2" 90 1000 (λ _, true) rows' = (false, rows').
Proof.
  intros rows'.
  refine (proj1 (proj2 (lease_excludes "a" "w1" "w2" 90 90 0 1000 (λ _, true) (λ _, true) lease_rows rows' _ _ _ _))).
  - apply (bool_decide_eq_true_1 (NoDup ["a"; "b"])). reflexivity.
  - reflexivity.
  - unfold Lease.seconds. lia.
  - discriminate.
Defined.

(** Reclaiming resets exactly the running rows whose lease has run out, to
    pending rows with no worker and no lease, and reports exactly their ids; every
    other row is untouched. In particular a worker whose lease is still live at
    that time keeps its task. *)
Theorem reclaim_exact (now : Z) (db : Db) :
  let '(ids, db') := Janitor.reclaim_expired_leases now db in
  ids = task_id <$> select (Janitor.lease_expired now) (db_tasks db) ∧
  db_tasks db' = (λ t, if Janitor.lease_expired now t then Janitor.reset_lease t else t) <$> db_tasks db ∧
  db_jobs db' = db_jobs db ∧
  ∀ t w, t ∈ db_tasks db → Dispatcher._owns_live_running_lease w now t = true → t ∈ db_tasks db'.
Proof.
  destruct (reclaim_update now db) as (Ht & Hj & Hids).
  destruct (Janitor.reclaim_expired_leases now db) as [ids db'] eqn:H. cbn in *.
  split_and!; [done..|]. intros t w Hin Ho. rewrite Ht. apply elem_of_update_where. exists t.
  split; [done|]. replace (Janitor.lease_expired now t) with false; [done|]. symmetry.
  unfold Dispatcher._owns_live_running_lease in Ho. unfold Janitor.lease_expired.
  apply andb_true_iff in Ho as [_ Ho]. destruct (lease_expires_at t) as [e|]; [|done].
  apply andb_false_iff. right. lia.
Qed.

(** ** Resume *)

Lemma find_job_spec tenant job db :
  keys_unique db →
  find_job tenant job db =
    match get_job job db with
    | Some j => if decide (j_tenant_id j = tenant) then Ok j
                else Err (Errors.api_error_init Errors.NotFoundError ("Job " +:+ job +:+ " not found") [])
    | None => Err (Errors.api_error_init Errors.NotFoundError ("Job " +:+ job +:+ " not found") [])
    end.
Proof.
  intros [_ Hk]. unfold find_job, get_job. rewrite row_get_select by done.
  destruct (row_get job_id job (db_jobs db)) as [j|]; cbn; [|done]. by case_bool_decide; case_decide.
Qed.

Lemma resumable_iff t : Scheduler.resumable t = true ↔ t_status t ∈ Scheduler.RESUMABLE.
Proof. apply bool_decide_eq_true. Qed.

Lemma select_nil_iff {A} (p : A → bool) rows : length (select p rows) = 0%nat ↔ ∀ x, x ∈ rows → p x = false.
Proof.
  rewrite length_zero_iff_nil. split.
  - intros H x Hx. destruct (p x) eqn:Hp; [|done].
    assert (x ∈ select p rows) as Hin by (by apply elem_of_select). rewrite H in Hin. by apply elem_of_nil in Hin.
  - intros H. apply list_nil_elem. intros x [Hp Hx]%elem_of_select. rewrite H in Hp; done.
Qed.

Lemma resume_job_rows job db :
  job_tasks job (with_tasks
    (update_where (λ t, bool_decide (t_job_id t = job) && Scheduler.resumable t) Scheduler.reset_task (db_tasks db)) db)
  = update_where Scheduler.resumable Scheduler.reset_task (job_tasks job db).
Proof.
  unfold job_tasks, update_where. cbn. rewrite select_fmap.
  - apply list_fmap_ext. intros i t Ht%list_elem_of_lookup_2.
    apply elem_of_select in Ht as [Hj _]. by rewrite Hj.
  - intros t _. by destruct (_ && _).
Qed.

(** C14: resuming accepts exactly a failed or cancelled job of the tenant that has a
    failed or cancelled task. It resets those tasks of that job, and nothing else
    in the task table, to fresh pending rows; returns the job to pending with its
    cancel flags cleared; and enqueues exactly the job's pending tasks whose
    dependencies are all satisfied among the job's own tasks. *)
Theorem resume_exact (tenant job : string) (db : Db) (Hk : keys_unique db) :
  match Scheduler.resume_job tenant job db with
  | Ok (j', ready, db') =>
      (∃ j, get_job job db = Some j ∧ j_tenant_id j = tenant ∧ j_status j ∈ Scheduler.RESUMABLE ∧
         j' = Scheduler.reset_job j) ∧
      (∃ t, t ∈ job_tasks job db ∧ t_status t ∈ Scheduler.RESUMABLE) ∧
      get_job job db' = Some j' ∧ j_status j' = "pending" ∧ cancel_requested j' = false ∧
      cancel_force j' = false ∧
      db_tasks db' = (λ t, if decide (t_job_id t = job ∧ t_status t ∈ Scheduler.RESUMABLE)
                           then Scheduler.reset_task t else t) <$> db_tasks db ∧
      ready = task_id <$> select (λ t, bool_decide (t_status t = "pending") &&
                 dependencies_ready (task_deps t) (status_map (job_tasks job db'))) (job_tasks job db')
  | Err e =>
      Errors.err_class e = Errors.NotFoundError ∧ (∀ j, get_job job db = Some j → j_tenant_id j ≠ tenant) ∨
      Errors.err_class e = Errors.ValidationError ∧
        ((∃ j, get_job job db = Some j ∧ j_status j ∉ Scheduler.RESUMABLE) ∨
         (∀ t, t ∈ job_tasks job db → t_status t ∉ Scheduler.RESUMABLE))
  end.
Proof.
  unfold Scheduler.resume_job. rewrite find_job_spec by done.
  destruct (get_job job db) as [j|] eqn:Hj; [|by left].
  destruct (decide (j_tenant_id j = tenant)) as [Ht|Ht]; [|left; split; [done|]; intros ? [= <-]; done].
  cbn [mbind res_bind]. destruct (bool_decide (j_status j ∈ Scheduler.RESUMABLE)) eqn:Hs;
    [apply bool_decide_eq_true in Hs|apply bool_decide_eq_false in Hs]; cbn [negb raise_if mbind res_bind].
  2:{ right. split; [done|]. left. by exists j. }
  destruct (bool_decide (length _ = 0%nat)) eqn:Hl;
    [apply bool_decide_eq_true in Hl|apply bool_decide_eq_false in Hl]; cbn [raise_if mbind res_bind].
  { right. split; [done|]. right. intros t Hin. rewrite <-resumable_iff, not_true_iff_false.
    by apply (proj1 (select_nil_iff _ _) Hl). }
  pose proof (row_get_elem _ _ _ _ Hj) as [_ Hid]. split_and!; try done.
  - by exists j.
  - destruct (select Scheduler.resumable (job_tasks job db)) as [|t ts] eqn:Hsel; [done|].
    exists t. rewrite <-resumable_iff.
    assert (t ∈ select Scheduler.resumable (job_tasks job db)) as [? ?]%elem_of_select; [rewrite Hsel; list_in|done].
  - rewrite get_put_job, decide_True by (by rewrite <-Hid).
    match goal with |- context [get_job job ?d] => change (get_job job d) with (get_job job db) end.
    by rewrite Hj.
  - cbn. unfold update_where. apply list_fmap_ext. intros i t _. cbn.
    unfold Scheduler.resumable. do 2 case_bool_decide; cbn; case_decide; tauto.
  - change (job_tasks job (put_job _ ?d)) with (job_tasks job d). by rewrite resume_job_rows.
Qed.

Definition failed_db : Db :=
  sample_db [sample_task "a" "j" [] "succeeded"; sample_task "b" "j" ["a"] "failed";
             sample_task "c" "j" ["b"] "failed"; sample_task "x" "k" [] "failed"]
            [sample_job "j" "failed"; sample_job "k" "failed"].

Lemma failed_db_keys : keys_unique failed_db.
Proof. sample_keys. Qed.

Lemma resume_exact_witness :
  match Scheduler.resume_job "t" "j" failed_db with
  | Ok (j', ready, db') =>
      ready = ["b"] ∧ t_status <$> db_tasks db' = ["succeeded"; "pending"; "pending"; "failed"] ∧
      get_job "j" db' = Some j'
  | Err _ => False
  end.
Proof.
  pose proof (resume_exact "t" "j" failed_db failed_db_keys) as H.
  destruct (Scheduler.resume_job "t" "j" failed_db) as [[[j' ready] db']|e] eqn:Hr; [|by vm_compute in Hr].
  destruct H as (_ & _ & Hg & _). split; [|split; [|exact Hg]]; vm_compute in Hr; by injection Hr as <- <- <-.
Defined.

(** ** Retention *)

Lemma gc_eligible_iff cutoff j :
  Janitor.gc_eligible cutoff j = true ↔
  j_status j ∈ Janitor.TERMINAL_JOB_STATUSES ∧ pinned j = false ∧
  ∃ f, j_finished_at j = Some f ∧ f < cutoff.
Proof.
  unfold Janitor.gc_eligible. rewrite !andb_true_iff, bool_decide_eq_true, negb_true_iff.
  destruct (j_finished_at j) as [f|]; [|naive_solver]. rewrite Z.ltb_lt. naive_solver.
Qed.

Lemma gc_doomed_iff cutoff db id :
  keys_unique db →
  id ∈ job_id <$> select (Janitor.gc_eligible cutoff) (db_jobs db) ↔
  ∃ j, get_job id db = Some j ∧ Janitor.gc_eligible cutoff j = true.
Proof.
  intros [_ Hk]. rewrite list_elem_of_fmap. split.
  - intros (j & -> & [He Hj]%elem_of_select). exists j. split; [|done]. by apply elem_row_get.
  - intros (j & Hg & He). apply row_get_elem in Hg as [Hj <-]. exists j. split; [done|].
    by apply elem_of_select.
Qed.

Lemma delete_where_length {A} (p : A → bool) rows :
  length (select p rows) = (length rows - length (delete_where p rows))%nat.
Proof.
  unfold select, delete_where. pose proof (List.filter_length p rows) as H.
  pose proof (List.filter_length_le p rows). unfold length in *. lia.
Qed.

(** C15: retention deletes exactly the terminal, unpinned jobs that finished before
    the cutoff, together with all of their tasks, artifacts and events; a job that
    is pinned, unfinished, or recent keeps every one of its rows, and with retention
    off nothing is deleted. *)
Theorem gc_exact (retention_days : option Z) (now : Z) (db : Db) (Hk : keys_unique db) :
  let '(n, db') := Janitor.gc_expired_job_records retention_days now db in
  let expired (id : string) := ∃ d j, retention_days = Some d ∧ get_job id db = Some j ∧
    j_status j ∈ Janitor.TERMINAL_JOB_STATUSES ∧ pinned j = false ∧
    ∃ f, j_finished_at j = Some f ∧ f < now - Janitor.days d in
  n = (length (db_jobs db) - length (db_jobs db'))%nat ∧
  (∀ j, j ∈ db_jobs db' ↔ j ∈ db_jobs db ∧ ¬ expired (job_id j)) ∧
  (∀ t, t ∈ db_tasks db' ↔ t ∈ db_tasks db ∧ ¬ expired (t_job_id t)) ∧
  (∀ a, a ∈ db_artifacts db' ↔ a ∈ db_artifacts db ∧ ¬ expired (sa_job_id a)) ∧
  (∀ e, e ∈ db_events db' ↔ e ∈ db_events db ∧ ¬ expired (je_job_id e)).
Proof.
  unfold Janitor.gc_expired_job_records. destruct retention_days as [d|].
  2:{ cbn zeta. split_and!; [lia|..]; intros x; (split; [intros Hx; split; [done|]; by intros (d & j & ? & _)|by intros []]). }
  set (cutoff := now - Janitor.days d).
  assert (∀ id, (∃ d' j, Some d = Some d' ∧ get_job id db = Some j ∧
      j_status j ∈ Janitor.TERMINAL_JOB_STATUSES ∧ pinned j = false ∧
      ∃ f, j_finished_at j = Some f ∧ f < now - Janitor.days d') ↔
    id ∈ job_id <$> select (Janitor.gc_eligible cutoff) (db_jobs db)) as Hexp.
  { intros id. rewrite gc_doomed_iff by done. setoid_rewrite gc_eligible_iff. split.
    - intros (d' & j & [= <-] & ?). by exists j.
    - intros (j & ?). by exists d, j. }
  destruct (select _ (db_jobs db)) as [|j0 js] eqn:Hsel; cbn zeta.
  { split_and!; [lia|..]; intros x; rewrite Hexp; cbn; set_solver. }
  assert (length (j0 :: js) = (length (db_jobs db) -
    length (delete_where (λ j, bool_decide (job_id j ∈ job_id <$> j0 :: js)) (db_jobs db)))%nat) as Hn.
  { rewrite <-delete_where_length, <-Hsel. f_equal. apply select_ext. intros j Hj.
    apply eq_true_iff_eq. rewrite bool_decide_eq_true, gc_doomed_iff by done. split.
    - intros He. exists j. split; [|done]. by apply elem_row_get; [apply Hk|].
    - intros (j' & Hg & He). unfold get_job in Hg. rewrite elem_row_get in Hg by (try apply Hk; done).
      by injection Hg as ->. }
  split; [exact Hn|].
  split_and!; intros x; cbn; rewrite elem_of_delete_where, bool_decide_eq_false, Hexp; tauto.
Qed.

Definition old_db : Db :=
  mkDb [sample_task "a" "j" [] "succeeded"; sample_task "x" "k" [] "succeeded"]
    [set_j_finished_at (sample_job "j" "succeeded") (Some 0); sample_job "k" "pending"]
    [mkStageArtifact "t" "j" "a" VNone] [mkJobEvent 1 "k" VNone] [] ∅.

Lemma gc_exact_witness :
  let r := Janitor.gc_expired_job_records (Some 1) (Janitor.days 2) old_db in
  r.1 = 1%nat ∧ (∀ j, j ∈ db_jobs r.2 → j ∈ db_jobs old_db) ∧ task_id <$> db_tasks r.2 = ["x"].
Proof.
  assert (keys_unique old_db) as Hk by sample_keys.
  pose proof (gc_exact (Some 1) (Janitor.days 2) old_db Hk) as H. intros r. subst r.
  destruct (Janitor.gc_expired_job_records (Some 1) (Janitor.days 2) old_db) as [n db'] eqn:Hr.
  destruct H as (_ & Hj & _). split; [|split].
  - by vm_compute in Hr; injection Hr as <- <-.
  - intros j Hin. exact (proj1 (proj1 (Hj j) Hin)).
  - by vm_compute in Hr; injection Hr as <- <-.
Defined.

(** ** Cache keys *)

Lemma cache_doc_json k i p rv :
  canonical_json (Dag.cache_key_doc k i p rv) =
    "{" +:+ (member_text ("inputs_hash", json_string i) +:+ "," +:+
             (member_text ("kind", json_string k) +:+ "," +:+
              (member_text ("params_hash", json_string p) +:+ "," +:+ member_text ("rv", json_string rv)))) +:+ "}".
Proof. reflexivity. Qed.

Lemma cache_doc_inj k1 i1 p1 rv1 k2 i2 p2 rv2 :
  canonical_json (Dag.cache_key_doc k1 i1 p1 rv1) = canonical_json (Dag.cache_key_doc k2 i2 p2 rv2) →
  k1 = k2 ∧ i1 = i2 ∧ p1 = p2 ∧ rv1 = rv2.
Proof.
  rewrite !cache_doc_json, <-!str_app_assoc. intros H%str_app_inj.
  apply member_inj in H as [-> H%str_app_inj]. apply member_inj in H as [-> H%str_app_inj].
  apply member_inj in H as [-> H%str_app_inj]. by apply member_inj in H as [-> _].
Qed.

Lemma cache_key_text n rv :
  Dag.cache_key n rv = sha256_hex (canonical_json (Dag.cache_key_doc (Dag.n_kind n) (Dag.n_inputs_hash n) (Dag.n_params_hash n) rv)).
Proof. reflexivity. Qed.



(** ** Submission *)

(** C17: submitting a job appends one row per node, in order, under the new job and
    changes no existing row. A new row is born succeeded exactly when a reusable
    row, a succeeded task of the tenant with the same cache key, exists in the store
    or earlier in the submission, and pending otherwise. What is handed to the queue
    is exactly the pending new rows whose dependencies, inside or outside the
    submission, are all satisfied. *)
Theorem submission_exact (svc : ArtifactServices) (new_id : nat → string) (rv tenant project recipe : string)
    (now : Z) (spec : option value) (nodes : list Dag.TaskNode) (db db' : Db)
    (jid : string) (tasks : list Task) (queued : list string)
    (Hk : keys_unique db) (Hnew : get_job (new_id 0%nat) db = None)
    (Hids : NoDup ((task_id <$> db_tasks db) ++ (Dag.n_task_id <$> Scheduler.assign_ids new_id 1 nodes)))
    (H : Scheduler.submit_job_dag svc new_id rv now tenant project recipe spec nodes db =
           Ok (jid, tasks, queued, db')) :
  db_tasks db' = db_tasks db ++ tasks ∧ keys_unique db' ∧
  Forall2 (node_row tenant jid rv now) (Scheduler.assign_ids new_id 1 nodes) tasks ∧
  (∀ i t, tasks !! i = Some t →
     t_status t = "succeeded" ↔ cached_in (db_tasks db ++ take i tasks) t) ∧
  (∀ id, id ∈ queued ↔ ∃ t, t ∈ tasks ∧ task_id t = id ∧ t_status t = "pending" ∧
                          dependencies_ready (task_deps t) (statuses db') = true).
Proof.
  destruct (submit_spec svc _ _ _ _ _ _ _ _ _ _ _ _ _ Hk Hnew Hids H) as (_ & Hk' & Ht & Hrows & Hc & ->).
  split_and!; [done..|]. intros id. rewrite list_elem_of_fmap. split.
  - intros (t & -> & [Hp Hin]%elem_of_select). apply andb_true_iff in Hp as [Hp Hr].
    apply bool_decide_eq_true in Hp. by exists t.
  - intros (t & Hin & <- & Hp & Hr). exists t. split; [done|]. apply elem_of_select.
    by rewrite Hp, Hr.
Qed.

Definition submitted : list Task * list string * Db :=
  match Scheduler.submit_job_dag plain_services (λ _, "job") "rv" 0 "t" "proj" "recipe" None sample_nodes
          (sample_db [] []) with
  | Ok (_, tasks, queued, db) => (tasks, queued, db)
  | Err _ => ([], [], sample_db [] [])
  end.

Lemma submission_exact_witness : submitted.1.2 = ["a"] ∧ db_tasks submitted.2 = submitted.1.1.
Proof.
  split; [vm_compute; reflexivity|]. unfold submitted.
  destruct (Scheduler.submit_job_dag _ _ _ _ _ _ _ _ _ _) as [[[[jid tasks] queued] db]|e] eqn:H; [|reflexivity].
  refine (proj1 (submission_exact plain_services (λ _, "job") "rv" "t" "proj" "recipe" 0 None sample_nodes
    (sample_db [] []) db jid tasks queued _ _ _ H)).
  - sample_keys.
  - reflexivity.
  - apply (bool_decide_eq_true_1 (NoDup ["a"; "b"])). reflexivity.
Defined.

(** ** Running a task *)

Section run.
Context (reg : Registry.Registry) (svc : ArtifactServices) (sanitize : Errors.exn → string).
Context (w : string) (ttl : Z).
Import Dispatcher.

Lemma post_terminal_get now job db q db' id t :
  keys_unique db → get_task id db = Some t → t_status t ≠ "pending" →
  _post_terminal now job db = (q, db') → get_task id db' = Some t.
Proof.
  intros Hk Hg Hp H. destruct (post_terminal_rel _ _ _ _ _ Hk H) as [Hdoom _].
  pose proof (tasks_rel_get doom db db' id (λ x z Hd, same_id _ _ (doom_identity _ _ Hd)) Hdoom) as Hr.
  rewrite Hg in Hr. destruct (get_task id db') as [t'|]; [|done]. by rewrite (doom_not_pending _ _ Hr Hp).
Qed.

(** A pending, ready, uncancelled task with a free lease and no status hook. *)
Lemma pickup_starts now tid db t0 :
  keys_unique db → get_task tid db = Some t0 → t_status t0 = "pending" → Lease.lease_free now t0 = true →
  dependencies_ready (task_deps t0) (statuses db) = true →
  (∀ j, get_job (t_job_id t0) db = Some j → cancel_requested j = false) →
  Registry.get_status_hook (kind t0) reg = None →
  ∃ db', pickup reg w ttl now tid db = (Started (started w ttl now t0), db', []) ∧
    db_jobs db' = db_jobs db ∧ db_artifacts db' = db_artifacts db ∧ db_other db' = db_other db.
Proof.
  intros Hk Hg Hp Hf Hr Hc Hh. unfold pickup. rewrite Hg. rewrite decide_False by (by intros ?).
  apply dependencies_ready_state in Hr. rewrite task_dependency_state_eq, Hr by done.
  rewrite !decide_False; [|unfold CANCELLED_DEPENDENCY_STATUSES; set_solver|done|done].
  pose proof (get_task_elem _ _ _ Hg) as [_ Hid].
  unfold acquire_and_start. destruct (try_acquire_spec tid w ttl now db Hk) as [Ha Hrows].
  destruct (Lease.try_acquire_lease _ _ _ _ _ _) as [acq rows]. cbn in Ha, Hrows.
  rewrite Hg, Hf, Hp in Ha. cbn in Ha. subst acq. cbn [negb].
  destruct (Hrows eq_refl) as (t & Hg' & _ & ->). rewrite Hg in Hg'. injection Hg' as <-.
  set (lt := leased t0 w _). set (db1 := with_tasks _ db).
  assert (get_task tid db1 = Some lt) as ->.
  { change (get_task tid (put_task lt db) = Some lt). rewrite get_put_task.
    change (task_id lt) with (task_id t0). by rewrite decide_True, Hg by done. }
  assert (start_task reg now lt db1 = (Started (started w ttl now t0), put_task (started w ttl now t0) db1, [])) as Hs.
  { unfold start_task, _run_status_hook. cbn [kind set_t_started_at set_t_status].
    change (kind lt) with (kind t0). by rewrite Hh. }
  exists (put_task (started w ttl now t0) db1). split; [|done].
  change (get_job (t_job_id lt) db1) with (get_job (t_job_id t0) db).
  destruct (get_job (t_job_id t0) db) as [j|]; [rewrite (Hc j eq_refl)|]; by rewrite Hs.
Qed.

(** The success path end to end. A pending task whose dependencies are
    satisfied, whose job is not cancelled and whose lease is free, run by a worker
    whose handler returns before the lease runs out, ends succeeded: [execute_task]
    reports the outputs and the row stores exactly them, stamped with the commit
    time. *)
Lemma execute_task_succeeds (now0 now1 : Z) (tid : string) (db : Db) (t0 : Task) (h : Registry.Handler)
    (raw out1 out2 out3 : value) (arts : list StageArtifact) (other : gmap (string * string) value)
    (Hk : keys_unique db) (Hg : get_task tid db = Some t0) (Hp : t_status t0 = "pending")
    (Hf : Lease.lease_free now0 t0 = true)
    (Hr : dependencies_ready (task_deps t0) (statuses db) = true)
    (Hc : ∀ j, get_job (t_job_id t0) db = Some j → cancel_requested j = false)
    (Hnh : Registry.get_status_hook (kind t0) reg = None)
    (Hnh' : Registry.get_success_hook (kind t0) reg = None)
    (Hh : dict_get (kind t0) (Registry.get_registered reg) = Some h)
    (Hrun : h (started w ttl now0 t0) = Ok raw)
    (Hnorm : normalize_task_outputs svc (started w ttl now0 t0) raw = Ok out1)
    (Hreg : register_derived_dataset svc (started w ttl now0 t0) out1 (db_other db) = Ok (out2, other))
    (Hrec : ∀ t, record_task_artifacts svc t out2 (db_artifacts db) = Ok (out3, arts))
    (Htime : now1 < now0 + Lease.seconds ttl) :
  let '(r, db', _) := execute_task reg svc sanitize w ttl now0 now1 (λ db, db) tid db in
  r = Ok (mkTaskResult "succeeded" None (Some out3)) ∧
  db_artifacts db' = arts ∧
  ∃ t, get_task tid db' = Some t ∧ t_status t = "succeeded" ∧ outputs_ref_json t = Some out3 ∧
       t_started_at t = Some now0 ∧ t_finished_at t = Some now1 ∧ worker_id t = Some w.
Proof.
  destruct (pickup_starts now0 tid db t0 Hk Hg Hp Hf Hr Hc Hnh) as (db1 & Hpick & Hj1 & Ha1 & Ho1).
  destruct (pickup_spec reg w ttl _ _ _ _ _ _ Hk Hpick) as [(Hm & Hg1 & _) _].
  pose proof (moved_keys _ _ _ Hm) as Hk1. pose proof (get_task_elem _ _ _ Hg1) as [_ Hid].
  set (t := started w ttl now0 t0) in *.
  set (t1 := set_outputs_ref_json (set_t_finished_at (set_outputs_ref_json (set_t_status t "succeeded") (Some out2))
               (Some now1)) (Some out3)).
  set (db2 := put_task t1 (mkDb (db_tasks db1) (db_jobs db1) arts (db_events db1) (db_recons db1) other)).
  destruct (_post_terminal now1 (t_job_id t) db2) as [q db3] eqn:Hpost.
  assert (commit_success reg svc w now1 tid out1 db1 =
    Ok (mkTaskResult "succeeded" None (Some out3), db3, q)) as Hcommit.
  { unfold commit_success, if_still_owned. rewrite Hg1.
    replace (_owns_live_running_lease w now1 t) with true.
    2:{ unfold _owns_live_running_lease. symmetry. rewrite !bool_decide_true by done. by apply Z.ltb_lt. }
    replace (job_cancel_requested t db1) with false.
    2:{ unfold job_cancel_requested, get_job. rewrite Hj1. change (t_job_id t) with (t_job_id t0).
        fold (get_job (t_job_id t0) db). destruct (get_job (t_job_id t0) db) as [j|]; [|done].
        by rewrite (Hc j eq_refl). }
    unfold record_success. rewrite Ho1, Hreg. cbn [mbind res_bind]. rewrite Ha1, Hrec.
    cbn [mbind res_bind]. unfold _run_success_hook. fold t1.
    change (kind t1) with (kind t0). rewrite Hnh'. cbn [mbind res_bind]. fold db2.
    change (t_job_id t1) with (t_job_id t). by rewrite Hpost. }
  unfold execute_task. rewrite Hpick. change (kind t) with (kind t0). rewrite Hh.
  unfold run_handler. rewrite Hrun. cbn [mbind res_bind]. rewrite Hnorm. unfold complete. rewrite Hcommit.
  assert (get_task tid db2 = Some t1) as Hg2.
  { unfold db2. rewrite get_put_task. change (task_id t1) with (task_id t). rewrite decide_True by done.
    change (get_task tid _) with (get_task tid db1). by rewrite Hg1. }
  assert (keys_unique db2) as Hk2 by (apply (put_keys t t1 db1 db2); [done|by rewrite <-Hid in Hg1|done|done]).
  split_and!; [done| |].
  - by rewrite (post_terminal_artifacts _ _ _ _ _ Hpost).
  - exists t1. split; [|done]. by eapply post_terminal_get.
Qed.
End run.

(** ** The janitor's tick *)

Lemma first_occurrences_spec seen l :
  NoDup (Janitor.first_occurrences seen l) ∧
  ∀ x, x ∈ Janitor.first_occurrences seen l ↔ x ∈ l ∧ x ∉ seen.
Proof.
  revert seen. induction l as [|y l IH]; intros seen; cbn.
  { split; [constructor|]. intros x. split; [by intros ?%elem_of_nil|by intros [?%elem_of_nil _]]. }
  case_decide as Hy.
  - destruct (IH seen) as [H1 H2]. split; [done|]. intros x. rewrite H2, elem_of_cons.
    split; [tauto|]. by intros [[->|?] ?].
  - destruct (IH (y :: seen)) as [H1 H2]. split.
    + apply NoDup_cons. split; [|done]. rewrite H2, elem_of_cons. tauto.
    + intros x. rewrite !elem_of_cons, H2, elem_of_cons.
      destruct (decide (x = y)) as [->|Hne]; tauto.
Qed.

(** One janitor tick hands each id to the queue at most once: exactly the tasks
    whose expired lease it reclaimed and the pending tasks that are ready after the
    sweep. A task it reclaimed that is still pending and ready is among them, so a
    crashed worker's task is always retried. *)
Lemma janitor_tick_enqueues (retention : option Z) (now : Z) (db : Db) (Hk : keys_unique db) :
  let '(reclaimed, queued, _) := Janitor.run_janitor_once retention now db in
  let db1 := (Janitor.reclaim_expired_leases now db).2 in
  let db2 := (Janitor.propagate_terminal_dependencies now db1).2 in
  NoDup queued ∧
  (∀ id, id ∈ reclaimed ↔ ∃ t, get_task id db = Some t ∧ Janitor.lease_expired now t = true) ∧
  (∀ id, id ∈ queued ↔ id ∈ reclaimed ∨
     ∃ t, get_task id db2 = Some t ∧ t_status t = "pending" ∧ task_state_json t ≠ None ∧
          dependencies_ready (task_deps t) (statuses db2) = true).
Proof.
  unfold Janitor.run_janitor_once.
  destruct (reclaim_update now db) as (_ & _ & Hids). pose proof (moved_keys _ _ _ (reclaim_moved now db Hk)) as Hk1.
  destruct (Janitor.reclaim_expired_leases now db) as [reclaimed db1] eqn:Hrec. cbn [fst snd] in *.
  destruct (Janitor.propagate_terminal_dependencies now db1) as [changed db2] eqn:Hprop.
  pose proof (moved_keys _ _ _ (propagate_moved _ _ _ _ Hk1 Hprop)) as Hk2.
  destruct (Janitor.gc_expired_job_records _ _ _) as [n db3]. cbn [snd].
  destruct (first_occurrences_spec [] (reclaimed ++ Janitor.find_ready_pending_tasks db2)) as [Hn He].
  split_and!; [done| |].
  - intros id. rewrite Hids, list_elem_of_fmap. split.
    + intros (t & -> & [Hx Ht]%elem_of_select). exists t. split; [|done]. by apply System.elem_get_task.
    + intros (t & [Ht Hid]%get_task_elem & Hx). exists t. split; [done|]. by apply elem_of_select.
  - intros id. rewrite He, elem_of_app, elem_of_find_ready by done.
    assert (id ∉ []) as Hnil by apply not_elem_of_nil. split.
    + intros [[?|(t & Ht & Hid & Hs & Hr)] _]; [by left|right]. apply elem_of_pending_rows in Ht as [Ht Hp].
      exists t. rewrite <-Hid. split_and!; [by apply System.elem_get_task|done..].
    + intros [?|(t & [Ht Hid]%get_task_elem & Hp & Hs & Hr)]; (split; [|done]); [by left|right].
      exists t. split_and!; [by apply elem_of_pending_rows|done..].
Qed.

(** ** Dependencies across jobs *)

(** Job [k]'s task [y] depends on [x], which job [j] has finished, and on [z] of its
    own job, just succeeded. *)
Definition cross_job_db : Db :=
  sample_db [sample_task "x" "j" [] "succeeded"; sample_task "z" "k" [] "succeeded";
             sample_task "y" "k" ["x"; "z"] "pending"] [sample_job "j" "succeeded"; sample_job "k" "pending"].

(** The components disagree on a dependency that lives in another job. The
    worker's pickup and the janitor see that [y] is ready and would run it; the sweep
    the dispatcher makes when [z] finishes looks only at the rows of [k], takes [x]
    for a missing task and fails [y], and with it the job. *)
Theorem cross_job_dependency_fails :
  Janitor.find_ready_pending_tasks cross_job_db = ["y"] ∧
  (Dispatcher.pickup echo_registry "w" 90 5 "y" cross_job_db).1.1 =
    Dispatcher.Started (started "w" 90 5 (sample_task "y" "k" ["x"; "z"] "pending")) ∧
  (let '(ready, db') := Dispatcher._advance_job_after_terminal 5 "k" cross_job_db in
   ready = [] ∧ t_status <$> get_task "y" db' = Some "failed" ∧
   j_status <$> get_job "k" db' = Some "failed").
Proof. vm_compute. split_and!; reflexivity. Qed.
