(* ===== verification/Attributes.v ===== *)
(** [sceneapi/server/core/attributes.py]: attribute schemas, the checks their
    construction makes, and the validation of bound values. *)
From S2P Require Import Prelude PyValue.
From stdpp Require Import options.

#[local] Open Scope Z_scope.

Module Attributes.

Definition ATTRIBUTE_TYPES : list string := ["int"; "float"; "bool"; "str"; "enum"; "datatype-ref"; "object"].

(** [enum] is a tuple of strings, as the field's type says. *)
Record Attribute : Type := mkAttribute {
  a_name : string;
  a_type : string;
  a_required : bool;
  a_default : value;
  a_has_default : bool;
  a_enum : list string;
  a_min : option number;
  a_max : option number;
  a_description : string;
  a_datatype_lookup : option (string → bool)
}.

Definition AttributeSet : Type := list Attribute.

Record AttributeValidationError : Type := mkAttributeValidationError {
  ave_reason : string;
  ave_path : string;
  ave_message : string
}.

Definition number_lt (a b : number) : bool := float_lt (number_value a) (number_value b).

(** [value < bound] and [value > bound]; the comparison of a value that is not a
    number is never reached for a constructed attribute. *)
Definition below (v : value) (m : number) : bool :=
  match as_number v with Some x => float_lt x (number_value m) | None => false end.
Definition above (v : value) (m : number) : bool :=
  match as_number v with Some x => float_lt (number_value m) x | None => false end.

Definition below_min (a : Attribute) (v : value) : bool :=
  match a_min a with Some m => below v m | None => false end.
Definition above_max (a : Attribute) (v : value) : bool :=
  match a_max a with Some m => above v m | None => false end.

Section with_datatypes.
Context (is_data_type : string → bool).

Definition _type_ok (a : Attribute) (v : value) (datatype_lookup : option (string → bool)) : bool :=
  if decide (a_type a = "bool") then is_bool v
  else if decide (a_type a = "int") then is_int v && negb (is_bool v)
  else if decide (a_type a = "float") then (is_int v || is_float v) && negb (is_bool v)
  else if decide (a_type a = "str") then is_str v
  else if decide (a_type a = "enum") then
    match v with VStr s => bool_decide (s ∈ a_enum a) | _ => false end
  else if decide (a_type a = "datatype-ref") then
    let lookup :=
      match datatype_lookup with
      | Some f => f
      | None => match a_datatype_lookup a with Some f => f | None => is_data_type end
      end in
    match v with VStr s => lookup s | _ => false end
  else if decide (a_type a = "object") then is_dict v
  else false.

Definition numeric (a : Attribute) : bool := bool_decide (a_type a ∈ ["int"; "float"]).

Definition is_number (v : value) : bool := (is_int v || is_float v) && negb (is_bool v).

Definition attr_text (a : Attribute) (rest : string) : string :=
  "attribute " +:+ str_repr (a_name a) +:+ rest.

Definition present {A} (o : option A) : bool := match o with Some _ => true | None => false end.

(** [Attribute.__post_init__]; the error is the [ValueError]'s text. *)
Definition post_init (a : Attribute) : res string unit :=
  _ ← raise_if (negb (bool_decide (a_type a ∈ ATTRIBUTE_TYPES)))
        (attr_text a (" has unknown type " +:+ str_repr (a_type a)));
  _ ← raise_if (bool_decide (a_type a = "enum") && bool_decide (a_enum a = []))
        ("enum " +:+ attr_text a " must declare enum values");
  _ ← raise_if (negb (bool_decide (a_type a = "enum")) && negb (bool_decide (a_enum a = [])))
        (attr_text a (" uses enum values but type is " +:+ str_repr (a_type a)));
  _ ← raise_if (negb (bool_decide (length (remove_dups (a_enum a)) = length (a_enum a))))
        (attr_text a " enum values must be unique");
  _ ← raise_if (negb (numeric a) && (present (a_min a) || present (a_max a)))
        (attr_text a " min/max are only valid for numeric types");
  _ ← raise_if (match a_min a, a_max a with Some lo, Some hi => number_lt hi lo | _, _ => false end)
        (attr_text a " min must be <= max");
  _ ← raise_if (a_required a && a_has_default a)
        (attr_text a " cannot be required and defaulted");
  if a_has_default a then
    _ ← raise_if (is_none (a_default a)) (attr_text a " default cannot be null");
    _ ← raise_if (negb (_type_ok a (a_default a) (a_datatype_lookup a)))
          (attr_text a (" default must match type " +:+ str_repr (a_type a)));
    if numeric a && is_number (a_default a) then
      _ ← raise_if (below_min a (a_default a)) (attr_text a " default must be >= min");
      raise_if (above_max a (a_default a)) (attr_text a " default must be <= max")
    else Ok tt
  else Ok tt.

(** [Attribute.contract_dict] *)
Definition attribute_contract (a : Attribute) : value :=
  VDict
    ([("name", VStr (a_name a)); ("type", VStr (a_type a)); ("required", VBool (a_required a));
      ("description", VStr (a_description a))] ++
     (if a_has_default a then [("default", a_default a)] else []) ++
     (match a_enum a with [] => [] | l => [("enum", VStrs l)] end) ++
     (match a_min a with Some m => [("min", VNumber m)] | None => [] end) ++
     (match a_max a with Some m => [("max", VNumber m)] | None => [] end)).

(** ** Validation of bound values *)

Definition attr_path (path_prefix name : string) : string := path_prefix +:+ "." +:+ name.

Definition invalid_attribute (path_prefix : string) (a : Attribute) (requirement : string) :
    AttributeValidationError :=
  mkAttributeValidationError "invalid_attribute" (attr_path path_prefix (a_name a))
    ("attribute '" +:+ a_name a +:+ "' must be " +:+ requirement).

(** One iteration of the second loop. *)
Definition validate_attribute (path_prefix : string) (datatype_lookup : option (string → bool))
    (values : dict value) (a : Attribute) : list AttributeValidationError :=
  match dict_get (a_name a) values with
  | None =>
      if a_required a then
        [mkAttributeValidationError "missing_required_attribute" (attr_path path_prefix (a_name a))
           ("missing required attribute '" +:+ a_name a +:+ "'")]
      else []
  | Some v =>
      if is_none v || negb (_type_ok a v datatype_lookup) then
        [invalid_attribute path_prefix a (a_type a)]
      else
        (match a_min a with
         | Some m => if below v m then [invalid_attribute path_prefix a (">= " +:+ number_str m)] else []
         | None => []
         end) ++
        (match a_max a with
         | Some m => if above v m then [invalid_attribute path_prefix a ("<= " +:+ number_str m)] else []
         | None => []
         end)
  end.

Definition unknown_attribute (path_prefix name : string) : AttributeValidationError :=
  mkAttributeValidationError "unknown_attribute" (attr_path path_prefix name)
    ("unknown attribute '" +:+ name +:+ "'").

Definition validate_attributes (attributes : AttributeSet) (values : dict value) (path_prefix : string)
    (datatype_lookup : option (string → bool)) : list AttributeValidationError :=
  (unknown_attribute path_prefix <$> py_difference (dict_keys values) (a_name <$> attributes)) ++
  (attributes ≫= validate_attribute path_prefix datatype_lookup values).

(** ** What validation accepts *)

(** A bound value fits its attribute. *)
Record binding_ok (lookup : option (string → bool)) (a : Attribute) (v : value) : Prop := {
  binding_not_null : v ≠ VNone;
  binding_typed : _type_ok a v lookup = true;
  binding_min : below_min a v = false;
  binding_max : above_max a v = false
}.

Record bindings_ok (lookup : option (string → bool)) (attributes : AttributeSet) (values : dict value) : Prop := {
  bindings_known : ∀ name, name ∈ dict_keys values → name ∈ a_name <$> attributes;
  bindings_fit : ∀ a, a ∈ attributes →
    match dict_get (a_name a) values with
    | Some v => binding_ok lookup a v
    | None => a_required a = false
    end
}.

Lemma typed_number a v lookup : numeric a = true → _type_ok a v lookup = true → is_number v = true.
Proof.
  unfold numeric, _type_ok, is_number. rewrite bool_decide_eq_true. intros Hn.
  in_cases Hn; rewrite Hn; cbn; [|done]. by destruct v.
Qed.

Lemma is_none_iff v : is_none v = true ↔ v = VNone.
Proof. by destruct v. Qed.

Lemma validate_attribute_nil path lookup values a :
  validate_attribute path lookup values a = [] ↔
  match dict_get (a_name a) values with
  | Some v => binding_ok lookup a v
  | None => a_required a = false
  end.
Proof.
  unfold validate_attribute. destruct (dict_get _ _) as [v|]; [|by destruct (a_required a)].
  destruct (is_none v) eqn:Hn; cbn.
  { apply is_none_iff in Hn as ->. split; [done|]. by intros [? _ _ _]. }
  assert (v ≠ VNone) as Hnn by (by intros ->).
  destruct (_type_ok a v lookup) eqn:Ht; cbn; [|split; [done|]; intros [_ ? _ _]; congruence].
  rewrite app_nil. split.
  - intros [Hlo Hhi]. split; [done..| |].
    + unfold below_min. destruct (a_min a) as [m|]; [|done]. by destruct (below v m).
    + unfold above_max. destruct (a_max a) as [m|]; [|done]. by destruct (above v m).
  - intros [_ _ Hlo Hhi]. unfold below_min, above_max in *.
    destruct (a_min a), (a_max a); by rewrite ?Hlo, ?Hhi.
Qed.

Lemma validate_attributes_nil attributes values path lookup :
  validate_attributes attributes values path lookup = [] ↔ bindings_ok lookup attributes values.
Proof.
  unfold validate_attributes. rewrite app_nil, fmap_nil_iff, py_difference_nil, bind_nil.
  setoid_rewrite validate_attribute_nil. split; [by intros [??]|]. by intros [??].
Qed.
End with_datatypes.

Definition contract_dict : value :=
  VDict
    [("contract", VStr "attributes"); ("contract_schema_version", VInt 1);
     ("attribute_types", VStrs ATTRIBUTE_TYPES);
     ("rules", VDict
        [("required_with_default", VStr "invalid");
         ("unknown_core_attribute", VStr "unknown_attribute");
         ("plugin_attribute_namespace", VStr "plugin_id.attribute_name")])].

End Attributes.
