(* ===== verification/Processors.v ===== *)
(** [sceneapi/server/core/processors.py], with [operations.py] and
    [config_stages.py]: typed processors with named ports, the core registry and
    its import-time checks, and the lookups by id and by capability family. *)
From S2P Require Import Prelude PyValue Attributes.
From stdpp Require Import options.
Import Attributes.

Module Processors.

(** ** Config stages *)

Definition CONFIG_STAGES : list string :=
  ["features"; "pairs"; "matcher"; "verify"; "mapping"; "bundle_adjustment"].

Definition CONFIG_STAGE_ORDER : dict Z :=
  imap (λ index stage, (stage, (Z.of_nat index + 1) * 10)%Z) CONFIG_STAGES.

Definition VALID_CONFIG_STAGES : list string := CONFIG_STAGES.

(** ** Data *)

Record PortSpec : Type := mkPortSpec {
  datatype : string;
  required : bool;
  multiple : bool;
  port_description : string
}.

Record Processor : Type := mkProcessor {
  processor_id : string;
  p_title : string;
  consumer : dict PortSpec;
  supplier : dict PortSpec;
  attributes : AttributeSet;
  p_description : string;
  capabilities : list string;
  config_stage : option string;
  aliases : list string;
  special_inputs : dict PortSpec;
  special_attributes : AttributeSet
}.

Definition op_id (p : Processor) : string := processor_id p.
Definition consumes (p : Processor) : list string := (λ rp, datatype rp.2) <$> consumer p.
Definition produces (p : Processor) : list string := (λ rp, datatype rp.2) <$> supplier p.

Definition port_contract (p : PortSpec) : value :=
  VDict [("datatype", VStr (datatype p)); ("required", VBool (required p));
         ("multiple", VBool (multiple p)); ("description", VStr (port_description p))].

(** [{role: port.contract_dict() for role, port in sorted(ports.items())}] *)
Definition ports_contract (ports : dict PortSpec) : value :=
  VDict (omap (λ role, (λ p, (role, port_contract p)) <$> dict_get role ports) (py_sorted (dict_keys ports))).

Definition opt_str (s : option string) : value := match s with Some s => VStr s | None => VNone end.

Definition processor_contract (p : Processor) : value :=
  VDict
    [("processor_id", VStr (processor_id p)); ("title", VStr (p_title p));
     ("consumer", ports_contract (consumer p)); ("supplier", ports_contract (supplier p));
     ("attributes", VList (attribute_contract <$> attributes p));
     ("special_inputs", ports_contract (special_inputs p));
     ("special_attributes", VList (attribute_contract <$> special_attributes p));
     ("capabilities", VStrs (capabilities p)); ("config_stage", opt_str (config_stage p));
     ("aliases", VStrs (aliases p)); ("description", VStr (p_description p))].

Definition operation_contract (p : Processor) : value :=
  VDict
    [("op_id", VStr (op_id p)); ("title", VStr (p_title p)); ("consumes", VStrs (consumes p));
     ("produces", VStrs (produces p)); ("capabilities", VStrs (capabilities p));
     ("config_stage", opt_str (config_stage p)); ("description", VStr (p_description p))].

Definition _port (dt description : string) : PortSpec := mkPortSpec dt true false description.
Definition _multi_port (dt description : string) : PortSpec := mkPortSpec dt true true description.

(** [_attr(name, type_, description, default=..., has_default=True, ...)] and the
    form without a default. *)
Definition _attr (name type_ description : string) (default : value) (enum : list string)
    (min max : option number) : Attribute :=
  mkAttribute name type_ false default true enum min max description None.
Definition _attr_plain (name type_ description : string) (min max : option number) : Attribute :=
  mkAttribute name type_ false VNone false [] min max description None.

(** Literal floats of the tables. *)
Definition float_0_0 : pyfloat := PyFloat (FFinite (QArith_base.Qmake 0 1)) "0.0".
Definition float_1_0 : pyfloat := PyFloat (FFinite (QArith_base.Qmake 1 1)) "1.0".
Definition float_0_25 : pyfloat := PyFloat (FFinite (QArith_base.Qmake 1 4)) "0.25".
(** The doubles nearest to 0.8 and 0.7. *)
Definition float_0_8 : pyfloat := PyFloat (FFinite (QArith_base.Qmake 3602879701896397 4503599627370496)) "0.8".
Definition float_0_7 : pyfloat := PyFloat (FFinite (QArith_base.Qmake 3152519739159347 4503599627370496)) "0.7".

(** ** Attribute tables *)

Definition use_gpu_attr : Attribute :=
  _attr "use_gpu" "bool" "Whether GPU acceleration may be used." (VBool true) [] None None.
Definition seed_attr : Attribute := _attr "seed" "int" "Deterministic seed." (VInt 0) [] None None.
Definition runtime_attr : Attribute :=
  _attr_plain "max_runtime_seconds" "int" "Optional runtime budget in seconds." (Some (NInt 1)) None.

Definition FEATURE_ATTRIBUTES : AttributeSet :=
  [_attr "type" "enum" "Feature extractor family." (VStr "sift")
     ["sift"; "superpoint"; "aliked"; "disk"; "r2d2"; "d2net"; "sosnet"] None None;
   _attr "max_num_features" "int" "Maximum features per image." (VInt 8192) [] (Some (NInt 0)) None;
   use_gpu_attr; seed_attr].

Definition PAIR_ATTRIBUTES : AttributeSet :=
  [_attr "strategy" "enum" "Image pair selection strategy." (VStr "exhaustive")
     ["exhaustive"; "sequential"; "spatial"; "vocabtree"; "retrieval"; "from_poses"; "explicit"] None None;
   _attr "overlap" "int" "Sequential overlap window." (VInt 10) [] (Some (NInt 0)) None;
   _attr "retrieval_k" "int" "Number of retrieval neighbors." (VInt 20) [] (Some (NInt 1)) None].

Definition MATCH_ATTRIBUTES : AttributeSet :=
  [_attr "type" "enum" "Feature matcher family." (VStr "nn-mutual")
     ["nn-mutual"; "nn-ratio"; "superglue"; "lightglue"; "loftr"; "mast3r"] None None;
   use_gpu_attr;
   _attr "cross_check" "bool" "Require reciprocal nearest neighbors." (VBool true) [] None None;
   _attr "max_ratio" "float" "Lowe ratio threshold." (VFloat float_0_8) []
     (Some (NFloat float_0_0)) (Some (NFloat float_1_0));
   _attr "max_distance" "float" "Descriptor distance threshold." (VFloat float_0_7) []
     (Some (NFloat float_0_0)) None].

Definition VERIFY_ATTRIBUTES : AttributeSet :=
  [use_gpu_attr;
   _attr "min_inlier_ratio" "float" "Minimum accepted inlier ratio." (VFloat float_0_25) []
     (Some (NFloat float_0_0)) (Some (NFloat float_1_0))].

Definition MAP_ATTRIBUTES : AttributeSet :=
  [_attr "kind" "enum" "Mapping recipe." (VStr "incremental")
     ["incremental"; "global"; "hierarchical"; "spherical"] None None;
   seed_attr; runtime_attr].

Definition MAP_FEED_FORWARD_ATTRIBUTES : AttributeSet := [seed_attr; runtime_attr].

Definition REFINE_ATTRIBUTES : AttributeSet :=
  [_attr "mode" "enum" "Bundle-adjustment mode." (VStr "standard")
     ["standard"; "two_stage"; "featuremetric"; "rig"] None None;
   _attr "max_num_iterations" "int" "Maximum solver iterations." (VInt 100) [] (Some (NInt 1)) None].

(** ** The core registry *)

Definition core_processor (id title : string) (consumer supplier : dict PortSpec) (attrs : AttributeSet)
    (description : string) (caps : list string) (stage : option string) : Processor :=
  mkProcessor id title consumer supplier attrs description caps stage [] [] [].

Definition FEATURES : Processor :=
  core_processor "features" "Feature extraction"
    [("images", _port "image_sequence" "Captured image sequence.")]
    [("features", _port "feature_set" "Per-image keypoints and descriptors.")]
    FEATURE_ATTRIBUTES "Detect keypoints + compute descriptors per image."
    ["features.extract"] (Some "features").

Definition PAIRS : Processor :=
  core_processor "pairs" "Pair selection"
    [("features", _port "feature_set" "Feature set used for retrieval or metadata.")]
    [("pairs", _port "pair_set" "Selected image pairs.")]
    PAIR_ATTRIBUTES "Choose which image pairs to match (exhaustive, retrieval, ...)."
    ["pairs"] (Some "pairs").

Definition MATCHES : Processor :=
  core_processor "matches" "Feature matching"
    [("features", _port "feature_set" "Features to match.");
     ("pairs", _port "pair_set" "Image pairs to evaluate.")]
    [("matches", _port "match_graph" "Raw feature correspondences.")]
    MATCH_ATTRIBUTES "Match features across the selected pairs."
    ["matchers"; "match.detector_free"; "keypoints.persistent"] (Some "matcher").

Definition VERIFY : Processor :=
  core_processor "verify" "Geometric verification"
    [("matches", _port "match_graph" "Candidate correspondences.")]
    [("matches", _port "match_graph" "Geometrically verified correspondences.")]
    VERIFY_ATTRIBUTES "Filter matches by two-view geometry."
    ["matches.verify"; "geometry.two_view"] (Some "verify").

Definition MAP : Processor :=
  core_processor "map" "Mapping (SfM)"
    [("features", _port "feature_set" "Feature observations.");
     ("matches", _port "match_graph" "Verified correspondences.")]
    [("model", _port "sparse_model" "Sparse reconstruction model.")]
    MAP_ATTRIBUTES "Reconstruct camera poses + sparse points (incremental, global, ...)."
    ["map"] (Some "mapping").

Definition MAP_FEED_FORWARD : Processor :=
  core_processor "map_feed_forward" "Feed-forward mapping"
    [("images", _port "image_sequence" "Captured image sequence.")]
    [("model", _port "sparse_model" "Sparse reconstruction model.")]
    MAP_FEED_FORWARD_ATTRIBUTES
    "Map raw views directly with a feed-forward model (no correspondence stage)."
    ["map.feed_forward"] (Some "mapping").

Definition TRIANGULATE : Processor :=
  core_processor "triangulate" "Triangulation"
    [("model", _port "sparse_model" "Existing sparse model.");
     ("matches", _port "match_graph" "Additional correspondences.")]
    [("model", _port "sparse_model" "Sparse model with added points.")]
    [] "Triangulate additional 3D points into an existing model." ["triangulate"] None.

Definition REFINE : Processor :=
  core_processor "refine" "Bundle adjustment"
    [("model", _port "sparse_model" "Sparse model to refine.")]
    [("model", _port "sparse_model" "Refined sparse model.")]
    REFINE_ATTRIBUTES "Jointly refine camera poses, intrinsics, and 3D points."
    ["ba"] (Some "bundle_adjustment").

Definition OPTIMIZE_POSES : Processor :=
  core_processor "optimize_poses" "Pose-graph optimization"
    [("model", _port "sparse_model" "Sparse model to optimize.")]
    [("model", _port "sparse_model" "Pose-optimized sparse model.")]
    [] "Optimize the pose graph of a reconstruction." ["pgo"] None.

Definition RELOCALIZE : Processor :=
  core_processor "relocalize" "Relocalization"
    [("model", _port "sparse_model" "Reference sparse model.")]
    [("model", _port "sparse_model" "Sparse model with registered images.")]
    [] "Register additional images into an existing reconstruction." ["relocalize"] None.

Definition MERGE : Processor :=
  core_processor "merge" "Reconstruction merge"
    [("model", _multi_port "sparse_model" "Sparse model component.")]
    [("model", _port "sparse_model" "Merged sparse model.")]
    [] "Merge disconnected submodels into one reconstruction." ["recon.merge"] None.

Definition GEOREGISTER : Processor :=
  core_processor "georegister" "Georegistration"
    [("model", _port "sparse_model" "Sparse model to align.")]
    [("model", _port "sparse_model" "Georegistered sparse model.")]
    [] "Align a reconstruction to a geographic / metric frame." ["georegister"] None.

Definition UNDISTORT : Processor :=
  core_processor "undistort" "Undistortion"
    [("model", _port "sparse_model" "Sparse model with source cameras.")]
    [("model", _port "sparse_model" "Sparse model with adjusted intrinsics.")]
    [] "Undistort images and emit adjusted intrinsics." ["image.undistort"] None.

Definition PROJECT : Processor :=
  core_processor "project" "Reprojection"
    [("images", _port "image_sequence" "Images to reproject.")]
    [("projection", _port "projection" "Projected image set.")]
    [] "Reproject images between equirectangular / cubemap / perspective."
    ["projection"; "spherical"] None.

Definition CORE_PROCESSORS : list Processor :=
  [FEATURES; PAIRS; MATCHES; VERIFY; MAP; MAP_FEED_FORWARD; TRIANGULATE; REFINE; OPTIMIZE_POSES;
   RELOCALIZE; MERGE; GEOREGISTER; UNDISTORT; PROJECT].

(** ** Import-time checks *)

(** [if len(ids) != len(set(ids)): raise ...] and the alias checks. *)
Definition check_registry (ps : list Processor) : res string unit :=
  let ids := processor_id <$> ps in
  let als := ps ≫= aliases in
  _ ← raise_if (negb (bool_decide (length ids = length (remove_dups ids)))) "duplicate core processor id";
  _ ← raise_if (negb (bool_decide (length als = length (remove_dups als)))) "duplicate core processor alias";
  raise_if (negb (bool_decide (py_intersection als ids = []))) "processor alias collides with a processor id".

Definition lower (a : ascii) : bool := let n := nat_of_ascii a in bool_decide (97 ≤ n ≤ 122).
Definition role_char (a : ascii) : bool :=
  let n := nat_of_ascii a in lower a || bool_decide (48 ≤ n ≤ 57) || bool_decide (n = 95).

(** [[a-z0-9_]*$]: the dollar also matches before a final newline. *)
Fixpoint role_tail (s : string) : bool :=
  match s with
  | EmptyString => true
  | String a s =>
      if role_char a then role_tail s
      else bool_decide (nat_of_ascii a = 10) && bool_decide (s = "")
  end.

(** [_ROLE_RE.match(s)] *)
Definition _ROLE_RE (s : string) : bool :=
  match s with String a s => lower a && role_tail s | EmptyString => false end.

Section with_datatypes.
Context (is_data_type : string → bool).

Definition validate_port (p : Processor) (group_name : string) (rp : string * PortSpec) : res string unit :=
  _ ← raise_if (negb (_ROLE_RE rp.1))
        ("processor " +:+ str_repr (processor_id p) +:+ " has invalid " +:+ group_name +:+ " role " +:+
         str_repr rp.1);
  raise_if (negb (is_data_type (datatype rp.2)))
    ("processor " +:+ str_repr (processor_id p) +:+ " references unknown DataType " +:+
     str_repr (datatype rp.2)).

Definition _validate_processor (p : Processor) : res string unit :=
  _ ← for_each (validate_port p "consumer") (consumer p);
  _ ← for_each (validate_port p "supplier") (supplier p);
  _ ← for_each (validate_port p "special_inputs") (special_inputs p);
  _ ← raise_if (negb (bool_decide (py_intersection (dict_keys (consumer p)) (dict_keys (special_inputs p)) = [])))
        ("processor " +:+ str_repr (processor_id p) +:+ " has colliding core/special input roles");
  let attr_names := a_name <$> (attributes p ++ special_attributes p) in
  _ ← raise_if (negb (bool_decide (length attr_names = length (remove_dups attr_names))))
        ("processor " +:+ str_repr (processor_id p) +:+ " has duplicate attributes");
  match config_stage p with
  | Some stage =>
      raise_if (negb (bool_decide (stage ∈ VALID_CONFIG_STAGES)))
        ("processor " +:+ str_repr (processor_id p) +:+ " has unknown config_stage " +:+ str_repr stage)
  | None => Ok tt
  end.
End with_datatypes.

(** ** Lookups *)

Definition by_id (ps : list Processor) : dict Processor :=
  foldl (λ d p, dict_set (processor_id p) p d) [] ps.
Definition by_alias (ps : list Processor) : dict string :=
  foldl (λ d p, foldl (λ d alias, dict_set alias (processor_id p) d) d (aliases p)) [] ps.

Definition PROCESSORS_BY_ID : dict Processor := by_id CORE_PROCESSORS.
Definition PROCESSOR_ALIASES : dict string := by_alias CORE_PROCESSORS.

Definition processor_for_in (ps : list Processor) (id : string) : option Processor :=
  dict_get (default id (dict_get id (by_alias ps))) (by_id ps).

Definition processor_for (id : string) : option Processor := processor_for_in CORE_PROCESSORS id.

(** [{family: p.processor_id for p in ... for family in p.capabilities}] *)
Definition capability_families (ps : list Processor) : dict string :=
  foldl (λ d p, foldl (λ d family, dict_set family (processor_id p) d) d (capabilities p)) [] ps.

(** [sorted(families, key=len, reverse=True)]: longest first; equal lengths keep
    their order. *)
Fixpoint insert_longest (x : string) (l : list string) : list string :=
  match l with
  | [] => [x]
  | y :: l => if decide (String.length y ≤ String.length x) then x :: y :: l else y :: insert_longest x l
  end.
Definition longest_first (l : list string) : list string := foldr insert_longest [] l.

Definition family_covers (family capability : string) : bool :=
  bool_decide (capability = family) || starts_with (family +:+ ".") capability.

Fixpoint first_cover (families : list string) (capability : string) : option string :=
  match families with
  | [] => None
  | f :: families => if family_covers f capability then Some f else first_cover families capability
  end.

Definition processor_for_capability_in (ps : list Processor) (capability : string) : option string :=
  let families := capability_families ps in
  f ← first_cover (longest_first (dict_keys families)) capability; dict_get f families.

Definition processor_for_capability (capability : string) : option string :=
  processor_for_capability_in CORE_PROCESSORS capability.

Definition processors_for_capabilities (caps : list string) : gset string :=
  list_to_set (omap processor_for_capability caps).

(** The operations view. *)
Definition operation_for : string → option Processor := processor_for.
Definition operation_for_capability : string → option string := processor_for_capability.
Definition operations_for_capabilities : list string → gset string := processors_for_capabilities.

(** ** Facts *)

Lemma length_remove_dups_le (l : list string) : length (remove_dups l) ≤ length l.
Proof. induction l; cbn; [done|]. case_decide; cbn; lia. Qed.

Lemma length_remove_dups (l : list string) : length l = length (remove_dups l) ↔ NoDup l.
Proof.
  induction l as [|x l IH]; cbn; [split; [constructor|done]|]. rewrite NoDup_cons.
  pose proof (length_remove_dups_le l). case_decide as Hx; cbn.
  - split; [lia|by intros []].
  - rewrite <-IH. split; [intros ?; split; [done|lia]|lia].
Qed.

Lemma family_covers_iff f c : family_covers f c = true ↔ c = f ∨ ∃ r, c = (f +:+ ".") +:+ r.
Proof. unfold family_covers. by rewrite orb_true_iff, bool_decide_eq_true, starts_with_spec. Qed.

Lemma insert_longest_elem x l y : y ∈ insert_longest x l ↔ y = x ∨ y ∈ l.
Proof. induction l as [|z l IH]; cbn; [set_solver|]. case_decide; set_solver. Qed.

Lemma longest_first_elem l y : y ∈ longest_first l ↔ y ∈ l.
Proof. induction l as [|x l IH]; cbn; [done|]. rewrite insert_longest_elem, IH. set_solver. Qed.

Definition longer (x y : string) : Prop := String.length y ≤ String.length x.

Lemma insert_longest_sorted x l :
  StronglySorted longer l → StronglySorted longer (insert_longest x l).
Proof.
  induction 1 as [|y l Hl IH Hy]; cbn; [repeat constructor|].
  case_decide as Hle.
  - repeat constructor; [done|done|exact Hle|]. rewrite Forall_forall in *.
    intros z Hz. specialize (Hy z Hz). unfold longer in *. lia.
  - constructor; [done|]. rewrite Forall_forall in *. intros z [->|Hz]%insert_longest_elem; [|by apply Hy].
    unfold longer. lia.
Qed.

Lemma longest_first_sorted l : StronglySorted longer (longest_first l).
Proof. induction l; cbn; [constructor|]. by apply insert_longest_sorted. Qed.

Lemma first_cover_spec families c :
  StronglySorted longer families →
  match first_cover families c with
  | Some f => f ∈ families ∧ family_covers f c = true ∧
              ∀ g, g ∈ families → family_covers g c = true → String.length g ≤ String.length f
  | None => ∀ g, g ∈ families → family_covers g c = false
  end.
Proof.
  induction 1 as [|f l Hl IH Hf]; cbn; [by intros g ?%elem_of_nil|].
  destruct (family_covers f c) eqn:Hc.
  - split_and!; [list_in|done|]. intros g [->|Hg]%elem_of_cons _; [done|].
    rewrite Forall_forall in Hf. by apply Hf.
  - destruct (first_cover l c) as [h|].
    + destruct IH as (Hin & Hcov & Hmax). split_and!; [by right|done|].
      intros g [->|Hg]%elem_of_cons Hgc; [congruence|]. by apply Hmax.
    + intros g [->|Hg]%elem_of_cons; [done|]. by apply IH.
Qed.

End Processors.
