(* ===== verification/Pipelines.v ===== *)
(** [sceneapi/server/core/pipelines.py]: the two pipeline validators, the wire
    references and the step dependencies the wiring implies. *)
From S2P Require Import Prelude PyValue Attributes Processors.
From stdpp Require Import options.
Import Attributes Processors.

Module Pipelines.

Definition DEFAULT_INITIAL_INPUTS : list string := ["image_sequence"].

Record ChainError : Type := mkChainError {
  ce_where : string;
  ce_message : string;
  ce_reason : string;
  ce_path : string
}.

Record PipelineStep : Type := mkStep {
  ref : string;
  processor : string;
  s_attributes : dict value;
  wires : dict value
}.

Record _Supply : Type := mkSupply {
  su_ref : string;
  su_port : string;
  su_datatype : string;
  verified_match_graph : bool
}.

Definition wire_ref (s : _Supply) : string := su_ref s +:+ "." +:+ su_port s.

Definition CANONICAL_PIPELINES : dict (list string) :=
  [("sfm", ["features"; "pairs"; "matches"; "verify"; "map"]);
   ("feed_forward", ["map_feed_forward"])].

Definition str_nat (i : nat) : string := pretty (N.of_nat i).

Definition _requires_verified_match_graph (processor_id role : string) : bool :=
  bool_decide (processor_id ∈ ["map"; "triangulate"]) && bool_decide (role = "matches").

(** ** The flat validator *)

(** [Counter]: a missing key counts zero. *)
Definition count (t : string) (c : dict nat) : nat := default 0 (dict_get t c).
Definition counter_add (c : dict nat) (t : string) : dict nat := dict_set t (S (count t c)) c.
Definition counter_update (c : dict nat) (ts : list string) : dict nat := foldl counter_add c ts.

Definition step_where (i : nat) (name : string) : string := "step " +:+ str_nat i +:+ " '" +:+ name +:+ "'".
Definition step_path (i : nat) : string := "steps." +:+ str_nat i.

(** The checks of one consumer port. *)
Definition legacy_port (i : nat) (op_id : string) (available : dict nat) (verified : nat)
    (rp : string * PortSpec) : list ChainError :=
  let '(role, port) := rp in
  (if multiple port && required port && bool_decide (count (datatype port) available = 1) then
     [mkChainError (step_where i op_id) ("consumer port '" +:+ role +:+ "' requires at least two inputs")
        "invalid_fan_in" (step_path i)]
   else []) ++
  (if _requires_verified_match_graph op_id role && bool_decide (0 < count (datatype port) available) &&
      bool_decide (verified = 0) then
     [mkChainError (step_where i op_id)
        ("consumer port '" +:+ role +:+ "' requires verified match_graph input")
        "unverified_match_graph" (step_path i)]
   else []).

(** The errors of one known operation. *)
Definition legacy_step (i : nat) (op_id : string) (op : Processor) (available : dict nat) (verified : nat) :
    list ChainError :=
  let missing := filter (λ t, count t available = 0) (consumes op) in
  (match missing with
   | [] => []
   | _ =>
       [mkChainError (step_where i op_id)
          ("missing input(s): " +:+ join ", " missing +:+ "; upstream produced: " +:+
           join ", " (py_sorted (dict_keys available)))
          "missing_required_port" (step_path i)]
   end) ++
  (consumer op ≫= legacy_port i op_id available verified).

Section with_lookup.
Context (is_data_type : string → bool).
Context (processor_lookup : string → option Processor).

Fixpoint legacy_steps (i : nat) (available : dict nat) (verified : nat) (op_ids : list string) :
    list ChainError :=
  match op_ids with
  | [] => []
  | op_id :: op_ids =>
      match processor_lookup op_id with
      | None =>
          mkChainError ("step " +:+ str_nat i) ("unknown operation '" +:+ op_id +:+ "'")
            "unknown_processor" (step_path i) :: legacy_steps (S i) available verified op_ids
      | Some op =>
          legacy_step i op_id op available verified ++
          legacy_steps (S i) (counter_update available (produces op))
            (if decide (op_id = "verify") then verified + occurrences "match_graph" (produces op)
             else verified) op_ids
      end
  end.

Definition _legacy_validate_pipeline (op_ids initial_inputs : list string) : list ChainError :=
  legacy_steps 0 (counter_update [] initial_inputs) 0 op_ids.

(** ** Wires *)

Definition _parse_wire_ref (v : value) : option (string * string) :=
  match v with
  | VStr s =>
      if negb (str_mem "."%char s) then None
      else if starts_with "inputs." s then
        let port := remove_prefix "inputs." s in
        if decide (port = "") then None else Some ("inputs", port)
      else
        match rsplit1 "."%char s with
        | Some (r, port) => if decide (r = "" ∨ port = "") then None else Some (r, port)
        | None => None
        end
  | _ => None
  end.

Definition _wire_values (raw : value) (port : PortSpec) : list value :=
  if multiple port then match raw with VList l => l | _ => [raw] end else [raw].

Definition _available_datatypes (available : list _Supply) : string :=
  join ", " (py_sorted_set (su_datatype <$> available)).

Definition _processor_consumer (p : Processor) : dict PortSpec := dict_merge (consumer p) (special_inputs p).
Definition _processor_attributes (p : Processor) : AttributeSet := attributes p ++ special_attributes p.

Definition _step_supply (s : PipelineStep) (role dt : string) : _Supply :=
  mkSupply (ref s) role dt
    (bool_decide (processor s = "verify") && bool_decide (role = "matches") && bool_decide (dt = "match_graph")).

(** ** The named-port validator *)

(** What the loop over steps threads: supplies in order, the same by wire
    reference, and the references seen. *)
Record Scope : Type := mkScope {
  available : list _Supply;
  by_wire : dict _Supply;
  seen_refs : list string
}.

Definition index_supplies (l : list _Supply) (d : dict _Supply) : dict _Supply :=
  foldl (λ d s, dict_set (wire_ref s) s d) d l.

Definition initial_supplies (initial_inputs : list string) : list _Supply :=
  (λ dt, mkSupply "inputs" dt dt false) <$> initial_inputs.

Definition initial_scope (initial_inputs : list string) : Scope :=
  mkScope (initial_supplies initial_inputs) (index_supplies (initial_supplies initial_inputs) []) ["inputs"].

Definition port_error (i : nat) (s : PipelineStep) (role message reason : string) : ChainError :=
  mkChainError (step_where i (ref s)) message reason (step_path i +:+ ".wires." +:+ role).

Definition consumer_port (role rest : string) : string := "consumer port '" +:+ role +:+ "' " +:+ rest.

(** One wire value of a port: its error, and the key it adds to [wire_keys]. *)
Definition check_wire (i : nat) (s : PipelineStep) (role : string) (port : PortSpec) (sc : Scope) (v : value) :
    list ChainError * list string :=
  match _parse_wire_ref v with
  | None =>
      ([port_error i s role ("wire for port '" +:+ role +:+ "' must be 'step_ref.supplier_port'") "unknown_port"], [])
  | Some (r, p) =>
      match dict_get (r +:+ "." +:+ p) (by_wire sc) with
      | None =>
          ([port_error i s role ("unknown supplier port '" +:+ r +:+ "." +:+ p +:+ "'") "unknown_port"], [])
      | Some supply =>
          (if decide (su_datatype supply ≠ datatype port) then
             [port_error i s role
                ("datatype mismatch for port '" +:+ role +:+ "': expected " +:+ datatype port +:+ ", got " +:+
                 su_datatype supply) "datatype_mismatch"]
           else if _requires_verified_match_graph (processor s) role && negb (verified_match_graph supply) then
             [port_error i s role (consumer_port role "requires verified match_graph input")
                "unverified_match_graph"]
           else [],
           [wire_ref supply])
      end
  end.

(** A port the step wires explicitly. *)
Definition check_wired_port (i : nat) (s : PipelineStep) (role : string) (port : PortSpec) (sc : Scope)
    (raw : value) : list ChainError :=
  let values := _wire_values raw port in
  if negb (multiple port) && is_list raw then
    [port_error i s role (consumer_port role "does not accept multiple inputs") "invalid_fan_in"]
  else if is_nil values && required port then
    [port_error i s role ("missing required input port '" +:+ role +:+ "' (" +:+ datatype port +:+ ")")
       "missing_required_port"]
  else if multiple port && required port && bool_decide (length values = 1) then
    [port_error i s role (consumer_port role "requires at least two inputs") "invalid_fan_in"]
  else
    let checked := check_wire i s role port sc <$> values in
    let wire_keys := checked ≫= snd in
    let distinct_wire_keys := remove_dups wire_keys in
    (checked ≫= fst) ++
    (if multiple port && negb (bool_decide (length distinct_wire_keys = length wire_keys)) then
       [port_error i s role (consumer_port role "does not accept duplicate inputs") "invalid_fan_in"]
     else if multiple port && required port && bool_decide (length distinct_wire_keys < 2) then
       [port_error i s role (consumer_port role "requires at least two distinct inputs") "invalid_fan_in"]
     else []).

(** A required port the step leaves to inference. *)
Definition check_open_port (i : nat) (s : PipelineStep) (role : string) (port : PortSpec) (sc : Scope) :
    list ChainError :=
  if negb (required port) then []
  else
    let candidates := filter (λ x, su_datatype x = datatype port) (available sc) in
    match candidates with
    | [] =>
        [port_error i s role
           ("missing input(s): " +:+ datatype port +:+ "; upstream produced: " +:+
            _available_datatypes (available sc)) "missing_required_port"]
    | _ =>
        if multiple port && bool_decide (length candidates = 1) then
          [port_error i s role (consumer_port role "requires at least two inputs") "invalid_fan_in"]
        else if multiple port && bool_decide (length (remove_dups (wire_ref <$> candidates)) < 2) then
          [port_error i s role (consumer_port role "requires at least two distinct inputs") "invalid_fan_in"]
        else if negb (multiple port) && bool_decide (1 < length candidates) then
          [port_error i s role
             ("ambiguous input for port '" +:+ role +:+ "' (" +:+ datatype port +:+ "): " +:+
              join ", " (wire_ref <$> candidates)) "ambiguous_input"]
        else if _requires_verified_match_graph (processor s) role &&
                is_nil (filter (λ x, verified_match_graph x = true) candidates) then
          [port_error i s role (consumer_port role "requires verified match_graph input")
             "unverified_match_graph"]
        else []
    end.

Definition check_port (i : nat) (s : PipelineStep) (sc : Scope) (rp : string * PortSpec) : list ChainError :=
  match dict_get rp.1 (wires s) with
  | Some raw => check_wired_port i s rp.1 rp.2 sc raw
  | None => check_open_port i s rp.1 rp.2 sc
  end.

Definition attribute_chain_error (i : nat) (s : PipelineStep) (e : AttributeValidationError) : ChainError :=
  mkChainError (step_where i (ref s)) (ave_message e) (ave_reason e) (ave_path e).

Definition attribute_errors (i : nat) (s : PipelineStep) (p : Processor) : list ChainError :=
  attribute_chain_error i s <$>
    validate_attributes is_data_type (_processor_attributes p) (s_attributes s)
      (step_path i +:+ ".attributes") None.

(** The errors of a step whose processor is known. *)
Definition check_step (i : nat) (s : PipelineStep) (p : Processor) (sc : Scope) : list ChainError :=
  let ports := _processor_consumer p in
  attribute_errors i s p ++
  ((λ role, port_error i s role ("unknown consumer port '" +:+ role +:+ "'") "unknown_port") <$>
     py_difference (dict_keys (wires s)) (dict_keys ports)) ++
  (ports ≫= check_port i s sc).

Definition step_supplies (s : PipelineStep) (p : Processor) : list _Supply :=
  (λ rp, _step_supply s rp.1 (datatype rp.2)) <$> supplier p.

Definition add_supplies (l : list _Supply) (sc : Scope) : Scope :=
  mkScope (available sc ++ l) (index_supplies l (by_wire sc)) (seen_refs sc).

Definition see_ref (r : string) (sc : Scope) : Scope :=
  mkScope (available sc) (by_wire sc) (r :: seen_refs sc).

Fixpoint strict_steps (i : nat) (sc : Scope) (steps : list PipelineStep) : list ChainError :=
  match steps with
  | [] => []
  | s :: steps =>
      if decide (ref s ∈ seen_refs sc) then
        mkChainError (step_where i (ref s)) ("duplicate step ref '" +:+ ref s +:+ "'")
          "duplicate_step_ref" (step_path i +:+ ".ref") :: strict_steps (S i) sc steps
      else
        let sc := see_ref (ref s) sc in
        match processor_lookup (processor s) with
        | None =>
            mkChainError (step_where i (ref s)) ("unknown processor '" +:+ processor s +:+ "'")
              "unknown_processor" (step_path i +:+ ".processor") :: strict_steps (S i) sc steps
        | Some p =>
            check_step i s p sc ++ strict_steps (S i) (add_supplies (step_supplies s p) sc) steps
        end
  end.

Definition duplicate_input_error (dt : string) : ChainError :=
  mkChainError "inputs" ("duplicate initial input datatype '" +:+ dt +:+ "'")
    "duplicate_initial_input" "initial_inputs".

Definition _strict_validate_pipeline (steps : list PipelineStep) (initial_inputs : list string) :
    list ChainError :=
  (duplicate_input_error <$> py_duplicates initial_inputs) ++
  strict_steps 0 (initial_scope initial_inputs) steps.

(** [validate_pipeline]: a list of strings is legacy, anything else strict. *)
Definition validate_pipeline (steps : list string + list PipelineStep) (initial_inputs : list string) :
    list ChainError :=
  match steps with
  | inl [] | inr [] => []
  | inl op_ids => _legacy_validate_pipeline op_ids initial_inputs
  | inr steps => _strict_validate_pipeline steps initial_inputs
  end.

Definition validate_step_attributes (steps : list PipelineStep) : list ChainError :=
  imap (λ i s, (i, s)) steps ≫= λ '(i, s),
    match processor_lookup (processor s) with
    | None => []
    | Some p => attribute_errors i s p
    end.

(** ** Dependencies between steps *)

Definition add_dep (deps : list string) (r : string) : list string :=
  if bool_decide (r = "inputs") || bool_decide (r ∈ deps) then deps else deps ++ [r].

(** The supplies a wired port reads. *)
Definition wired_supplies (sc : Scope) (port : PortSpec) (raw : value) : list _Supply :=
  omap (λ v, '(r, p) ← _parse_wire_ref v; dict_get (r +:+ "." +:+ p) (by_wire sc)) (_wire_values raw port).

(** The supplies an open required port reads: all that fit, or the first. *)
Definition open_supplies (s : PipelineStep) (sc : Scope) (role : string) (port : PortSpec) : list _Supply :=
  if negb (required port) then []
  else
    let fit := filter (λ x, su_datatype x = datatype port ∧
      (_requires_verified_match_graph (processor s) role = false ∨ verified_match_graph x = true)) (available sc) in
    if multiple port then fit else take 1 fit.

Definition port_supplies (s : PipelineStep) (sc : Scope) (rp : string * PortSpec) : list _Supply :=
  match dict_get rp.1 (wires s) with
  | Some raw => wired_supplies sc rp.2 raw
  | None => open_supplies s sc rp.1 rp.2
  end.

Definition step_deps (s : PipelineStep) (p : Processor) (sc : Scope) : list string :=
  foldl add_dep [] (su_ref <$> (_processor_consumer p ≫= port_supplies s sc)).

Fixpoint inferred_steps (out : dict (list string)) (sc : Scope) (steps : list PipelineStep) :
    dict (list string) :=
  match steps with
  | [] => out
  | s :: steps =>
      match processor_lookup (processor s) with
      | None => inferred_steps (dict_set (ref s) [] out) sc steps
      | Some p =>
          inferred_steps (dict_set (ref s) (step_deps s p sc) out)
            (add_supplies (step_supplies s p) sc) steps
      end
  end.

Definition inferred_step_dependencies (steps : list PipelineStep) (initial_inputs : list string) :
    dict (list string) :=
  inferred_steps [] (initial_scope initial_inputs) steps.
End with_lookup.

End Pipelines.
