(* ===== verification/PipelineFacts.v ===== *)
(** The typing rules of pipelines, stated without the validator, and the facts
    relating them to its loops. *)
From S2P Require Import Prelude PyValue Attributes Processors Pipelines.
From stdpp Require Import options.
Import Attributes Processors Pipelines.

Section typing.
Context (is_data_type : string → bool).
Context (processor_lookup : string → option Processor).

(** ** Typing rules *)

(** The wire value [v] names supply [x] in scope. *)
Definition reads (sc : Scope) (v : value) (x : _Supply) : Prop :=
  ∃ r p, _parse_wire_ref v = Some (r, p) ∧ dict_get (r +:+ "." +:+ p) (by_wire sc) = Some x.

(** Supply [x] may feed the port. *)
Definition fits (s : PipelineStep) (role : string) (port : PortSpec) (x : _Supply) : Prop :=
  su_datatype x = datatype port ∧
  (_requires_verified_match_graph (processor s) role = true → verified_match_graph x = true).

Definition wired_ok (s : PipelineStep) (role : string) (port : PortSpec) (sc : Scope) (raw : value) : Prop :=
  ∃ xs, Forall2 (reads sc) (_wire_values raw port) xs ∧ Forall (fits s role port) xs ∧
    (multiple port = false → is_list raw = false) ∧
    (multiple port = true → NoDup (wire_ref <$> xs) ∧ (required port = true → 2 ≤ length xs)).

Definition open_ok (s : PipelineStep) (role : string) (port : PortSpec) (sc : Scope) : Prop :=
  required port = true →
  let candidates := filter (λ x, su_datatype x = datatype port) (available sc) in
  (multiple port = false → length candidates = 1) ∧
  (multiple port = true → 2 ≤ length (remove_dups (wire_ref <$> candidates))) ∧
  (_requires_verified_match_graph (processor s) role = true →
     ∃ x, x ∈ candidates ∧ verified_match_graph x = true).

Definition port_ok (s : PipelineStep) (sc : Scope) (rp : string * PortSpec) : Prop :=
  match dict_get rp.1 (wires s) with
  | Some raw => wired_ok s rp.1 rp.2 sc raw
  | None => open_ok s rp.1 rp.2 sc
  end.

Record step_ok (s : PipelineStep) (p : Processor) (sc : Scope) : Prop := {
  step_attributes : bindings_ok is_data_type None (_processor_attributes p) (s_attributes s);
  step_wires : ∀ role, role ∈ dict_keys (wires s) → role ∈ dict_keys (_processor_consumer p);
  step_ports : ∀ rp, rp ∈ _processor_consumer p → port_ok s sc rp
}.

Inductive typed_steps : Scope → list PipelineStep → Prop :=
  | typed_nil sc : typed_steps sc []
  | typed_cons sc s p steps :
      ref s ∉ seen_refs sc → processor_lookup (processor s) = Some p → step_ok s p sc →
      typed_steps (add_supplies (step_supplies s p) (see_ref (ref s) sc)) steps →
      typed_steps sc (s :: steps).

(** The inputs are distinct, and each step has a fresh reference, a known
    processor, well-typed attributes, and well-typed ports in the scope of the
    steps before it. *)
Definition typed_pipeline (steps : list PipelineStep) (initial_inputs : list string) : Prop :=
  NoDup initial_inputs ∧ typed_steps (initial_scope initial_inputs) steps.

(** ** The validator decides them *)

Lemma check_wire_ok i s role port sc v :
  (check_wire i s role port sc v).1 = [] ↔ ∃ x, reads sc v x ∧ fits s role port x.
Proof.
  unfold check_wire, reads, fits. destruct (_parse_wire_ref v) as [[r p]|].
  2:{ split; [done|]. by intros (? & (? & ? & ? & _) & _). }
  destruct (dict_get _ _) as [x|] eqn:Hx.
  2:{ split; [done|]. intros (? & (? & ? & [= <- <-] & ?) & _). congruence. }
  cbn. split.
  - case_decide as Hd; [done|]. destruct (_ && _) eqn:Hv; [done|]. intros _.
    exists x. split; [by eexists _, _|]. split; [done|]. intros Hr. rewrite Hr in Hv. cbn in Hv.
    by destruct (verified_match_graph x).
  - intros (y & (r' & p' & [= <- <-] & Hy) & Hd & Hv). rewrite Hx in Hy. injection Hy as <-.
    case_decide; [done|]. destruct (_requires_verified_match_graph _ _); [|done].
    by rewrite Hv.
Qed.

Lemma check_wire_key i s role port sc v x :
  reads sc v x → (check_wire i s role port sc v).2 = [wire_ref x].
Proof. intros (r & p & Hp & Hx). unfold check_wire. by rewrite Hp, Hx. Qed.

(** All values check without errors exactly when they read fitting supplies. *)
Lemma check_wires_ok i s role port sc vs :
  (check_wire i s role port sc <$> vs) ≫= fst = [] ↔
  ∃ xs, Forall2 (reads sc) vs xs ∧ Forall (fits s role port) xs.
Proof.
  induction vs as [|v vs IH]; cbn.
  { split; [|done]. intros _. by exists []. }
  rewrite app_nil, check_wire_ok, IH. split.
  - intros [(x & Hr & Hf) (xs & Hrs & Hfs)]. exists (x :: xs). by split; constructor.
  - intros (xs & Hrs & Hfs). inversion Hrs as [|? x ? xs' Hr Hrs']; subst.
    inversion Hfs; subst. split; [by exists x|by exists xs'].
Qed.

Lemma check_wires_keys i s role port sc vs xs :
  Forall2 (reads sc) vs xs → (check_wire i s role port sc <$> vs) ≫= snd = wire_ref <$> xs.
Proof.
  induction 1 as [|v x vs xs Hr _ IH]; [done|]. cbn. by rewrite (check_wire_key _ _ _ _ _ _ _ Hr), IH.
Qed.

Lemma distinct_keys {A} (f : A → string) (xs : list A) :
  bool_decide (length (remove_dups (f <$> xs)) = length (f <$> xs)) = true ↔ NoDup (f <$> xs).
Proof. rewrite bool_decide_eq_true, <-length_remove_dups. split; congruence. Qed.

Lemma remove_dups_NoDup (l : list string) : NoDup l → length (remove_dups l) = length l.
Proof. intros H. symmetry. by apply length_remove_dups. Qed.

Lemma check_wired_ok i s role port sc raw :
  check_wired_port i s role port sc raw = [] ↔ wired_ok s role port sc raw.
Proof.
  unfold check_wired_port, wired_ok. set (vs := _wire_values raw port).
  destruct (multiple port) eqn:Hm; cbn [negb andb].
  - destruct (is_nil vs && required port) eqn:He.
    { apply andb_true_iff in He as [He Hr]. apply is_nil_iff in He. rewrite He, Hr. split; [done|].
      intros (xs & Hxs & _ & _ & Hmul). inversion Hxs; subst. destruct (Hmul eq_refl) as [_ Hl].
      specialize (Hl eq_refl). cbn in Hl. lia. }
    destruct (required port && bool_decide (length vs = 1)) eqn:H1.
    { apply andb_true_iff in H1 as [Hr H1]. apply bool_decide_eq_true in H1. rewrite Hr. split; [done|].
      intros (xs & Hxs & _ & _ & Hmul). apply Forall2_length in Hxs. destruct (Hmul eq_refl) as [_ Hl].
      specialize (Hl eq_refl). lia. }
    cbn zeta. rewrite app_nil, check_wires_ok. split.
    + intros [(xs & Hxs & Hf) Hfan]. exists xs. split_and!; [done..|]. intros _.
      rewrite (check_wires_keys _ _ _ _ _ _ _ Hxs) in Hfan.
      destruct (bool_decide (length (remove_dups (wire_ref <$> xs)) = _)) eqn:Hd; [|done].
      apply distinct_keys in Hd. split; [done|]. intros Hr. rewrite Hr in Hfan. cbn in Hfan.
      case_bool_decide as Hlt; [done|]. rewrite remove_dups_NoDup, length_fmap in Hlt by done. lia.
    + intros (xs & Hxs & Hf & _ & Hmul). destruct (Hmul eq_refl) as [Hd Hl]. split; [by exists xs|].
      rewrite (check_wires_keys _ _ _ _ _ _ _ Hxs).
      rewrite (proj2 (distinct_keys wire_ref xs) Hd). cbn. destruct (required port); [|done]. cbn.
      rewrite bool_decide_false; [done|]. rewrite remove_dups_NoDup, length_fmap by done.
      specialize (Hl eq_refl). lia.
  - destruct (is_list raw) eqn:Hl.
    { split; [done|]. intros (xs & _ & _ & Hs & _). by specialize (Hs eq_refl). }
    assert (vs = [raw]) as -> by (unfold vs, _wire_values; by rewrite Hm). cbn [is_nil andb].
    cbn zeta. rewrite app_nil, check_wires_ok. split.
    + intros [(xs & Hxs & Hf) _]. by exists xs.
    + intros (xs & Hxs & Hf & _). split; [by exists xs|done].
Qed.

Lemma check_open_ok i s role port sc : check_open_port i s role port sc = [] ↔ open_ok s role port sc.
Proof.
  unfold check_open_port, open_ok. destruct (required port); cbn [negb]; [|done].
  set (c := filter (λ x, su_datatype x = datatype port) (available sc)).
  assert (is_nil (filter (λ x, verified_match_graph x = true) c) = false ↔
          ∃ x, x ∈ c ∧ verified_match_graph x = true) as Hver.
  { rewrite <-not_true_iff_false, is_nil_iff, list_nil_elem. setoid_rewrite list_elem_of_filter. split.
    - intros Hn. destruct (decide (Exists (λ x, verified_match_graph x = true) c)) as [He|He].
      + apply Exists_exists in He as (x & ? & ?). by exists x.
      + destruct Hn. intros x [Hx Hc]. apply He, Exists_exists. by exists x.
    - intros (x & Hc & Hx) Hn. by apply (Hn x). }
  destruct c as [|x0 c0] eqn:Hc.
  { split; [done|]. intros H. destruct (H eq_refl) as (H1 & H2 & _). cbn in H1, H2.
    destruct (multiple port); [specialize (H2 eq_refl); lia|]. by specialize (H1 eq_refl). }
  rewrite <-Hc in *. clearbody c. split.
  - intros H _. destruct (multiple port); cbn [negb andb] in H.
    + case_bool_decide; [done|]. case_bool_decide; [done|].
      destruct (_requires_verified_match_graph _ _); cbn in H.
      * split_and!; [done|lia|]. intros _. apply Hver. by destruct (is_nil _).
      * split_and!; [done|lia|done].
    + case_bool_decide; [done|]. rewrite Hc in *. cbn in *.
      destruct (_requires_verified_match_graph _ _); cbn in H.
      * split_and!; [lia|done|]. intros _. apply Hver. by destruct (is_nil _).
      * split_and!; [lia|done|done].
  - intros H. destruct (H eq_refl) as (H1 & H2 & H3). destruct (multiple port); cbn [negb andb].
    + specialize (H2 eq_refl). rewrite bool_decide_false.
      2:{ pose proof (length_remove_dups_le (wire_ref <$> c)) as Hle. rewrite length_fmap in Hle. lia. }
      rewrite bool_decide_false by lia.
      destruct (_requires_verified_match_graph _ _); [|done]. cbn. by rewrite (proj2 Hver (H3 eq_refl)).
    + rewrite H1 by done. cbn.
      destruct (_requires_verified_match_graph _ _); [|done]. cbn. by rewrite (proj2 Hver (H3 eq_refl)).
Qed.

Lemma check_port_ok i s sc rp : check_port i s sc rp = [] ↔ port_ok s sc rp.
Proof. unfold check_port, port_ok. destruct (dict_get _ _); [apply check_wired_ok|apply check_open_ok]. Qed.

Lemma check_step_ok i s p sc : check_step is_data_type i s p sc = [] ↔ step_ok s p sc.
Proof.
  unfold check_step, attribute_errors. cbn zeta.
  rewrite !app_nil, !fmap_nil_iff, validate_attributes_nil, py_difference_nil, bind_nil.
  setoid_rewrite check_port_ok. split; [by intros (? & ? & ?); split|by intros [? ? ?]].
Qed.

Lemma strict_steps_ok i sc steps :
  strict_steps is_data_type processor_lookup i sc steps = [] ↔ typed_steps sc steps.
Proof.
  revert i sc. induction steps as [|s steps IH]; intros i sc; cbn; [split; [constructor|done]|].
  case_decide as Hseen.
  { split; [done|]. inversion 1; subst. done. }
  destruct (processor_lookup (processor s)) as [p|] eqn:Hp.
  2:{ split; [done|]. inversion 1; subst. congruence. }
  rewrite app_nil, check_step_ok, IH. split.
  - intros [[Ha Hw Hport] Hrest]. eapply typed_cons; [done|done| |done]. by split.
  - inversion 1 as [|? ? p' ? ? Hp' Hok Hrest]; subst. rewrite Hp in Hp'. injection Hp' as <-.
    split; [|done]. destruct Hok. by split.
Qed.

End typing.

(** ** Scopes *)

(** Supplies come from the inputs or from [refs], and the index holds the
    supplies in scope under their wire references. *)
Record scope_ok (sc : Scope) (refs : list string) : Prop := {
  scope_refs : ∀ x, x ∈ available sc → su_ref x = "inputs" ∨ su_ref x ∈ refs;
  scope_index : ∀ k x, dict_get k (by_wire sc) = Some x → x ∈ available sc ∧ k = wire_ref x
}.

Lemma index_supplies_get l d k x :
  dict_get k (index_supplies l d) = Some x → (x ∈ l ∧ k = wire_ref x) ∨ dict_get k d = Some x.
Proof.
  unfold index_supplies. revert d. induction l as [|y l IH]; intros d; cbn; [by right|].
  intros [[? ?]|H]%IH; [left; split; [by right|done]|].
  destruct (decide (k = wire_ref y)) as [->|Hne].
  - rewrite dict_get_set_eq in H. injection H as ->. left. split; [list_in|done].
  - rewrite dict_get_set_ne in H by done. by right.
Qed.

Lemma scope_ok_add sc refs l r :
  scope_ok sc refs → (∀ x, x ∈ l → su_ref x = r) → scope_ok (add_supplies l sc) (refs ++ [r]).
Proof.
  intros [Hr Hi] Hl. split; cbn.
  - intros x [Hx|Hx]%elem_of_app.
    + destruct (Hr x Hx); [by left|right; set_solver].
    + rewrite (Hl x Hx). right. set_solver.
  - intros k x [[? ?]|H]%index_supplies_get; [split; [set_solver|done]|].
    destruct (Hi _ _ H). split; [set_solver|done].
Qed.

Lemma initial_scope_ok inputs : scope_ok (initial_scope inputs) [].
Proof.
  split; cbn.
  - unfold initial_supplies. intros x (dt & -> & _)%list_elem_of_fmap. by left.
  - intros k x [[? ?]|H]%index_supplies_get; done.
Qed.

Lemma step_supplies_ref s p x : x ∈ step_supplies s p → su_ref x = ref s.
Proof. unfold step_supplies. by intros (rp & -> & _)%list_elem_of_fmap. Qed.

(** ** Inferred dependencies *)

Lemma add_dep_spec deps r d : d ∈ add_dep deps r ↔ d ∈ deps ∨ (d = r ∧ r ≠ "inputs").
Proof.
  unfold add_dep. case_bool_decide as Hi; cbn; [naive_solver|]. case_bool_decide as Hr.
  - split; [by left|]. intros [?|[-> _]]; done.
  - rewrite elem_of_app, list_elem_of_singleton. naive_solver.
Qed.

Lemma add_dep_NoDup deps r : NoDup deps → NoDup (add_dep deps r).
Proof.
  intros H. unfold add_dep. case_bool_decide; [done|]. cbn. case_bool_decide as Hr; [done|].
  apply NoDup_app. split_and!; [done| |apply NoDup_singleton]. intros x Hx ->%list_elem_of_singleton. done.
Qed.

Lemma foldl_add_dep l deps :
  NoDup deps → NoDup (foldl add_dep deps l) ∧
  ∀ d, d ∈ foldl add_dep deps l ↔ d ∈ deps ∨ (d ∈ l ∧ d ≠ "inputs").
Proof.
  revert deps. induction l as [|r l IH]; intros deps Hd; cbn.
  { split; [done|]. intros d. split; [by left|]. by intros [?|[?%elem_of_nil _]]. }
  destruct (IH (add_dep deps r) (add_dep_NoDup _ _ Hd)) as [Hn Hs]. split; [done|].
  intros d. rewrite Hs, add_dep_spec, elem_of_cons. naive_solver.
Qed.

Lemma step_deps_spec s p sc :
  NoDup (step_deps s p sc) ∧ ("inputs" ∉ step_deps s p sc) ∧
  (∀ d, d ∈ step_deps s p sc ↔
    d ≠ "inputs" ∧ ∃ rp x, rp ∈ _processor_consumer p ∧ x ∈ port_supplies s sc rp ∧ su_ref x = d).
Proof.
  unfold step_deps.
  destruct (foldl_add_dep (su_ref <$> (_processor_consumer p ≫= port_supplies s sc)) [] (NoDup_nil_2)) as [Hn Hs].
  split_and!; [done| |].
  - rewrite Hs. intros [?%elem_of_nil|[_ ?]]; done.
  - intros d. rewrite Hs, list_elem_of_fmap. setoid_rewrite list_elem_of_bind. split.
    + intros [?%elem_of_nil|[(x & -> & rp & Hx & Hrp) Hd]]; [done|]. split; [done|]. by exists rp, x.
    + intros (Hd & rp & x & Hrp & Hx & <-). right. split; [|done]. exists x. split; [done|]. by exists rp.
Qed.

Lemma port_supplies_in_scope s sc refs rp x :
  scope_ok sc refs → x ∈ port_supplies s sc rp → x ∈ available sc.
Proof.
  intros [_ Hi]. unfold port_supplies, wired_supplies, open_supplies. destruct (dict_get _ _) as [raw|].
  - intros (v & Hv & Hx)%list_elem_of_omap. destruct (_parse_wire_ref v) as [[r q]|]; [|done]. cbn in Hx.
    by apply Hi in Hx as [? _].
  - destruct (negb _); [by intros ?%elem_of_nil|]. intros Hx.
    assert (x ∈ filter (λ x, su_datatype x = datatype rp.2 ∧
      (_requires_verified_match_graph (processor s) rp.1 = false ∨ verified_match_graph x = true))
        (available sc)) as Hf.
    { destruct (multiple rp.2); [done|]. by eapply subseteq_take. }
    by apply list_elem_of_filter in Hf as [_ ?].
Qed.

(** A well-typed port is fed, by fitting supplies only. *)
Lemma port_ok_fed s sc rp :
  port_ok s sc rp →
  Forall (fits s rp.1 rp.2) (port_supplies s sc rp) ∧ (required rp.2 = true → port_supplies s sc rp ≠ []).
Proof.
  unfold port_ok, port_supplies. destruct rp as [role port]. cbn. destruct (dict_get role (wires s)) as [raw|].
  - intros (xs & Hr & Hf & Hs & Hm).
    assert (wired_supplies sc port raw = xs) as ->.
    { unfold wired_supplies. clear -Hr. induction Hr as [|v x vs xs (r & q & Hp & Hx) _ IH]; [done|].
      cbn. rewrite Hp. cbn. by rewrite Hx, IH. }
    split; [done|]. intros Hreq ->. apply Forall2_length in Hr. destruct (multiple port) eqn:Hmul.
    + destruct (Hm eq_refl) as [_ Hl]. specialize (Hl Hreq). cbn in Hl. lia.
    + unfold _wire_values in Hr. by rewrite Hmul in Hr.
  - unfold open_ok, open_supplies. destruct (required port); cbn; [|by split].
    intros H. destruct (H eq_refl) as (H1 & H2 & H3). clear H.
    set (c := filter (λ x, su_datatype x = datatype port) (available sc)) in *.
    set (f := filter _ (available sc)).
    assert (∀ x, x ∈ f ↔ x ∈ c ∧ (_requires_verified_match_graph (processor s) role = true →
      verified_match_graph x = true)) as Hf.
    { intros x. unfold f, c. rewrite !list_elem_of_filter.
      destruct (_requires_verified_match_graph (processor s) role); naive_solver. }
    assert (f ≠ []) as Hne.
    { intros Hn. assert (∃ x, x ∈ c) as [x Hx].
      { destruct c as [|x c']; [|exists x; list_in]. destruct (multiple port); [|by specialize (H1 eq_refl)].
        specialize (H2 eq_refl). cbn in H2. lia. }
      destruct (_requires_verified_match_graph (processor s) role) eqn:Hv.
      - destruct (H3 eq_refl) as (y & Hy & Hvy). assert (y ∈ f) as Hyf by (by apply Hf).
        rewrite Hn in Hyf. by apply elem_of_nil in Hyf.
      - assert (x ∈ f) as Hxf by (by apply Hf). rewrite Hn in Hxf. by apply elem_of_nil in Hxf. }
    assert (Forall (fits s role port) f) as Hall.
    { apply Forall_forall. intros x Hx. apply Hf in Hx as [Hx Hv]. split; [|done].
      unfold c in Hx. by apply list_elem_of_filter in Hx as [? _]. }
    destruct (multiple port); [by split|]. split; [by apply Forall_take|].
    intros _. destruct f; done.
Qed.

Section inference.
Context (is_data_type : string → bool).
Context (processor_lookup : string → option Processor).

(** The scope a step sees. *)
Definition scope_at (initial_inputs : list string) (before : list PipelineStep) : Scope :=
  foldl (λ sc s, match processor_lookup (processor s) with
                 | Some p => add_supplies (step_supplies s p) sc
                 | None => sc
                 end) (initial_scope initial_inputs) before.

(** The inference walks the same scopes as the typing rules. *)
Lemma inferred_spec sc steps :
  typed_steps is_data_type processor_lookup sc steps → ∀ sc' out done,
  available sc' = available sc → by_wire sc' = by_wire sc → scope_ok sc' done →
  (∀ r, r ∈ done → r ∈ seen_refs sc) → dict_keys out = done →
  let out' := inferred_steps processor_lookup out sc' steps in
  dict_keys out' = done ++ (ref <$> steps) ∧
  (∀ r, r ∈ done → dict_get r out' = dict_get r out) ∧
  ∀ i s, steps !! i = Some s → ∃ p deps sc_i,
    processor_lookup (processor s) = Some p ∧ dict_get (ref s) out' = Some deps ∧
    sc_i = foldl (λ sc s, match processor_lookup (processor s) with
                          | Some p => add_supplies (step_supplies s p) sc | None => sc end) sc' (take i steps) ∧
    deps = step_deps s p sc_i ∧ (∀ d, d ∈ deps → d ∈ done ++ (ref <$> take i steps)) ∧
    ∀ rp, rp ∈ _processor_consumer p →
      Forall (fits s rp.1 rp.2) (port_supplies s sc_i rp) ∧ (required rp.2 = true → port_supplies s sc_i rp ≠ []).
Proof.
  induction 1 as [sc|sc s p steps Hfresh Hp Hok Hrest IH]; intros sc' out refs Hav Hbw Hsc Hseen Hkeys; cbn.
  { rewrite app_nil_r. split_and!; [done|done|]. by intros i s. }
  rewrite Hp. assert (ref s ∉ dict_keys out) as Hnew by (rewrite Hkeys; intros Hin; by apply Hfresh, Hseen).
  destruct (IH (add_supplies (step_supplies s p) sc') (dict_set (ref s) (step_deps s p sc') out) (refs ++ [ref s]))
    as (Hk & Hold & Hget).
  - cbn. by rewrite Hav.
  - cbn. by rewrite Hbw.
  - apply scope_ok_add; [done|]. intros x. apply step_supplies_ref.
  - cbn. intros r [Hr|Hr]%elem_of_app; [right; by apply Hseen|apply list_elem_of_singleton in Hr as ->; list_in].
  - rewrite dict_set_fresh by done. by rewrite fmap_app, Hkeys.
  - rewrite <-app_assoc in Hk. split_and!; [done| |].
    + intros r Hr. rewrite Hold by set_solver. apply dict_get_set_ne. intros ->. by apply Hfresh, Hseen.
    + intros [|i] s0 Hi; cbn in Hi.
      * injection Hi as <-. exists p, (step_deps s p sc'), sc'. split_and!; [done| |done|done| |].
        -- rewrite Hold by set_solver. apply dict_get_set_eq.
        -- cbn. rewrite app_nil_r. intros d Hd. apply step_deps_spec in Hd as (Hd & rp & x & _ & Hx & <-).
           eapply port_supplies_in_scope in Hx; [|exact Hsc]. by destruct (scope_refs _ _ Hsc x Hx).
        -- intros rp Hrp. destruct (port_ok_fed s sc rp) as [Ha Hb].
           { by apply (step_ports _ _ _ _ Hok). }
           assert (port_supplies s sc rp = port_supplies s sc' rp) as <-; [|done].
           unfold port_supplies, wired_supplies, open_supplies. by rewrite Hav, Hbw.
      * destruct (Hget i s0 Hi) as (p0 & deps & sc_i & Hp0 & Hg & -> & -> & Hd & Hf).
        eexists p0, _, _. split_and!; [done|exact Hg|cbn; by rewrite Hp|done| |done].
        intros d Hin. specialize (Hd d Hin). cbn. rewrite <-app_assoc in Hd. done.
Qed.
End inference.

(** ** The flat validator's view *)

Lemma count_add t c u : count t (counter_add c u) = (if decide (t = u) then 1 else 0) + count t c.
Proof.
  unfold counter_add, count. case_decide as H; [subst; by rewrite dict_get_set_eq|].
  by rewrite dict_get_set_ne.
Qed.

Lemma count_update t c ts : count t (counter_update c ts) = count t c + occurrences t ts.
Proof.
  unfold counter_update. revert c. induction ts as [|u ts IH]; intros c; cbn [foldl]; [change (occurrences t []) with 0; lia|].
  rewrite IH, count_add, occurrences_cons. lia.
Qed.

Definition of_datatype (dt : string) (l : list _Supply) : list _Supply :=
  filter (λ x, su_datatype x = dt) l.

Lemma of_datatype_length dt l : length (of_datatype dt l) = occurrences dt (su_datatype <$> l).
Proof.
  unfold of_datatype. induction l as [|x l IH]; [done|].
  rewrite fmap_cons, occurrences_cons, filter_cons, <-IH. repeat case_decide; cbn; congruence.
Qed.

(** The counter agrees with the supplies in scope, and sees a verified one. *)
Record counted (sc : Scope) (c : dict nat) (verified : nat) : Prop := {
  counted_all : ∀ dt, count dt c = length (of_datatype dt (available sc));
  counted_verified : ∀ x, x ∈ available sc → verified_match_graph x = true → 0 < verified
}.

Lemma initial_counted inputs : counted (initial_scope inputs) (counter_update [] inputs) 0.
Proof.
  split; cbn [initial_scope available].
  - intros dt. rewrite count_update, of_datatype_length. unfold initial_supplies.
    rewrite <-list_fmap_compose. change (count dt []) with 0. cbn [plus]. f_equal. symmetry.
    exact (list_fmap_id inputs).
  - unfold initial_supplies. intros x (dt & -> & _)%list_elem_of_fmap. done.
Qed.

Lemma counted_step sc c v s p r :
  counted sc c v →
  counted (add_supplies (step_supplies s p) (see_ref r sc)) (counter_update c (produces p))
    (if decide (processor s = "verify") then v + occurrences "match_graph" (produces p) else v).
Proof.
  intros [Ha Hv].
  assert (su_datatype <$> step_supplies s p = produces p) as Hp.
  { unfold step_supplies, produces. by rewrite <-list_fmap_compose. }
  split; cbn [add_supplies see_ref available].
  - intros dt. rewrite count_update, Ha, !of_datatype_length, fmap_app, Hp. unfold occurrences.
    by rewrite filter_app, length_app.
  - intros x [Hx|Hx]%elem_of_app Hver.
    + specialize (Hv x Hx Hver). case_decide; lia.
    + pose proof Hx as Hx'. unfold step_supplies in Hx. apply list_elem_of_fmap in Hx as (rp & -> & Hrp).
      cbn in Hver. rewrite !andb_true_iff, !bool_decide_eq_true in Hver. destruct Hver as [[-> _] Hdt].
      rewrite decide_True by done. assert (1 ≤ occurrences "match_graph" (produces p)); [|lia].
      apply occurrences_elem. unfold produces. rewrite <-Hdt. by apply (list_elem_of_fmap_2 (λ rp, datatype rp.2)).
Qed.

(** Distinct references of supplies of one datatype count supplies of it. *)
Lemma distinct_of_datatype dt (l xs : list _Supply) :
  NoDup (wire_ref <$> xs) → (∀ x, x ∈ xs → x ∈ l ∧ su_datatype x = dt) → length xs ≤ length (of_datatype dt l).
Proof.
  intros Hd Hin. apply NoDup_fmap_1 in Hd. apply submseteq_length.
  apply NoDup_submseteq; [done|]. intros x Hx. apply list_elem_of_filter. destruct (Hin x Hx). done.
Qed.

(** The flat checks of a port that is well typed in scope. *)
Lemma flat_port i s sc refs c v rp :
  counted sc c v → scope_ok sc refs → port_ok s sc rp → required rp.2 = true →
  legacy_port i (processor s) c v rp = [] ∧ count (datatype rp.2) c ≠ 0.
Proof.
  intros [Ha Hv] Hsc Hok Hreq. destruct (port_ok_fed s sc rp Hok) as [Hfit Hne]. specialize (Hne Hreq).
  rewrite Forall_forall in Hfit.
  destruct (port_supplies s sc rp) as [|x xs] eqn:Hps; [done|].
  assert (∀ y, y ∈ x :: xs → y ∈ available sc) as Hav.
  { intros y Hy. rewrite <-Hps in Hy. by eapply port_supplies_in_scope. }
  destruct (Hfit x) as [Hdt Hver]; [list_in|].
  assert (0 < count (datatype rp.2) c) as Hpos.
  { rewrite Ha, of_datatype_length. apply occurrences_elem. rewrite <-Hdt. apply list_elem_of_fmap_2.
    apply Hav. list_in. }
  split; [|lia]. unfold legacy_port. destruct rp as [role port]. cbn in *. apply app_nil. split.
  - destruct (multiple port) eqn:Hmul; [|done]. rewrite Hreq. cbn. rewrite bool_decide_false; [done|].
    assert (2 ≤ count (datatype port) c); [|lia]. rewrite Ha.
    unfold port_ok, port_supplies in *. cbn in *. destruct (dict_get role (wires s)) as [raw|].
    + destruct Hok as (ys & Hr & Hf & _ & Hm). destruct (Hm Hmul) as [Hd Hl]. specialize (Hl Hreq).
      etransitivity; [exact Hl|]. apply distinct_of_datatype; [done|]. intros y Hy.
      apply list_elem_of_lookup in Hy as [k Hk]. destruct (Forall2_lookup_r _ _ _ _ _ Hr Hk) as (w & _ & r & q & _ & Hi).
      split; [by apply (scope_index _ _ Hsc) in Hi as [? _]|]. rewrite Forall_forall in Hf.
      apply (Hf y). by eapply list_elem_of_lookup_2.
    + destruct (Hok Hreq) as (_ & H2 & _). specialize (H2 Hmul). unfold of_datatype.
      pose proof (length_remove_dups_le (wire_ref <$> filter (λ x, su_datatype x = datatype port) (available sc))) as Hle.
      rewrite length_fmap in Hle. lia.
  - destruct (_requires_verified_match_graph (processor s) role); [|done]. cbn.
    rewrite bool_decide_true by lia. cbn. rewrite bool_decide_false; [done|].
    specialize (Hv x (Hav x ltac:(list_in)) (Hver eq_refl)). lia.
Qed.

Section flat.
Context (is_data_type : string → bool).
Context (processor_lookup : string → option Processor).

(** Processors the two views read alike: all consumer ports required, special
    inputs under roles of their own. *)
Definition plain_processor (p : Processor) : Prop :=
  ∀ rp, rp ∈ consumer p → required rp.2 = true ∧ rp.1 ∉ dict_keys (special_inputs p).

Lemma flat_steps sc steps :
  typed_steps is_data_type processor_lookup sc steps →
  (∀ s p, s ∈ steps → processor_lookup (processor s) = Some p → plain_processor p) →
  ∀ i refs c v, scope_ok sc refs → counted sc c v →
  legacy_steps processor_lookup i c v (processor <$> steps) = [].
Proof.
  induction 1 as [sc|sc s p steps Hfresh Hp Hok Hrest IH]; intros Hplain i refs c v Hsc Hc; cbn; [done|].
  rewrite Hp. apply app_nil. split.
  - assert (∀ rp, rp ∈ consumer p →
      legacy_port i (processor s) c v rp = [] ∧ count (datatype rp.2) c ≠ 0) as Hports.
    { intros rp Hrp. destruct (Hplain s p ltac:(list_in) Hp rp Hrp) as [Hreq Hsp].
      apply (flat_port i s sc refs); [done|done| |done]. apply (step_ports _ _ _ _ Hok).
      by apply dict_merge_elem_l. }
    unfold legacy_step. apply app_nil. split.
    + assert (filter (λ t, count t c = 0) (consumes p) = []) as ->; [|done].
      apply list_nil_elem. intros t [Ht Hin]%list_elem_of_filter. unfold consumes in Hin.
      apply list_elem_of_fmap in Hin as (rp & -> & Hrp). by destruct (Hports rp Hrp).
    + apply bind_nil. intros rp Hrp. by apply Hports.
  - apply (IH) with (refs := refs ++ [ref s]).
    + intros s' p' Hs'. apply Hplain. by apply list_elem_of_further.
    + apply scope_ok_add; [|intros x; apply step_supplies_ref]. destruct Hsc. by split.
    + by apply counted_step.
Qed.
End flat.
