(* ===== verification/PipelineGuarantees.v ===== *)
(** What the typed-pipeline layer guarantees: the named-port validator decides
    the typing rules, a valid pipeline is a DAG whose ports are fed, the flat
    validator accepts what the named-port one does, wire references round-trip,
    and the core registry is well formed. *)
From S2P Require Import Prelude PyValue Attributes Processors Pipelines PipelineFacts.
From stdpp Require Import options.
Import Attributes Processors Pipelines.

(** ** Attributes *)

(** Validation of bound attributes reports nothing exactly when every bound
    name is declared, every required attribute is bound, and every bound value is
    non-null, of the attribute's type and within its bounds. *)
Theorem validate_attributes_decides (is_data_type : string → bool) (attrs : AttributeSet)
    (values : dict value) (path : string) (lookup : option (string → bool)) :
  validate_attributes is_data_type attrs values path lookup = [] ↔
  bindings_ok is_data_type lookup attrs values.
Proof. apply validate_attributes_nil. Qed.

(** The checks an attribute makes when it is constructed guarantee that its own
    default is accepted wherever it is bound. *)
Theorem default_is_accepted (is_data_type : string → bool) (a : Attribute) (path : string)
    (Hinit : post_init is_data_type a = Ok tt) (Hdef : a_has_default a = true) :
  validate_attributes is_data_type [a] [(a_name a, a_default a)] path (a_datatype_lookup a) = [].
Proof.
  apply validate_attributes_nil. unfold post_init in Hinit. rewrite Hdef in Hinit. inv_ok.
  split.
  - cbn. set_solver.
  - intros x ->%list_elem_of_singleton. cbn. rewrite decide_True by done.
    match goal with H : is_none _ = false |- _ => rename H into Hnn end.
    match goal with H : negb (_type_ok _ _ _ _) = false |- _ => apply negb_false_iff in H; rename H into Hty end.
    match goal with H : negb (numeric _) && _ = false |- _ => rename H into Hnum end.
    assert (below_min a (a_default a) = false ∧ above_max a (a_default a) = false) as [? ?];
      [|split; [intros Hn; by rewrite Hn in Hnn|done..]].
    destruct (numeric a) eqn:Hnumeric.
    + rewrite (typed_number _ _ _ _ Hnumeric Hty) in Hinit. cbn [andb] in Hinit. by inv_ok.
    + cbn in Hnum. unfold below_min, above_max. by destruct (a_min a), (a_max a).
Qed.

(** The checks of the registry's own [max_ratio]. *)
Definition ratio_attr : Attribute :=
  _attr "max_ratio" "float" "Lowe ratio threshold." (VFloat float_0_8) []
    (Some (NFloat float_0_0)) (Some (NFloat float_1_0)).

Lemma default_is_accepted_witness :
  validate_attributes (λ _, false) [ratio_attr] [("max_ratio", VFloat float_0_8)] "attributes" None = [].
Proof. apply (default_is_accepted (λ _, false) ratio_attr "attributes"); reflexivity. Defined.

(** ** The named-port validator *)

Section validator.
Context (is_data_type : string → bool) (processor_lookup : string → option Processor).

(** C23: the named-port validator accepts a pipeline exactly when it is well typed:
    distinct initial inputs, fresh step references, known processors, well-typed
    attributes, and every port either wired to suppliers in scope of the same
    datatype with the right fan-in, or left open with an unambiguous supply; map
    and triangulate only from verified match graphs. *)
Theorem strict_validator_decides (steps : list PipelineStep) (inputs : list string) :
  _strict_validate_pipeline is_data_type processor_lookup steps inputs = [] ↔
  typed_pipeline is_data_type processor_lookup steps inputs.
Proof.
  unfold _strict_validate_pipeline, typed_pipeline.
  by rewrite app_nil, fmap_nil_iff, py_duplicates_nil, strict_steps_ok.
Qed.

(** C24: the dependencies inferred for a valid pipeline make it a DAG in step order:
    there is one entry per step, and each names only earlier steps, each once,
    and never the inputs; they are exactly the steps that supply the step's ports,
    and every required port is supplied, by data that fits it. *)
Theorem inferred_dependencies_sound (steps : list PipelineStep) (inputs : list string) (i : nat) (s : PipelineStep)
    (Hvalid : _strict_validate_pipeline is_data_type processor_lookup steps inputs = [])
    (Hi : steps !! i = Some s) :
  dict_keys (inferred_step_dependencies processor_lookup steps inputs) = ref <$> steps ∧
  ∃ p deps, processor_lookup (processor s) = Some p ∧
    dict_get (ref s) (inferred_step_dependencies processor_lookup steps inputs) = Some deps ∧
    NoDup deps ∧ ("inputs" ∉ deps) ∧
    (∀ d, d ∈ deps → ∃ j s', j < i ∧ steps !! j = Some s' ∧ ref s' = d) ∧
    let sc := scope_at processor_lookup inputs (take i steps) in
    (∀ d, d ∈ deps ↔ d ≠ "inputs" ∧
       ∃ rp x, rp ∈ _processor_consumer p ∧ x ∈ port_supplies s sc rp ∧ su_ref x = d) ∧
    (∀ rp, rp ∈ _processor_consumer p →
       Forall (fits s rp.1 rp.2) (port_supplies s sc rp) ∧
       (required rp.2 = true → port_supplies s sc rp ≠ [])).
Proof.
  unfold _strict_validate_pipeline in Hvalid. apply app_nil in Hvalid as [_ Ht].
  apply strict_steps_ok in Ht.
  destruct (inferred_spec _ _ _ _ Ht (initial_scope inputs) [] []) as (Hk & _ & Hget);
    [done|done|apply initial_scope_ok|by intros r ?%elem_of_nil|done|].
  split; [exact Hk|]. destruct (Hget i s Hi) as (p & deps & sc & Hp & Hg & -> & -> & Hbefore & Hfed).
  destruct (step_deps_spec s p (scope_at processor_lookup inputs (take i steps))) as (Hn & Hin & Hs).
  eexists p, _. split_and!; [done|exact Hg|done|done| |by split].
  intros d Hd. specialize (Hbefore d Hd). cbn in Hbefore.
  apply list_elem_of_fmap in Hbefore as (s' & -> & Hs').
  apply list_elem_of_lookup in Hs' as [j Hj]. apply lookup_take_Some in Hj as [Hj Hlt]. by exists j, s'.
Qed.
End validator.

(** The structure-from-motion chain, wired. *)
Definition sfm_steps (wired : bool) : list PipelineStep :=
  [mkStep "f" "features" [("type", VStr "sift")] []; mkStep "p" "pairs" [] []; mkStep "m" "matches" [] [];
   mkStep "v" "verify" [] [("matches", VStr "m.matches")];
   mkStep "r" "map" [] (if wired then [("matches", VStr "v.matches")] else [])].

Lemma inferred_dependencies_sound_witness :
  let deps := inferred_step_dependencies processor_for (sfm_steps true) DEFAULT_INITIAL_INPUTS in
  deps = [("f", []); ("p", ["f"]); ("m", ["f"; "p"]); ("v", ["m"]); ("r", ["f"; "v"])] ∧
  dict_keys deps = ["f"; "p"; "m"; "v"; "r"].
Proof.
  intros deps. split; [vm_compute; reflexivity|].
  refine (proj1 (inferred_dependencies_sound (λ _, true) processor_for (sfm_steps true) DEFAULT_INITIAL_INPUTS 4
    (mkStep "r" "map" [] [("matches", VStr "v.matches")]) _ _)).
  - vm_compute. reflexivity.
  - reflexivity.
Defined.

(** The compatibility view never rejects what the native one accepts: when the
    named-port validator accepts a pipeline of processors whose consumer ports are
    all required, the flat validator accepts the list of its operation ids. *)
Lemma flat_accepts_typed (is_data_type : string → bool) (processor_lookup : string → option Processor)
    (steps : list PipelineStep) (inputs : list string)
    (Hvalid : _strict_validate_pipeline is_data_type processor_lookup steps inputs = [])
    (Hplain : ∀ s p, s ∈ steps → processor_lookup (processor s) = Some p → plain_processor p) :
  _legacy_validate_pipeline processor_lookup (processor <$> steps) inputs = [].
Proof.
  unfold _strict_validate_pipeline in Hvalid. apply app_nil in Hvalid as [_ Ht]. apply strict_steps_ok in Ht.
  unfold _legacy_validate_pipeline.
  by apply (flat_steps _ _ _ _ Ht Hplain 0 []); [apply initial_scope_ok|apply initial_counted].
Qed.

(** The core processors are of that kind. *)
Lemma core_plain p : p ∈ CORE_PROCESSORS → plain_processor p.
Proof.
  intros Hp rp Hrp. unfold CORE_PROCESSORS in Hp.
  in_cases Hp; cbn in Hrp; in_cases Hrp; (split; [done|apply not_elem_of_nil]).
Qed.

Lemma by_id_get ps d k p :
  dict_get k (foldl (λ d p, dict_set (processor_id p) p d) d ps) = Some p → p ∈ ps ∨ dict_get k d = Some p.
Proof.
  revert d. induction ps as [|q ps IH]; intros d; cbn; [by right|].
  intros [?|H]%IH; [left; by apply list_elem_of_further|].
  destruct (decide (k = processor_id q)) as [->|Hne].
  - rewrite dict_get_set_eq in H. injection H as ->. left. list_in.
  - rewrite dict_get_set_ne in H by done. by right.
Qed.

Lemma processor_for_core id p : processor_for id = Some p → p ∈ CORE_PROCESSORS.
Proof. intros H. by destruct (by_id_get _ _ _ _ H). Qed.

Lemma core_flat_accepted :
  _legacy_validate_pipeline processor_for ["features"; "pairs"; "matches"; "verify"; "map"]
    DEFAULT_INITIAL_INPUTS = [].
Proof.
  refine (flat_accepts_typed (λ _, true) processor_for (sfm_steps true) DEFAULT_INITIAL_INPUTS _ _).
  - vm_compute. reflexivity.
  - intros s p _ Hp. exact (core_plain p (processor_for_core _ _ Hp)).
Qed.

(** ** Wire references *)

#[local] Arguments String.append !_ _ / : simpl nomatch.

Lemma inputs_name (name port : string) :
  starts_with "inputs." (name +:+ "." +:+ port) = true → starts_with "inputs." name = false → name = "inputs".
Proof.
  do 6 (destruct name as [|? name]; [by vm_compute|]; cbn; case_decide; [subst|by intros]).
  destruct name as [|a name]; cbn; [done|]. by case_decide.
Qed.

(** Wire references round-trip. Whatever [_parse_wire_ref] accepts is split
    without loss into two non-empty parts; and the reference of any supply with a
    non-empty step name and a non-empty dot-free port is accepted, and split back
    into that name and port unless the name itself starts with [inputs.]. *)
Theorem wire_refs_round_trip (v : value) (r p name port : string) :
  (_parse_wire_ref v = Some (r, p) → v = VStr (r +:+ "." +:+ p) ∧ r ≠ "" ∧ p ≠ "") ∧
  (name ≠ "" → port ≠ "" → str_mem "."%char port = false → starts_with "inputs." name = false →
   _parse_wire_ref (VStr (name +:+ "." +:+ port)) = Some (name, port)).
Proof.
  split.
  - unfold _parse_wire_ref. destruct v as [| | | |s| |]; try done.
    destruct (str_mem "."%char s); cbn [negb]; [|done]. destruct (starts_with "inputs." s) eqn:Hs.
    + apply starts_with_spec in Hs as [q ->]. rewrite remove_prefix_app. case_decide; [done|].
      intros [= <- <-]. by split_and!.
    + destruct (rsplit1 "."%char s) as [[l q]|] eqn:Hr; [|done].
      case_decide as He; [done|].
      intros [= <- <-]. apply rsplit1_Some in Hr as [-> _]. tauto.
  - intros Hn Hp Hdot Hin. unfold _parse_wire_ref. rewrite str_mem_app.
    replace (str_mem "."%char name || str_mem "."%char ("." +:+ port)) with true by (by rewrite orb_true_r).
    cbn [negb]. destruct (starts_with "inputs." (name +:+ "." +:+ port)) eqn:Hs.
    + apply inputs_name in Hs as ->; [|done].
      change ("inputs" +:+ "." +:+ port) with ("inputs." +:+ port). rewrite remove_prefix_app. by case_decide.
    + change (name +:+ "." +:+ port) with (name +:+ String "."%char port).
      rewrite rsplit1_app by done. case_decide as He; [tauto|done].
Qed.

Lemma wire_refs_round_trip_witness :
  _parse_wire_ref (VStr "v.matches") = Some ("v", "matches") ∧
  _parse_wire_ref (VStr "inputs.image_sequence") = Some ("inputs", "image_sequence").
Proof.
  split.
  - apply (proj2 (wire_refs_round_trip VNone "" "" "v" "matches")); try discriminate; reflexivity.
  - apply (proj2 (wire_refs_round_trip VNone "" "" "inputs" "image_sequence")); try discriminate; reflexivity.
Defined.

(** ** The core registry *)

(** The DataType ids the core registry refers to; the vocabulary itself is the
    contract package's. *)
Definition CORE_PORT_TYPES : list string :=
  ["image_sequence"; "feature_set"; "pair_set"; "match_graph"; "sparse_model"; "projection"].

Lemma validate_processor_mono (is_dt is_dt' : string → bool) p :
  (∀ d, is_dt d = true → is_dt' d = true) →
  _validate_processor is_dt p = Ok tt → _validate_processor is_dt' p = Ok tt.
Proof.
  intros Hmono. unfold _validate_processor.
  assert (∀ group ports, for_each (validate_port is_dt p group) ports = Ok tt →
    for_each (validate_port is_dt' p group) ports = Ok tt) as Hports.
  { intros group ports. rewrite !for_each_Ok. intros H rp Hrp. specialize (H rp Hrp). unfold validate_port in *.
    destruct (_ROLE_RE rp.1); cbn in *; [|done]. destruct (is_dt (datatype rp.2)) eqn:Hd; [|done].
    by rewrite (Hmono _ Hd). }
  intros ([] & H1%Hports & ([] & H2%Hports & ([] & H3%Hports & H4)%bind_Ok)%bind_Ok)%bind_Ok.
  by rewrite H1, H2, H3.
Qed.

(** The core registry passes its import-time checks as soon as the vocabulary
    knows the six data types it mentions: distinct ids and aliases, valid roles,
    known data types and stages, distinct attribute names, valid attribute
    declarations; and every canonical pipeline type-checks from the default
    inputs. *)
Lemma core_registry_valid (is_data_type : string → bool)
    (Hknown : ∀ d, d ∈ CORE_PORT_TYPES → is_data_type d = true) :
  check_registry CORE_PROCESSORS = Ok tt ∧
  (∀ p, p ∈ CORE_PROCESSORS → _validate_processor is_data_type p = Ok tt ∧
     (∀ a, a ∈ _processor_attributes p → post_init is_data_type a = Ok tt) ∧
     processor_for (processor_id p) = Some p) ∧
  (∀ name ops, (name, ops) ∈ CANONICAL_PIPELINES →
     validate_pipeline is_data_type processor_for (inl ops) DEFAULT_INITIAL_INPUTS = []).
Proof.
  split_and!; [vm_compute; reflexivity| |].
  - intros p Hp. split_and!.
    + apply (validate_processor_mono (λ d, bool_decide (d ∈ CORE_PORT_TYPES))).
      { intros d Hd%bool_decide_eq_true. by apply Hknown. }
      unfold CORE_PROCESSORS in Hp. in_cases Hp; vm_compute; reflexivity.
    + intros a Ha. unfold CORE_PROCESSORS in Hp.
      in_cases Hp; cbn in Ha; in_cases Ha; vm_compute; reflexivity.
    + unfold CORE_PROCESSORS in Hp. in_cases Hp; vm_compute; reflexivity.
  - intros name ops Hin. unfold CANONICAL_PIPELINES in Hin.
    in_cases Hin; injection Hin as -> ->; vm_compute; reflexivity.
Qed.

(** A capability is attributed to a processor through the most specific family
    that covers it: the family is registered, it equals the capability or is a
    dotted prefix of it, and no longer registered family covers the capability;
    and a capability is infrastructure exactly when no family covers it. *)
Theorem capability_longest_family (ps : list Processor) (capability : string) :
  match processor_for_capability_in ps capability with
  | Some id => ∃ f, dict_get f (capability_families ps) = Some id ∧ family_covers f capability = true ∧
      ∀ g, g ∈ dict_keys (capability_families ps) → family_covers g capability = true →
        String.length g ≤ String.length f
  | None => ∀ g, g ∈ dict_keys (capability_families ps) → family_covers g capability = false
  end.
Proof.
  unfold processor_for_capability_in.
  pose proof (first_cover_spec _ capability (longest_first_sorted (dict_keys (capability_families ps)))) as H.
  destruct (first_cover _ capability) as [f|]; cbn.
  - destruct H as (Hin & Hcov & Hmax). rewrite longest_first_elem in Hin.
    destruct (dict_get f (capability_families ps)) as [id|] eqn:Hg; [|by apply dict_get_None in Hg].
    exists f. split_and!; [done|done|]. intros g Hg'. apply Hmax. by apply longest_first_elem.
  - intros g Hg. apply H. by apply longest_first_elem.
Qed.
