(* ===== verification/HubState.v ===== *)
(** [sfm_hub/state.py]: the plugin installation and routing-profile file, and
    every operation that rewrites it under the file lock. *)
From S2P Require Import Prelude PyValue.
From stdpp Require Import options.

#[local] Arguments String.append !_ _ / : simpl nomatch.

Module Hub.

(** ** Manifests, as far as routing reads them ([sfm_hub/models/manifest.py]) *)

Record ProviderManifest : Type := mkProvider {
  provider_id : string;
  display_name : string;
  capabilities : list string;
  backend_actions : list string;
  priority_hint : Z
}.

(** [m_runtime_modes] is what [runtime_mode_names()] returns. *)
Record PluginManifest : Type := mkManifest {
  m_plugin_id : string;
  providers : list ProviderManifest;
  m_runtime_modes : list string
}.

Definition provider_ids (m : PluginManifest) : list string := provider_id <$> providers m.

(** ** The state file *)

Inductive ProvisioningStatus : Type :=
  | not_requested | planned | running | succeeded | skipped | failed.

Definition ROUTING_ROUTE_KEYS : list string :=
  ["features"; "pairs"; "matcher"; "verify"; "mapping"; "radiance"; "actions"].

Record InstalledPlugin : Type := mkInstalled {
  i_plugin_id : string;
  i_method : string;
  source_url : string;
  i_ref : string;
  resolved_commit : option string;
  installed_at : string;
  i_enabled : bool;
  provision_runtime : bool;
  provisioned : bool;
  provisioning_status : ProvisioningStatus;
  provisioning_error : option string;
  request_id : option string
}.

Record RoutingProfile : Type := mkProfile {
  p_name : string;
  routes : gmap string (list string)
}.

Record PluginState : Type := mkPluginState {
  installed : gmap string InstalledPlugin;
  provider_priority : list string;
  profiles : gmap string RoutingProfile;
  default_profile : option string;
  project_profiles : gmap string string;
  workspace_profiles : gmap string string
}.

Definition empty_state : PluginState := mkPluginState ∅ [] ∅ None ∅ ∅.

#[export] Instance provisioning_status_eq_dec : EqDecision ProvisioningStatus.
Proof. solve_decision. Defined.
#[export] Instance installed_eq_dec : EqDecision InstalledPlugin.
Proof. solve_decision. Defined.
#[export] Instance profile_eq_dec : EqDecision RoutingProfile.
Proof. solve_decision. Defined.
#[export] Instance plugin_state_eq_dec : EqDecision PluginState.
Proof. solve_decision. Defined.

(** [RoutingProfile._routes_are_supported]: [Err] is the rejected key list. *)
Definition _routes_are_supported (r : gmap string (list string)) : res (list string) unit :=
  let unsupported := py_difference (map_to_list r).*1 ROUTING_ROUTE_KEYS in
  raise_if (negb (is_nil unsupported)) unsupported.

Definition validate_profile (p : RoutingProfile) : bool :=
  negb (bool_decide (p_name p = "")) &&
  match _routes_are_supported (routes p) with Ok _ => true | Err _ => false end.

(** The file: absent, or the state last saved. [load] and [save] are inverse
    up to pydantic's and [json]'s round trip. *)
Definition state_file : Type := option PluginState.

Definition _load_state_unlocked (f : state_file) : PluginState := default empty_state f.
Definition load_state : state_file → PluginState := _load_state_unlocked.
Definition _save_state_unlocked (s : PluginState) : state_file := Some s.

(** One locked read-modify-write; the error is the [KeyError]'s text. An update
    that raises never reaches the save. *)
Definition _mutate_state (f : state_file) (update : PluginState → res string PluginState) :
    res string PluginState * state_file :=
  match update (_load_state_unlocked f) with
  | Ok s => (Ok s, _save_state_unlocked s)
  | Err e => (Err e, f)
  end.

(** ** Installation records *)

Definition same_install (a b : InstalledPlugin) : bool :=
  bool_decide (i_method a = i_method b) &&
  bool_decide (source_url a = source_url b) &&
  bool_decide (i_ref a = i_ref b) &&
  bool_decide (resolved_commit a = resolved_commit b) &&
  bool_decide (i_enabled a = i_enabled b) &&
  bool_decide (provision_runtime a = provision_runtime b) &&
  bool_decide (provisioned a = provisioned b) &&
  bool_decide (provisioning_status a = provisioning_status b) &&
  bool_decide (provisioning_error a = provisioning_error b) &&
  bool_decide (request_id a = request_id b).

Definition set_installed (m : gmap string InstalledPlugin) (s : PluginState) : PluginState :=
  mkPluginState m (provider_priority s) (profiles s) (default_profile s) (project_profiles s)
    (workspace_profiles s).

Definition _record_installed (s : PluginState) (record : InstalledPlugin) : PluginState :=
  match installed s !! i_plugin_id record with
  | Some existing =>
      if same_install existing record then s
      else set_installed (<[i_plugin_id record := record]> (installed s)) s
  | None => set_installed (<[i_plugin_id record := record]> (installed s)) s
  end.

(** [sfm_hub/install.py]'s plan, as far as it is recorded. *)
Record InstallPlan : Type := mkPlan {
  plan_method : string;
  plan_url : string;
  plan_ref : string;
  plan_commit : option string
}.

Definition record_install (f : state_file) (now plugin_id : string) (plan : InstallPlan)
    (enabled provision provisioned : bool) (status : ProvisioningStatus)
    (error request : option string) : res string PluginState * state_file :=
  let record :=
    mkInstalled plugin_id (plan_method plan) (plan_url plan) (plan_ref plan) (plan_commit plan) now
      enabled provision provisioned status error request in
  _mutate_state f (λ s, Ok (_record_installed s record)).

Definition record_manual_install (f : state_file) (now plugin_id method url ref : string)
    (enabled provision provisioned : bool) (status : ProvisioningStatus)
    (error request : option string) : res string PluginState * state_file :=
  let record :=
    mkInstalled plugin_id method url ref None now enabled provision provisioned status error request in
  _mutate_state f (λ s, Ok (_record_installed s record)).

Definition with_enabled (b : bool) (r : InstalledPlugin) : InstalledPlugin :=
  mkInstalled (i_plugin_id r) (i_method r) (source_url r) (i_ref r) (resolved_commit r)
    (installed_at r) b (provision_runtime r) (provisioned r) (provisioning_status r)
    (provisioning_error r) (request_id r).

Definition set_enabled (f : state_file) (plugin_id : string) (enabled : bool) :
    res string PluginState * state_file :=
  _mutate_state f (λ s,
    match installed s !! plugin_id with
    | None => Err ("plugin " +:+ str_repr plugin_id +:+ " is not installed")
    | Some r => Ok (set_installed (<[plugin_id := with_enabled enabled r]> (installed s)) s)
    end).

(** ** Provider ids the manifests declare *)

Definition qualified (pid plugin : string) : string := pid +:+ "@" +:+ plugin.

Definition known_ids (ms : list PluginManifest) : list string :=
  ms ≫= λ m, provider_ids m ≫= λ pid, [pid; qualified pid (m_plugin_id m)].

(** [plugins_by_provider.setdefault(pid, set()).add(plugin)] *)
Definition add_plugin (d : gmap string (gset string)) (pid plugin : string) : gmap string (gset string) :=
  <[pid := {[plugin]} ∪ default ∅ (d !! pid)]> d.

Definition plugins_by_provider (ms : list PluginManifest) : gmap string (gset string) :=
  foldl (λ d m, foldl (λ d pid, add_plugin d pid (m_plugin_id m)) d (provider_ids m)) ∅ ms.

Definition _known_provider_ids_and_ambiguous_bare (ms : list PluginManifest) :
    list string * (string → bool) :=
  (known_ids ms,
   λ pid, match plugins_by_provider ms !! pid with
          | Some ps => bool_decide (1 < size ps)
          | None => false
          end).

Definition bare (pid : string) : bool := negb (str_mem "@"%char pid).

(** The two checks [upsert_profile] and [set_provider_priority] share. *)
Definition check_providers (ms : list PluginManifest) (what : string) (referenced : list string) :
    res string unit :=
  let '(known, ambiguous_bare) := _known_provider_ids_and_ambiguous_bare ms in
  let unknown := py_difference referenced known in
  _ ← raise_if (negb (is_nil unknown))
        (what +:+ " references unknown provider id(s): " +:+ join ", " unknown);
  let ambiguous := py_sorted_set (filter (λ pid, bare pid && ambiguous_bare pid = true) referenced) in
  raise_if (negb (is_nil ambiguous))
    (what +:+ " references ambiguous provider id(s): " +:+ join ", " ambiguous +:+
     "; use provider@plugin").

(** ** Routing profiles *)

Definition set_profiles (m : gmap string RoutingProfile) (s : PluginState) : PluginState :=
  mkPluginState (installed s) (provider_priority s) m (default_profile s) (project_profiles s)
    (workspace_profiles s).

Definition referenced_ids (p : RoutingProfile) : list string := (map_to_list (routes p)).*2 ≫= id.

Definition upsert_profile (ms : list PluginManifest) (f : state_file) (p : RoutingProfile) :
    res string PluginState * state_file :=
  match check_providers ms ("routing profile " +:+ str_repr (p_name p)) (referenced_ids p) with
  | Err e => (Err e, f)
  | Ok _ => _mutate_state f (λ s, Ok (set_profiles (<[p_name p := p]> (profiles s)) s))
  end.

Definition set_priority (l : list string) (s : PluginState) : PluginState :=
  mkPluginState (installed s) l (profiles s) (default_profile s) (project_profiles s)
    (workspace_profiles s).

Definition set_provider_priority (ms : list PluginManifest) (f : state_file) (l : list string) :
    res string PluginState * state_file :=
  match check_providers ms "provider priority" l with
  | Err e => (Err e, f)
  | Ok _ => _mutate_state f (λ s, Ok (set_priority l s))
  end.

(** The three setters that name a profile: the name must be non-empty and
    known. *)
Definition with_profile (f : state_file) (name : string) (update : PluginState → PluginState) :
    res string PluginState * state_file :=
  if decide (name = "") then (Err "profile name must be non-empty", f)
  else
    _mutate_state f (λ s,
      match profiles s !! name with
      | None => Err ("unknown routing profile " +:+ str_repr name)
      | Some _ => Ok (update s)
      end).

Definition set_default_profile (f : state_file) (name : string) : res string PluginState * state_file :=
  with_profile f name (λ s,
    mkPluginState (installed s) (provider_priority s) (profiles s) (Some name) (project_profiles s)
      (workspace_profiles s)).

Definition set_project_profile (f : state_file) (project_id name : string) :
    res string PluginState * state_file :=
  with_profile f name (λ s,
    mkPluginState (installed s) (provider_priority s) (profiles s) (default_profile s)
      (<[project_id := name]> (project_profiles s)) (workspace_profiles s)).

Definition set_workspace_profile (f : state_file) (workspace name : string) :
    res string PluginState * state_file :=
  with_profile f name (λ s,
    mkPluginState (installed s) (provider_priority s) (profiles s) (default_profile s)
      (project_profiles s) (<[workspace := name]> (workspace_profiles s))).

End Hub.
