(* ===== verification/HubRouting.v ===== *)
(** [sfm_hub/routing.py]: which provider runs a stage. *)
From S2P Require Import Prelude PyValue HubState.
From stdpp Require Import options.
Import Hub.

Module Routing.

Definition STAGE_TO_ROUTE_KEY : dict string :=
  [("features", "features"); ("pairs", "pairs"); ("matcher", "matcher"); ("verify", "verify");
   ("mapping", "mapping"); ("actions", "actions")].

Record ProviderRecord : Type := mkRecord {
  r_plugin_id : string;
  r_installed : bool;
  r_enabled : bool;
  runtime_modes : list string;
  r_provider : ProviderManifest
}.

(** [KeyError], with its text, and [ProviderAmbiguityError], with its stage and
    its sorted candidates. *)
Inductive route_error : Type :=
  | RouteKeyError (message : string)
  | ProviderAmbiguityError (stage : string) (candidates : list string).

Definition ambiguity (stage : string) (candidates : list string) : route_error :=
  ProviderAmbiguityError stage (py_sorted candidates).

(** The sort key [(priority_hint, provider_id)]. *)
Definition record_le (a b : ProviderRecord) : Prop :=
  (priority_hint (r_provider a) < priority_hint (r_provider b))%Z ∨
  (priority_hint (r_provider a) = priority_hint (r_provider b) ∧
   String.le (provider_id (r_provider a)) (provider_id (r_provider b))).

#[export] Instance record_le_dec : RelDecision record_le.
Proof. intros a b. unfold record_le. apply _. Defined.

Section with_entry_points.
(** [discovered_plugin_ids()]: the plugins installed as Python entry points. *)
Context (discovered : string → bool).

(** The rows one manifest contributes. *)
Definition manifest_records (s : PluginState) (installed_only enabled_only : bool) (m : PluginManifest) :
    list ProviderRecord :=
  let state_row := installed s !! m_plugin_id m in
  let inst := match state_row with Some _ => true | None => discovered (m_plugin_id m) end in
  let en := inst && match state_row with Some r => i_enabled r | None => true end in
  if installed_only && negb inst then []
  else if enabled_only && negb en then []
  else (λ p, mkRecord (m_plugin_id m) inst en (m_runtime_modes m) p) <$> providers m.

Definition provider_records (s : PluginState) (manifests : list PluginManifest)
    (installed_only enabled_only : bool) : list ProviderRecord :=
  merge_sort record_le (manifests ≫= manifest_records s installed_only enabled_only).

Definition _split_provider_selector (selector : string) : string * option string :=
  match partition_on "@"%char selector with
  | Some (pid, plugin) => (pid, Some plugin)
  | None => (selector, None)
  end.

(** Whether a row is one the selector names. *)
Definition selects (selector : string) (row : ProviderRecord) : bool :=
  let '(pid, plugin) := _split_provider_selector selector in
  bool_decide (provider_id (r_provider row) = pid) &&
  match plugin with Some q => bool_decide (r_plugin_id row = q) | None => true end.

Definition provider_enabled (manifests : list PluginManifest) (pid : string) (s : PluginState) : option bool :=
  let matches := filter (λ row, selects pid row = true) (provider_records s manifests true false) in
  match matches with
  | [] => None
  | _ => Some (existsb r_enabled matches)
  end.

Definition ensure_provider_enabled (manifests : list PluginManifest) (pid : string) (s : PluginState) :
    res route_error unit :=
  match provider_enabled manifests pid s with
  | Some false => Err (RouteKeyError ("provider " +:+ str_repr pid +:+ " is disabled"))
  | _ => Ok tt
  end.

(** Whether a row offers the stage. *)
Definition offers (stage : string) (capability : option string) (row : ProviderRecord) : bool :=
  let route_key := default stage (dict_get stage STAGE_TO_ROUTE_KEY) in
  match capability with
  | Some c => bool_decide (c ∈ capabilities (r_provider row))
  | None =>
      bool_decide (route_key ∈ capabilities (r_provider row)) ||
      bool_decide (route_key ∈ backend_actions (r_provider row))
  end.

Definition _candidate_records (stage : string) (capability : option string) (s : PluginState)
    (manifests : list PluginManifest) : list ProviderRecord :=
  filter (λ row, offers stage capability row = true) (provider_records s manifests true true).

Definition _provider_selector (row : ProviderRecord) : string :=
  qualified (provider_id (r_provider row)) (r_plugin_id row).

Definition _display_candidates (rows : list ProviderRecord) : list string := _provider_selector <$> rows.

(** The selector is split again here, as [_matches_provider] does. *)
Definition _matches_provider (rows : list ProviderRecord) (selector : string) : list ProviderRecord :=
  match partition_on "@"%char selector with
  | Some (pid, plugin) =>
      filter (λ row, provider_id (r_provider row) = pid ∧ r_plugin_id row = plugin) rows
  | None => filter (λ row, provider_id (r_provider row) = selector) rows
  end.

Definition _known_provider_matches (selector : string) (s : PluginState) (manifests : list PluginManifest) :
    list ProviderRecord :=
  _matches_provider (provider_records s manifests true false) selector.

Definition pair_of (row : ProviderRecord) : string * string := (provider_id (r_provider row), r_plugin_id row).

(** [len({(row.provider.provider_id, row.plugin_id) for row in rows}) == 1] *)
Definition one_provider (rows : list ProviderRecord) : bool :=
  bool_decide (length (remove_dups (pair_of <$> rows)) = 1).

Definition _single_provider_selector_or_raise (stage : string) (rows : list ProviderRecord) (qual : bool) :
    res route_error string :=
  match rows with
  | row :: _ =>
      if one_provider rows then
        Ok (if qual then _provider_selector row else provider_id (r_provider row))
      else Err (ambiguity stage (_display_candidates rows))
  | [] => Err (ambiguity stage (_display_candidates rows))
  end.

(** The profiles in force, most specific first. *)
Definition named (key : option string) (d : gmap string string) : list string :=
  match key with
  | Some k => if decide (k = "") then [] else match d !! k with Some n => [n] | None => [] end
  | None => []
  end.

Definition profile_names (s : PluginState) (project_id workspace : option string) : list string :=
  named project_id (project_profiles s) ++ named workspace (workspace_profiles s) ++
  match default_profile s with Some n => if decide (n = "") then [] else [n] | None => [] end.

(** One loop over selectors: the first that matches a candidate returns. *)
Fixpoint choose (stage : string) (candidates : list ProviderRecord) (selectors : list string) :
    option (res route_error string) :=
  match selectors with
  | [] => None
  | sel :: selectors =>
      match _matches_provider candidates sel with
      | [] => choose stage candidates selectors
      | matches => Some (_single_provider_selector_or_raise stage matches (str_mem "@"%char sel))
      end
  end.

Definition profile_routes (s : PluginState) (stage name : string) : list string :=
  match profiles s !! name with
  | Some p => default [] (routes p !! stage)
  | None => []
  end.

Fixpoint choose_profile (s : PluginState) (stage : string) (candidates : list ProviderRecord)
    (names : list string) : option (res route_error string) :=
  match names with
  | [] => None
  | n :: names =>
      match choose stage candidates (profile_routes s stage n) with
      | Some r => Some r
      | None => choose_profile s stage candidates names
      end
  end.

(** [if requested_provider]: a missing or empty request is none. *)
Definition asked (requested : option string) : option string :=
  match requested with Some "" => None | r => r end.

(** No candidate at all: an unknown request is passed through. *)
Definition resolve_without_candidates (stage : string) (requested : option string) (s : PluginState)
    (manifests : list PluginManifest) : res route_error (option string) :=
  match asked requested with
  | Some r =>
      match _known_provider_matches r s manifests with
      | [] => Ok requested
      | known =>
          if negb (existsb r_enabled known) then
            Err (RouteKeyError ("provider " +:+ str_repr r +:+ " is disabled"))
          else
            Err (RouteKeyError ("provider " +:+ str_repr r +:+ " is not enabled for " +:+ stage +:+
                                "; candidates: "))
      end
  | None => Ok requested
  end.

Definition resolve_requested (stage : string) (candidates : list ProviderRecord) (r : string) :
    res route_error (option string) :=
  match _matches_provider candidates r with
  | [] =>
      Err (RouteKeyError ("provider " +:+ str_repr r +:+ " is not enabled for " +:+ stage +:+
             "; candidates: " +:+ join ", " (py_sorted (_display_candidates candidates))))
  | matches => Some <$> _single_provider_selector_or_raise stage matches (str_mem "@"%char r)
  end.

(** Nothing configured matches: only a sole candidate will do. *)
Definition resolve_sole (stage : string) (candidates : list ProviderRecord) : res route_error (option string) :=
  match candidates with
  | row :: _ =>
      if one_provider candidates then Ok (Some (provider_id (r_provider row)))
      else Err (ambiguity stage (_display_candidates candidates))
  | [] => Err (ambiguity stage [])
  end.

Definition resolve_provider (stage : string) (capability requested project_id workspace : option string)
    (s : PluginState) (manifests : list PluginManifest) : res route_error (option string) :=
  let candidates := _candidate_records stage capability s manifests in
  match candidates with
  | [] => resolve_without_candidates stage requested s manifests
  | _ =>
      match asked requested with
      | Some r => resolve_requested stage candidates r
      | None =>
          match choose_profile s stage candidates (profile_names s project_id workspace) with
          | Some r => Some <$> r
          | None =>
              match choose stage candidates (provider_priority s) with
              | Some r => Some <$> r
              | None => resolve_sole stage candidates
              end
          end
      end
  end.

End with_entry_points.

End Routing.
