(* ===== verification/HubGuarantees.v ===== *)
(** What the plugin state file and provider routing promise: the order selectors
    are tried in, independence of the manifests' order, and that what the state
    file accepted can be routed without ambiguity. *)
From S2P Require Import Prelude PyValue HubState HubRouting.
From stdpp Require Import options.
From Stdlib Require Import Btauto.
Import Hub Routing.

#[local] Arguments _single_provider_selector_or_raise : simpl never.

Module HubFacts.

(** ** Selectors *)

Lemma matches_provider_selects rows sel :
  _matches_provider rows sel = filter (λ row, selects sel row = true) rows.
Proof.
  unfold _matches_provider, selects, _split_provider_selector.
  destruct (partition_on "@" sel) as [[pid plugin]|].
  - apply list_filter_iff. intros row. by rewrite andb_true_iff, !bool_decide_eq_true.
  - apply list_filter_iff. intros row. by rewrite andb_true_r, bool_decide_eq_true.
Qed.

Lemma elem_of_matches row rows sel :
  row ∈ _matches_provider rows sel ↔ row ∈ rows ∧ selects sel row = true.
Proof. rewrite matches_provider_selects, list_elem_of_filter. tauto. Qed.

Lemma matches_nil rows sel :
  _matches_provider rows sel = [] ↔ ∀ row, row ∈ rows → selects sel row = false.
Proof.
  rewrite list_nil_elem. setoid_rewrite elem_of_matches. split.
  - intros H row Hrow. destruct (selects sel row) eqn:E; [|done]. by destruct (H row).
  - intros H row [Hrow E]. by rewrite H in E.
Qed.

Lemma none_match rows (l : list string) :
  (∀ x r, x ∈ l → r ∈ rows → selects x r = false) ↔ (∀ x, x ∈ l → _matches_provider rows x = []).
Proof. setoid_rewrite matches_nil. naive_solver. Qed.

(** A qualified selector names one provider of one plugin. *)
Lemma selects_qualified sel row1 row2 :
  str_mem "@" sel = true → selects sel row1 = true → selects sel row2 = true → pair_of row1 = pair_of row2.
Proof.
  unfold selects, _split_provider_selector, pair_of. intros Hq.
  destruct (partition_on "@" sel) as [[pid plugin]|] eqn:E.
  - rewrite !andb_true_iff, !bool_decide_eq_true. intros [-> ->] [-> ->]. done.
  - apply partition_on_None in E. congruence.
Qed.

Lemma selects_bare sel row : bare sel = true → selects sel row = true → provider_id (r_provider row) = sel.
Proof.
  unfold bare. rewrite negb_true_iff. intros Hb%partition_on_None.
  unfold selects, _split_provider_selector. rewrite Hb. by rewrite andb_true_r, bool_decide_eq_true.
Qed.

(** ** The providers a list of rows names *)

Lemma remove_dups_all_equal {A} `{EqDecision A} (l : list A) (x : A) :
  l ≠ [] → (∀ y, y ∈ l → y = x) → remove_dups l = [x].
Proof.
  intros Hne Hall. assert (NoDup (remove_dups l)) as Hd by apply NoDup_remove_dups.
  assert (∀ y, y ∈ remove_dups l → y = x) as Hr by (intros y Hy; apply Hall; by apply elem_of_remove_dups).
  assert (x ∈ remove_dups l) as Hx.
  { apply elem_of_remove_dups. destruct l as [|y l]; [done|]. assert (y = x) as -> by (apply Hall; list_in). list_in. }
  destruct (remove_dups l) as [|a [|b k]]; [by apply elem_of_nil in Hx| |].
  - assert (a = x) as -> by (apply Hr; list_in). done.
  - assert (a = x) as -> by (apply Hr; list_in). assert (b = x) as -> by (apply Hr; list_in).
    apply NoDup_cons in Hd as [Hn _]. destruct Hn. list_in.
Qed.

Lemma one_provider_iff rows :
  one_provider rows = true ↔ rows ≠ [] ∧ ∀ r1 r2, r1 ∈ rows → r2 ∈ rows → pair_of r1 = pair_of r2.
Proof.
  unfold one_provider. rewrite bool_decide_eq_true. split.
  - intros Hlen. split; [by intros ->|]. intros r1 r2 H1 H2.
    assert (∀ r, r ∈ rows → pair_of r ∈ remove_dups (pair_of <$> rows)) as Hin
      by (intros; apply elem_of_remove_dups, list_elem_of_fmap; eauto).
    specialize (Hin r1 H1) as P1. specialize (Hin r2 H2) as P2.
    destruct (remove_dups (pair_of <$> rows)) as [|a [|]]; try done.
    apply list_elem_of_singleton in P1, P2. congruence.
  - intros [Hne Hall]. destruct rows as [|r rows]; [done|].
    rewrite (remove_dups_all_equal _ (pair_of r)); [done|done|].
    intros y (r' & -> & Hr')%list_elem_of_fmap. apply Hall; [done|list_in].
Qed.

Lemma one_provider_false row rows :
  one_provider (row :: rows) = false →
  ∃ r1 r2, r1 ∈ row :: rows ∧ r2 ∈ row :: rows ∧ pair_of r1 ≠ pair_of r2.
Proof.
  intros Hf. destruct (decide (Forall (λ r, pair_of r = pair_of row) rows)) as [Hall|Hex].
  - apply not_true_iff_false in Hf. destruct Hf. apply one_provider_iff. split; [done|].
    rewrite Forall_forall in Hall.
    assert (∀ r, r ∈ row :: rows → pair_of r = pair_of row) as H by (intros r [->|?]%elem_of_cons; auto).
    intros r1 r2 H1 H2. by rewrite (H r1), (H r2).
  - apply not_Forall_Exists in Hex; [|apply _]. apply Exists_exists in Hex as (r & Hr & Hne).
    exists r, row. split_and!; [by apply list_elem_of_further|list_in|done].
Qed.

(** ** Choosing by selectors *)

Section choose.
Context (stage : string) (rows : list ProviderRecord).

Definition answer (sel : string) : res route_error string :=
  _single_provider_selector_or_raise stage (_matches_provider rows sel) (str_mem "@" sel).

Lemma choose_app l1 l2 :
  choose stage rows (l1 ++ l2) =
  match choose stage rows l1 with Some r => Some r | None => choose stage rows l2 end.
Proof. induction l1 as [|sel l1 IH]; cbn; [done|]. by destruct (_matches_provider rows sel). Qed.

Lemma choose_profile_flat s names :
  choose_profile s stage rows names = choose stage rows (names ≫= profile_routes s stage).
Proof. induction names as [|n names IH]; cbn; [done|]. rewrite choose_app, IH. done. Qed.

Lemma choose_None l : choose stage rows l = None ↔ ∀ sel, sel ∈ l → _matches_provider rows sel = [].
Proof.
  induction l as [|sel l IH]; cbn; [split; [set_solver|done]|]. setoid_rewrite elem_of_cons.
  destruct (_matches_provider rows sel) eqn:E; [naive_solver|]. split; [done|].
  intros H. rewrite (H sel) in E by auto. done.
Qed.

Lemma choose_Some l r :
  choose stage rows l = Some r ↔
  ∃ pre sel post, l = pre ++ sel :: post ∧ (∀ x, x ∈ pre → _matches_provider rows x = []) ∧
    _matches_provider rows sel ≠ [] ∧ r = answer sel.
Proof.
  unfold answer. split.
  - induction l as [|sel l IH]; cbn; [done|]. destruct (_matches_provider rows sel) eqn:E.
    + intros (pre & x & post & -> & Hpre & Hx & ->)%IH. exists (sel :: pre), x, post.
      repeat split; try done. intros y [->|Hy]%elem_of_cons; auto.
    + intros [= <-]. exists [], sel, l. rewrite E. repeat split; try done. by intros ? ?%elem_of_nil.
  - intros (pre & sel & post & -> & Hpre & Hsel & ->). rewrite choose_app.
    rewrite (proj2 (choose_None pre)) by done. cbn.
    by destruct (_matches_provider rows sel).
Qed.

(** A single answer: every row named is the same provider of the same plugin. *)
Lemma single_Ok l qual a :
  _single_provider_selector_or_raise stage l qual = Ok a ↔
  one_provider l = true ∧ ∃ row, row ∈ l ∧
    a = if qual then _provider_selector row else provider_id (r_provider row).
Proof.
  unfold _single_provider_selector_or_raise. destruct l as [|row l].
  { split; [done|]. intros (H & _). done. }
  destruct (one_provider (row :: l)) eqn:E; [|split; [done|by intros [? _]]].
  apply one_provider_iff in E as [_ Hall]. split.
  - intros [= <-]. split; [done|]. exists row. split; [list_in|done].
  - intros (_ & row' & Hin & ->). specialize (Hall row row' ltac:(list_in) Hin).
    unfold pair_of in Hall. unfold _provider_selector. injection Hall as -> ->. done.
Qed.

Lemma single_Err l qual e :
  _single_provider_selector_or_raise stage l qual = Err e ↔
  one_provider l = false ∧ e = ambiguity stage (_display_candidates l).
Proof.
  unfold _single_provider_selector_or_raise. destruct l as [|row l]; [naive_solver|].
  destruct (one_provider (row :: l)); naive_solver.
Qed.
End choose.

(** The first element outside a class is the same in any two splittings. *)
Lemma first_match_unique {A} (P : A → Prop) pre1 pre2 x1 x2 post1 post2 :
  pre1 ++ x1 :: post1 = pre2 ++ x2 :: post2 →
  (∀ y, y ∈ pre1 → P y) → (∀ y, y ∈ pre2 → P y) → ¬ P x1 → ¬ P x2 → x1 = x2.
Proof.
  revert pre2. induction pre1 as [|y pre1 IH]; intros [|z pre2] Heq H1 H2 N1 N2; cbn in Heq; simplify_eq.
  - done.
  - destruct N1. apply H2. list_in.
  - destruct N2. apply H1. list_in.
  - eapply IH; [done|..]; try done; intros; [apply H1|apply H2]; by apply list_elem_of_further.
Qed.

(** The selectors configured for a stage, in the order they are tried. *)
Definition configured (s : PluginState) (stage : string) (project_id workspace : option string) : list string :=
  (profile_names s project_id workspace ≫= profile_routes s stage) ++ provider_priority s.

(** ** The order of the manifests *)

Lemma perm_nil {A} (l1 l2 : list A) : l1 ≡ₚ l2 → l1 = [] ↔ l2 = [].
Proof. intros H. split; intros ->; [by apply Permutation_nil_l in H|by apply Permutation_nil_r in H]. Qed.

#[local] Instance matches_perm : Proper ((≡ₚ) ==> (=) ==> (≡ₚ)) _matches_provider.
Proof. intros r1 r2 H sel ? <-. rewrite !matches_provider_selects. by rewrite H. Qed.

#[local] Instance one_provider_perm : Proper ((≡ₚ) ==> (=)) one_provider.
Proof.
  intros r1 r2 H. apply eq_bool_prop_intro. rewrite !Is_true_true, !one_provider_iff.
  rewrite (perm_nil _ _ H). assert (∀ r, r ∈ r1 ↔ r ∈ r2) as Hr by (intros; by rewrite H).
  by setoid_rewrite Hr.
Qed.

Lemma display_perm r1 r2 stage : r1 ≡ₚ r2 →
  ambiguity stage (_display_candidates r1) = ambiguity stage (_display_candidates r2).
Proof. intros H. unfold ambiguity, _display_candidates. f_equal. apply py_sorted_permut. by rewrite H. Qed.

Lemma single_perm stage r1 r2 qual : r1 ≡ₚ r2 →
  _single_provider_selector_or_raise stage r1 qual = _single_provider_selector_or_raise stage r2 qual.
Proof.
  intros H. destruct (_single_provider_selector_or_raise stage r1 qual) as [a|e] eqn:E; symmetry.
  - apply single_Ok in E as (E & row & Hrow & ->). apply single_Ok. rewrite <-H.
    split; [done|]. exists row. by rewrite <-H.
  - apply single_Err in E as (E & ->). apply single_Err.
    split; [by rewrite <-H|]. by apply display_perm.
Qed.

Lemma choose_perm stage r1 r2 l : r1 ≡ₚ r2 → choose stage r1 l = choose stage r2 l.
Proof.
  intros H. induction l as [|sel l IH]; cbn; [done|].
  assert (_matches_provider r1 sel ≡ₚ _matches_provider r2 sel) as Hm by by rewrite H.
  pose proof (perm_nil _ _ Hm). pose proof (single_perm stage _ _ (str_mem "@" sel) Hm) as Hs.
  destruct (_matches_provider r1 sel), (_matches_provider r2 sel); try naive_solver. by rewrite Hs.
Qed.

Lemma resolve_sole_perm stage r1 r2 : r1 ≡ₚ r2 → resolve_sole stage r1 = resolve_sole stage r2.
Proof.
  intros H. pose proof (single_perm stage r1 r2 false H) as Hs. pose proof (perm_nil _ _ H).
  unfold _single_provider_selector_or_raise, resolve_sole in *.
  destruct r1, r2; try naive_solver.
  destruct (one_provider (p :: r1)), (one_provider (p0 :: r2)); congruence.
Qed.

Lemma requested_perm stage r1 r2 r : r1 ≡ₚ r2 → resolve_requested stage r1 r = resolve_requested stage r2 r.
Proof.
  intros H. unfold resolve_requested.
  assert (_matches_provider r1 r ≡ₚ _matches_provider r2 r) as Hm by by rewrite H.
  pose proof (perm_nil _ _ Hm) as Hn. pose proof (single_perm stage _ _ (str_mem "@" r) Hm) as Hs.
  assert (py_sorted (_display_candidates r1) = py_sorted (_display_candidates r2)) as Hd.
  { apply py_sorted_permut. unfold _display_candidates. by rewrite H. }
  destruct (_matches_provider r1 r), (_matches_provider r2 r); try naive_solver.
  - by rewrite Hd.
  - by rewrite Hs.
Qed.

Lemma existsb_perm {A} (f : A → bool) l1 l2 : l1 ≡ₚ l2 → existsb f l1 = existsb f l2.
Proof. induction 1; cbn; [done|congruence|Btauto.btauto|congruence]. Qed.

Section records.
Context (discovered : string → bool).

Lemma resolve_unasked stage cap requested project_id workspace s ms rows :
  _candidate_records discovered stage cap s ms = rows → rows ≠ [] → asked requested = None →
  resolve_provider discovered stage cap requested project_id workspace s ms =
  match choose stage rows (configured s stage project_id workspace) with
  | Some r => Some <$> r
  | None => resolve_sole stage rows
  end.
Proof.
  intros Hc Hne Ha. unfold resolve_provider, configured. rewrite Hc, Ha, choose_app, choose_profile_flat.
  destruct rows; [done|]. destruct (choose _ _ (_ ≫= _)); [done|]. done.
Qed.

Lemma records_perm s ms1 ms2 i e : ms1 ≡ₚ ms2 →
  provider_records discovered s ms1 i e ≡ₚ provider_records discovered s ms2 i e.
Proof. intros H. unfold provider_records. rewrite !merge_sort_Permutation. by rewrite H. Qed.

Lemma candidates_perm stage cap s ms1 ms2 : ms1 ≡ₚ ms2 →
  _candidate_records discovered stage cap s ms1 ≡ₚ _candidate_records discovered stage cap s ms2.
Proof. intros H. unfold _candidate_records. by rewrite (records_perm _ _ _ _ _ H). Qed.

Lemma known_matches_perm r s ms1 ms2 : ms1 ≡ₚ ms2 →
  _known_provider_matches discovered r s ms1 ≡ₚ _known_provider_matches discovered r s ms2.
Proof. intros H. unfold _known_provider_matches. by rewrite (records_perm _ _ _ _ _ H). Qed.

Lemma without_candidates_perm stage requested s ms1 ms2 : ms1 ≡ₚ ms2 →
  resolve_without_candidates discovered stage requested s ms1 =
  resolve_without_candidates discovered stage requested s ms2.
Proof.
  intros H. unfold resolve_without_candidates. destruct (asked requested) as [r|]; [|done].
  pose proof (known_matches_perm r s _ _ H) as Hk. pose proof (perm_nil _ _ Hk).
  pose proof (existsb_perm r_enabled _ _ Hk) as Hex.
  destruct (_known_provider_matches discovered r s ms1), (_known_provider_matches discovered r s ms2);
    try naive_solver. by rewrite Hex.
Qed.

End records.

End HubFacts.

Import HubFacts.


(** ** Rows come from enabled providers of listed manifests *)

Section records.
Context (discovered : string → bool).

Lemma elem_of_records row s ms io eo :
  row ∈ provider_records discovered s ms io eo →
  ∃ m, m ∈ ms ∧ r_plugin_id row = m_plugin_id m ∧ r_provider row ∈ providers m ∧
    (eo = true → r_enabled row = true) ∧
    r_enabled row = r_installed row && match installed s !! m_plugin_id m with Some r => i_enabled r | None => true end.
Proof.
  unfold provider_records. rewrite merge_sort_Permutation. rewrite list_elem_of_bind.
  intros (m & Hrow & Hm). exists m. unfold manifest_records in Hrow.
  set (inst := match installed s !! m_plugin_id m with Some _ => true | None => discovered (m_plugin_id m) end) in *.
  destruct (io && negb inst); [by apply elem_of_nil in Hrow|].
  destruct (eo && negb (inst && _)) eqn:E; [by apply elem_of_nil in Hrow|].
  apply list_elem_of_fmap in Hrow as (p & -> & Hp). repeat split; try done.
  intros ->. by apply negb_false_iff in E.
Qed.

Lemma elem_of_candidates row stage cap s ms :
  row ∈ _candidate_records discovered stage cap s ms →
  offers stage cap row = true ∧ row ∈ provider_records discovered s ms true true.
Proof. unfold _candidate_records. by rewrite list_elem_of_filter. Qed.

(** The two names an answer can have. *)
Definition names (a : string) (row : ProviderRecord) : Prop :=
  a = provider_id (r_provider row) ∨ a = _provider_selector row.

Lemma single_names stage l qual a :
  _single_provider_selector_or_raise stage l qual = Ok a → ∃ row, row ∈ l ∧ names a row.
Proof.
  intros (_ & row & Hrow & ->)%single_Ok. exists row. split; [done|]. unfold names. destruct qual; auto.
Qed.

Lemma matched_names stage rows sel qual a :
  _single_provider_selector_or_raise stage (_matches_provider rows sel) qual = Ok a →
  ∃ row, row ∈ rows ∧ names a row.
Proof. intros (row & [Hrow _]%elem_of_matches & Hn)%single_names. eauto. Qed.

Lemma resolve_requested_names stage rows r a :
  resolve_requested stage rows r = Ok (Some a) → ∃ row, row ∈ rows ∧ names a row.
Proof.
  unfold resolve_requested. destruct (_matches_provider rows r) as [|m ms] eqn:E; [done|].
  destruct (_single_provider_selector_or_raise _ _ _) as [x|] eqn:Hs; cbn; [|done].
  intros [= ->]. rewrite <-E in Hs. by apply matched_names in Hs.
Qed.

Lemma resolve_sole_Ok stage rows a :
  resolve_sole stage rows = Ok (Some a) ↔
  one_provider rows = true ∧ ∃ row, row ∈ rows ∧ a = provider_id (r_provider row).
Proof.
  pose proof (single_Ok stage rows false a) as H. cbn in H. rewrite <-H.
  unfold resolve_sole, _single_provider_selector_or_raise.
  destruct rows; [done|]. destruct (one_provider _); split; intros; congruence.
Qed.

(** A resolved name is a candidate's, or an unknown request passed through. *)
Lemma resolve_chosen stage cap requested project_id workspace s ms a :
  resolve_provider discovered stage cap requested project_id workspace s ms = Ok (Some a) →
  (∃ row, row ∈ _candidate_records discovered stage cap s ms ∧ names a row) ∨
  (_candidate_records discovered stage cap s ms = [] ∧ requested = Some a).
Proof.
  destruct (_candidate_records discovered stage cap s ms) as [|c cs] eqn:Hc.
  - intros H. right. split; [done|]. unfold resolve_provider in H. rewrite Hc in H.
    unfold resolve_without_candidates in H. repeat case_match; naive_solver.
  - intros H. left. destruct (asked requested) as [r|] eqn:Ha.
    { unfold resolve_provider in H. rewrite Hc, Ha in H. by apply resolve_requested_names in H. }
    rewrite (resolve_unasked _ _ _ _ _ _ _ _ (c :: cs)) in H by done.
    destruct (choose _ _ _) as [r|] eqn:Hch.
    + apply choose_Some in Hch as (pre & sel & post & _ & _ & _ & ->). unfold answer in H.
      destruct (_single_provider_selector_or_raise _ _ _) as [x|] eqn:Hs; cbn in H; [|done].
      injection H as ->. by apply matched_names in Hs.
    + apply resolve_sole_Ok in H as (_ & row & Hrow & ->). exists row. split; [done|]. by left.
Qed.
End records.

(** ** Vetted selectors *)

(** A selector the state operations accept: declared, and not a bare id two
    plugins share. *)
Definition vetted (ms : list PluginManifest) (sel : string) : Prop :=
  sel ∈ known_ids ms ∧ (bare sel = true → (_known_provider_ids_and_ambiguous_bare ms).2 sel = false).

Lemma check_providers_Ok ms what l : check_providers ms what l = Ok tt ↔ ∀ sel, sel ∈ l → vetted ms sel.
Proof.
  unfold check_providers, vetted. cbn [fst snd _known_provider_ids_and_ambiguous_bare].
  transitivity (py_difference l (known_ids ms) = [] ∧
    py_sorted_set (filter (λ pid, bare pid && match plugins_by_provider ms !! pid with
      Some ps => bool_decide (1 < size ps) | None => false end = true) l) = []).
  { rewrite bind_Ok, <-!is_nil_iff. split.
    - intros ([] & H1%raise_if_Ok & H2%raise_if_Ok). by apply negb_false_iff in H1, H2.
    - intros [H1 H2]. exists tt. by rewrite !raise_if_Ok, H1, H2. }
  rewrite py_difference_nil, list_nil_elem. setoid_rewrite elem_of_py_sorted_set.
  setoid_rewrite list_elem_of_filter. split.
  - intros (Hk & Ha) sel Hsel. split; [by apply Hk|]. intros Hb.
    apply not_true_is_false. intros Hamb. apply (Ha sel). split; [|done]. by rewrite Hb, Hamb.
  - intros H. split; [intros sel Hsel; by apply H|].
    intros sel [[Hb Hamb]%andb_true_iff Hsel]. apply H in Hsel as [_ Hsel]. rewrite Hsel in Hamb; done.
Qed.

Definition plugins_of (pid : string) (d : gmap string (gset string)) : gset string := default ∅ (d !! pid).

Lemma add_plugin_spec d pid plugin pid' :
  plugins_of pid' (add_plugin d pid plugin) =
  (if decide (pid' = pid) then {[plugin]} ∪ plugins_of pid' d else plugins_of pid' d).
Proof.
  unfold plugins_of, add_plugin. case_decide as H; [subst|]; by simplify_map_eq.
Qed.

Lemma manifest_plugins_spec plugin pids d pid q :
  q ∈ plugins_of pid (foldl (λ d pid, add_plugin d pid plugin) d pids) ↔
  q ∈ plugins_of pid d ∨ (pid ∈ pids ∧ q = plugin).
Proof.
  revert d. induction pids as [|x pids IH]; intros d; cbn; [set_solver|].
  rewrite IH, add_plugin_spec. case_decide; set_solver.
Qed.

Lemma plugins_by_provider_spec ms pid q :
  q ∈ plugins_of pid (plugins_by_provider ms) ↔ ∃ m, m ∈ ms ∧ pid ∈ provider_ids m ∧ q = m_plugin_id m.
Proof.
  unfold plugins_by_provider.
  enough (∀ d, q ∈ plugins_of pid
             (foldl (λ d m, foldl (λ d pid, add_plugin d pid (m_plugin_id m)) d (provider_ids m)) d ms) ↔
           q ∈ plugins_of pid d ∨ ∃ m, m ∈ ms ∧ pid ∈ provider_ids m ∧ q = m_plugin_id m) as H.
  { rewrite H. unfold plugins_of. rewrite lookup_empty. set_solver. }
  induction ms as [|m ms IH]; intros d; cbn; [set_solver|].
  rewrite IH, manifest_plugins_spec. set_solver.
Qed.

Lemma size_one_unique (X : gset string) x y : size X ≤ 1 → x ∈ X → y ∈ X → x = y.
Proof.
  intros Hs Hx Hy. destruct (decide (x = y)) as [|Hne]; [done|].
  assert (size ({[x]} ∪ {[y]} : gset string) ≤ size X) as Hle by (apply subseteq_size; set_solver).
  rewrite size_union, !size_singleton in Hle by set_solver. lia.
Qed.

(** All the rows a vetted selector names are the same provider. *)
Lemma vetted_unique discovered ms s sel io eo r1 r2 :
  vetted ms sel → r1 ∈ provider_records discovered s ms io eo → r2 ∈ provider_records discovered s ms io eo →
  selects sel r1 = true → selects sel r2 = true → pair_of r1 = pair_of r2.
Proof.
  intros [_ Hamb] H1 H2 S1 S2. destruct (bare sel) eqn:Hb.
  - pose proof (selects_bare _ _ Hb S1) as E1. pose proof (selects_bare _ _ Hb S2) as E2.
    apply elem_of_records in H1 as (m1 & Hm1 & P1 & V1 & _). apply elem_of_records in H2 as (m2 & Hm2 & P2 & V2 & _).
    specialize (Hamb eq_refl). cbn in Hamb. unfold pair_of. rewrite E1, E2, P1, P2. f_equal.
    apply (size_one_unique (plugins_of sel (plugins_by_provider ms))).
    + unfold plugins_of. destruct (plugins_by_provider ms !! sel); cbn; [|rewrite size_empty; lia].
      apply bool_decide_eq_false in Hamb. lia.
    + apply plugins_by_provider_spec. exists m1. split_and!; [done| |done].
      rewrite <-E1. by apply list_elem_of_fmap_2.
    + apply plugins_by_provider_spec. exists m2. split_and!; [done| |done].
      rewrite <-E2. by apply list_elem_of_fmap_2.
  - apply (selects_qualified sel); [|done..]. by apply negb_false_iff in Hb.
Qed.

(** ** Reachable states *)

(** One operation on the state file, with any outcome. *)
Inductive hub_step (ms : list PluginManifest) (f : state_file) : state_file → Prop :=
  | step_install now plugin plan en pr pd st err rq :
      hub_step ms f (record_install f now plugin plan en pr pd st err rq).2
  | step_manual now plugin method url ref en pr pd st err rq :
      hub_step ms f (record_manual_install f now plugin method url ref en pr pd st err rq).2
  | step_enabled plugin b : hub_step ms f (set_enabled f plugin b).2
  | step_profile p : validate_profile p = true → hub_step ms f (upsert_profile ms f p).2
  | step_priority l : hub_step ms f (set_provider_priority ms f l).2
  | step_default n : hub_step ms f (set_default_profile f n).2
  | step_project k n : hub_step ms f (set_project_profile f k n).2
  | step_workspace k n : hub_step ms f (set_workspace_profile f k n).2.

Definition hub_reachable (ms : list PluginManifest) : state_file → Prop := rtc (hub_step ms) None.

Definition known_profile (s : PluginState) (n : string) : Prop := n ≠ "" ∧ is_Some (profiles s !! n).

Record hub_ok (ms : list PluginManifest) (s : PluginState) : Prop := {
  ok_installed : map_Forall (λ k r, i_plugin_id r = k) (installed s);
  ok_profiles : map_Forall (λ k p, p_name p = k ∧ validate_profile p = true ∧
                                   ∀ sel, sel ∈ referenced_ids p → vetted ms sel) (profiles s);
  ok_priority : ∀ sel, sel ∈ provider_priority s → vetted ms sel;
  ok_default : ∀ n, default_profile s = Some n → known_profile s n;
  ok_projects : map_Forall (λ _ n, known_profile s n) (project_profiles s);
  ok_workspaces : map_Forall (λ _ n, known_profile s n) (workspace_profiles s)
}.

Lemma hub_ok_empty ms : hub_ok ms empty_state.
Proof. split; cbn; try done; try apply map_Forall_empty. by intros ? ?%elem_of_nil. Qed.

Lemma hub_ok_installed ms s m :
  hub_ok ms s → map_Forall (λ k r, i_plugin_id r = k) m → hub_ok ms (set_installed m s).
Proof. by intros [] ?. Qed.

Lemma record_installed_ok ms s r : hub_ok ms s → hub_ok ms (_record_installed s r).
Proof.
  intros H. unfold _record_installed.
  assert (hub_ok ms (set_installed (<[i_plugin_id r := r]> (installed s)) s)).
  { apply hub_ok_installed; [done|]. apply map_Forall_insert_2; [done|by apply H]. }
  destruct (installed s !! i_plugin_id r); [|done]. by destruct (same_install _ _).
Qed.

Lemma upsert_ok ms s p :
  hub_ok ms s → validate_profile p = true → (∀ sel, sel ∈ referenced_ids p → vetted ms sel) →
  hub_ok ms (set_profiles (<[p_name p := p]> (profiles s)) s).
Proof.
  intros [Hi Hp Hpr Hd Hpj Hw] Hv Hsel.
  assert (∀ n, known_profile s n → known_profile (set_profiles (<[p_name p := p]> (profiles s)) s) n) as Hk.
  { intros n [Hn Hs]. split; [done|]. cbn. apply lookup_insert_is_Some'. by right. }
  split; cbn; try done.
  - apply map_Forall_insert_2; done.
  - intros n Hn. apply Hk. by apply Hd.
  - intros k n Hn. apply Hk. by apply (Hpj k).
  - intros k n Hn. apply Hk. by apply (Hw k).
Qed.

Lemma mutate_ok ms f update :
  (∀ s s', hub_ok ms s → update s = Ok s' → hub_ok ms s') → hub_ok ms (load_state f) →
  hub_ok ms (load_state (_mutate_state f update).2).
Proof.
  intros Hu Hf. unfold _mutate_state. destruct (update (_load_state_unlocked f)) as [s'|e] eqn:E; cbn; [|done].
  by eapply Hu.
Qed.

Lemma with_profile_ok ms f n update :
  (∀ s, hub_ok ms s → known_profile s n → hub_ok ms (update s)) → hub_ok ms (load_state f) →
  hub_ok ms (load_state (with_profile f n update).2).
Proof.
  intros Hu Hf. unfold with_profile. case_decide as Hn; [done|]. apply mutate_ok; [|done].
  intros s s' Hs. destruct (profiles s !! n) eqn:E; [|done]. intros [= <-]. apply Hu; [done|].
  split; [done|]. by rewrite E.
Qed.

Lemma hub_step_ok ms f f' : hub_step ms f f' → hub_ok ms (load_state f) → hub_ok ms (load_state f').
Proof.
  intros Hstep Hf.
  destruct Hstep as [now plugin plan en pr pd st err rq|now plugin method url ref en pr pd st err rq
    |plugin b|p Hv|l|n|k n|k n].
  - apply mutate_ok; [|done]. intros s s' Hs [= <-]. by apply record_installed_ok.
  - apply mutate_ok; [|done]. intros s s' Hs [= <-]. by apply record_installed_ok.
  - apply mutate_ok; [|done]. intros s s' Hs. destruct (installed s !! plugin) as [r|] eqn:E; [|done].
    intros [= <-]. apply hub_ok_installed; [done|]. apply map_Forall_insert_2; [|by apply Hs].
    cbn. by apply (ok_installed _ _ Hs).
  - unfold upsert_profile. destruct (check_providers _ _ _) as [[]|] eqn:E; [|done].
    rewrite check_providers_Ok in E. apply mutate_ok; [|done]. intros s s' Hs [= <-]. by apply upsert_ok.
  - unfold set_provider_priority. destruct (check_providers _ _ _) as [[]|] eqn:E; [|done].
    rewrite check_providers_Ok in E. apply mutate_ok; [|done]. intros s s' [] [= <-]. by split.
  - apply with_profile_ok; [|done]. intros s [] Hn. split; try done. cbn. by intros ? [= <-].
  - apply with_profile_ok; [|done]. intros s [] Hn. split; try done. cbn. by apply map_Forall_insert_2.
  - apply with_profile_ok; [|done]. intros s [] Hn. split; try done. cbn. by apply map_Forall_insert_2.
Qed.

Lemma hub_reachable_ok ms f : hub_reachable ms f → hub_ok ms (load_state f).
Proof.
  revert f. apply (rtc_ind_r (R := hub_step ms)); [apply hub_ok_empty|].
  intros f1 f2 _ Hstep Hok. by eapply hub_step_ok.
Qed.

Lemma configured_vetted ms s stage project_id workspace sel :
  hub_ok ms s → sel ∈ configured s stage project_id workspace → vetted ms sel.
Proof.
  intros Hok. unfold configured. rewrite elem_of_app, list_elem_of_bind. intros [(n & Hsel & _)|Hsel].
  - unfold profile_routes in Hsel. destruct (profiles s !! n) as [p|] eqn:E; [|by apply elem_of_nil in Hsel].
    apply (ok_profiles _ _ Hok) in E as (_ & _ & Hv). apply Hv. unfold referenced_ids.
    destruct (routes p !! stage) as [l|] eqn:El; cbn in Hsel; [|by apply elem_of_nil in Hsel].
    apply list_elem_of_bind. exists l. split; [done|]. apply list_elem_of_fmap. exists (stage, l).
    split; [done|]. by apply elem_of_map_to_list.
  - by apply Hok.
Qed.

(** ** Properties *)


(** Two plugins that both offer feature extraction, and a state that installs both
    and prefers the second by its qualified name. *)
Definition colmap_manifest : PluginManifest :=
  mkManifest "colmap_cli" [mkProvider "colmap" "COLMAP" ["features"; "mapping"] [] 10] ["native"].
Definition hloc_manifest : PluginManifest :=
  mkManifest "hloc" [mkProvider "hloc" "HLoc" ["features"; "matcher"] [] 50] ["uv"].
Definition two_manifests : list PluginManifest := [colmap_manifest; hloc_manifest].

Definition uv_plan : InstallPlan := mkPlan "uv" "https://github.com/x/y" "main" None.

Definition install_file (f : state_file) (p : string) : state_file :=
  (record_install f "2026-01-01T00:00:00+00:00" p uv_plan true false false not_requested None None).2.

Definition two_installed : state_file := install_file (install_file None "colmap_cli") "hloc".
Definition two_preferred : state_file := (set_provider_priority two_manifests two_installed ["hloc@hloc"]).2.

Definition no_entry_points (_ : string) : bool := false.


Example two_preferred_resolves :
  resolve_provider no_entry_points "features" None None None None (load_state two_preferred) two_manifests =
  Ok (Some "hloc@hloc").
Proof. by vm_compute. Qed.

(** Routing does not depend on the order in which the manifests are listed,
    in its answers and in its errors. *)
Theorem routing_order_independent (discovered : string → bool) (stage : string)
    (cap requested project_id workspace : option string) (s : PluginState) (ms1 ms2 : list PluginManifest) :
  ms1 ≡ₚ ms2 →
  resolve_provider discovered stage cap requested project_id workspace s ms1 =
  resolve_provider discovered stage cap requested project_id workspace s ms2.
Proof.
  intros H. pose proof (candidates_perm discovered stage cap s _ _ H) as Hc. pose proof (perm_nil _ _ Hc) as Hn.
  pose proof (λ l, choose_perm stage _ _ l Hc) as Hch. pose proof (resolve_sole_perm stage _ _ Hc) as Hs.
  pose proof (λ r, requested_perm stage _ _ r Hc) as Hr.
  pose proof (without_candidates_perm discovered stage requested s _ _ H) as Hw.
  unfold resolve_provider. rewrite !choose_profile_flat.
  set (r1 := _candidate_records discovered stage cap s ms1) in *.
  set (r2 := _candidate_records discovered stage cap s ms2) in *.
  rewrite !Hch, Hs, Hw. destruct (asked requested) as [r|]; [rewrite (Hr r)|]; clearbody r1 r2;
    destruct r1, r2; naive_solver.
Qed.

Lemma routing_order_independent_witness :
  resolve_provider no_entry_points "features" None None None None (load_state two_installed) [colmap_manifest; hloc_manifest] =
  resolve_provider no_entry_points "features" None None None None (load_state two_installed) [hloc_manifest; colmap_manifest].
Proof. apply routing_order_independent. apply Permutation_swap. Defined.


Lemma two_installed_reachable : hub_reachable two_manifests two_installed.
Proof.
  eapply rtc_l; [apply (step_install _ None "2026-01-01T00:00:00+00:00" "colmap_cli" uv_plan true false false not_requested None None)|].
  eapply rtc_l; [|apply rtc_refl]. apply step_install.
Qed.


(** After a plugin is disabled, no stage resolves to it: every later answer
    is the name of an enabled candidate of another plugin, or, when the stage has no
    candidate at all, the request handed back unchanged. *)
Theorem disabled_never_chosen (discovered : string → bool) (f f' : state_file) (plugin : string) (s : PluginState)
    (ms : list PluginManifest) (stage : string) (cap requested project_id workspace : option string) (a : string) :
  set_enabled f plugin false = (Ok s, f') →
  resolve_provider discovered stage cap requested project_id workspace (load_state f') ms = Ok (Some a) →
  (∃ row, row ∈ _candidate_records discovered stage cap (load_state f') ms ∧ r_enabled row = true ∧
     r_plugin_id row ≠ plugin ∧ names a row) ∨
  (_candidate_records discovered stage cap (load_state f') ms = [] ∧ requested = Some a).
Proof.
  intros Hset H. apply resolve_chosen in H as [(row & Hrow & Hn)|H]; [left|by right].
  exists row. pose proof (elem_of_candidates _ _ _ _ _ _ Hrow) as [_ Hrec].
  apply elem_of_records in Hrec as (m & _ & Hp & _ & Hen & Hval).
  split_and!; try done; [by apply Hen|]. intros Heq.
  rewrite Hen in Hval by done. symmetry in Hval. apply andb_true_iff in Hval as [_ Hval].
  assert (installed (load_state f') !! plugin = with_enabled false <$> installed (load_state f) !! plugin) as Hl.
  { unfold set_enabled, _mutate_state in Hset. fold (load_state f) in Hset.
    destruct (installed (load_state f) !! plugin) as [r|]; [|done]. injection Hset as <- <-. cbn.
    by rewrite lookup_insert_eq. }
  rewrite <-Hp, Heq, Hl in Hval. unfold set_enabled, _mutate_state in Hset. fold (load_state f) in Hset.
  by destruct (installed (load_state f) !! plugin).
Qed.

Definition hloc_disabled : res string PluginState * state_file := set_enabled two_preferred "hloc" false.

Lemma disabled_never_chosen_witness :
  (∃ row, row ∈ _candidate_records no_entry_points "features" None (load_state hloc_disabled.2) two_manifests ∧
     r_enabled row = true ∧ r_plugin_id row ≠ "hloc" ∧ names "colmap" row) ∨
  (_candidate_records no_entry_points "features" None (load_state hloc_disabled.2) two_manifests = [] ∧
   None = Some "colmap").
Proof.
  apply (disabled_never_chosen no_entry_points two_preferred hloc_disabled.2 "hloc"
           (default empty_state hloc_disabled.2) two_manifests "features" None None None None "colmap");
    by vm_compute.
Defined.
