(* ===== verification/HubManifest.v ===== *)
(** [sfm_hub/models/dataflow.py], the declaration models: plugin datatypes,
    ports, attributes, processors, extensions and pipelines, with the checks their
    construction makes. *)
From S2P Require Import Prelude PyValue Attributes Processors Pipelines.
From stdpp Require Import options.
Import Attributes Processors Pipelines.

#[local] Arguments String.append !_ _ / : simpl nomatch.

Module Manifest.

(** ** Identifier patterns ([sfm_hub/models/validation.py]) *)

Definition char_between (lo hi a : ascii) : bool :=
  (nat_of_ascii lo <=? nat_of_ascii a) && (nat_of_ascii a <=? nat_of_ascii hi).

Definition lower (a : ascii) : bool := char_between "a" "z" a.
Definition lower_or_digit (a : ascii) : bool := lower a || char_between "0" "9" a.

Fixpoint all_chars (p : ascii → bool) (s : string) : bool :=
  match s with EmptyString => true | String a s => p a && all_chars p s end.

(** [^[first][rest]*$], at the end of the text. *)
Definition word_of (first rest : ascii → bool) (s : string) : bool :=
  match s with EmptyString => false | String a s => first a && all_chars rest s end.

Definition one_of (l : list ascii) (a : ascii) : bool := bool_decide (a ∈ l).

Definition _CONTRACT_ID_RE : string → bool :=
  word_of lower (λ a, lower_or_digit a || one_of ["_"; "."; "-"]%char a).
Definition _LOCAL_DECLARATION_ID_RE : string → bool :=
  word_of lower (λ a, lower_or_digit a || one_of ["_"; "-"]%char a).
Definition _ROLE_RE : string → bool := word_of lower (λ a, lower_or_digit a || one_of ["_"]%char a).

(** Dot-separated local ids: one or more, and two or more. *)
Definition _ATTRIBUTE_RE (s : string) : bool := forallb _LOCAL_DECLARATION_ID_RE (split_on "." s).
Definition _SPECIAL_ROLE_RE (s : string) : bool :=
  _ATTRIBUTE_RE s && bool_decide (2 ≤ length (split_on "." s)).

Definition newline : ascii := ascii_of_nat 10.

Fixpoint chomp (s : string) : option string :=
  match s with
  | EmptyString => None
  | String a EmptyString => if decide (a = newline) then Some "" else None
  | String a s => String a <$> chomp s
  end.

(** Python's [re] lets [$] match before a final newline; pydantic's patterns do
    not. *)
Definition re_match (p : string → bool) (s : string) : bool :=
  p s || match chomp s with Some s => p s | None => false end.

(** ** Declarations *)

Inductive datatype_kind : Type := scene_input | artifact.

Record PluginDataTypeManifest : Type := mkDataType {
  type_id : string;
  dt_title : string;
  dt_kind : datatype_kind;
  dt_description : string
}.

Definition valid_datatype (d : PluginDataTypeManifest) : bool := _LOCAL_DECLARATION_ID_RE (type_id d).

(** A port has the fields of the core [PortSpec]. *)
Definition PluginPortSpecManifest : Type := PortSpec.

Definition valid_port (p : PluginPortSpecManifest) : bool := _CONTRACT_ID_RE (datatype p).

(** [pa_default] is [None] when ["default"] is not in [model_fields_set]. *)
Record PluginAttributeManifest : Type := mkPluginAttribute {
  pa_name : string;
  pa_type : string;
  pa_required : bool;
  pa_default : option value;
  pa_enum : list string;
  pa_min : option number;
  pa_max : option number;
  pa_description : string
}.

(** [_enum_has_values]; enum values are strings by the field's type. *)
Definition _enum_has_values (a : PluginAttributeManifest) : bool :=
  negb (bool_decide (pa_type a = "enum") && is_nil (pa_enum a)) &&
  negb (pa_required a && present (pa_default a)).

Definition valid_attribute (a : PluginAttributeManifest) : bool :=
  _ATTRIBUTE_RE (pa_name a) && bool_decide (pa_type a ∈ ATTRIBUTE_TYPES) && _enum_has_values a.

Record PluginProcessorManifest : Type := mkPluginProcessor {
  pp_id : string;
  pp_title : string;
  pp_consumer : dict PluginPortSpecManifest;
  pp_supplier : dict PluginPortSpecManifest;
  pp_attributes : list PluginAttributeManifest;
  pp_description : string;
  pp_capabilities : list string
}.

(** [_port_roles_format] checks the roles with [re] alone. *)
Definition _port_roles_format (ports : dict PluginPortSpecManifest) : bool :=
  forallb (re_match _ROLE_RE) (dict_keys ports).

Definition _attributes_unique (attrs : list PluginAttributeManifest) : bool :=
  is_nil (py_duplicates (pa_name <$> attrs)).

Definition valid_processor (p : PluginProcessorManifest) : bool :=
  _LOCAL_DECLARATION_ID_RE (pp_id p) &&
  _port_roles_format (pp_consumer p) && forallb (λ rp, valid_port rp.2) (pp_consumer p) &&
  _port_roles_format (pp_supplier p) && forallb (λ rp, valid_port rp.2) (pp_supplier p) &&
  forallb valid_attribute (pp_attributes p) && _attributes_unique (pp_attributes p) &&
  negb (is_nil (pp_capabilities p)) && forallb _CONTRACT_ID_RE (pp_capabilities p).

Record PluginProcessorExtensionManifest : Type := mkExtension {
  pe_id : string;
  pe_inputs : dict PluginPortSpecManifest;
  pe_attributes : list PluginAttributeManifest
}.

Definition valid_extension (e : PluginProcessorExtensionManifest) : bool :=
  _CONTRACT_ID_RE (pe_id e) &&
  forallb (λ rp, _SPECIAL_ROLE_RE rp.1 && valid_port rp.2 && negb (required rp.2)) (pe_inputs e) &&
  forallb (λ a, _SPECIAL_ROLE_RE (pa_name a) && valid_attribute a && negb (pa_required a)) (pe_attributes e) &&
  _attributes_unique (pe_attributes e).

(** A wire: [str | list[str]]. *)
Inductive wire : Type :=
  | One (w : string)
  | Many (ws : list string).

Record PluginPipelineStepManifest : Type := mkPluginStep {
  ps_ref : string;
  ps_processor : string;
  ps_attributes : dict value;
  ps_wires : dict wire
}.

Definition _wire_arrays_are_unique (ws : dict wire) : bool :=
  forallb (λ rw, match rw.2 with Many l => is_nil (py_duplicates l) | One _ => true end) ws.

Definition valid_step (s : PluginPipelineStepManifest) : bool :=
  _ROLE_RE (ps_ref s) && negb (bool_decide (ps_ref s = "inputs")) && _CONTRACT_ID_RE (ps_processor s) &&
  _wire_arrays_are_unique (ps_wires s).

Record PluginPipelineManifest : Type := mkPluginPipeline {
  pl_id : string;
  pl_title : string;
  pl_inputs : list string;
  pl_steps : list PluginPipelineStepManifest;
  pl_description : string
}.

Definition _refs_unique (p : PluginPipelineManifest) : bool :=
  is_nil (py_duplicates (ps_ref <$> pl_steps p)).

Definition _initial_inputs_format (inputs : list string) : bool :=
  negb (is_nil inputs) && forallb _CONTRACT_ID_RE inputs && is_nil (py_duplicates inputs).

Definition valid_pipeline (p : PluginPipelineManifest) : bool :=
  _LOCAL_DECLARATION_ID_RE (pl_id p) && _initial_inputs_format (pl_inputs p) &&
  negb (is_nil (pl_steps p)) && forallb valid_step (pl_steps p) && _refs_unique p.

(** ** Core declarations in manifest form *)

(** [PluginAttributeManifest.model_validate(attr.contract_dict())] *)
Definition manifest_attribute (a : Attribute) : PluginAttributeManifest :=
  mkPluginAttribute (a_name a) (a_type a) (a_required a)
    (if a_has_default a then Some (a_default a) else None) (a_enum a) (a_min a) (a_max a) (a_description a).

Abbreviation ports := (dict PluginPortSpecManifest * dict PluginPortSpecManifest)%type.

Definition _core_processor_ids : list string := dict_keys PROCESSORS_BY_ID.
Definition _core_pipeline_ids : list string := dict_keys CANONICAL_PIPELINES.

Definition _core_processor_ports : dict ports :=
  (λ kp, (kp.1, (consumer kp.2, supplier kp.2))) <$> PROCESSORS_BY_ID.
Definition _plugin_processor_ports (l : list PluginProcessorManifest) : dict ports :=
  dict_merge [] ((λ p, (pp_id p, (pp_consumer p, pp_supplier p))) <$> l).

Definition _core_processor_attributes : dict (list PluginAttributeManifest) :=
  (λ kp, (kp.1, manifest_attribute <$> attributes kp.2)) <$> PROCESSORS_BY_ID.
Definition _plugin_processor_attributes (l : list PluginProcessorManifest) :
    dict (list PluginAttributeManifest) :=
  dict_merge [] ((λ p, (pp_id p, pp_attributes p)) <$> l).

(** The manifest models accept every core attribute. *)
Example core_attributes_valid :
  forallb (λ ka, forallb valid_attribute ka.2) _core_processor_attributes = true.
Proof. by vm_compute. Qed.

End Manifest.
