(* ===== verification/HubGraph.v ===== *)
(** [sfm_hub/models/dataflow.py], the cross-declaration checks: attribute schemas,
    bound attributes, the pipeline graph and the whole set of a plugin's
    declarations; with the two manifest validators that run them
    ([sfm_hub/models/manifest.py]). Errors are the [ValueError]s' texts. *)
From S2P Require Import Prelude PyValue Attributes Processors Pipelines HubManifest.
From stdpp Require Import options.
Import Attributes Processors Pipelines Manifest.

#[local] Arguments String.append !_ _ / : simpl nomatch.

Module Graph.

Abbreviation check := (res string unit).

(** [if l: raise ValueError(prefix + ", ".join(l))] *)
Definition reject_listed (prefix : string) (l : list string) : check :=
  raise_if (negb (is_nil l)) (prefix +:+ join ", " l).

(** ** Attributes *)

Definition _value_matches_attribute (a : PluginAttributeManifest) (v : value) (known_datatypes : list string) : bool :=
  if decide (pa_type a = "bool") then is_bool v
  else if decide (pa_type a = "int") then is_int v && negb (is_bool v)
  else if decide (pa_type a = "float") then (is_int v || is_float v) && negb (is_bool v)
  else if decide (pa_type a = "str") then is_str v
  else if decide (pa_type a = "enum") then
    match v with VStr s => bool_decide (s ∈ pa_enum a) | _ => false end
  else if decide (pa_type a = "datatype-ref") then
    match v with VStr s => bool_decide (s ∈ known_datatypes) | _ => false end
  else if decide (pa_type a = "object") then is_dict v
  else false.

Definition attribute_says (a : PluginAttributeManifest) (rest : string) : string :=
  "attribute " +:+ str_repr (pa_name a) +:+ " " +:+ rest.

Definition is_numeric (a : PluginAttributeManifest) : bool := bool_decide (pa_type a ∈ ["int"; "float"]).

Definition under_min (a : PluginAttributeManifest) (v : value) : bool :=
  match pa_min a with Some m => below v m | None => false end.
Definition over_max (a : PluginAttributeManifest) (v : value) : bool :=
  match pa_max a with Some m => above v m | None => false end.

Definition _validate_attribute_schema (known_datatypes : list string) (a : PluginAttributeManifest) : check :=
  _ ← raise_if (negb (bool_decide (pa_type a = "enum")) && negb (is_nil (pa_enum a)))
        (attribute_says a ("uses enum values but type is " +:+ str_repr (pa_type a)));
  _ ← raise_if (bool_decide (pa_type a = "enum") &&
                negb (bool_decide (length (remove_dups (str_repr <$> pa_enum a)) = length (pa_enum a))))
        (attribute_says a "enum values must be unique");
  _ ← raise_if (negb (is_numeric a) && (present (pa_min a) || present (pa_max a)))
        (attribute_says a "min/max are only valid for numeric types");
  _ ← raise_if (match pa_min a, pa_max a with Some lo, Some hi => number_lt hi lo | _, _ => false end)
        (attribute_says a "min must be <= max");
  match pa_default a with
  | None => Ok tt
  | Some d =>
      _ ← raise_if (is_none d) (attribute_says a "default cannot be null");
      _ ← raise_if (negb (_value_matches_attribute a d known_datatypes))
            (attribute_says a ("default must match type " +:+ str_repr (pa_type a)));
      if is_numeric a && is_number d then
        _ ← raise_if (under_min a d) (attribute_says a "default must be >= min");
        raise_if (over_max a d) (attribute_says a "default must be <= max")
      else Ok tt
  end.

Definition in_step (pipeline_id : string) (s : PluginPipelineStepManifest) (rest : string) : string :=
  "pipeline " +:+ str_repr pipeline_id +:+ " step " +:+ str_repr (ps_ref s) +:+ " " +:+ rest.

(** One attribute of a step. *)
Definition check_attribute (pipeline_id : string) (s : PluginPipelineStepManifest)
    (known_datatypes : list string) (a : PluginAttributeManifest) : check :=
  let says rest := in_step pipeline_id s ("attribute " +:+ str_repr (pa_name a) +:+ " must be " +:+ rest) in
  match dict_get (pa_name a) (ps_attributes s) with
  | None =>
      raise_if (pa_required a) (in_step pipeline_id s ("missing required attribute " +:+ str_repr (pa_name a)))
  | Some v =>
      _ ← raise_if (is_none v || negb (_value_matches_attribute a v known_datatypes)) (says (pa_type a));
      _ ← raise_if (under_min a v) (says (">= " +:+ match pa_min a with Some m => number_str m | None => "" end));
      raise_if (over_max a v) (says ("<= " +:+ match pa_max a with Some m => number_str m | None => "" end))
  end.

Definition _validate_step_attributes (pipeline_id : string) (s : PluginPipelineStepManifest)
    (attrs : list PluginAttributeManifest) (known_datatypes : list string) : check :=
  _ ← reject_listed (in_step pipeline_id s "uses unknown attribute(s): ")
        (py_difference (dict_keys (ps_attributes s)) (pa_name <$> attrs));
  for_each (check_attribute pipeline_id s known_datatypes) attrs.

(** ** Wires *)

Definition _wire_values (raw : wire) (multiple : bool) : list wire :=
  if multiple then match raw with Many ws => One <$> ws | One _ => [raw] end else [raw].

Definition _parse_wire_ref (w : wire) : option (string * string) :=
  match w with
  | Many _ => None
  | One s =>
      if negb (str_mem "."%char s) then None
      else if starts_with "inputs." s then
        let port := remove_prefix "inputs." s in
        if decide (port = "") then None else Some ("inputs", port)
      else
        match rsplit1 "."%char s with
        | Some (r, port) => if decide (r = "" ∨ port = "") then None else Some (r, port)
        | None => None
        end
  end.

Definition _requires_verified_match_graph (processor_id role : string) : bool :=
  bool_decide (processor_id ∈ ["map"; "triangulate"]) && bool_decide (role = "matches").

(** ** The pipeline graph *)

(** The loop's state: the supplies in order, as [(ref, port, datatype, verified)]
    tuples, and the datatype and verification behind each wire reference. *)
Abbreviation supply_row := (string * string * string * bool)%type.

Record graph_state : Type := mkGraph {
  g_available : list supply_row;
  g_by_wire : dict (string * bool)
}.

Definition row_ref (r : supply_row) : string := r.1.1.1.
Definition row_port (r : supply_row) : string := r.1.1.2.
Definition row_datatype (r : supply_row) : string := r.1.2.
Definition row_verified (r : supply_row) : bool := r.2.

Definition wire_key (r : supply_row) : string := row_ref r +:+ "." +:+ row_port r.

Definition index_rows (rows : list supply_row) (d : dict (string * bool)) : dict (string * bool) :=
  foldl (λ d r, dict_set (wire_key r) (row_datatype r, row_verified r) d) d rows.

Definition initial_graph (inputs : list string) : graph_state :=
  let rows := (λ dt, ("inputs", dt, dt, false)) <$> inputs in
  mkGraph rows (index_rows rows []).

Section graph.
Context (pipeline_id : string).

(** One wire value of a port; the result is its key. *)
Definition check_wire_value (s : PluginPipelineStepManifest) (g : graph_state) (role dt : string) (v : wire) :
    res string string :=
  match _parse_wire_ref v with
  | None => Err (in_step pipeline_id s ("wire for port " +:+ str_repr role +:+ " must be 'step_ref.supplier_port'"))
  | Some (r, p) =>
      let key := r +:+ "." +:+ p in
      match dict_get key (g_by_wire g) with
      | None => Err (in_step pipeline_id s ("references unknown supplier port " +:+ key))
      | Some (supplied_datatype, supplied_verified) =>
          _ ← raise_if (negb (bool_decide (supplied_datatype = dt)))
                (in_step pipeline_id s ("datatype mismatch for port " +:+ str_repr role +:+ ": expected " +:+ dt +:+
                   ", got " +:+ supplied_datatype));
          _ ← raise_if (_requires_verified_match_graph (ps_processor s) role && negb supplied_verified)
                (in_step pipeline_id s ("port " +:+ str_repr role +:+ " requires verified match_graph input"));
          Ok key
      end
  end.

Definition check_wired (s : PluginPipelineStepManifest) (g : graph_state) (role : string)
    (port : PluginPortSpecManifest) (raw : wire) : check :=
  let says rest := in_step pipeline_id s ("port " +:+ str_repr role +:+ " " +:+ rest) in
  _ ← raise_if (match raw with Many _ => negb (multiple port) | One _ => false end)
        (says "does not accept multiple inputs");
  let values := _wire_values raw (multiple port) in
  _ ← raise_if (is_nil values && required port)
        (in_step pipeline_id s ("missing required input port " +:+ str_repr role));
  wire_keys ← fold_res (λ keys v, key ← check_wire_value s g role (datatype port) v; Ok (keys ++ [key])) [] values;
  let distinct_wire_keys := remove_dups wire_keys in
  _ ← raise_if (multiple port && negb (bool_decide (length distinct_wire_keys = length wire_keys)))
        (says "does not accept duplicate inputs");
  raise_if (multiple port && required port && bool_decide (length distinct_wire_keys < 2))
    (says "requires at least two distinct inputs").

Definition check_open (s : PluginPipelineStepManifest) (g : graph_state) (role : string)
    (port : PluginPortSpecManifest) : check :=
  let says rest := in_step pipeline_id s ("port " +:+ str_repr role +:+ " " +:+ rest) in
  if negb (required port) then Ok tt
  else
    let candidates := filter (λ r, row_datatype r = datatype port) (g_available g) in
    _ ← raise_if (is_nil candidates) (in_step pipeline_id s ("missing input datatype " +:+ str_repr (datatype port)));
    _ ← raise_if (multiple port &&
                  bool_decide (length (remove_dups ((λ r, (row_ref r, row_port r)) <$> candidates)) = 1))
          (says "requires at least two distinct inputs");
    _ ← raise_if (bool_decide (1 < length candidates) && negb (multiple port))
          (in_step pipeline_id s ("has ambiguous input for port " +:+ str_repr role));
    raise_if (_requires_verified_match_graph (ps_processor s) role && negb (existsb row_verified candidates))
      (says "requires verified match_graph input").

Definition check_graph_port (s : PluginPipelineStepManifest) (g : graph_state)
    (rp : string * PluginPortSpecManifest) : check :=
  match dict_get rp.1 (ps_wires s) with
  | Some raw => check_wired s g rp.1 rp.2 raw
  | None => check_open s g rp.1 rp.2
  end.

Definition supply_rows (s : PluginPipelineStepManifest) (supplier : dict PluginPortSpecManifest) : list supply_row :=
  (λ rp, (ps_ref s, rp.1, datatype rp.2,
          bool_decide (ps_processor s = "verify") && bool_decide (rp.1 = "matches") &&
          bool_decide (datatype rp.2 = "match_graph"))) <$> supplier.

Definition add_rows (rows : list supply_row) (g : graph_state) : graph_state :=
  mkGraph (g_available g ++ rows) (index_rows rows (g_by_wire g)).

Definition graph_step (processor_ports : dict ports) (processor_attributes : dict (list PluginAttributeManifest))
    (known_datatypes : list string) (g : graph_state) (s : PluginPipelineStepManifest) : res string graph_state :=
  match dict_get (ps_processor s) processor_ports with
  | None => Ok g
  | Some (consumer, supplier) =>
      _ ← _validate_step_attributes pipeline_id s (default [] (dict_get (ps_processor s) processor_attributes))
            known_datatypes;
      _ ← reject_listed (in_step pipeline_id s "wires unknown consumer ports: ")
            (py_difference (dict_keys (ps_wires s)) (dict_keys consumer));
      _ ← for_each (check_graph_port s g) consumer;
      Ok (add_rows (supply_rows s supplier) g)
  end.
End graph.

Definition _validate_pipeline_graph (pipeline : PluginPipelineManifest) (processor_ports : dict ports)
    (processor_attributes : dict (list PluginAttributeManifest)) (known_datatypes : list string) : check :=
  _ ← fold_res (graph_step (pl_id pipeline) processor_ports processor_attributes known_datatypes)
        (initial_graph (pl_inputs pipeline)) (pl_steps pipeline);
  Ok tt.

(** ** All the declarations of a plugin *)

Definition _validate_plugin_owned_declaration_ids (plugin_id : string) (datatypes : list PluginDataTypeManifest)
    (processors : list PluginProcessorManifest) (pipelines : list PluginPipelineManifest) : check :=
  for_each (λ fv, raise_if (str_mem "."%char fv.2)
              ("plugin-owned " +:+ fv.1 +:+ " " +:+ str_repr fv.2 +:+ " must be a local declaration id; " +:+
               str_repr plugin_id +:+ " is applied during registry merge"))
    (((λ d, ("type_id", type_id d)) <$> datatypes) ++ ((λ p, ("processor_id", pp_id p)) <$> processors) ++
     ((λ p, ("pipeline_id", pl_id p)) <$> pipelines)).

(** What a plugin declares. *)
Record declarations : Type := mkDeclarations {
  d_datatypes : list PluginDataTypeManifest;
  d_processors : list PluginProcessorManifest;
  d_pipelines : list PluginPipelineManifest;
  d_extensions : list PluginProcessorExtensionManifest
}.

Section typed_extensions.
(** [CORE_DATA_TYPES_BY_ID]: the vocabulary of the contract package. *)
Context (_core_datatype_ids : list string).

Definition known_datatypes (d : declarations) : list string := _core_datatype_ids ++ (type_id <$> d_datatypes d).
Definition known_processors (d : declarations) : list string := _core_processor_ids ++ (pp_id <$> d_processors d).

(** [set(a) <= set(b)] *)
Definition subset (a b : list string) : bool := forallb (λ x, bool_decide (x ∈ b)) a.

Definition check_datatypes (d : declarations) : check :=
  _ ← reject_listed "duplicate datatypes: " (py_duplicates (type_id <$> d_datatypes d));
  reject_listed "plugin datatypes cannot redefine core datatypes: "
    (py_intersection (type_id <$> d_datatypes d) _core_datatype_ids).

Definition check_processor_ids (d : declarations) : check :=
  _ ← reject_listed "duplicate processors: " (py_duplicates (pp_id <$> d_processors d));
  reject_listed "plugin processors cannot redefine core processors; use processor_extensions instead: "
    (py_intersection (pp_id <$> d_processors d) _core_processor_ids).

(** [None] skips a check, as the keyword's default does. *)
Definition check_capabilities (declared : option (list string)) (provider_sets : option (list (list string)))
    (d : declarations) : check :=
  _ ← match declared with
      | None => Ok tt
      | Some declared =>
          for_each (λ p, reject_listed
              ("processor " +:+ str_repr (pp_id p) +:+ " references undeclared capabilities: ")
              (py_difference (pp_capabilities p) declared)) (d_processors d)
      end;
  match provider_sets with
  | None => Ok tt
  | Some sets =>
      for_each (λ p, raise_if (negb (existsb (subset (pp_capabilities p)) sets))
          ("processor " +:+ str_repr (pp_id p) +:+ " capabilities are not declared together by any provider"))
        (d_processors d)
  end.

(** The ports visited are those of the merged dict: a supplier port replaces the
    consumer port of the same role. *)
Definition check_processor_ports (d : declarations) (p : PluginProcessorManifest) : check :=
  for_each (λ rp : string * PluginPortSpecManifest,
      raise_if (negb (bool_decide (datatype rp.2 ∈ known_datatypes d)))
        ("processor " +:+ str_repr (pp_id p) +:+ " port " +:+ str_repr rp.1 +:+ " references unknown datatype " +:+
         str_repr (datatype rp.2)))
    (dict_merge (pp_consumer p) (pp_supplier p)).

Definition check_extension (d : declarations) (e : PluginProcessorExtensionManifest) : check :=
  _ ← raise_if (negb (bool_decide (pe_id e ∈ known_processors d)))
        ("processor extension references unknown processor " +:+ str_repr (pe_id e));
  _ ← for_each (λ rp : string * PluginPortSpecManifest,
        raise_if (negb (bool_decide (datatype rp.2 ∈ known_datatypes d)))
          ("processor extension " +:+ str_repr (pe_id e) +:+ " input " +:+ str_repr rp.1 +:+
           " references unknown datatype " +:+ str_repr (datatype rp.2))) (pe_inputs e);
  for_each (_validate_attribute_schema (known_datatypes d)) (pe_attributes e).

(** The names an extension declares, in the order they are checked. *)
Definition extension_names (e : PluginProcessorExtensionManifest) : list string :=
  py_sorted (dict_keys (pe_inputs e)) ++ py_sorted (pa_name <$> pe_attributes e).

Definition in_namespace (prefixes : list string) (name : string) : bool :=
  existsb (λ p, starts_with (p +:+ ".") name) prefixes.

Definition check_namespace (prefixes : option (list string)) (d : declarations) : check :=
  match prefixes with
  | None => Ok tt
  | Some prefixes =>
      for_each (λ e, reject_listed "processor extension names must use the owning plugin namespace: "
          (filter (λ n, in_namespace prefixes n = false) (extension_names e))) (d_extensions d)
  end.

Definition check_pipeline_ids (d : declarations) : check :=
  _ ← reject_listed "duplicate pipelines: " (py_duplicates (pl_id <$> d_pipelines d));
  reject_listed "plugin pipelines cannot redefine core pipelines: "
    (py_intersection (pl_id <$> d_pipelines d) _core_pipeline_ids).

(** The processor tables the extensions are merged into. *)
Abbreviation tables := (dict ports * dict (list PluginAttributeManifest))%type.

Definition initial_tables (d : declarations) : tables :=
  (dict_merge _core_processor_ports (_plugin_processor_ports (d_processors d)),
   dict_merge _core_processor_attributes (_plugin_processor_attributes (d_processors d))).

(** A missing table entry is a [KeyError] in the code; extensions of unknown
    processors were rejected before. *)
Definition merge_extension (t : tables) (e : PluginProcessorExtensionManifest) : res string tables :=
  match dict_get (pe_id e) t.1 with
  | None => Err (pe_id e)
  | Some (consumer, supplier) =>
      _ ← reject_listed ("processor extension " +:+ str_repr (pe_id e) +:+ " duplicates consumer port(s): ")
            (py_intersection (dict_keys (pe_inputs e)) (dict_keys consumer));
      let existing := default [] (dict_get (pe_id e) t.2) in
      _ ← reject_listed ("processor extension " +:+ str_repr (pe_id e) +:+ " duplicates attribute(s): ")
            (py_sorted (filter (.∈ pa_name <$> existing) (pa_name <$> pe_attributes e)));
      Ok (dict_set (pe_id e) (dict_merge consumer (pe_inputs e), supplier) t.1,
          dict_set (pe_id e) (existing ++ pe_attributes e) t.2)
  end.

Definition check_pipeline (d : declarations) (t : tables) (p : PluginPipelineManifest) : check :=
  _ ← reject_listed ("pipeline " +:+ str_repr (pl_id p) +:+ " references unknown initial datatype(s): ")
        (py_difference (pl_inputs p) (known_datatypes d));
  _ ← for_each (λ s, raise_if (negb (bool_decide (ps_processor s ∈ known_processors d)))
        (in_step (pl_id p) s ("references unknown processor " +:+ str_repr (ps_processor s)))) (pl_steps p);
  _validate_pipeline_graph p t.1 t.2 (known_datatypes d).

Definition _validate_typed_extension_graph (d : declarations) (declared : option (list string))
    (provider_sets : option (list (list string))) (prefixes : option (list string)) : check :=
  _ ← check_datatypes d;
  _ ← check_processor_ids d;
  _ ← check_capabilities declared provider_sets d;
  _ ← for_each (λ p, for_each (_validate_attribute_schema (known_datatypes d)) (pp_attributes p)) (d_processors d);
  _ ← for_each (check_processor_ports d) (d_processors d);
  _ ← reject_listed "duplicate processor_extensions: " (py_duplicates (pe_id <$> d_extensions d));
  _ ← for_each (check_extension d) (d_extensions d);
  _ ← check_namespace prefixes d;
  _ ← check_pipeline_ids d;
  t ← fold_res merge_extension (initial_tables d) (d_extensions d);
  for_each (check_pipeline d t) (d_pipelines d).

(** ** The two callers ([models/manifest.py]) *)

(** [PluginBackendCatalog._catalog_is_coherent]; [capabilities] is the catalog's. *)
Definition _catalog_is_coherent (plugin_id : option string) (capabilities : list string) (d : declarations) : check :=
  _ ← raise_if (match plugin_id with None => true | Some _ => false end &&
                negb (is_nil (d_datatypes d) && is_nil (d_processors d) && is_nil (d_pipelines d) &&
                      is_nil (d_extensions d)))
        "plugin_id is required when typed declarations are declared";
  _ ← match plugin_id with
      | Some id => _validate_plugin_owned_declaration_ids id (d_datatypes d) (d_processors d) (d_pipelines d)
      | None => Ok tt
      end;
  _validate_typed_extension_graph d (Some capabilities) (Some [capabilities])
    (match plugin_id with Some id => if decide (id = "") then None else Some [id] | None => None end).

(** [PluginManifest._typed_extensions_are_coherent]; [providers] lists each
    provider's capabilities. *)
Definition _typed_extensions_are_coherent (plugin_id : string) (capabilities : list string)
    (providers : list (list string)) (dependencies : list string) (d : declarations) : check :=
  _ ← _validate_plugin_owned_declaration_ids plugin_id (d_datatypes d) (d_processors d) (d_pipelines d);
  _ ← raise_if (existsb (λ x, bool_decide (x = plugin_id)) dependencies) "plugin cannot depend on itself";
  _validate_typed_extension_graph d (Some (capabilities ++ (providers ≫= id))) (Some providers) (Some [plugin_id]).
End typed_extensions.

End Graph.
