(* ===== verification/HubGraphFacts.v ===== *)
(** The plugin hub's graph check against the typing rules of pipelines: the two
    validators read the same attributes, wires, ports and scopes. *)
From S2P Require Import Prelude PyValue Attributes Processors Pipelines PipelineFacts HubManifest HubGraph.
From stdpp Require Import options.
Import Attributes Processors Pipelines Manifest Graph.

(** ** The core form of a manifest's data *)

Definition core_attribute (known : list string) (a : PluginAttributeManifest) : Attribute :=
  mkAttribute (pa_name a) (pa_type a) (pa_required a) (default VNone (pa_default a)) (present (pa_default a))
    (pa_enum a) (pa_min a) (pa_max a) (pa_description a) (Some (λ s, bool_decide (s ∈ known))).

Definition wire_value (w : wire) : value :=
  match w with One s => VStr s | Many l => VStrs l end.

Definition core_step (s : PluginPipelineStepManifest) : PipelineStep :=
  mkStep (ps_ref s) (ps_processor s) (ps_attributes s) ((λ kw, (kw.1, wire_value kw.2)) <$> ps_wires s).

(** The processors the merged tables describe. *)
Definition merged_lookup (processor_ports : dict ports) (attrs : dict (list PluginAttributeManifest))
    (known : list string) (id : string) : option Processor :=
  (λ cs : ports, mkProcessor id "" cs.1 cs.2 (core_attribute known <$> default [] (dict_get id attrs)) "" [] None
          [] [] []) <$> dict_get id processor_ports.

Lemma dict_get_map {V W} (f : V → W) k (d : dict V) :
  dict_get k ((λ kv, (kv.1, f kv.2)) <$> d) = f <$> dict_get k d.
Proof. induction d as [|[k' v] d IH]; cbn; [done|]. by case_decide. Qed.

Lemma dict_keys_map {V W} (f : V → W) (d : dict V) : dict_keys ((λ kv, (kv.1, f kv.2)) <$> d) = dict_keys d.
Proof. rewrite <-list_fmap_compose. by apply list_fmap_ext. Qed.

Lemma reject_listed_Ok prefix l : reject_listed prefix l = Ok tt ↔ l = [].
Proof. unfold reject_listed. by rewrite raise_if_Ok, negb_false_iff, is_nil_iff. Qed.

Lemma bind_unit_Ok {E B} (m : res E unit) (k : res E B) b :
  (m ≫= λ _, k) = Ok b ↔ m = Ok tt ∧ k = Ok b.
Proof. destruct m as [[]|]; cbn; naive_solver. Qed.

(** ** Attributes *)

Section attributes.
Context (is_data_type : string → bool) (known : list string).

Lemma matches_type_ok a v :
  _type_ok is_data_type (core_attribute known a) v None = _value_matches_attribute a v known.
Proof. done. Qed.

Lemma check_attribute_Ok pid s a :
  check_attribute pid s known a = Ok tt ↔
  match dict_get (pa_name a) (ps_attributes s) with
  | Some v => binding_ok is_data_type None (core_attribute known a) v
  | None => pa_required a = false
  end.
Proof.
  unfold check_attribute. destruct (dict_get _ _) as [v|]; [|by rewrite raise_if_Ok].
  rewrite !bind_unit_Ok, !raise_if_Ok, orb_false_iff, negb_false_iff, <-matches_type_ok.
  split.
  - intros ([Hn Ht] & Hlo & Hhi). split; [|done..]. by intros ->.
  - intros [Hn Ht Hlo Hhi]. split_and!; try done. apply not_true_iff_false. by rewrite is_none_iff.
Qed.

Lemma step_attributes_Ok pid s attrs :
  Graph._validate_step_attributes pid s attrs known = Ok tt ↔
  bindings_ok is_data_type None (core_attribute known <$> attrs) (ps_attributes s).
Proof.
  unfold Graph._validate_step_attributes.
  rewrite bind_unit_Ok, reject_listed_Ok, py_difference_nil, for_each_Ok.
  setoid_rewrite check_attribute_Ok.
  assert (a_name <$> (core_attribute known <$> attrs) = pa_name <$> attrs) as Hn by (by rewrite <-list_fmap_compose).
  split.
  - intros [Hk Hf]. split; [intros name Hin; rewrite Hn; by apply Hk|].
    intros a' (a & -> & Ha)%list_elem_of_fmap. by apply Hf.
  - intros [Hk Hf]. split; [intros name Hin; rewrite <-Hn; by apply Hk|].
    intros a Ha. apply (Hf (core_attribute known a)). by apply list_elem_of_fmap_2.
Qed.
End attributes.

(** ** Wires and scopes *)

Lemma parse_wire_value w : Pipelines._parse_wire_ref (wire_value w) = Graph._parse_wire_ref w.
Proof. by destruct w. Qed.

Lemma wire_values_value w port :
  Pipelines._wire_values (wire_value w) port = wire_value <$> Graph._wire_values w (multiple port).
Proof.
  unfold Pipelines._wire_values, Graph._wire_values. destruct (multiple port), w as [x|l]; try done.
  cbn. unfold VStrs. by rewrite <-list_fmap_compose.
Qed.

Definition row_of (x : _Supply) : supply_row := (su_ref x, su_port x, su_datatype x, verified_match_graph x).

(** The graph's state holds the scope's supplies. *)
Record tracks (g : graph_state) (sc : Scope) : Prop := {
  tracks_available : g_available g = row_of <$> available sc;
  tracks_by_wire : g_by_wire g = (λ kx, (kx.1, (su_datatype kx.2, verified_match_graph kx.2))) <$> by_wire sc
}.

Lemma dict_set_map {V W} (f : V → W) k v (d : dict V) :
  (λ kv, (kv.1, f kv.2)) <$> dict_set k v d = dict_set k (f v) ((λ kv, (kv.1, f kv.2)) <$> d).
Proof. induction d as [|[k' v'] d IH]; cbn; [done|]. case_decide; cbn; [done|]. by rewrite <-IH. Qed.

Lemma index_rows_map l d :
  index_rows (row_of <$> l) ((λ kx, (kx.1, (su_datatype kx.2, verified_match_graph kx.2))) <$> d) =
  (λ kx, (kx.1, (su_datatype kx.2, verified_match_graph kx.2))) <$> index_supplies l d.
Proof.
  unfold index_rows, index_supplies. revert d. induction l as [|x l IH]; intros d; cbn; [done|].
  rewrite <-IH. f_equal.
  by rewrite (dict_set_map (λ x, (su_datatype x, verified_match_graph x)) (wire_ref x) x d).
Qed.

Lemma tracks_add g sc l : tracks g sc → tracks (add_rows (row_of <$> l) g) (add_supplies l sc).
Proof.
  intros [Ha Hw]. split; cbn; [by rewrite Ha, fmap_app|]. by rewrite Hw, index_rows_map.
Qed.

Lemma tracks_see g sc r : tracks g sc → tracks g (see_ref r sc).
Proof. by intros []. Qed.

Lemma tracks_initial inputs : tracks (initial_graph inputs) (initial_scope inputs).
Proof.
  assert ((λ dt, ("inputs", dt, dt, false)) <$> inputs = row_of <$> initial_supplies inputs) as Hr.
  { unfold initial_supplies. by rewrite <-list_fmap_compose. }
  unfold initial_graph, initial_scope. rewrite Hr. split; cbn; [done|].
  exact (index_rows_map (initial_supplies inputs) []).
Qed.

Lemma supply_rows_of s p :
  supply_rows s (supplier p) = row_of <$> step_supplies (core_step s) p.
Proof. unfold supply_rows, step_supplies. rewrite <-list_fmap_compose. done. Qed.

Section ports.
Context (g : graph_state) (sc : Scope) (refs : list string).
Context (Htr : tracks g sc) (Hsc : scope_ok sc refs).
Context (pid : string) (s : PluginPipelineStepManifest).

Lemma check_wire_value_Ok role port v key :
  check_wire_value pid s g role (datatype port) v = Ok key ↔
  ∃ x, reads sc (wire_value v) x ∧ fits (core_step s) role port x ∧ key = wire_ref x.
Proof using Htr Hsc.
  unfold check_wire_value, reads, fits. rewrite parse_wire_value.
  destruct (Graph._parse_wire_ref v) as [[r p]|].
  2:{ split; [done|]. by intros (? & (? & ? & ? & _) & _). }
  rewrite (tracks_by_wire _ _ Htr), (dict_get_map (λ x, (su_datatype x, verified_match_graph x))).
  destruct (dict_get (r +:+ "." +:+ p) (by_wire sc)) as [x|] eqn:Hx; cbn.
  2:{ split; [done|]. intros (? & (? & ? & [= <- <-] & ?) & _). congruence. }
  destruct (scope_index _ _ Hsc _ _ Hx) as [_ Hkey].
  rewrite !bind_unit_Ok, !raise_if_Ok, negb_false_iff, bool_decide_eq_true, andb_false_iff, negb_false_iff.
  split.
  - intros (Hd & Hv & [= <-]). exists x. split; [by eexists _, _|]. split; [|by rewrite Hkey]. split; [done|].
    intros Hr. destruct Hv as [Hv|]; [|done]. unfold Graph._requires_verified_match_graph in Hv.
    unfold Pipelines._requires_verified_match_graph in Hr. cbn in Hr. congruence.
  - intros (y & (r' & p' & [= <- <-] & Hy) & (Hd & Hv) & ->). rewrite Hx in Hy. injection Hy as <-.
    split; [done|]. split; [|by rewrite Hkey].
    destruct (Graph._requires_verified_match_graph (ps_processor s) role) eqn:Hr; [right|by left].
    by apply Hv.
Qed.

Lemma wire_keys_Ok role port vs acc keys :
  fold_res (λ keys v, key ← check_wire_value pid s g role (datatype port) v; Ok (keys ++ [key])) acc vs = Ok keys ↔
  ∃ xs, Forall2 (reads sc) (wire_value <$> vs) xs ∧ Forall (fits (core_step s) role port) xs ∧
    keys = acc ++ (wire_ref <$> xs).
Proof using Htr Hsc.
  revert acc. induction vs as [|v vs IH]; intros acc; cbn [fold_res fmap list_fmap].
  { split.
    - intros [= <-]. exists []. rewrite app_nil_r. by split_and!; try constructor.
    - intros (xs & Hxs & _ & ->). inversion Hxs. cbn. by rewrite app_nil_r. }
  rewrite bind_Ok. setoid_rewrite bind_Ok. setoid_rewrite check_wire_value_Ok. split.
  - intros (? & (? & (x & Hr & Hf & ->) & [= <-]) & (xs & Hrs & Hfs & ->)%IH).
    exists (x :: xs). split_and!; [by constructor..|]. cbn. by rewrite <-app_assoc.
  - intros (xs & Hrs & Hfs & ->). inversion Hrs as [|? x ? xs' Hr Hrs']; subst. inversion Hfs; subst.
    exists (acc ++ [wire_ref x]). split; [by eexists _; split; [by exists x|]|].
    apply IH. exists xs'. split_and!; [done..|]. cbn. by rewrite <-app_assoc.
Qed.

Lemma check_wired_Ok role port raw :
  check_wired pid s g role port raw = Ok tt ↔ wired_ok (core_step s) role port sc (wire_value raw).
Proof using Htr Hsc.
  unfold check_wired, wired_ok. cbn zeta. rewrite wire_values_value.
  rewrite !bind_unit_Ok, !raise_if_Ok, bind_Ok. setoid_rewrite wire_keys_Ok.
  setoid_rewrite bind_unit_Ok. setoid_rewrite raise_if_Ok.
  assert (is_list (wire_value raw) = match raw with Many _ => true | One _ => false end) as Hl by (by destruct raw).
  rewrite Hl. split.
  - intros (Hm & Hne & keys & (xs & Hr & Hf & ->) & Hd & H2). exists xs. split_and!; try done.
    + intros Hmul. rewrite Hmul in Hm. by destruct raw.
    + intros Hmul. rewrite Hmul in Hd, H2. cbn [app andb] in Hd, H2.
      apply negb_false_iff, distinct_keys in Hd. split; [done|]. intros Hreq. rewrite Hreq in H2. cbn in H2.
      apply bool_decide_eq_false in H2. rewrite remove_dups_NoDup, length_fmap in H2 by done. lia.
  - intros (xs & Hr & Hf & Hlist & Hmul). pose proof (Forall2_length _ _ _ Hr) as Hlen. rewrite length_fmap in Hlen.
    split; [|split]; [|..].
    + destruct (multiple port); [by destruct raw|]. specialize (Hlist eq_refl). by destruct raw.
    + apply not_true_iff_false. intros [Hn Hreq]%andb_true_iff. apply is_nil_iff in Hn.
      destruct (multiple port) eqn:Em; [|done]. destruct (Hmul eq_refl) as [_ H2]. specialize (H2 Hreq).
      rewrite Hn in Hlen. cbn in Hlen. lia.
    + eexists. split; [by exists xs|]. cbn [app]. destruct (multiple port) eqn:Em; [|done].
      destruct (Hmul eq_refl) as [Hnd H2]. split.
      * cbn. apply negb_false_iff. by apply distinct_keys.
      * destruct (required port); [|done]. cbn. apply bool_decide_eq_false.
        rewrite remove_dups_NoDup, length_fmap by done. specialize (H2 eq_refl). lia.
Qed.
End ports.

(** ** Open ports *)

(** References without a dot: pairs and wire references distinguish the same
    supplies. *)
Definition dotless (sc : Scope) : Prop := ∀ x, x ∈ available sc → str_mem "." (su_ref x) = false.

Lemma wire_ref_inj x y :
  str_mem "." (su_ref x) = false → str_mem "." (su_ref y) = false → wire_ref x = wire_ref y →
  (su_ref x, su_port x) = (su_ref y, su_port y).
Proof.
  intros Hx Hy H. pose proof (partition_on_app "." (su_ref x) (su_port x) Hx) as Px.
  pose proof (partition_on_app "." (su_ref y) (su_port y) Hy) as Py.
  change (partition_on "." (wire_ref x) = Some (su_ref x, su_port x)) in Px.
  change (partition_on "." (wire_ref y) = Some (su_ref y, su_port y)) in Py. congruence.
Qed.

Lemma remove_dups_fmap_inj {A B C} `{EqDecision B, EqDecision C} (f : A → B) (h : A → C) (l : list A) :
  (∀ x y, x ∈ l → y ∈ l → f x = f y ↔ h x = h y) →
  length (remove_dups (f <$> l)) = length (remove_dups (h <$> l)).
Proof.
  induction l as [|x l IH]; intros Hfh; cbn; [done|].
  assert (length (remove_dups (f <$> l)) = length (remove_dups (h <$> l))) as IH'.
  { apply IH. intros a b Ha Hb. apply Hfh; by apply list_elem_of_further. }
  assert (f x ∈ f <$> l ↔ h x ∈ h <$> l) as Hin.
  { rewrite !list_elem_of_fmap. split; intros (y & Hy & Hl); exists y; (split; [|done]);
      apply (Hfh x y); try done; list_in; done. }
  unfold decide_rel. destruct (list_elem_of_dec (f x) (f <$> l)), (list_elem_of_dec (h x) (h <$> l)); cbn; try tauto; lia.
Qed.

Section open.
Context (g : graph_state) (sc : Scope).
Context (Htr : tracks g sc) (Hdot : dotless sc).
Context (pid : string) (s : PluginPipelineStepManifest).

Lemma rows_filter dt :
  filter (λ r, row_datatype r = dt) (g_available g) = row_of <$> filter (λ x, su_datatype x = dt) (available sc).
Proof using Htr.
  rewrite (tracks_available _ _ Htr). generalize (available sc). intros l.
  induction l as [|x l IH]; [done|]. cbn [fmap list_fmap]. rewrite !filter_cons.
  change (row_datatype (row_of x)) with (su_datatype x). rewrite IH. by case_decide.
Qed.

Lemma existsb_rows c : existsb row_verified (row_of <$> c) = true ↔ ∃ x, x ∈ c ∧ verified_match_graph x = true.
Proof using Type.
  rewrite existsb_exists. setoid_rewrite <-list_elem_of_In. split.
  - intros (r & (x & -> & Hx)%list_elem_of_fmap & Hv). by exists x.
  - intros (x & Hx & Hv). exists (row_of x). split; [by apply list_elem_of_fmap_2|done].
Qed.

Lemma pairs_as_refs c :
  (∀ x, x ∈ c → x ∈ available sc) →
  length (remove_dups ((λ r, (row_ref r, row_port r)) <$> (row_of <$> c))) = length (remove_dups (wire_ref <$> c)).
Proof using Hdot.
  intros Hc. rewrite <-list_fmap_compose. apply remove_dups_fmap_inj. intros x y Hx Hy. split.
  - intros [= H1 H2]. cbn in H1, H2. unfold wire_ref. by rewrite H1, H2.
  - intros H. cbn. apply wire_ref_inj; [apply Hdot; auto..|done].
Qed.

Lemma remove_dups_length_pos {A} `{EqDecision A} (l : list A) : l ≠ [] → 1 ≤ length (remove_dups l).
Proof using Type.
  destruct l as [|x l]; [done|]. intros _.
  assert (x ∈ remove_dups (x :: l)) as Hx by (apply elem_of_remove_dups; list_in).
  destruct (remove_dups (x :: l)); [by apply elem_of_nil in Hx|cbn; lia].
Qed.

Lemma check_open_Ok role port : check_open pid s g role port = Ok tt ↔ open_ok (core_step s) role port sc.
Proof using Htr Hdot.
  unfold check_open, open_ok. cbn zeta. destruct (required port); cbn [negb]; [|done].
  rewrite rows_filter. set (c := filter (λ x, su_datatype x = datatype port) (available sc)).
  assert (∀ x, x ∈ c → x ∈ available sc) as Hc by (by intros x [_ ?]%list_elem_of_filter).
  rewrite !bind_unit_Ok, !raise_if_Ok, pairs_as_refs, length_fmap by done.
  change (Pipelines._requires_verified_match_graph (processor (core_step s)) role)
    with (Graph._requires_verified_match_graph (ps_processor s) role).
  assert (is_nil (row_of <$> c) = false ↔ c ≠ []) as -> by (rewrite <-not_true_iff_false, is_nil_iff; by destruct c).
  rewrite !andb_false_iff, !bool_decide_eq_false, !negb_false_iff, existsb_rows. split.
  - intros (Hne & H1 & H2 & H3) _. pose proof (remove_dups_length_pos (wire_ref <$> c)) as Hpos.
    assert (wire_ref <$> c ≠ []) as Hne' by (by rewrite fmap_nil_iff). specialize (Hpos Hne').
    split_and!.
    + intros Hm. destruct H2 as [H2|]; [|congruence]. destruct c; [done|]. cbn in *. lia.
    + intros Hm. destruct H1; [congruence|lia].
    + intros Hr. destruct H3; [congruence|done].
  - intros H. destruct (H eq_refl) as (H1 & H2 & H3). split_and!.
    + intros ->. destruct (multiple port); [specialize (H2 eq_refl); cbn in H2; lia|by specialize (H1 eq_refl)].
    + destruct (multiple port); [right; specialize (H2 eq_refl); lia|by left].
    + destruct (multiple port); [by right|left; rewrite H1 by done; lia].
    + destruct (Graph._requires_verified_match_graph _ _); [right; by apply H3|by left].
Qed.
End open.

(** ** Steps *)

Section steps.
Context (is_data_type : string → bool).
Context (processor_ports : dict ports) (attrs : dict (list PluginAttributeManifest)) (known : list string).

Abbreviation lookup := (merged_lookup processor_ports attrs known).

Lemma graph_port_Ok g sc refs pid s rp :
  tracks g sc → scope_ok sc refs → dotless sc →
  check_graph_port pid s g rp = Ok tt ↔ port_ok (core_step s) sc rp.
Proof using Type.
  intros Htr Hsc Hdot. destruct rp as [role port]. unfold check_graph_port, port_ok. cbn [fst snd wires core_step].
  rewrite (dict_get_map wire_value). destruct (dict_get role (ps_wires s)) as [raw|]; cbn.
  - by eapply check_wired_Ok.
  - by eapply check_open_Ok.
Qed.

Lemma graph_step_Ok g sc refs pid s p g' :
  tracks g sc → scope_ok sc refs → dotless sc → lookup (ps_processor s) = Some p →
  graph_step pid processor_ports attrs known g s = Ok g' ↔
  step_ok is_data_type (core_step s) p sc ∧ g' = add_rows (supply_rows s (supplier p)) g.
Proof using Type.
  intros Htr Hsc Hdot Hp. unfold graph_step. unfold merged_lookup in Hp.
  destruct (dict_get (ps_processor s) processor_ports) as [[consumer supplier]|]; [|done].
  cbn in Hp. injection Hp as <-. cbn [Processors.supplier].
  rewrite !bind_unit_Ok, (step_attributes_Ok is_data_type), reject_listed_Ok, py_difference_nil, for_each_Ok.
  assert (∀ rp, check_graph_port pid s g rp = Ok tt ↔ port_ok (core_step s) sc rp) as Hport
    by (intros rp; by eapply graph_port_Ok).
  setoid_rewrite Hport. split.
  - intros (Ha & Hw & Hps & [= <-]). split; [|done]. split.
    + cbn. by rewrite app_nil_r.
    + intros role. cbn [wires core_step]. rewrite dict_keys_map. apply Hw.
    + exact Hps.
  - intros ([Ha Hw Hps] & ->). cbn in Ha. rewrite app_nil_r in Ha. split_and!; try done.
    intros role Hrole. apply Hw. cbn [wires core_step]. by rewrite dict_keys_map.
Qed.

Lemma dotless_add sc s p r :
  dotless sc → str_mem "." (ps_ref s) = false →
  dotless (add_supplies (step_supplies (core_step s) p) (see_ref r sc)).
Proof using Type.
  intros Hd Hs x. cbn. intros [Hx|Hx]%elem_of_app; [by apply Hd|].
  by rewrite (step_supplies_ref _ _ _ Hx).
Qed.

(** Steps with distinct, dotless references and known processors. *)
Lemma graph_steps_Ok pid steps : ∀ g sc refs,
  tracks g sc → scope_ok sc refs → dotless sc →
  (∀ s, s ∈ steps → is_Some (dict_get (ps_processor s) processor_ports)) →
  (∀ s, s ∈ steps → str_mem "." (ps_ref s) = false ∧ ps_ref s ∉ seen_refs sc) → NoDup (ps_ref <$> steps) →
  (∃ g', fold_res (graph_step pid processor_ports attrs known) g steps = Ok g') ↔
  typed_steps is_data_type lookup sc (core_step <$> steps).
Proof using Type.
  induction steps as [|s steps IH]; intros g sc refs Htr Hsc Hdot Hknown Hrefs Hnd.
  { split; [constructor|]. intros _. by exists g. }
  cbn [fmap list_fmap] in *. apply NoDup_cons in Hnd as [Hs Hnd].
  destruct (Hrefs s ltac:(list_in)) as [Hsd Hseen].
  assert (∃ p, lookup (ps_processor s) = Some p) as [p Hp].
  { destruct (Hknown s ltac:(list_in)) as [cs Hcs]. unfold merged_lookup. rewrite Hcs. by eexists. }
  set (sc' := add_supplies (step_supplies (core_step s) p) (see_ref (ps_ref s) sc)).
  assert ((∃ g', fold_res (graph_step pid processor_ports attrs known)
             (add_rows (supply_rows s (supplier p)) g) steps = Ok g') ↔
          typed_steps is_data_type lookup sc' (core_step <$> steps)) as Hrest.
  { apply (IH _ _ (refs ++ [ps_ref s])); try done.
    - rewrite supply_rows_of. apply tracks_add. by apply tracks_see.
    - apply scope_ok_add; [by destruct Hsc|]. intros x. apply step_supplies_ref.
    - by apply dotless_add.
    - intros t Ht. apply Hknown. by apply list_elem_of_further.
    - intros t Ht. destruct (Hrefs t) as [Htd Hts]; [by apply list_elem_of_further|]. split; [done|].
      cbn. intros [Heq|]%elem_of_cons; [|done]. apply Hs. rewrite <-Heq. by apply list_elem_of_fmap_2. }
  cbn [fold_res]. setoid_rewrite bind_Ok.
  assert (∀ g1, graph_step pid processor_ports attrs known g s = Ok g1 ↔ _) as Hstep
    by (intros g1; eapply (graph_step_Ok g sc refs pid s p g1); done).
  setoid_rewrite Hstep. split.
  - intros (g' & g1 & [Hok ->] & Hg'). eapply typed_cons; [done|exact Hp|done|]. apply Hrest. by exists g'.
  - intros H. inversion H as [|? ? p' ? Hfr Hp' Hok Ht]; subst. cbn in Hp'. rewrite Hp in Hp'. injection Hp' as <-.
    apply Hrest in Ht as [g' Hg']. exists g'. by eexists.
Qed.
End steps.
