(* ===== verification/GraphGuarantees.v ===== *)
(** What the plugin hub's manifest checks promise: they agree with the server's
    own pipeline validator, accept exactly the coherent declarations, and only
    extend the core registry conservatively. *)
From S2P Require Import Prelude PyValue Attributes Processors Pipelines PipelineFacts HubManifest HubGraph HubGraphFacts.
From stdpp Require Import options.
Import Attributes Processors Pipelines Manifest Graph.

#[local] Opaque str_repr.

(** ** Identifiers *)

Lemma all_chars_mem p c s : all_chars p s = true → p c = false → str_mem c s = false.
Proof.
  intros H Hc. induction s as [|a s IH]; cbn in *; [done|]. apply andb_true_iff in H as [Ha Hs].
  case_decide; [congruence|auto].
Qed.

Lemma word_of_mem first rest c s :
  word_of first rest s = true → first c = false → rest c = false → str_mem c s = false.
Proof.
  destruct s as [|a s]; cbn; [done|]. intros [Ha Hs]%andb_true_iff Hf Hr.
  case_decide; [congruence|]. by eapply all_chars_mem.
Qed.

Lemma role_dotless s : _ROLE_RE s = true → str_mem "." s = false.
Proof. intros H. by apply (word_of_mem _ _ _ _ H). Qed.

Lemma valid_step_ref s : valid_step s = true → str_mem "." (ps_ref s) = false ∧ ps_ref s ≠ "inputs".
Proof.
  unfold valid_step. rewrite !andb_true_iff, negb_true_iff, bool_decide_eq_false.
  intros [[[H Hi] _] _]. split; [by apply role_dotless|done].
Qed.

(** The facts of a pipeline its own model checked. *)
Lemma valid_pipeline_facts p :
  valid_pipeline p = true →
  NoDup (pl_inputs p) ∧ NoDup (ps_ref <$> pl_steps p) ∧
  ∀ s, s ∈ pl_steps p → str_mem "." (ps_ref s) = false ∧ ps_ref s ≠ "inputs".
Proof.
  unfold valid_pipeline, _initial_inputs_format, _refs_unique.
  rewrite !andb_true_iff, !is_nil_iff, !py_duplicates_nil, (forallb_forall valid_step).
  intros [[[[_ [_ Hi]] _] Hs] Hr]. split_and!; [done|done|]. intros s Hin.
  apply valid_step_ref. apply Hs. by apply list_elem_of_In.
Qed.

(** ** The graph check *)

Section graph.
Context (is_data_type : string → bool).

Lemma pipeline_graph_Ok p processor_ports attrs known :
  valid_pipeline p = true →
  (∀ s, s ∈ pl_steps p → is_Some (dict_get (ps_processor s) processor_ports)) →
  _validate_pipeline_graph p processor_ports attrs known = Ok tt ↔
  _strict_validate_pipeline is_data_type (merged_lookup processor_ports attrs known)
    (core_step <$> pl_steps p) (pl_inputs p) = [].
Proof using Type.
  intros (Hi & Hr & Hs)%valid_pipeline_facts Hknown.
  unfold _strict_validate_pipeline. rewrite app_nil, fmap_nil_iff, py_duplicates_nil, strict_steps_ok.
  assert ((∃ g', fold_res (graph_step (pl_id p) processor_ports attrs known) (initial_graph (pl_inputs p))
             (pl_steps p) = Ok g') ↔
          typed_steps is_data_type (merged_lookup processor_ports attrs known) (initial_scope (pl_inputs p))
            (core_step <$> pl_steps p)) as Hsteps.
  { apply (graph_steps_Ok is_data_type processor_ports attrs known (pl_id p) (pl_steps p) _ _ []).
    - apply tracks_initial.
    - apply initial_scope_ok.
    - intros x. cbn. unfold initial_supplies. by intros (dt & -> & _)%list_elem_of_fmap.
    - done.
    - intros s Hin. destruct (Hs s Hin). split; [done|]. cbn. by intros ?%list_elem_of_singleton.
    - done. }
  rewrite <-Hsteps. unfold _validate_pipeline_graph. rewrite bind_Ok. split.
  - intros (g & Hg & _). split; [done|by exists g].
  - intros (_ & g & Hg). by exists g.
Qed.

(** The hub's pipeline check and the server's named-port validator agree: a
    pipeline manifest whose own model accepts it, over known processors, passes the
    hub's graph check exactly when the strict validator reports no error for the same
    steps over the processors the merged tables describe. *)
Lemma hub_graph_agrees (p : PluginPipelineManifest) (processor_ports : dict ports)
    (attrs : dict (list PluginAttributeManifest)) (known : list string) :
  valid_pipeline p = true →
  (∀ s, s ∈ pl_steps p → is_Some (dict_get (ps_processor s) processor_ports)) →
  _validate_pipeline_graph p processor_ports attrs known = Ok tt ↔
  _strict_validate_pipeline is_data_type (merged_lookup processor_ports attrs known)
    (core_step <$> pl_steps p) (pl_inputs p) = [].
Proof using Type. apply pipeline_graph_Ok. Qed.
End graph.

(** ** Attribute schemas *)

Section schema.
Context (is_data_type : string → bool) (known : list string).

Lemma distinct_reprs l : length (remove_dups (str_repr <$> l)) = length (remove_dups l).
Proof.
  pose proof (remove_dups_fmap_inj str_repr id l) as H. rewrite list_fmap_id in H. apply H.
  intros x y _ _. split; [apply str_repr_inj|unfold id; by intros ->].
Qed.

Lemma range_Ok {E} (b lo hi : bool) (e1 e2 : E) :
  (if b then _ ← raise_if lo e1; raise_if hi e2 else Ok tt) = Ok tt ↔ (b = true → lo = false ∧ hi = false).
Proof. destruct b; [|naive_solver]. rewrite bind_unit_Ok, !raise_if_Ok. naive_solver. Qed.

(** The hub's schema check and the construction checks of the server's attributes. *)
Lemma schema_as_post_init a :
  valid_attribute a = true →
  _validate_attribute_schema known a = Ok tt ↔ post_init is_data_type (core_attribute known a) = Ok tt.
Proof.
  unfold valid_attribute, _enum_has_values. rewrite !andb_true_iff, !negb_true_iff, bool_decide_eq_true.
  intros [[_ Ht] [Hen Hreq]].
  unfold _validate_attribute_schema, post_init.
  cbn [a_type a_enum a_min a_max a_required a_has_default a_default a_datatype_lookup core_attribute].
  assert (bool_decide (pa_enum a = []) = is_nil (pa_enum a)) as -> by (by destruct (pa_enum a)).
  rewrite !bind_unit_Ok, !raise_if_Ok, Hreq, Hen, distinct_reprs, (bool_decide_true _ Ht).
  change (numeric (core_attribute known a)) with (is_numeric a).
  assert (∀ v, _value_matches_attribute a v known = false ↔
    _type_ok is_data_type (core_attribute known a) v (Some (λ s, bool_decide (s ∈ known))) = false) as Htype by done.
  assert (match pa_default a with
    | Some d =>
        _ ← raise_if (is_none d) (attribute_says a "default cannot be null");
        _ ← raise_if (negb (_value_matches_attribute a d known))
              (attribute_says a ("default must match type " +:+ str_repr (pa_type a)));
        if is_numeric a && is_number d then
          _ ← raise_if (under_min a d) (attribute_says a "default must be >= min");
          raise_if (over_max a d) (attribute_says a "default must be <= max")
        else Ok tt
    | None => Ok tt
    end = Ok tt ↔
    ∀ d, pa_default a = Some d → is_none d = false ∧ _value_matches_attribute a d known = true ∧
      (is_numeric a && is_number d = true → under_min a d = false ∧ over_max a d = false)) as ->.
  { destruct (pa_default a) as [d|]; [|naive_solver].
    rewrite !bind_unit_Ok, !raise_if_Ok, range_Ok, negb_false_iff. naive_solver. }
  destruct (pa_default a) as [d|]; cbn [present default from_option];
    rewrite ?bind_unit_Ok, ?raise_if_Ok, ?range_Ok, ?negb_false_iff;
    destruct (bool_decide (pa_type a = "enum")) eqn:Ee, (pa_enum a) as [|e l]; cbn [negb andb is_nil] in *;
    rewrite ?negb_false_iff, ?bool_decide_eq_true; cbn; naive_solver.
Qed.
End schema.

(** ** The merged tables *)

(** [t'] extends [t]: no entry is lost, suppliers are unchanged, and consumers and
    attributes of the entries only gain optional ones under new names. *)
Record extends (t t' : dict ports * dict (list PluginAttributeManifest)) : Prop := {
  extends_ports : ∀ id c s, dict_get id t.1 = Some (c, s) → ∃ new,
    dict_get id t'.1 = Some (c ++ new, s) ∧ ∀ rp, rp ∈ new → required rp.2 = false ∧ rp.1 ∉ dict_keys c;
  extends_attrs : ∀ id, is_Some (dict_get id t.1) → ∃ new,
    default [] (dict_get id t'.2) = default [] (dict_get id t.2) ++ new ∧
    ∀ a, a ∈ new → pa_required a = false ∧ pa_name a ∉ pa_name <$> default [] (dict_get id t.2)
}.

Lemma extends_keys t t' id : extends t t' → is_Some (dict_get id t.1) → is_Some (dict_get id t'.1).
Proof. intros [H _] [[c s] Hg]. destruct (H _ _ _ Hg) as (new & -> & _). done. Qed.

Lemma extends_same t t' :
  (∀ id, is_Some (dict_get id t.1) → dict_get id t'.1 = dict_get id t.1 ∧ dict_get id t'.2 = dict_get id t.2) →
  extends t t'.
Proof.
  intros H. split.
  - intros id c s Hg. exists []. destruct (H id ltac:(by rewrite Hg)) as [-> _]. rewrite app_nil_r.
    split; [done|]. by intros rp ?%elem_of_nil.
  - intros id Hid. exists []. destruct (H id Hid) as [_ ->]. rewrite app_nil_r. split; [done|].
    by intros a ?%elem_of_nil.
Qed.

#[export] Instance extends_refl : Reflexive extends.
Proof. intros t. by apply extends_same. Qed.

#[export] Instance extends_trans : Transitive extends.
Proof.
  intros t1 t2 t3 E12 [P23 A23]. pose proof (λ id, extends_keys t1 t2 id E12) as K12. destruct E12 as [P12 A12]. split.
  - intros id c s H. destruct (P12 _ _ _ H) as (n1 & H2 & N1). destruct (P23 _ _ _ H2) as (n2 & H3 & N2).
    exists (n1 ++ n2). rewrite app_assoc. split; [done|]. intros rp [Hr|Hr]%elem_of_app; [by apply N1|].
    destruct (N2 _ Hr) as [? Hk]. split; [done|]. rewrite fmap_app in Hk. set_solver.
  - intros id Hid. destruct (A12 id Hid) as (n1 & H2 & N1). destruct (A23 id (K12 id Hid)) as (n2 & H3 & N2).
    exists (n1 ++ n2). rewrite app_assoc, <-H2. split; [done|]. intros a [Ha|Ha]%elem_of_app; [by apply N1|].
    destruct (N2 _ Ha) as [? Hk]. split; [done|]. rewrite H2, fmap_app in Hk. set_solver.
Qed.

(** Merging a dictionary whose keys are new and distinct appends it. *)
Lemma dict_merge_fresh {V} (a b : dict V) :
  NoDup (dict_keys b) → (∀ k, k ∈ dict_keys b → k ∉ dict_keys a) → dict_merge a b = a ++ b.
Proof.
  unfold dict_merge. revert a. induction b as [|[k v] b IH]; intros a Hd Hk; cbn; [by rewrite app_nil_r|].
  cbn in Hd, Hk. apply NoDup_cons in Hd as [Hkb Hd]. rewrite dict_set_fresh by set_solver.
  rewrite IH; [by rewrite <-app_assoc|done|]. intros x Hx. rewrite fmap_app. cbn. set_solver.
Qed.

Definition extension_distinct (e : PluginProcessorExtensionManifest) : Prop := NoDup (dict_keys (pe_inputs e)).

Lemma valid_extension_facts e :
  valid_extension e = true →
  (∀ rp, rp ∈ pe_inputs e → required rp.2 = false) ∧
  (∀ a, a ∈ pe_attributes e → pa_required a = false ∧ valid_attribute a = true).
Proof.
  unfold valid_extension. rewrite !andb_true_iff, !forallb_forall. intros [[[_ Hi] Ha] _]. split.
  - intros rp Hrp%list_elem_of_In. apply Hi in Hrp. rewrite !andb_true_iff, negb_true_iff in Hrp. naive_solver.
  - intros a Hin%list_elem_of_In. apply Ha in Hin. rewrite !andb_true_iff, negb_true_iff in Hin. naive_solver.
Qed.

Lemma merge_extension_extends t e t' :
  valid_extension e = true → extension_distinct e → merge_extension t e = Ok t' → extends t t'.
Proof.
  intros [Hreq Hattr]%valid_extension_facts Hdist. unfold merge_extension.
  destruct (dict_get (pe_id e) t.1) as [[c s]|] eqn:Hg; [|done].
  rewrite !bind_unit_Ok, !reject_listed_Ok, py_intersection_nil. intros (Hport & Hname & [= <-]).
  assert (∀ a, a ∈ pe_attributes e → pa_name a ∉ pa_name <$> default [] (dict_get (pe_id e) t.2)) as Hfresh.
  { intros a Ha Hin. rewrite list_nil_elem in Hname. apply (Hname (pa_name a)).
    rewrite elem_of_py_sorted, list_elem_of_filter. split; [done|by apply list_elem_of_fmap_2]. }
  rewrite dict_merge_fresh; [|done|by intros k Hk; apply Hport]. split; cbn.
  - intros id c0 s0 H0. destruct (decide (id = pe_id e)) as [->|Hne].
    + rewrite Hg in H0. injection H0 as <- <-. exists (pe_inputs e). rewrite dict_get_set_eq. split; [done|].
      intros rp Hrp. split; [by apply Hreq|]. apply Hport. by apply (list_elem_of_fmap_2 fst).
    + exists []. rewrite dict_get_set_ne, app_nil_r by done. split; [done|]. by intros rp ?%elem_of_nil.
  - intros id _. destruct (decide (id = pe_id e)) as [->|Hne].
    + exists (pe_attributes e). rewrite dict_get_set_eq. split; [done|]. intros a Ha.
      split; [by apply Hattr|by apply Hfresh].
    + exists []. rewrite dict_get_set_ne, app_nil_r by done. split; [done|]. by intros a ?%elem_of_nil.
Qed.

Lemma merge_extensions_extend l t t' :
  (∀ e, e ∈ l → valid_extension e = true ∧ extension_distinct e) →
  fold_res merge_extension t l = Ok t' → extends t t'.
Proof.
  revert t. induction l as [|e l IH]; intros t Hl; cbn; [by intros [= ->]|].
  intros (t1 & H1 & H2)%bind_Ok. destruct (Hl e ltac:(list_in)) as [Hv Hd].
  transitivity t1; [by eapply merge_extension_extends|]. apply IH; [|done].
  intros e' He'. apply Hl. by apply list_elem_of_further.
Qed.

(** ** Conservativity *)

Section conservative.
Context (is_data_type : string → bool).

(** Growing the vocabulary keeps every well-typed binding. *)
Lemma binding_ok_known a v k1 k2 :
  k1 ⊆ k2 → binding_ok is_data_type None (core_attribute k1 a) v →
  binding_ok is_data_type None (core_attribute k2 a) v.
Proof using Type.
  intros Hk [Hn Ht Hlo Hhi]. split; try done. revert Ht. unfold _type_ok.
  cbn [a_type a_enum a_datatype_lookup core_attribute]. repeat case_decide; try done.
  destruct v; try done. rewrite !bool_decide_eq_true. apply Hk.
Qed.

Lemma open_ok_optional s role port sc : required port = false → open_ok s role port sc.
Proof using Type. intros H. unfold open_ok. by rewrite H. Qed.

Lemma step_ok_extends s c sup new at1 at2 k1 k2 sc id :
  k1 ⊆ k2 →
  (∀ rp : string * PortSpec, rp ∈ new → required rp.2 = false ∧ rp.1 ∉ dict_keys c) →
  (∀ a, a ∈ at2 → pa_required a = false ∧ pa_name a ∉ pa_name <$> at1) →
  step_ok is_data_type s (mkProcessor id "" c sup (core_attribute k1 <$> at1) "" [] None [] [] []) sc →
  step_ok is_data_type s (mkProcessor id "" (c ++ new) sup (core_attribute k2 <$> (at1 ++ at2)) "" [] None [] [] []) sc.
Proof using Type.
  intros Hk Hnew Hat [[Hn Hf] Hw Hp].
  unfold _processor_attributes, _processor_consumer, dict_merge in *. cbn in *. rewrite app_nil_r in *.
  assert (∀ k at0, a_name <$> (core_attribute k <$> at0) = pa_name <$> at0) as Hnames
    by (intros; by rewrite <-list_fmap_compose).
  rewrite Hnames in Hn. split; unfold _processor_attributes, _processor_consumer, dict_merge; cbn.
  - rewrite app_nil_r. split.
    + intros name Hin. rewrite Hnames, fmap_app. set_solver.
    + intros a' (a & -> & [Ha|Ha]%elem_of_app)%list_elem_of_fmap.
      * specialize (Hf (core_attribute k1 a) (list_elem_of_fmap_2 _ _ _ Ha)). cbn in *.
        destruct (dict_get (pa_name a) (s_attributes s)); [|done]. by apply (binding_ok_known _ _ k1).
      * destruct (Hat a Ha) as [Hr Hnm]. cbn. destruct (dict_get (pa_name a) (s_attributes s)) eqn:E; [|done].
        exfalso. apply Hnm, Hn. by apply dict_get_Some_key in E.
  - intros role Hrole. rewrite fmap_app. apply Hw in Hrole. set_solver.
  - intros rp [Hrp|Hrp]%elem_of_app; [by apply Hp|]. destruct (Hnew _ Hrp) as [Hopt Hr]. unfold port_ok.
    destruct (dict_get rp.1 (wires s)) eqn:E; [|by apply open_ok_optional].
    exfalso. apply Hr, Hw. by apply dict_get_Some_key in E.
Qed.

Lemma typed_steps_extends t t' k1 k2 sc steps :
  k1 ⊆ k2 → extends t t' →
  typed_steps is_data_type (merged_lookup t.1 t.2 k1) sc steps →
  typed_steps is_data_type (merged_lookup t'.1 t'.2 k2) sc steps.
Proof using Type.
  intros Hk [Hp Ha]. induction 1 as [sc|sc s p steps Hfresh Hlk Hok _ IH]; [constructor|].
  unfold merged_lookup in Hlk. destruct (dict_get (processor s) t.1) as [[c sup]|] eqn:Hg; [|done].
  cbn in Hlk. injection Hlk as <-. destruct (Hp _ _ _ Hg) as (new & Hg' & Hnew).
  destruct (Ha (processor s)) as (at2 & Hat & Hat2); [by rewrite Hg|].
  eapply typed_cons; [done| | |].
  - unfold merged_lookup. rewrite Hg'. cbn. rewrite Hat. done.
  - by eapply step_ok_extends.
  - exact IH.
Qed.
End conservative.

(** ** Coherent declarations *)

Section declarations.
Context (is_data_type : string → bool) (core_dts : list string).
Context (d : declarations).

Abbreviation known := (known_datatypes core_dts d).
Abbreviation core_tables := (_core_processor_ports, _core_processor_attributes).

Lemma keys_of {A V} (f : A → string) (g : A → V) (l : list A) : dict_keys ((λ x, (f x, g x)) <$> l) = f <$> l.
Proof using Type. by rewrite <-list_fmap_compose. Qed.

Lemma initial_keys id : id ∈ dict_keys (initial_tables d).1 ↔ id ∈ known_processors d.
Proof using Type.
  unfold initial_tables, known_processors, _plugin_processor_ports, _core_processor_ids, _core_processor_ports.
  cbn [fst]. rewrite !dict_keys_merge, elem_of_app, !keys_of. split.
  - intros [H|[H%elem_of_nil|H]]; [left; exact H|done|right; exact H].
  - intros [H|H]; [left; exact H|right; right; exact H].
Qed.

Lemma initial_extends_core :
  (∀ id, id ∈ pp_id <$> d_processors d → id ∉ _core_processor_ids) → extends core_tables (initial_tables d).
Proof using Type.
  intros Hsh. apply extends_same. intros id Hid%dict_get_is_Some. cbn [fst] in Hid.
  assert (id ∈ _core_processor_ids) as Hc.
  { unfold _core_processor_ids, _core_processor_ports in *. by rewrite keys_of in Hid. }
  unfold initial_tables, _plugin_processor_ports, _plugin_processor_attributes. cbn [fst snd].
  rewrite !dict_merge_get_l; [done|..]; intros Hin%dict_keys_merge; rewrite keys_of in Hin;
    (destruct Hin as [?%elem_of_nil|Hin]; [done|]; by apply (Hsh id)).
Qed.

(** Every model of the declarations accepted its own part. *)
Record parts_valid : Prop := {
  valid_processors : ∀ p, p ∈ d_processors d → valid_processor p = true;
  valid_pipelines : ∀ p, p ∈ d_pipelines d → valid_pipeline p = true;
  valid_extensions : ∀ e, e ∈ d_extensions d → valid_extension e = true ∧ extension_distinct e
}.

(** What the declarations must satisfy together, over merged tables [t]. *)
Record coherent (declared : option (list string)) (provider_sets : option (list (list string)))
    (prefixes : option (list string)) (t : dict ports * dict (list PluginAttributeManifest)) : Prop := {
  coherent_ids : NoDup (type_id <$> d_datatypes d) ∧ NoDup (pp_id <$> d_processors d) ∧
    NoDup (pe_id <$> d_extensions d) ∧ NoDup (pl_id <$> d_pipelines d);
  coherent_fresh :
    (∀ x, x ∈ type_id <$> d_datatypes d → x ∉ core_dts) ∧
    (∀ x, x ∈ pp_id <$> d_processors d → x ∉ _core_processor_ids) ∧
    (∀ x, x ∈ pl_id <$> d_pipelines d → x ∉ _core_pipeline_ids);
  coherent_declared : ∀ l p, declared = Some l → p ∈ d_processors d → pp_capabilities p ⊆ l;
  coherent_provided : ∀ sets p, provider_sets = Some sets → p ∈ d_processors d →
    ∃ l, l ∈ sets ∧ pp_capabilities p ⊆ l;
  coherent_attributes : ∀ a,
    (∃ p, p ∈ d_processors d ∧ a ∈ pp_attributes p) ∨ (∃ e, e ∈ d_extensions d ∧ a ∈ pe_attributes e) →
    post_init is_data_type (core_attribute known a) = Ok tt;
  coherent_ports : ∀ p rp, p ∈ d_processors d → rp ∈ dict_merge (pp_consumer p) (pp_supplier p) →
    datatype rp.2 ∈ known;
  coherent_extensions : ∀ e, e ∈ d_extensions d → pe_id e ∈ known_processors d ∧
    ∀ rp, rp ∈ pe_inputs e → datatype rp.2 ∈ known;
  coherent_namespace : ∀ l e n, prefixes = Some l → e ∈ d_extensions d →
    n ∈ dict_keys (pe_inputs e) ∨ n ∈ pa_name <$> pe_attributes e → ∃ p r, p ∈ l ∧ n = p +:+ "." +:+ r;
  coherent_merge : fold_res merge_extension (initial_tables d) (d_extensions d) = Ok t;
  coherent_pipelines : ∀ p, p ∈ d_pipelines d → pl_inputs p ⊆ known ∧
    (∀ s, s ∈ pl_steps p → ps_processor s ∈ known_processors d) ∧
    _strict_validate_pipeline is_data_type (merged_lookup t.1 t.2 known) (core_step <$> pl_steps p) (pl_inputs p) = []
}.

Lemma check_datatypes_Ok :
  check_datatypes core_dts d = Ok tt ↔
  NoDup (type_id <$> d_datatypes d) ∧ ∀ x, x ∈ type_id <$> d_datatypes d → x ∉ core_dts.
Proof using Type.
  unfold check_datatypes. by rewrite bind_unit_Ok, !reject_listed_Ok, py_duplicates_nil, py_intersection_nil.
Qed.

Lemma check_processor_ids_Ok :
  check_processor_ids d = Ok tt ↔
  NoDup (pp_id <$> d_processors d) ∧ ∀ x, x ∈ pp_id <$> d_processors d → x ∉ _core_processor_ids.
Proof using Type.
  unfold check_processor_ids. by rewrite bind_unit_Ok, !reject_listed_Ok, py_duplicates_nil, py_intersection_nil.
Qed.

Lemma check_pipeline_ids_Ok :
  check_pipeline_ids d = Ok tt ↔
  NoDup (pl_id <$> d_pipelines d) ∧ ∀ x, x ∈ pl_id <$> d_pipelines d → x ∉ _core_pipeline_ids.
Proof using Type.
  unfold check_pipeline_ids. by rewrite bind_unit_Ok, !reject_listed_Ok, py_duplicates_nil, py_intersection_nil.
Qed.

Lemma subset_iff a b : subset a b = true ↔ a ⊆ b.
Proof using Type.
  unfold subset. rewrite forallb_forall. setoid_rewrite bool_decide_eq_true. setoid_rewrite <-list_elem_of_In. done.
Qed.

Lemma check_capabilities_Ok declared provider_sets :
  check_capabilities declared provider_sets d = Ok tt ↔
  (∀ l p, declared = Some l → p ∈ d_processors d → pp_capabilities p ⊆ l) ∧
  (∀ sets p, provider_sets = Some sets → p ∈ d_processors d → ∃ l, l ∈ sets ∧ pp_capabilities p ⊆ l).
Proof using Type.
  unfold check_capabilities. rewrite bind_unit_Ok. apply and_iff_compat.
  - destruct declared as [l|]; [|naive_solver]. rewrite for_each_Ok. setoid_rewrite reject_listed_Ok.
    setoid_rewrite py_difference_nil. naive_solver.
  - destruct provider_sets as [sets|]; [|naive_solver]. rewrite for_each_Ok. setoid_rewrite raise_if_Ok.
    setoid_rewrite negb_false_iff. setoid_rewrite existsb_exists. setoid_rewrite subset_iff.
    setoid_rewrite <-list_elem_of_In. naive_solver.
Qed.

Lemma check_ports_Ok p :
  check_processor_ports core_dts d p = Ok tt ↔
  ∀ rp, rp ∈ dict_merge (pp_consumer p) (pp_supplier p) → datatype rp.2 ∈ known.
Proof using Type.
  unfold check_processor_ports. rewrite for_each_Ok. setoid_rewrite raise_if_Ok.
  setoid_rewrite negb_false_iff. by setoid_rewrite bool_decide_eq_true.
Qed.

Lemma check_extension_Ok e :
  valid_extension e = true →
  check_extension core_dts d e = Ok tt ↔
  (pe_id e ∈ known_processors d ∧ ∀ rp, rp ∈ pe_inputs e → datatype rp.2 ∈ known) ∧
  ∀ a, a ∈ pe_attributes e → post_init is_data_type (core_attribute known a) = Ok tt.
Proof using Type.
  intros [_ Hv]%valid_extension_facts. unfold check_extension.
  rewrite !bind_unit_Ok, raise_if_Ok, !for_each_Ok, negb_false_iff, bool_decide_eq_true.
  setoid_rewrite raise_if_Ok. setoid_rewrite negb_false_iff. setoid_rewrite bool_decide_eq_true.
  assert ((∀ a, a ∈ pe_attributes e → _validate_attribute_schema known a = Ok tt) ↔
          ∀ a, a ∈ pe_attributes e → post_init is_data_type (core_attribute known a) = Ok tt) as <-; [|tauto].
  split; intros H a Ha; apply (schema_as_post_init is_data_type); try (by apply Hv); by apply H.
Qed.

Lemma in_namespace_iff l n : in_namespace l n = true ↔ ∃ p r, p ∈ l ∧ n = p +:+ "." +:+ r.
Proof using Type.
  clear is_data_type core_dts d. unfold in_namespace. rewrite existsb_exists. setoid_rewrite <-list_elem_of_In. setoid_rewrite starts_with_spec.
  setoid_rewrite <-str_app_assoc. naive_solver.
Qed.

Lemma check_namespace_Ok prefixes :
  check_namespace prefixes d = Ok tt ↔
  ∀ l e n, prefixes = Some l → e ∈ d_extensions d →
    n ∈ dict_keys (pe_inputs e) ∨ n ∈ pa_name <$> pe_attributes e → ∃ p r, p ∈ l ∧ n = p +:+ "." +:+ r.
Proof using Type.
  clear is_data_type core_dts. unfold check_namespace. destruct prefixes as [l|]; [|naive_solver]. rewrite for_each_Ok.
  setoid_rewrite reject_listed_Ok. setoid_rewrite list_nil_elem. setoid_rewrite list_elem_of_filter.
  unfold extension_names. setoid_rewrite elem_of_app. setoid_rewrite elem_of_py_sorted.
  setoid_rewrite <-in_namespace_iff. split.
  - intros H l' e n [= <-] He Hn. apply not_false_is_true. intros Hf. by apply (H e He n).
  - intros H e He n [Hf Hn]. rewrite (H l e n) in Hf; done.
Qed.

Lemma known_in_tables t id :
  parts_valid → (∀ x, x ∈ pp_id <$> d_processors d → x ∉ _core_processor_ids) →
  fold_res merge_extension (initial_tables d) (d_extensions d) = Ok t →
  id ∈ known_processors d → is_Some (dict_get id t.1).
Proof using Type.
  intros Hv Hsh Ht Hid%initial_keys%dict_get_is_Some.
  eapply extends_keys; [|exact Hid]. eapply merge_extensions_extend; [apply Hv|done].
Qed.

Lemma check_pipeline_Ok t p :
  (∀ id, id ∈ known_processors d → is_Some (dict_get id t.1)) → valid_pipeline p = true →
  check_pipeline core_dts d t p = Ok tt ↔
  pl_inputs p ⊆ known ∧ (∀ s, s ∈ pl_steps p → ps_processor s ∈ known_processors d) ∧
  _strict_validate_pipeline is_data_type (merged_lookup t.1 t.2 known) (core_step <$> pl_steps p) (pl_inputs p) = [].
Proof using Type.
  intros Ht Hp. unfold check_pipeline. rewrite !bind_unit_Ok, reject_listed_Ok, py_difference_nil, for_each_Ok.
  setoid_rewrite raise_if_Ok. setoid_rewrite negb_false_iff. setoid_rewrite bool_decide_eq_true.
  apply and_iff_compat; [done|]. split; intros [Hs Hg]; (split; [done|]);
    apply (pipeline_graph_Ok is_data_type p t.1 t.2 known); auto.
Qed.
End declarations.

(** ** Properties of the whole check *)

Section accepted.
Context (is_data_type : string → bool) (core_dts : list string).
Context (d : declarations) (Hparts : parts_valid d).

Lemma typed_extension_graph_Ok declared provider_sets prefixes :
  _validate_typed_extension_graph core_dts d declared provider_sets prefixes = Ok tt ↔
  ∃ t, coherent is_data_type core_dts d declared provider_sets prefixes t.
Proof using Hparts.
  assert (∀ p a, p ∈ d_processors d → a ∈ pp_attributes p → valid_attribute a = true) as Hattr.
  { intros p a Hp Ha. apply Hparts in Hp. unfold valid_processor in Hp. rewrite !andb_true_iff in Hp.
    destruct Hp as [[[[_ Hp] _] _] _]. rewrite forallb_forall in Hp. apply Hp. by apply list_elem_of_In. }
  unfold _validate_typed_extension_graph.
  rewrite !bind_unit_Ok, check_datatypes_Ok, check_processor_ids_Ok, check_capabilities_Ok, check_namespace_Ok,
    check_pipeline_ids_Ok, reject_listed_Ok, py_duplicates_nil, !for_each_Ok, bind_Ok.
  split.
  - intros ([Hd1 Hd2] & [Hp1 Hp2] & [Hc1 Hc2] & Hsch & Hports & He & Hext & Hns & [Hl1 Hl2] & t & Ht & Hpl).
    exists t. assert (∀ e, e ∈ d_extensions d → _) as Hext'
      by (intros e Hin; apply (proj1 (check_extension_Ok is_data_type core_dts d e
            (proj1 (valid_extensions _ Hparts _ Hin))) (Hext e Hin))).
    split; try done.
    + intros a [(p & Hp & Ha)|(e & Hin & Ha)]; [|by apply (Hext' e Hin)].
      apply schema_as_post_init; [by eapply Hattr|].
      specialize (Hsch p Hp). rewrite for_each_Ok in Hsch. by apply Hsch.
    + intros p rp Hp. by apply check_ports_Ok, Hports.
    + intros e Hin. by apply (Hext' e Hin).
    + rewrite for_each_Ok in Hpl. intros p Hp. apply check_pipeline_Ok; [|by apply Hparts|by apply Hpl].
      intros id. by apply known_in_tables.
  - intros (t & [(Hd1 & Hp1 & He & Hl1) (Hd2 & Hp2 & Hl2) Hc1 Hc2 Hat Hports Hext Hns Ht Hpl]).
    split_and!; try done.
    + intros p Hp. apply for_each_Ok. intros a Ha. apply (schema_as_post_init is_data_type); [by eapply Hattr|]. apply Hat. left. by exists p.
    + intros p Hp. apply check_ports_Ok. intros rp. by apply Hports.
    + intros e Hin. apply (check_extension_Ok is_data_type); [by apply Hparts|]. split; [by apply Hext|].
      intros a Ha. apply Hat. right. by exists e.
    + exists t. split; [done|]. apply for_each_Ok. intros p Hp. apply (check_pipeline_Ok is_data_type); [|by apply Hparts|by apply Hpl].
      intros id. by apply known_in_tables.
Qed.

(** C34: the hub accepts exactly the coherent declarations: distinct ids that do not
    redefine core ones, declared and jointly provided capabilities, attributes that
    pass the server's own construction checks, known datatypes on the ports visited
    and on extension inputs, extension names in the plugin's namespace, extensions
    that merge without collisions, and pipelines over known datatypes and processors
    that the server's strict validator accepts over the merged registry. *)
Theorem hub_check_exact (declared : option (list string)) (provider_sets : option (list (list string)))
    (prefixes : option (list string)) :
  _validate_typed_extension_graph core_dts d declared provider_sets prefixes = Ok tt ↔
  ∃ t, coherent is_data_type core_dts d declared provider_sets prefixes t.
Proof using Hparts. apply typed_extension_graph_Ok. Qed.

Lemma core_registry_plain :
  forallb (λ kp : string * Processor, is_nil (special_inputs kp.2) && is_nil (special_attributes kp.2) &&
    forallb (λ a, negb (bool_decide (a_type a = "datatype-ref"))) (attributes kp.2)) PROCESSORS_BY_ID = true.
Proof using Type. by vm_compute. Qed.

Lemma core_binding a v k :
  a_type a ≠ "datatype-ref" →
  binding_ok is_data_type None (core_attribute k (manifest_attribute a)) v ↔ binding_ok is_data_type None a v.
Proof using Type.
  intros Hne. assert (_type_ok is_data_type (core_attribute k (manifest_attribute a)) v None =
    _type_ok is_data_type a v None) as Ht.
  { unfold _type_ok. cbn [a_type a_enum a_datatype_lookup core_attribute manifest_attribute pa_type pa_enum].
    repeat case_decide; done. }
  split; intros [Hn Hty Hlo Hhi]; (split; [done|congruence|done|done]).
Qed.

Definition as_table (k : list string) (id : string) (p : Processor) : Processor :=
  mkProcessor id "" (consumer p) (supplier p) (core_attribute k <$> (manifest_attribute <$> attributes p))
    "" [] None [] [] [].

(** The tables' view of a core processor types the same steps. *)
Lemma core_step_as_table s p sc id k :
  dict_get id PROCESSORS_BY_ID = Some p → step_ok is_data_type s p sc → step_ok is_data_type s (as_table k id p) sc.
Proof using Type.
  intros Hp%dict_get_elem%list_elem_of_In [Ha Hw Hps].
  pose proof core_registry_plain as Hplain. rewrite forallb_forall in Hplain. apply Hplain in Hp. cbn in Hp.
  rewrite !andb_true_iff, !is_nil_iff, forallb_forall in Hp. destruct Hp as [[Hsi Hsa] Hty].
  unfold _processor_attributes, _processor_consumer in *. rewrite Hsi in *. rewrite Hsa in *.
  split; unfold _processor_attributes, _processor_consumer; cbn; try done. rewrite !app_nil_r in *.
  destruct Ha as [Hn Hf]. split.
  - intros name Hin. apply Hn in Hin. by rewrite <-!list_fmap_compose.
  - intros a' (a1 & -> & (a & -> & Hin)%list_elem_of_fmap)%list_elem_of_fmap. specialize (Hf a Hin). cbn.
    destruct (dict_get (a_name a) (s_attributes s)); [|done]. apply core_binding; [|done].
    apply list_elem_of_In, Hty in Hin. by apply negb_true_iff, bool_decide_eq_false in Hin.
Qed.

Lemma core_typed_as_table sc steps :
  typed_steps is_data_type (λ id, dict_get id PROCESSORS_BY_ID) sc steps →
  typed_steps is_data_type (merged_lookup _core_processor_ports _core_processor_attributes core_dts) sc steps.
Proof using Type.
  induction 1 as [sc|sc s p steps Hfresh Hp Hok _ IH]; [constructor|].
  apply (typed_cons _ _ _ s (as_table core_dts (processor s) p)); [done| | |exact IH].
  - unfold merged_lookup, _core_processor_ports, _core_processor_attributes.
    rewrite (dict_get_map (λ p, (consumer p, supplier p))), (dict_get_map (λ p, manifest_attribute <$> attributes p)).
    rewrite Hp. done.
  - by apply core_step_as_table.
Qed.

(** An accepted plugin extends the registry conservatively: every pipeline the
    strict validator accepts over the core processors is still accepted over the
    registry merged with the plugin's declarations, with the same supplied data. *)
Lemma accepted_plugin_conservative (declared : option (list string))
    (provider_sets : option (list (list string))) (prefixes : option (list string)) :
  _validate_typed_extension_graph core_dts d declared provider_sets prefixes = Ok tt →
  ∃ t, fold_res merge_extension (initial_tables d) (d_extensions d) = Ok t ∧
    (∀ id p, dict_get id PROCESSORS_BY_ID = Some p → snd <$> dict_get id t.1 = Some (supplier p)) ∧
    ∀ steps inputs,
      _strict_validate_pipeline is_data_type (λ id, dict_get id PROCESSORS_BY_ID) steps inputs = [] →
      _strict_validate_pipeline is_data_type (merged_lookup t.1 t.2 (known_datatypes core_dts d)) steps inputs = [].
Proof using Hparts.
  intros (t & Hco)%typed_extension_graph_Ok. exists t. pose proof (coherent_merge _ _ _ _ _ _ _ Hco) as Ht.
  destruct (coherent_fresh _ _ _ _ _ _ _ Hco) as (_ & Hfresh & _).
  assert (extends (_core_processor_ports, _core_processor_attributes) t) as Hext.
  { transitivity (initial_tables d); [by apply initial_extends_core|].
    eapply merge_extensions_extend; [apply Hparts|done]. }
  split_and!; [done| |].
  - intros id p Hp. destruct (extends_ports _ _ Hext id (consumer p) (supplier p)) as (new & -> & _); [|done].
    cbn [fst]. unfold _core_processor_ports.
    rewrite (dict_get_map (λ p, (consumer p, supplier p))), Hp. done.
  - intros steps inputs. unfold _strict_validate_pipeline.
    rewrite !app_nil, !strict_steps_ok. intros [Hi Hs%core_typed_as_table]. split; [done|].
    eapply (typed_steps_extends _ (_core_processor_ports, _core_processor_attributes)); [|exact Hext|exact Hs].
    unfold known_datatypes. set_solver.
Qed.
End accepted.

(** ** A plugin *)

Definition port_vocabulary : list string :=
  ["image_sequence"; "feature_set"; "pair_set"; "match_graph"; "sparse_model"; "projection"].

Definition quality_attribute : PluginAttributeManifest :=
  mkPluginAttribute "quality" "enum" false (Some (VStr "fast")) ["fast"; "fine"] None None "".
Definition weight_attribute : PluginAttributeManifest :=
  mkPluginAttribute "acme.weight" "float" false None [] (Some (NInt 0)) None "".

Definition mesh_processor : PluginProcessorManifest :=
  mkPluginProcessor "mesh" "Meshing" [("model", mkPortSpec "sparse_model" true false "")]
    [("mesh", mkPortSpec "point_mesh" true false "")] [quality_attribute] "" ["mesh.poisson"].

Definition plugin_step (r p : string) (ws : dict wire) : PluginPipelineStepManifest := mkPluginStep r p [] ws.

Definition mesh_pipeline : PluginPipelineManifest :=
  mkPluginPipeline "sfm_mesh" "Mesh" ["image_sequence"]
    [plugin_step "f" "features" []; plugin_step "p" "pairs" []; plugin_step "m" "matches" [];
     plugin_step "v" "verify" [("matches", One "m.matches")];
     plugin_step "s" "map" [("matches", One "v.matches"); ("features", One "f.features")];
     mkPluginStep "mesh" "mesh" [("quality", VStr "fine")] []] "".

Definition map_extension : PluginProcessorExtensionManifest :=
  mkExtension "map" [("acme.prior", mkPortSpec "sparse_model" false false "")] [weight_attribute].

Definition acme : declarations :=
  mkDeclarations [mkDataType "point_mesh" "Mesh" artifact ""] [mesh_processor] [mesh_pipeline] [map_extension].

Definition acme_check : res string unit :=
  _typed_extensions_are_coherent port_vocabulary "acme" [] [["mesh.poisson"; "map"]] [] acme.

Example acme_accepted : acme_check = Ok tt.
Proof. by vm_compute. Qed.

Lemma acme_valid : parts_valid acme.
Proof.
  split; cbn; intros x Hx; apply list_elem_of_singleton in Hx as ->; [by vm_compute..|].
  split; [by vm_compute|]. apply NoDup_singleton.
Qed.

Definition any_type (_ : string) : bool := true.

Lemma hub_check_exact_witness :
  ∃ t, coherent any_type port_vocabulary acme (Some ["mesh.poisson"; "map"]) (Some [["mesh.poisson"; "map"]])
         (Some ["acme"]) t.
Proof.
  apply (proj1 (hub_check_exact any_type port_vocabulary acme acme_valid (Some ["mesh.poisson"; "map"])
           (Some [["mesh.poisson"; "map"]]) (Some ["acme"]))).
  by vm_compute.
Defined.

(** A processor whose consumer port shares its role with a supplier port. *)
Definition filter_processor : PluginProcessorManifest :=
  mkPluginProcessor "refilter" "Refilter" [("matches", mkPortSpec "no_such_type" true false "")]
    [("matches", mkPortSpec "match_graph" true false "")] [] "" ["matches.refilter"].

Definition shadowed : declarations := mkDeclarations [] [filter_processor] [] [].

(** The unknown-datatype check misses consumer ports that share their role with
    a supplier port: it visits the merged dict of the two groups, in which the supplier
    replaces the consumer. A manifest with such a port passes every check although
    the port's datatype exists nowhere, while the same port under a role of its own is
    rejected. *)
Theorem shadowed_port_unchecked :
  valid_processor filter_processor = true ∧
  _typed_extensions_are_coherent port_vocabulary "acme" [] [["matches.refilter"]] [] shadowed = Ok tt ∧
  (∃ p rp, p ∈ d_processors shadowed ∧ rp ∈ pp_consumer p ∧
     datatype rp.2 ∉ known_datatypes port_vocabulary shadowed) ∧
  _typed_extensions_are_coherent port_vocabulary "acme" [] [["matches.refilter"]] []
    (mkDeclarations []
       [mkPluginProcessor "refilter" "Refilter" [("raw", mkPortSpec "no_such_type" true false "")]
          [("matches", mkPortSpec "match_graph" true false "")] [] "" ["matches.refilter"]] [] []) =
    Err "processor 'refilter' port 'raw' references unknown datatype 'no_such_type'".
Proof.
  split_and!; [by vm_compute|by vm_compute| |by vm_compute].
  exists filter_processor, ("matches", mkPortSpec "no_such_type" true false "").
  split_and!; [by list_in|by list_in|]. apply (bool_decide_unpack _). by vm_compute.
Qed.
