(* ===== verification/Blobs.v ===== *)
(** [sceneapi/server/storage/blobs.py]: the content-addressed blob stores behind
    one interface, their streaming writes, and the working area of chunked uploads. *)
From S2P Require Import Prelude PyValue Hashing Errors.
From stdpp Require Import options.
Import Errors.

#[local] Open Scope Z_scope.
#[local] Arguments String.append !_ _ / : simpl nomatch.

Module Blobs.

Definition storage_error (detail : string) : api_error := api_error_init StorageError detail [].

Definition str_len (s : string) : Z := Z.of_nat (String.length s).

(** ** Readers: [reader.read(n)] *)

Fixpoint str_take (n : nat) (s : string) : string :=
  match n, s with S n, String a s => String a (str_take n s) | _, _ => "" end.

Fixpoint str_drop (n : nat) (s : string) : string :=
  match n, s with S n, String _ s => str_drop n s | _, _ => s end.

(** The state of a streaming loop: what was hashed, the bytes counted, and what
    was written. *)
Record stream_state : Type := mkStream {
  hashed : string;
  total : Z;
  written : string
}.

Definition stream_start : stream_state := mkStream "" 0 "".

(** [while True: chunk = reader.read(n); if not chunk: break; ...] The fuel bounds
    the iterations; one more than the length of the text is enough when [n > 0]. *)
Fixpoint stream_loop (fuel n : nat) (reader : string) (st : stream_state) : stream_state :=
  match fuel with
  | O => st
  | S fuel =>
      match str_take n reader with
      | EmptyString => st
      | chunk =>
          stream_loop fuel n (str_drop n reader)
            (mkStream (hashed st +:+ chunk) (total st + str_len chunk) (written st +:+ chunk))
      end
  end.

Definition stream (n : nat) (reader : string) : stream_state :=
  stream_loop (S (String.length reader)) n reader stream_start.

(** [core/hashing.py]'s [stream_sha256], and [hash_iter]. *)
Definition stream_sha256 (chunk_size : nat) (reader : string) : string * Z :=
  let st := stream chunk_size reader in (sha256_hex (hashed st), total st).

Definition hash_iter (chunks : list string) : string * Z :=
  let st := foldl (λ st c, mkStream (hashed st +:+ c) (total st + str_len c) (written st)) stream_start chunks in
  (sha256_hex (hashed st), total st).

Definition CHUNK_SIZE : nat := Z.to_nat (1024 * 1024).

(** ** The interface *)

(** What the services use of a store: a streaming write returning the digest and
    the size, reads, the existence test and deletion. *)
Class BlobStore (B : Type) := {
  put_stream : nat → string → B → (string * Z) * B;
  blob_exists : string → B → bool;
  read_blob : string → B → res api_error string;
  delete_blob : string → B → B
}.

(** The content a store holds under a digest. *)
Definition holds `{BlobStore B} (b : B) (sha data : string) : Prop := read_blob sha b = Ok data.

(** Everything a store holds is stored under its own digest. *)
Definition addressed `{BlobStore B} (b : B) : Prop := ∀ sha data, holds b sha data → sha256_hex data = sha.

(** What a store promises to its clients, whatever the chunk size. *)
Class BlobStoreLaws (B : Type) `{BlobStore B} := {
  put_result (n : nat) (data : string) (b : B) : (0 < n)%nat → (put_stream n data b).1 = (sha256_hex data, str_len data);
  put_holds (n : nat) (data : string) (b : B) : (0 < n)%nat →
    ∃ kept, holds (put_stream n data b).2 (sha256_hex data) kept ∧
      (kept = data ∨ holds b (sha256_hex data) kept);
  put_frame (n : nat) (data sha : string) (b : B) : (0 < n)%nat → sha ≠ sha256_hex data →
    read_blob sha (put_stream n data b).2 = read_blob sha b;
  put_keeps (n : nat) (data sha kept : string) (b : B) : (0 < n)%nat →
    holds b sha kept → holds (put_stream n data b).2 sha kept;
  exists_holds (sha : string) (b : B) : blob_exists sha b = true ↔ ∃ data, holds b sha data;
  delete_gone (sha : string) (b : B) : blob_exists sha (delete_blob sha b) = false;
  delete_frame (sha sha' : string) (b : B) : sha' ≠ sha → read_blob sha' (delete_blob sha b) = read_blob sha' b
}.

(** ** The in-memory backend *)

Record InMemoryBlobStore : Type := mkMemory { _bytes : gmap string string }.

Definition memory_put (n : nat) (reader : string) (b : InMemoryBlobStore) : (string * Z) * InMemoryBlobStore :=
  let st := stream n reader in
  let sha := sha256_hex (hashed st) in
  ((sha, total st),
   match _bytes b !! sha with
   | Some _ => b
   | None => mkMemory (<[sha := written st]> (_bytes b))
   end).

Definition memory_put_bytes (data : string) (b : InMemoryBlobStore) : (string * Z) * InMemoryBlobStore :=
  let sha := sha256_hex data in
  ((sha, str_len data),
   match _bytes b !! sha with Some _ => b | None => mkMemory (<[sha := data]> (_bytes b)) end).

Definition memory_open (sha : string) (b : InMemoryBlobStore) : res api_error string :=
  match _bytes b !! sha with Some d => Ok d | None => Err (storage_error ("Blob missing: " +:+ sha)) end.

Definition memory_exists (sha : string) (b : InMemoryBlobStore) : bool :=
  match _bytes b !! sha with Some _ => true | None => false end.

Definition memory_delete (sha : string) (b : InMemoryBlobStore) : InMemoryBlobStore :=
  mkMemory (delete sha (_bytes b)).

Definition memory_shutdown (b : InMemoryBlobStore) : InMemoryBlobStore := mkMemory ∅.

#[export] Instance memory_store : BlobStore InMemoryBlobStore := {
  put_stream := memory_put;
  blob_exists := memory_exists;
  read_blob := memory_open;
  delete_blob := memory_delete
}.

(** [data[i:i+n] for i in range(0, len(data), n)], and the file loop, for a positive size. *)
Fixpoint chunks_of (fuel n : nat) (data : string) : list string :=
  match fuel with
  | O => []
  | S fuel =>
      match str_take n data with
      | EmptyString => []
      | chunk => chunk :: chunks_of fuel n (str_drop n data)
      end
  end.

Definition aiter_chunks (n : nat) (data : string) : list string := chunks_of (S (String.length data)) n data.

(** ** The filesystem backend

    Files under the root by directory and name. The format check of the contract
    package accepts every digest; deletion also drops an emptied directory, which
    is not observable. *)

Record FSBlobStore : Type := mkFS { fs_files : gmap (string * string) string }.

(** [root / sha[:2] / sha] *)
Definition path_for (sha : string) : string * string := (str_take 2 sha, sha).

Definition fs_put (n : nat) (reader : string) (b : FSBlobStore) : (string * Z) * FSBlobStore :=
  let st := stream n reader in
  let sha := sha256_hex (hashed st) in
  ((sha, total st),
   match fs_files b !! path_for sha with
   | Some _ => b
   | None => mkFS (<[path_for sha := written st]> (fs_files b))
   end).

Definition local_path (sha : string) (b : FSBlobStore) : res api_error (string * string) :=
  match fs_files b !! path_for sha with
  | Some _ => Ok (path_for sha)
  | None => Err (storage_error ("Blob missing: " +:+ sha))
  end.

Definition fs_open (sha : string) (b : FSBlobStore) : res api_error string :=
  p ← local_path sha b;
  match fs_files b !! p with Some d => Ok d | None => Err (storage_error ("Blob missing: " +:+ sha)) end.

Definition fs_exists (sha : string) (b : FSBlobStore) : bool :=
  match fs_files b !! path_for sha with Some _ => true | None => false end.

Definition fs_delete (sha : string) (b : FSBlobStore) : FSBlobStore := mkFS (delete (path_for sha) (fs_files b)).

#[export] Instance fs_store : BlobStore FSBlobStore := {
  put_stream := fs_put;
  blob_exists := fs_exists;
  read_blob := fs_open;
  delete_blob := fs_delete
}.

(** ** The working area of uploads *)

Definition TempUploadStore : Type := gmap string string.

(** [append]: the file is created before the offset is checked. *)
Definition temp_append (upload_id : string) (offset : Z) (data : string) (t : TempUploadStore) :
    res api_error Z * TempUploadStore :=
  let content := default "" (t !! upload_id) in
  let current := str_len content in
  if decide (offset ≠ current) then
    (Err (storage_error ("Out-of-order chunk: expected offset " +:+ pretty current +:+ ", got " +:+ pretty offset)),
     <[upload_id := content]> t)
  else (Ok (current + str_len data), <[upload_id := content +:+ data]> t).

Definition temp_size (upload_id : string) (t : TempUploadStore) : Z :=
  match t !! upload_id with Some d => str_len d | None => 0 end.

Definition hash_and_size (upload_id : string) (t : TempUploadStore) : string * Z :=
  match t !! upload_id with
  | None => ("", 0)
  | Some d => stream_sha256 CHUNK_SIZE d
  end.

(** [finalize_into]: the bytes go to the blob store, then the file is removed. *)
Definition finalize_into `{BlobStore B} (upload_id : string) (t : TempUploadStore) (b : B) :
    res api_error (string * Z) * TempUploadStore * B :=
  match t !! upload_id with
  | None => (Err (storage_error ("No upload data for " +:+ upload_id)), t, b)
  | Some d =>
      let '(r, b) := put_stream CHUNK_SIZE d b in
      (Ok r, delete upload_id t, b)
  end.

Definition discard (upload_id : string) (t : TempUploadStore) : TempUploadStore := delete upload_id t.

End Blobs.
