(* ===== verification/BlobFacts.v ===== *)
(** Streaming reads lose nothing whatever the chunk size, and both blob stores keep
    the promises of the interface. *)
From S2P Require Import Prelude PyValue Hashing Errors Blobs.
From stdpp Require Import options.
Import Errors Blobs.

#[local] Opaque sha256_hex path_for.
#[local] Arguments stream : simpl never.
#[local] Arguments String.append !_ _ / : simpl nomatch.

(** ** Streaming *)

Lemma str_take_drop n s : str_take n s +:+ str_drop n s = s.
Proof. revert s. induction n as [|n IH]; intros [|a s]; cbn; [done..|]. by rewrite IH. Qed.

Lemma str_len_app a b : str_len (a +:+ b) = (str_len a + str_len b)%Z.
Proof. unfold str_len. rewrite str_length_app. lia. Qed.

Lemma str_len_nonneg a : (0 ≤ str_len a)%Z.
Proof. unfold str_len. lia. Qed.

Lemma str_take_empty n s : (0 < n)%nat → str_take n s = "" → s = "".
Proof. destruct n, s; cbn; [lia|lia|done|done]. Qed.

Lemma str_drop_shorter n s : (0 < n)%nat → s ≠ "" → (String.length (str_drop n s) < String.length s)%nat.
Proof.
  destruct n as [|n]; [lia|]. destruct s as [|a s]; [done|]. intros _ _. cbn.
  revert s. induction n as [|n IH]; intros [|b s]; cbn; try lia. specialize (IH s). lia.
Qed.

Lemma stream_loop_spec fuel n reader st :
  (0 < n)%nat → (String.length reader < fuel)%nat →
  stream_loop fuel n reader st =
    mkStream (hashed st +:+ reader) (total st + str_len reader) (written st +:+ reader).
Proof.
  intros Hn. revert reader st. induction fuel as [|fuel IH]; intros reader st Hf; [lia|]. cbn.
  destruct (str_take n reader) as [|a c] eqn:E.
  - apply str_take_empty in E as ->; [|done]. destruct st. cbn. rewrite !str_app_nil_r. f_equal. unfold str_len. cbn. lia.
  - pose proof (str_take_drop n reader) as Hs. rewrite E in Hs.
    rewrite IH.
    + assert (str_len reader = str_len (String a c) + str_len (str_drop n reader))%Z as Hl
        by (by rewrite <-str_len_app, Hs).
      cbn [hashed total written]. rewrite <-!str_app_assoc, Hs, Hl. f_equal. lia.
    + assert (reader ≠ "") as Hr by (intros ->; by destruct n).
      pose proof (str_drop_shorter n reader Hn Hr). lia.
Qed.

Lemma stream_spec n reader : (0 < n)%nat → stream n reader = mkStream reader (str_len reader) reader.
Proof. intros Hn. unfold stream. rewrite stream_loop_spec by lia. done. Qed.

Lemma chunks_concat fuel n data :
  (0 < n)%nat → (String.length data < fuel)%nat → foldr String.append "" (chunks_of fuel n data) = data.
Proof.
  intros Hn. revert data. induction fuel as [|fuel IH]; intros data Hf; [lia|]. cbn.
  destruct (str_take n data) as [|a c] eqn:E; [by apply str_take_empty in E as ->|].
  pose proof (str_take_drop n data) as Hs. rewrite E in Hs. cbn [foldr].
  rewrite IH; [done|].
  assert (data ≠ "") as Hr by (intros ->; by destruct n).
  pose proof (str_drop_shorter n data Hn Hr). lia.
Qed.

(** ** The in-memory store *)

Lemma memory_holds b sha data : holds b sha data ↔ _bytes b !! sha = Some data.
Proof. unfold holds. cbn. unfold memory_open. destruct (_bytes b !! sha); naive_solver. Qed.

#[export] Instance memory_laws : BlobStoreLaws InMemoryBlobStore.
Proof.
  split.
  - intros n data b Hn. cbn. unfold memory_put. by rewrite stream_spec.
  - intros n data b Hn. setoid_rewrite memory_holds. cbn. unfold memory_put. rewrite stream_spec by done. cbn.
    destruct (_bytes b !! sha256_hex data) as [d|] eqn:E; [exists d; auto|]. exists data. cbn.
    rewrite lookup_insert_eq. auto.
  - intros n data sha b Hn Hne. cbn. unfold memory_open, memory_put. rewrite stream_spec by done. cbn.
    destruct (_bytes b !! sha256_hex data); [done|]. cbn. by rewrite lookup_insert_ne.
  - intros n data sha kept b Hn. rewrite !memory_holds. cbn. unfold memory_put. rewrite stream_spec by done. cbn.
    intros Hk. destruct (_bytes b !! sha256_hex data) as [d|] eqn:E; [done|]. cbn.
    rewrite lookup_insert_ne; [done|]. intros <-. congruence.
  - intros sha b. setoid_rewrite memory_holds. cbn. unfold memory_exists.
    destruct (_bytes b !! sha); naive_solver.
  - intros sha b. cbn. unfold memory_exists, memory_delete. cbn. by rewrite lookup_delete_eq.
  - intros sha sha' b Hne. cbn. unfold memory_open, memory_delete. cbn. by rewrite lookup_delete_ne.
Qed.

(** ** The filesystem store *)

Lemma path_for_inj sha sha' : path_for sha = path_for sha' → sha = sha'.
Proof. Transparent path_for. by intros [= _ ->]. Qed.
#[local] Opaque path_for.

Lemma fs_holds b sha data : holds b sha data ↔ fs_files b !! path_for sha = Some data.
Proof.
  unfold holds. cbn. unfold fs_open, local_path. destruct (fs_files b !! path_for sha) eqn:E; cbn; [|done].
  rewrite E. naive_solver.
Qed.

#[export] Instance fs_laws : BlobStoreLaws FSBlobStore.
Proof.
  assert (∀ (sha : string) (b b' : FSBlobStore),
    fs_files b !! path_for sha = fs_files b' !! path_for sha → read_blob sha b = read_blob sha b') as Hread.
  { intros sha b b' Hb. cbn. unfold fs_open, local_path. rewrite Hb.
    destruct (fs_files b' !! path_for sha) eqn:E; cbn; [|done]. by rewrite Hb, E. }
  split.
  - intros n data b Hn. cbn. unfold fs_put. by rewrite stream_spec.
  - intros n data b Hn. setoid_rewrite fs_holds. cbn [put_stream fs_store snd]. unfold fs_put.
    rewrite stream_spec by done. cbn [hashed total written fst snd].
    destruct (fs_files b !! path_for (sha256_hex data)) as [d|] eqn:E; [exists d; auto|]. exists data. cbn.
    rewrite lookup_insert_eq. auto.
  - intros n data sha b Hn Hne. apply Hread. cbn. unfold fs_put. rewrite stream_spec by done. cbn.
    destruct (fs_files b !! _); [done|]. cbn. rewrite lookup_insert_ne; [done|].
    intros Hp. apply Hne. symmetry. by apply path_for_inj.
  - intros n data sha kept b Hn. rewrite !fs_holds. cbn. unfold fs_put. rewrite stream_spec by done. cbn.
    intros Hk. destruct (fs_files b !! path_for (sha256_hex data)) as [d|] eqn:E; [done|]. cbn.
    rewrite lookup_insert_ne; [done|]. intros Hp. rewrite Hp, Hk in E. done.
  - intros sha b. setoid_rewrite fs_holds. cbn. unfold fs_exists.
    destruct (fs_files b !! path_for sha); naive_solver.
  - intros sha b. cbn. unfold fs_exists, fs_delete. cbn. by rewrite lookup_delete_eq.
  - intros sha sha' b Hne. apply Hread. cbn. rewrite lookup_delete_ne; [done|].
    intros Hp. apply Hne. symmetry. by apply path_for_inj.
Qed.

(** ** Clients of the interface *)

Section clients.
Context {B : Type} `{BlobStoreLaws B}.

(** Stores stay content-addressed. *)
Lemma put_addressed n data b : (0 < n)%nat → addressed b → addressed (put_stream n data b).2.
Proof using Type*.
  intros Hn Hb sha kept Hk. destruct (decide (sha = sha256_hex data)) as [->|Hne].
  - destruct (put_holds n data b Hn) as (kept' & Hk' & Hor). unfold holds in *. rewrite Hk in Hk'.
    injection Hk' as <-. destruct Hor as [->|Hh]; [done|]. by apply Hb.
  - apply Hb. unfold holds in *. by rewrite <-(put_frame n data sha b Hn Hne).
Qed.

Lemma delete_addressed sha b : addressed b → addressed (delete_blob sha b).
Proof using Type*.
  intros Hb sha' kept Hk. destruct (decide (sha' = sha)) as [->|Hne].
  - assert (blob_exists sha (delete_blob sha b) = true) as He by (apply exists_holds; by exists kept).
    by rewrite delete_gone in He.
  - apply Hb. unfold holds in *. by rewrite <-(delete_frame sha sha' b Hne).
Qed.

Lemma CHUNK_SIZE_pos : (0 < CHUNK_SIZE)%nat.
Proof using Type. unfold CHUNK_SIZE. lia. Qed.

(** Finalizing a working file. *)
Lemma finalize_into_spec id t b :
  finalize_into id t b =
  match t !! id with
  | None => (Err (storage_error ("No upload data for " +:+ id)), t, b)
  | Some d => (Ok (sha256_hex d, str_len d), delete id t, (put_stream CHUNK_SIZE d b).2)
  end.
Proof using Type*.
  unfold finalize_into. destruct (t !! id) as [d|]; [|done].
  pose proof (put_result CHUNK_SIZE d b CHUNK_SIZE_pos) as Hp.
  destruct (put_stream CHUNK_SIZE d b) as [r b']. cbn in *. by rewrite Hp.
Qed.
End clients.
