(* ===== verification/Uploads.v ===== *)
(** [sceneapi/server/services/upload_service.py], with the storage quota of
    [quota_service.py] and the chunk route of [api/v1/uploads.py]: chunked uploads
    over the database, the working area and a blob store. *)
From S2P Require Import Prelude PyValue Hashing Errors Blobs.
From stdpp Require Import options.
Import Errors Blobs.

#[local] Open Scope Z_scope.
#[local] Arguments String.append !_ _ / : simpl nomatch.

Module Uploads.

(** ** Rows *)

Record Upload : Type := mkUpload {
  upload_id : string;
  tenant_id : string;
  idempotency_key : option string;
  expected_size : Z;
  received_bytes : Z;
  content_type : option string;
  expected_sha : option string;
  up_state : string;
  blob_sha : option string;
  expires_at : Z
}.

Record Blob : Type := mkBlob { byte_size : Z; mime : option string; refcount : Z }.

(** [TenantQuota], its storage columns. *)
Record TenantQuota : Type := mkQuota { storage_bytes_max : option Z; storage_bytes_used : Z }.

Record UploadDb : Type := mkUploadDb {
  uploads : gmap string Upload;
  blob_rows : gmap string Blob;
  quotas : gmap string TenantQuota
}.

(** The settings read: whether [auth_mode] is ["none"], and the expiry. *)
Record UploadSettings : Type := mkUploadSettings { auth_none : bool; upload_expiry_seconds : Z }.

(** What a request works on: the session, the working area and the blob store.
    The files are outside the transaction. *)
Record World (B : Type) : Type := mkWorld { db : UploadDb; temp : TempUploadStore; store : B }.
Arguments mkWorld {B} db temp store.
Arguments db {B} w.
Arguments temp {B} w.
Arguments store {B} w.

(** ** A service call: a world, and a result or a raised error *)

Section services.
Context {B : Type} `{BlobStore B}.
Context (settings : UploadSettings).

Definition svc (A : Type) : Type := World B → res api_error A * World B.

Definition ret {A} (a : A) : svc A := λ w, (Ok a, w).
Definition bind {A C} (m : svc A) (f : A → svc C) : svc C := λ w,
  match m w with (Ok a, w) => f a w | (Err e, w) => (Err e, w) end.
Definition raise {A} (c : error_class) (detail : string) : svc A := λ w, (Err (api_error_init c detail []), w).
Definition guard (ok : bool) (c : error_class) (detail : string) : svc unit :=
  if ok then ret tt else raise c detail.
Definition get_db : svc UploadDb := λ w, (Ok (db w), w).
Definition put_db (d : UploadDb) : svc unit := λ w, (Ok tt, mkWorld d (temp w) (store w)).
Definition lift {A} (r : res api_error A) : svc A := λ w, (r, w).

#[local] Notation "x ← m ; k" := (bind m (λ x, k)) (at level 20, m at level 100, k at level 200) : scene_scope.
#[local] Notation "m ;; k" := (bind m (λ _, k)) (at level 100, k at level 200) : scene_scope.

Definition set_uploads (m : gmap string Upload) (d : UploadDb) : UploadDb := mkUploadDb m (blob_rows d) (quotas d).
Definition save_upload (u : Upload) : svc unit :=
  d ← get_db; put_db (set_uploads (<[upload_id u := u]> (uploads d)) d).

(** ** Quota *)

Definition get_or_create_quota (tenant : string) : svc TenantQuota :=
  d ← get_db;
  match quotas d !! tenant with
  | Some q => ret q
  | None =>
      let q := mkQuota None 0 in
      put_db (mkUploadDb (uploads d) (blob_rows d) (<[tenant := q]> (quotas d)));; ret q
  end.

Definition check_storage (tenant : string) (additional : Z) : svc unit :=
  if auth_none settings then ret tt
  else
    q ← get_or_create_quota tenant;
    match storage_bytes_max q with
    | None => ret tt
    | Some m =>
        guard (negb (m <? storage_bytes_used q + additional)) QuotaExceededError
          ("storage quota: used=" +:+ pretty (storage_bytes_used q) +:+ ", max=" +:+ pretty m)
    end.

(** ** Uploads *)

(** [expires_at] is never null: the column is not nullable. *)
Definition _upload_expired (now : Z) (u : Upload) : bool :=
  if decide (up_state u = "finalized") then false else expires_at u <? now.

(** The rows the sweep selects. *)
Definition sweepable (now : Z) (u : Upload) : Prop := up_state u ≠ "finalized" ∧ expires_at u < now.

#[export] Instance sweepable_dec now u : Decision (sweepable now u).
Proof. unfold sweepable. apply _. Defined.

Definition gc_expired_uploads (now : Z) : svc nat := λ w,
  let rows := filter (λ iu, sweepable now iu.2) (map_to_list (uploads (db w))) in
  (Ok (length rows),
   mkWorld (set_uploads (filter (λ iu, ¬ sweepable now iu.2) (uploads (db w))) (db w))
     (foldl (λ t iu, discard iu.1 t) (temp w) rows) (store w)).

Definition keyed (tenant key : string) (u : Upload) : Prop := tenant_id u = tenant ∧ idempotency_key u = Some key.

#[export] Instance keyed_dec tenant key u : Decision (keyed tenant key u).
Proof. unfold keyed. apply _. Defined.

(** [scalar_one_or_none()] on the rows of a tenant with a key; the pair is unique. *)
Definition find_keyed (tenant key : string) (d : UploadDb) : option Upload :=
  match filter (keyed tenant key) (map_to_list (uploads d)).*2 with u :: _ => Some u | [] => None end.

(** The insert violates the primary key or the unique constraint. *)
Definition key_taken (u : Upload) (d : UploadDb) : bool :=
  bool_decide (is_Some (uploads d !! upload_id u)) ||
  match idempotency_key u with
  | Some k => match find_keyed (tenant_id u) k d with Some _ => true | None => false end
  | None => false
  end.

Definition insert_upload (u : Upload) : svc Upload :=
  d ← get_db;
  guard (negb (key_taken u d)) ConflictError "Idempotency conflict on upload";;
  save_upload u;; ret u.

Definition existing_upload (now : Z) (u : Upload) : svc Upload :=
  if _upload_expired now u then raise NotFoundError ("Upload " +:+ upload_id u +:+ " not found") else ret u.

(** [new_id] is the id the row's default draws. *)
Definition init_upload (now : Z) (new_id tenant : string) (size : Z) (ctype sha key : option string) : svc Upload :=
  guard (0 <? size) ValidationError "expected_size must be > 0";;
  check_storage tenant size;;
  gc_expired_uploads now;;
  d ← get_db;
  let fresh := mkUpload new_id tenant key size 0 ctype sha "open" None (now + upload_expiry_seconds settings) in
  match key with
  | Some k =>
      if decide (k = "") then insert_upload fresh
      else match find_keyed tenant k d with
           | Some u => existing_upload now u
           | None => insert_upload fresh
           end
  | None => insert_upload fresh
  end.

Definition not_found (id : string) : string := "Upload " +:+ id +:+ " not found".

Definition get_upload (now : Z) (tenant id : string) : svc Upload :=
  d ← get_db;
  match uploads d !! id with
  | Some u =>
      if decide (tenant_id u = tenant) then
        if _upload_expired now u then raise NotFoundError (not_found id) else ret u
      else raise NotFoundError (not_found id)
  | None => raise NotFoundError (not_found id)
  end.

Definition with_received (n : Z) (st : string) (u : Upload) : Upload :=
  mkUpload (upload_id u) (tenant_id u) (idempotency_key u) (expected_size u) n (content_type u)
    (expected_sha u) st (blob_sha u) (expires_at u).

(** [store.append(...)] against the working area. *)
Definition append_temp (id : string) (offset : Z) (data : string) : svc Z := λ w,
  let '(r, t) := temp_append id offset data (temp w) in (r, mkWorld (db w) t (store w)).

Definition append_chunk (now : Z) (tenant id : string) (offset : Z) (data : string) : svc Upload :=
  u ← get_upload now tenant id;
  guard (bool_decide (up_state u = "open")) ConflictError
    ("Upload " +:+ id +:+ " is not open (state=" +:+ up_state u +:+ ")");;
  guard (bool_decide (offset = received_bytes u)) ValidationError
    ("Out-of-order chunk: expected offset " +:+ pretty (received_bytes u) +:+ ", got " +:+ pretty offset);;
  guard (negb (expected_size u <? received_bytes u + str_len data)) ValidationError "Chunk exceeds expected_size";;
  append_temp id offset data;;
  let n := received_bytes u + str_len data in
  let u := with_received n (if decide (n = expected_size u) then "received" else up_state u) u in
  save_upload u;; ret u.

(** [temp.finalize_into(upload_id, blobs)] *)
Definition finalize_temp (id : string) : svc (string * Z) := λ w,
  let '(r, t, b) := finalize_into id (temp w) (store w) in (r, mkWorld (db w) t b).

(** [x and x != sha] *)
Definition differs (x : option string) (sha : string) : bool :=
  match x with Some s => negb (bool_decide (s = "")) && negb (bool_decide (s = sha)) | None => false end.

Definition or_empty (x : option string) : string := default "" x.

Definition ensure_blob_row (sha : string) (size : Z) (ctype : option string) : svc unit :=
  d ← get_db;
  match blob_rows d !! sha with
  | Some _ => ret tt
  | None => put_db (mkUploadDb (uploads d) (<[sha := mkBlob size ctype 0]> (blob_rows d)) (quotas d))
  end.

Definition finalized (sha : string) (u : Upload) : Upload :=
  mkUpload (upload_id u) (tenant_id u) (idempotency_key u) (expected_size u) (received_bytes u) (content_type u)
    (expected_sha u) "finalized" (Some sha) (expires_at u).

Definition finalize_upload (now : Z) (tenant id : string) (client_sha : option string) : svc Upload :=
  u ← get_upload now tenant id;
  if decide (up_state u = "finalized") then ret u
  else
    guard (negb (bool_decide (up_state u = "open") && negb (bool_decide (received_bytes u = expected_size u))))
      ConflictError
      ("Upload incomplete: received " +:+ pretty (received_bytes u) +:+ "/" +:+ pretty (expected_size u));;
    st ← finalize_temp id;
    let '(sha, size) := st in
    guard (negb (differs (expected_sha u) sha)) ValidationError
      ("Content sha mismatch: expected " +:+ or_empty (expected_sha u) +:+ ", got " +:+ sha);;
    guard (negb (differs client_sha sha)) ValidationError
      ("Content sha mismatch: client said " +:+ or_empty client_sha +:+ ", got " +:+ sha);;
    guard (bool_decide (size = expected_size u)) ValidationError
      ("Final size mismatch: expected " +:+ pretty (expected_size u) +:+ ", got " +:+ pretty size);;
    ensure_blob_row sha size (content_type u);;
    save_upload (finalized sha u);; ret (finalized sha u).

(** ** Requests *)

(** [db/session.py]'s [get_db]: the session commits when the handler returns and
    rolls back when it raises; [commits] says whether the commit succeeds, and a
    failed one is an unexpected error. Files are kept either way. *)
Definition request {A} (commits : bool) (m : svc A) (w : World B) : res (option api_error) A * World B :=
  match m w with
  | (Ok a, w') => if commits then (Ok a, w') else (Err None, mkWorld (db w) (temp w') (store w'))
  | (Err e, w') => (Err (Some e), mkWorld (db w) (temp w') (store w'))
  end.

(** The operations of the upload API and the janitor's sweep. *)
Inductive upload_op : Type :=
  | OpInit (new_id tenant : string) (size : Z) (ctype sha key : option string)
  | OpGet (tenant id : string)
  | OpAppend (tenant id : string) (offset : Z) (data : string)
  | OpFinalize (tenant id : string) (client_sha : option string)
  | OpSweep.

Definition unit_of {A} (m : svc A) : svc unit := m;; ret tt.

Definition run_op (now : Z) (o : upload_op) : svc unit :=
  match o with
  | OpInit new_id tenant size ctype sha key => unit_of (init_upload now new_id tenant size ctype sha key)
  | OpGet tenant id => unit_of (get_upload now tenant id)
  | OpAppend tenant id offset data => unit_of (append_chunk now tenant id offset data)
  | OpFinalize tenant id client_sha => unit_of (finalize_upload now tenant id client_sha)
  | OpSweep => unit_of (gc_expired_uploads now)
  end.

End services.

(** ** The chunk route *)

Definition digits (s : string) : option (Z * string) :=
  let fix go acc n s :=
    match s with
    | String a s' =>
        let c := nat_of_ascii a in
        if ((48 <=? c)%nat && (c <=? 57)%nat)%bool then go (acc * 10 + (Z.of_nat c - 48)) (S n) s'
        else match n with O => None | _ => Some (acc, s) end
    | EmptyString => match n with O => None | _ => Some (acc, EmptyString) end
    end in go 0 O s.

(** [_CONTENT_RANGE_RE.match] on ASCII digits: the start and the end of the range; the
    total, digits or a star, and anything after it are not used. *)
Definition content_range (s : string) : option (Z * Z) :=
  if negb (starts_with "bytes " s) then None
  else
    match digits (remove_prefix "bytes " s) with
    | Some (start, String "-" rest) =>
        match digits rest with
        | Some (stop, String "/" rest) =>
            match rest with
            | String "*" _ => Some (start, stop)
            | _ => match digits rest with Some _ => Some (start, stop) | None => None end
            end
        | _ => None
        end
    | _ => None
    end.

Definition invalid (detail : string) : api_error := api_error_init ValidationError detail [].

(** [patch_chunk], up to the service call: the offset, or the validation error. *)
Definition patch_offset (header : option string) (data : string) : res api_error Z :=
  match header with
  | None | Some "" => Err (invalid "Content-Range header is required")
  | Some h =>
      match content_range h with
      | None => Err (invalid ("Malformed Content-Range: " +:+ str_repr h))
      | Some (start, stop) =>
          if decide (str_len data = stop - start + 1) then Ok start
          else Err (invalid ("Body length " +:+ pretty (str_len data) +:+ " does not match Content-Range " +:+ str_repr h))
      end
  end.

End Uploads.
