(* ===== verification/UploadFacts.v ===== *)
(** Lemmas on chunked uploads: the service calls branch by branch, the invariant of
    the rows and the stores, and its preservation. *)
From S2P Require Import Prelude PyValue Hashing Errors Blobs BlobFacts Uploads.
From stdpp Require Import options.
Import Errors Blobs Uploads.

#[local] Open Scope Z_scope.
#[local] Opaque sha256_hex CHUNK_SIZE.
#[local] Arguments Z.ltb : simpl never.
#[local] Arguments Z.add : simpl never.

(** A guard on a decided condition: the failing case raises. *)
Ltac split_bool P :=
  destruct (decide P) as [?|?];
  [rewrite (bool_decide_eq_true_2 P) by assumption
  |rewrite (bool_decide_eq_false_2 P) by assumption; done].

Section facts.
Context {B : Type} `{BlobStoreLaws B}.
Context (settings : UploadSettings).

Implicit Types (w : World B) (d : UploadDb) (b : B) (u : Upload).

(** ** Running service calls *)

Lemma run_bind {A C} (m : svc A) (f : A → svc C) w :
  bind m f w = match m w with (Ok a, w) => f a w | (Err e, w) => (Err e, w) end.
Proof using Type. done. Qed.

Lemma run_guard ok c detail w :
  guard ok c detail w = if ok then (Ok tt, w) else (Err (api_error_init c detail []), w).
Proof using Type. by destruct ok. Qed.

(** The upload a caller can see. *)
Definition visible (now : Z) (tenant id : string) d : option Upload :=
  match uploads d !! id with
  | Some u => if decide (tenant_id u = tenant) then if _upload_expired now u then None else Some u else None
  | None => None
  end.

Definition missing (id : string) : api_error := api_error_init NotFoundError (not_found id) [].

Lemma get_upload_run now tenant id w :
  get_upload now tenant id w =
  (match visible now tenant id (db w) with Some u => Ok u | None => Err (missing id) end, w).
Proof using Type.
  unfold get_upload, visible, bind, get_db. cbn. destruct (uploads (db w) !! id) as [u|]; [|done].
  case_decide; [|done]. by destruct (_upload_expired now u).
Qed.

Definition not_open (id : string) u : api_error :=
  api_error_init ConflictError ("Upload " +:+ id +:+ " is not open (state=" +:+ up_state u +:+ ")") [].

(** The row after an accepted chunk. *)
Definition received u (data : string) : Upload :=
  let n := received_bytes u + str_len data in
  with_received n (if decide (n = expected_size u) then "received" else up_state u) u.

Definition put_upload u d : UploadDb := set_uploads (<[upload_id u := u]> (uploads d)) d.

Lemma append_chunk_run now tenant id offset data w :
  append_chunk now tenant id offset data w =
  match visible now tenant id (db w) with
  | None => (Err (missing id), w)
  | Some u =>
      if decide (up_state u = "open") then
        if decide (offset = received_bytes u) then
          if expected_size u <? received_bytes u + str_len data then
            (Err (api_error_init ValidationError "Chunk exceeds expected_size" []), w)
          else
            match temp_append id offset data (temp w) with
            | (Ok _, t) => (Ok (received u data), mkWorld (put_upload (received u data) (db w)) t (store w))
            | (Err e, t) => (Err e, mkWorld (db w) t (store w))
            end
        else
          (Err (api_error_init ValidationError
             ("Out-of-order chunk: expected offset " +:+ pretty (received_bytes u) +:+ ", got " +:+ pretty offset) []), w)
      else (Err (not_open id u), w)
  end.
Proof using Type.
  unfold append_chunk. rewrite run_bind, get_upload_run.
  destruct (visible now tenant id (db w)) as [u|]; [|done].
  rewrite run_bind, run_guard. split_bool (up_state u = "open").
  rewrite run_bind, run_guard. split_bool (offset = received_bytes u).
  rewrite run_bind, run_guard. destruct (expected_size u <? _); cbn [negb]; [done|].
  rewrite run_bind. unfold append_temp at 1. destruct (temp_append id offset data (temp w)) as [[x|err] t]; done.
Qed.

Definition mismatch (detail : string) : api_error := api_error_init ValidationError detail [].

Lemma finalize_upload_run now tenant id client_sha w :
  finalize_upload now tenant id client_sha w =
  match visible now tenant id (db w) with
  | None => (Err (missing id), w)
  | Some u =>
      if decide (up_state u = "finalized") then (Ok u, w)
      else if bool_decide (up_state u = "open") && negb (bool_decide (received_bytes u = expected_size u)) then
        (Err (api_error_init ConflictError
           ("Upload incomplete: received " +:+ pretty (received_bytes u) +:+ "/" +:+ pretty (expected_size u)) []), w)
      else
        match temp w !! id with
        | None => (Err (storage_error ("No upload data for " +:+ id)), w)
        | Some data =>
            let sha := sha256_hex data in
            let w' := mkWorld (db w) (delete id (temp w)) (put_stream CHUNK_SIZE data (store w)).2 in
            if differs (expected_sha u) sha then
              (Err (mismatch ("Content sha mismatch: expected " +:+ or_empty (expected_sha u) +:+ ", got " +:+ sha)), w')
            else if differs client_sha sha then
              (Err (mismatch ("Content sha mismatch: client said " +:+ or_empty client_sha +:+ ", got " +:+ sha)), w')
            else if decide (str_len data = expected_size u) then
              let d := (ensure_blob_row sha (str_len data) (content_type u) w').2 in
              (Ok (finalized sha u), mkWorld (put_upload (finalized sha u) (db d)) (temp w') (store w'))
            else
              (Err (mismatch ("Final size mismatch: expected " +:+ pretty (expected_size u) +:+ ", got " +:+
                 pretty (str_len data))), w')
        end
  end.
Proof using Type*.
  unfold finalize_upload. rewrite run_bind, get_upload_run.
  destruct (visible now tenant id (db w)) as [u|]; [|done]. case_decide; [done|].
  rewrite run_bind, run_guard. destruct (_ && _); cbn [negb]; [done|].
  rewrite run_bind. unfold finalize_temp at 1. rewrite finalize_into_spec.
  destruct (temp w !! id) as [data|] eqn:E; [|by destruct w]. cbn zeta.
  rewrite run_bind, run_guard. destruct (differs (expected_sha u) _); cbn [negb]; [done|].
  rewrite run_bind, run_guard. destruct (differs client_sha _); cbn [negb]; [done|].
  rewrite run_bind, run_guard. split_bool (str_len data = expected_size u).
  rewrite run_bind. unfold ensure_blob_row, bind, get_db, put_db, ret. cbn.
  destruct (blob_rows (db w) !! sha256_hex data); done.
Qed.

(** ** The invariant *)

(** An upload row in one of its three states; a finalized one names verified
    content that the store has and a blob row records. *)
Inductive in_state b (rows : gmap string Blob) u : Prop :=
  | is_open : up_state u = "open" → received_bytes u < expected_size u → blob_sha u = None → in_state b rows u
  | is_received : up_state u = "received" → received_bytes u = expected_size u → blob_sha u = None →
      in_state b rows u
  | is_finalized data : up_state u = "finalized" → received_bytes u = expected_size u →
      blob_sha u = Some (sha256_hex data) → str_len data = expected_size u →
      differs (expected_sha u) (sha256_hex data) = false →
      (∃ kept, holds b (sha256_hex data) kept) → is_Some (rows !! sha256_hex data) → in_state b rows u.

Record upload_ok b (rows : gmap string Blob) (id : string) u : Prop := {
  upload_key : upload_id u = id;
  upload_bounds : 0 < expected_size u ∧ 0 ≤ received_bytes u ≤ expected_size u;
  upload_state : in_state b rows u
}.

Record uploads_inv d b : Prop := {
  inv_rows : map_Forall (upload_ok b (blob_rows d)) (uploads d);
  inv_keys : ∀ i j u v k, uploads d !! i = Some u → uploads d !! j = Some v → tenant_id u = tenant_id v →
    idempotency_key u = Some k → idempotency_key v = Some k → i = j;
  inv_addressed : addressed b
}.

Lemma in_state_put b rows u data : in_state b rows u → in_state (put_stream CHUNK_SIZE data b).2 rows u.
Proof using Type*.
  intros [?|?|dat Hs Hr Hb Hl Hd [kept Hk] Hrow]; [by apply is_open|by apply is_received|].
  apply (is_finalized _ _ _ dat); try done. exists kept. apply put_keeps; [apply CHUNK_SIZE_pos|done].
Qed.

Lemma in_state_rows b rows rows' u :
  (∀ k, is_Some (rows !! k) → is_Some (rows' !! k)) → in_state b rows u → in_state b rows' u.
Proof using Type.
  intros Hrows [?|?|dat]; [by apply is_open|by apply is_received|]. apply (is_finalized _ _ _ dat); auto.
Qed.

Lemma inv_put d b data : uploads_inv d b → uploads_inv d (put_stream CHUNK_SIZE data b).2.
Proof using Type*.
  intros [Hr Hk Ha]. split; [|done|by apply put_addressed; [apply CHUNK_SIZE_pos|]].
  intros id u Hu. destruct (Hr id u Hu). split; [done..|]. by apply in_state_put.
Qed.

(** Rewriting one row, keeping its owner and key. *)
Lemma inv_update d b rows q u u' id :
  uploads_inv d b → uploads d !! id = Some u → (∀ k, is_Some (blob_rows d !! k) → is_Some (rows !! k)) →
  upload_id u' = id → tenant_id u' = tenant_id u → idempotency_key u' = idempotency_key u →
  upload_ok b rows id u' →
  uploads_inv (mkUploadDb (<[id := u']> (uploads d)) rows q) b.
Proof using Type.
  intros [Hr Hk Ha] Hu Hrows Hid Hten Hkey Hok.
  assert (∀ i v, <[id := u']> (uploads d) !! i = Some v → ∃ v0, uploads d !! i = Some v0 ∧
    tenant_id v = tenant_id v0 ∧ idempotency_key v = idempotency_key v0) as Hold.
  { intros i v. destruct (decide (i = id)) as [->|Hne].
    - rewrite lookup_insert_eq. intros [= <-]. by exists u.
    - rewrite lookup_insert_ne by done. intros Hv. by exists v. }
  split; cbn; [|..|done].
  - intros i v. destruct (decide (i = id)) as [->|Hne].
    + rewrite lookup_insert_eq. by intros [= <-].
    + rewrite lookup_insert_ne by done. intros Hv. destruct (Hr i v Hv). split; [done..|].
      by eapply in_state_rows.
  - intros i j v v' k Hi Hj Ht Hkv Hkv'. apply Hold in Hi as (a & Ha1 & Ha2 & Ha3).
    apply Hold in Hj as (c & Hc1 & Hc2 & Hc3). apply (Hk i j a c k); congruence.
Qed.

(** ** Preservation *)

Lemma find_keyed_Some tenant key d u :
  find_keyed tenant key d = Some u → keyed tenant key u ∧ ∃ id, uploads d !! id = Some u.
Proof using Type.
  unfold find_keyed. destruct (filter _ _) as [|v l] eqn:E; [done|]. intros [= <-].
  assert (v ∈ filter (keyed tenant key) (map_to_list (uploads d)).*2) as Hv by (rewrite E; left).
  apply list_elem_of_filter in Hv as [Hk Hv]. split; [done|].
  apply list_elem_of_fmap in Hv as ([id v'] & -> & Hin). exists id. by apply elem_of_map_to_list in Hin.
Qed.

Lemma find_keyed_None tenant key d id u :
  find_keyed tenant key d = None → uploads d !! id = Some u → ¬ keyed tenant key u.
Proof using Type.
  unfold find_keyed. destruct (filter _ _) as [|v l] eqn:E; [|done]. intros _ Hu Hk.
  assert (u ∈ filter (keyed tenant key) (map_to_list (uploads d)).*2) as Hv; [|by rewrite E in Hv; inversion Hv].
  apply list_elem_of_filter. split; [done|]. apply list_elem_of_fmap. exists (id, u). split; [done|].
  by apply elem_of_map_to_list.
Qed.

Lemma key_taken_false u d :
  key_taken u d = false →
  uploads d !! upload_id u = None ∧
  ∀ k id v, idempotency_key u = Some k → uploads d !! id = Some v → ¬ keyed (tenant_id u) k v.
Proof using Type.
  unfold key_taken. intros [Hid Hk]%orb_false_iff. apply bool_decide_eq_false in Hid. split.
  - destruct (uploads d !! upload_id u); [|done]. destruct Hid. by eexists.
  - intros k id v Hkey. rewrite Hkey in Hk. destruct (find_keyed (tenant_id u) k d) eqn:E; [done|].
    by apply find_keyed_None.
Qed.

Lemma inv_quotas d b q : uploads_inv d b → uploads_inv (mkUploadDb (uploads d) (blob_rows d) q) b.
Proof using Type. by intros [? ? ?]. Qed.

Lemma inv_filter d b (P : string * Upload → Prop) `{!∀ x, Decision (P x)} :
  uploads_inv d b → uploads_inv (set_uploads (filter P (uploads d)) d) b.
Proof using Type.
  intros [Hr Hk Ha]. split; cbn; [| |done].
  - intros id u [Hu _]%map_lookup_filter_Some. by apply Hr.
  - intros i j u v k [Hu _]%map_lookup_filter_Some [Hv _]%map_lookup_filter_Some. by apply Hk.
Qed.

Lemma inv_insert d b u :
  uploads_inv d b → key_taken u d = false → upload_ok b (blob_rows d) (upload_id u) u →
  uploads_inv (put_upload u d) b.
Proof using Type.
  intros [Hr Hk Ha] [Hid Hfresh]%key_taken_false Hok. split; cbn; [by apply map_Forall_insert_2| |done].
  intros i j v v' k Hv Hv' Ht Hkv Hkv'.
  apply lookup_insert_Some in Hv as [[<- <-]|[Hi Hv]]; apply lookup_insert_Some in Hv' as [[<- <-]|[Hj Hv']].
  - done.
  - exfalso. eapply (Hfresh k j v'); [done..|]. by split.
  - exfalso. eapply (Hfresh k i v); [done..|]. by split.
  - by apply (Hk i j v v' k).
Qed.

(** A call keeps the invariant, and whatever it stores keeps it for every database
    state, the one a rollback restores included. *)
Definition preserves {A} (m : svc A) : Prop := ∀ w,
  uploads_inv (db w) (store w) →
  uploads_inv (db (m w).2) (store (m w).2) ∧ ∀ d, uploads_inv d (store w) → uploads_inv d (store (m w).2).

Lemma preserves_bind {A C} (m : svc A) (f : A → svc C) :
  preserves m → (∀ a, preserves (f a)) → preserves (bind m f).
Proof using Type.
  intros Hm Hf w Hw. rewrite run_bind. specialize (Hm w Hw). destruct (m w) as [[a|x] w'] eqn:E; [|done].
  cbn in Hm. destruct Hm as [Hw' Hd]. destruct (Hf a w' Hw') as [H1 H2]. auto.
Qed.

(** A call that leaves the stores alone. *)
Lemma preserves_db {A} (m : svc A) :
  (∀ w, store (m w).2 = store w) →
  (∀ w, uploads_inv (db w) (store w) → uploads_inv (db (m w).2) (store w)) → preserves m.
Proof using Type. intros Hs Hm w Hw. rewrite Hs. auto. Qed.

Lemma preserves_read {A} (m : svc A) : (∀ w, (m w).2 = w) → preserves m.
Proof using Type. intros Hm. apply preserves_db; intros w; by rewrite Hm. Qed.

Lemma preserves_guard ok c detail : preserves (guard ok c detail).
Proof using Type. apply preserves_read. intros w. rewrite run_guard. by destruct ok. Qed.

Lemma preserves_get now tenant id : preserves (get_upload now tenant id).
Proof using Type. apply preserves_read. intros w. by rewrite get_upload_run. Qed.

Lemma preserves_gc now : preserves (gc_expired_uploads now).
Proof using Type. apply preserves_db; [done|]. intros w Hw. by apply inv_filter. Qed.

Lemma preserves_check tenant size : preserves (check_storage settings tenant size).
Proof using Type.
  unfold check_storage. destruct (auth_none settings); [by apply preserves_read|].
  apply preserves_bind.
  - apply preserves_db; intros w; unfold get_or_create_quota, bind, get_db, put_db, ret; cbn;
      destruct (quotas (db w) !! tenant); cbn; [done..|]. apply inv_quotas.
  - intros q. destruct (storage_bytes_max q); [apply preserves_guard|by apply preserves_read].
Qed.

Lemma preserves_insert u :
  (∀ b rows, upload_ok b rows (upload_id u) u) → preserves (insert_upload u).
Proof using Type.
  intros Hu. apply preserves_db; intros w; unfold insert_upload, bind, get_db; rewrite run_guard;
    destruct (key_taken u (db w)) eqn:E; cbn; [done..|].
  intros Hw. by apply inv_insert.
Qed.

Lemma preserves_init now new_id tenant size ctype sha key :
  preserves (init_upload settings now new_id tenant size ctype sha key).
Proof using Type.
  unfold init_upload. destruct (Z.ltb_spec 0 size) as [Hs|Hs].
  2: { intros w Hw. done. }
  assert (∀ u : Upload, upload_id u = new_id → expected_size u = size → received_bytes u = 0 → up_state u = "open" →
    blob_sha u = None → preserves (insert_upload u)) as Hfresh.
  { intros u Hid Hz Hr Hst Hb. apply preserves_insert. intros b rows. split; [done|lia|]. apply is_open; [done|lia|done]. }
  apply preserves_bind; [apply preserves_guard|intros _].
  apply preserves_bind; [apply preserves_check|intros _].
  apply preserves_bind; [apply preserves_gc|intros _].
  apply preserves_bind; [by apply preserves_read|intros d].
  destruct key as [k|]; [|by apply Hfresh]. case_decide; [by apply Hfresh|].
  destruct (find_keyed tenant k d) as [u|]; [|by apply Hfresh].
  unfold existing_upload. destruct (_upload_expired now u); by apply preserves_read.
Qed.

Lemma visible_Some now tenant id d u :
  visible now tenant id d = Some u →
  uploads d !! id = Some u ∧ tenant_id u = tenant ∧ _upload_expired now u = false.
Proof using Type.
  unfold visible. destruct (uploads d !! id) as [v|]; [|done]. case_decide; [|done].
  destruct (_upload_expired now v) eqn:E; [done|]. by intros [= <-].
Qed.

Lemma received_ok b rows id u data :
  upload_ok b rows id u → up_state u = "open" → received_bytes u + str_len data ≤ expected_size u →
  upload_ok b rows id (received u data).
Proof using Type.
  intros [Hid Hb Hst] Ho Hle. pose proof (str_len_nonneg data). unfold received. split; [done|cbn; lia|].
  assert (blob_sha u = None) as Hsha by (destruct Hst; congruence).
  case_decide; [by apply is_received|]. apply is_open; [done|cbn; lia|done].
Qed.

Lemma preserves_append now tenant id offset data : preserves (append_chunk now tenant id offset data).
Proof using Type.
  apply preserves_db; intros w; rewrite append_chunk_run; destruct (visible now tenant id (db w)) as [u|] eqn:Hv;
    try done; repeat case_decide; try done; destruct (Z.ltb_spec (expected_size u) (received_bytes u + str_len data));
    try done; destruct (temp_append id offset data (temp w)) as [[x|err] t]; try done.
  intros Hw. apply visible_Some in Hv as (Hu & _ & _). pose proof (inv_rows _ _ Hw id u Hu) as Hok. cbn.
  pose proof (upload_key _ _ _ _ Hok) as Hkey.
  unfold put_upload, set_uploads. replace (upload_id (received u data)) with id by (unfold received; by rewrite <-Hkey).
  eapply inv_update; [done|done|auto|done|done|done|]. by apply received_ok; [..|lia].
Qed.

Lemma blob_row_kept sha n ctype w k :
  is_Some (blob_rows (db w) !! k) → is_Some (blob_rows (db (ensure_blob_row sha n ctype w).2) !! k).
Proof using Type.
  unfold ensure_blob_row, bind, get_db, put_db, ret. cbn. destruct (blob_rows (db w) !! sha) eqn:E; [done|]. cbn.
  intros Hk. destruct (decide (k = sha)) as [->|Hne]; [by rewrite lookup_insert_eq; eexists|by rewrite lookup_insert_ne].
Qed.

Lemma blob_row_there sha n ctype w : is_Some (blob_rows (db (ensure_blob_row sha n ctype w).2) !! sha).
Proof using Type.
  unfold ensure_blob_row, bind, get_db, put_db, ret. cbn. destruct (blob_rows (db w) !! sha) eqn:E; cbn; [by eexists|].
  rewrite lookup_insert_eq. by eexists.
Qed.

Lemma blob_row_uploads sha n ctype w : uploads (db (ensure_blob_row sha n ctype w).2) = uploads (db w).
Proof using Type.
  unfold ensure_blob_row, bind, get_db, put_db, ret. cbn. by destruct (blob_rows (db w) !! sha).
Qed.

Lemma finalized_ok b rows rows' id u data :
  upload_ok b rows id u → up_state u ≠ "finalized" →
  bool_decide (up_state u = "open") && negb (bool_decide (received_bytes u = expected_size u)) = false →
  differs (expected_sha u) (sha256_hex data) = false → str_len data = expected_size u →
  (∃ kept, holds b (sha256_hex data) kept) → is_Some (rows' !! sha256_hex data) →
  upload_ok b rows' id (finalized (sha256_hex data) u).
Proof using Type.
  intros [Hid Hb Hst] Hnf Hg Hd Hl Hh Hrow. split; [done|done|]. apply (is_finalized _ _ _ data); try done. cbn.
  destruct Hst; [|done..]. apply andb_false_iff in Hg as [Hg|Hg].
  - by apply bool_decide_eq_false in Hg.
  - apply negb_false_iff in Hg. by apply bool_decide_eq_true in Hg.
Qed.

Lemma preserves_finalize now tenant id client_sha : preserves (finalize_upload now tenant id client_sha).
Proof using Type*.
  intros w Hw. rewrite finalize_upload_run. destruct (visible now tenant id (db w)) as [u|] eqn:Hv; [|done].
  case_decide as Hnf; [done|]. destruct (_ && _) eqn:Hg; [done|]. destruct (temp w !! id) as [data|]; [|done].
  cbn zeta. assert (∀ d, uploads_inv d (store w) → uploads_inv d (put_stream CHUNK_SIZE data (store w)).2) as Hput
    by (intros d; apply inv_put).
  destruct (differs (expected_sha u) _) eqn:Hd; [by split; [apply Hput|]|].
  destruct (differs client_sha _); [by split; [apply Hput|]|].
  destruct (decide (str_len data = expected_size u)) as [Hl|]; [|by split; [apply Hput|]]. split; [|done]. cbn [fst snd db store].
  set (w' := mkWorld _ _ _). apply visible_Some in Hv as (Hu & _ & _).
  pose proof (inv_rows _ _ (Hput _ Hw) id u Hu) as Hok. pose proof (upload_key _ _ _ _ Hok) as Hkey.
  unfold put_upload, set_uploads. replace (upload_id (finalized _ u)) with id by done.
  rewrite blob_row_uploads. cbn [db w'].
  apply (inv_update (db w) _ _ _ u); [by apply Hput|done| |done|done|done|].
  - intros k Hk. by apply blob_row_kept.
  - eapply finalized_ok; [done|done|done|done|done| |apply blob_row_there].
    destruct (put_holds CHUNK_SIZE data (store w) CHUNK_SIZE_pos) as (kept & Hkept & _). by exists kept.
Qed.

Lemma preserves_op now o : preserves (run_op settings now o).
Proof using Type*.
  destruct o; unfold run_op, unit_of; (apply preserves_bind; [|intros ?; by apply preserves_read]).
  - apply preserves_init.
  - apply preserves_get.
  - apply preserves_append.
  - apply preserves_finalize.
  - apply preserves_gc.
Qed.

Lemma request_inv {A} commits (m : svc A) w :
  preserves m → uploads_inv (db w) (store w) →
  uploads_inv (db (request commits m w).2) (store (request commits m w).2).
Proof using Type.
  intros Hm Hw. destruct (Hm w Hw) as [H1 H2]. unfold request. specialize (H2 _ Hw).
  destruct (m w) as [[a|x] w']; [|done]. by destruct commits.
Qed.
End facts.
