(* ===== verification/UploadGuarantees.v ===== *)
(** What chunked uploads guarantee: the invariant of every reachable world, and
    the round trip from chunks to a content-addressed blob. *)
From S2P Require Import Prelude PyValue Hashing Errors Blobs BlobFacts Uploads UploadFacts.
From stdpp Require Import options.
Import Errors Blobs Uploads.

#[local] Open Scope Z_scope.
#[local] Opaque sha256_hex CHUNK_SIZE.

(** One request or sweep: when it runs, whether its commit succeeds, and what it does. *)
Definition serve {B} `{BlobStore B} (settings : UploadSettings) (w : World B) (s : Z * bool * upload_op) : World B :=
  (request s.1.2 (run_op settings s.1.1 s.2) w).2.

(** The requests that send the chunks in order, each at its time. *)
Fixpoint chunk_requests (tenant id : string) (offset : Z) (chunks : list (Z * string)) : list (Z * bool * upload_op) :=
  match chunks with
  | [] => []
  | (now, data) :: rest =>
      (now, true, OpAppend tenant id offset data) :: chunk_requests tenant id (offset + str_len data) rest
  end.

Definition joined (chunks : list (Z * string)) : string := foldr String.append "" chunks.*2.

Section facts.
Context {B : Type} `{BlobStoreLaws B}.
Context (settings : UploadSettings).
Implicit Types (w : World B) (d : UploadDb) (b : B) (u : Upload).

Lemma serve_inv w s : uploads_inv (db w) (store w) → uploads_inv (db (serve settings w s)) (store (serve settings w s)).
Proof using Type*. intros Hw. apply request_inv; [apply preserves_op|done]. Qed.

Lemma serve_all_inv steps w :
  uploads_inv (db w) (store w) →
  uploads_inv (db (foldl (serve settings) w steps)) (store (foldl (serve settings) w steps)).
Proof using Type*. revert w. induction steps as [|s steps IH]; intros w Hw; [done|]. by apply IH, serve_inv. Qed.

Lemma start_inv b q : addressed b → uploads_inv (mkUploadDb ∅ ∅ q) b.
Proof using Type. intros Hb. split; [apply map_Forall_empty|by intros i j u v k Hu|done]. Qed.

(** The working area, as a map. *)
Lemma temp_insert (t : TempUploadStore) id data : (<[id := data]> t : TempUploadStore) !! id = Some data.
Proof using Type. apply lookup_insert_eq. Qed.

Lemma temp_delete (t : TempUploadStore) id : (delete id t : TempUploadStore) !! id = None.
Proof using Type. apply lookup_delete_eq. Qed.

(** ** Initialisation *)

Lemma check_storage_frame tenant size w :
  let w' := (check_storage settings tenant size w).2 in
  uploads (db w') = uploads (db w) ∧ temp w' = temp w ∧ store w' = store w.
Proof using Type.
  unfold check_storage. destruct (auth_none settings); [done|].
  unfold get_or_create_quota, bind, get_db, put_db, ret. cbn.
  destruct (quotas (db w) !! tenant) as [q|]; cbn; [|done].
  destruct (storage_bytes_max q); cbn; [|done]. rewrite run_guard. by destruct (negb _).
Qed.

Lemma discard_all_None id rows (t : TempUploadStore) :
  t !! id = None → foldl (λ t (iu : string * Upload), discard iu.1 t) t rows !! id = None.
Proof using Type.
  revert t. induction rows as [|[i u] rows IH]; intros t Ht; [done|]. apply IH. unfold discard. cbn.
  apply lookup_delete_None. by right.
Qed.

(** The tenant has no upload under the key. *)
Definition key_free (tenant : string) (key : option string) d : Prop :=
  ∀ k i u, key = Some k → uploads d !! i = Some u → ¬ keyed tenant k u.

Lemma key_free_find tenant k d : key_free tenant (Some k) d → find_keyed tenant k d = None.
Proof using Type.
  intros Hf. destruct (find_keyed tenant k d) as [u|] eqn:E; [|done].
  apply find_keyed_Some in E as [Hk [i Hi]]. by destruct (Hf k i u).
Qed.

Lemma insert_upload_run u w :
  uploads (db w) !! upload_id u = None → key_free (tenant_id u) (idempotency_key u) (db w) →
  insert_upload u w = (Ok u, mkWorld (put_upload u (db w)) (temp w) (store w)).
Proof using Type.
  intros Hu Hk. unfold insert_upload, bind, get_db. rewrite run_guard. unfold key_taken. rewrite Hu.
  rewrite bool_decide_eq_false_2 by (by intros [? [=]]).
  destruct (idempotency_key u) as [k|]; [|done]. by rewrite (key_free_find _ _ _ Hk).
Qed.

(** The upload as the chunks received so far leave it. *)
Record receiving (u : Upload) (got : string) (b : B) w : Prop := {
  rec_row : uploads (db w) !! upload_id u =
    Some (with_received (str_len got) (if decide (str_len got = expected_size u) then "received" else "open") u);
  rec_file : default "" (temp w !! upload_id u) = got;
  rec_store : store w = b
}.

Lemma init_receiving now id tenant size ctype sha key w :
  0 < size → (check_storage settings tenant size w).1 = Ok tt →
  uploads (db w) !! id = None → temp w !! id = None → key_free tenant key (db w) →
  receiving (mkUpload id tenant key size 0 ctype sha "open" None (now + upload_expiry_seconds settings)) "" (store w)
    (serve settings w (now, true, OpInit id tenant size ctype sha key)).
Proof using Type.
  intros Hs Hq Hid Ht Hk. unfold serve, request, run_op, unit_of. cbn [fst snd]. rewrite run_bind.
  unfold init_upload. rewrite run_bind, run_guard. replace (0 <? size) with true by (symmetry; by apply Z.ltb_lt).
  rewrite run_bind. destruct (check_storage_frame tenant size w) as (Hu' & Ht' & Hs').
  destruct (check_storage settings tenant size w) as [r w1]. cbn in Hq, Hu', Ht', Hs'. subst r.
  rewrite run_bind. unfold gc_expired_uploads, bind at 1, get_db at 1.
  set (w2 := mkWorld _ _ _). set (u := mkUpload _ _ _ _ _ _ _ _ _ _).
  assert (uploads (db w2) !! upload_id u = None) as Hid2.
  { cbn. rewrite Hu'. apply map_lookup_filter_None. by left. }
  assert (key_free (tenant_id u) (idempotency_key u) (db w2)) as Hk2.
  { intros k i v Hkey [Hv _]%map_lookup_filter_Some. rewrite Hu' in Hv. by apply (Hk k i v). }
  assert (insert_upload u w2 = (Ok u, mkWorld (put_upload u (db w2)) (temp w2) (store w2))) as Hi
    by (by apply insert_upload_run).
  assert (temp w2 !! id = None) as Ht2 by (apply discard_all_None; by rewrite Ht').
  assert (store w2 = store w) as Hs2 by done. clearbody w2.
  destruct key as [k|]; [case_decide; [|rewrite (key_free_find tenant k (db w2) Hk2)]|]; rewrite Hi; cbn;
    (split; cbn; [rewrite lookup_insert_eq; rewrite decide_False by (unfold str_len; cbn; lia)|by rewrite Ht2|]); done.
Qed.

(** ** Chunks *)

Lemma receiving_visible now u got b w :
  receiving u got b w → now ≤ expires_at u →
  visible now (tenant_id u) (upload_id u) (db w) =
    Some (with_received (str_len got) (if decide (str_len got = expected_size u) then "received" else "open") u).
Proof using Type.
  intros [Hr _ _] Hn. unfold visible. rewrite Hr. cbn. rewrite decide_True by done.
  unfold _upload_expired. cbn. rewrite decide_False by (by case_decide).
  by replace (expires_at u <? now) with false by (symmetry; apply Z.ltb_ge; lia).
Qed.

Lemma append_receiving now u got c b w :
  receiving u got b w → now ≤ expires_at u → c ≠ "" → str_len got + str_len c ≤ expected_size u →
  receiving u (got +:+ c) b (serve settings w (now, true, OpAppend (tenant_id u) (upload_id u) (str_len got) c)).
Proof using Type.
  intros Hr Hn Hc Hle. unfold serve, request, run_op, unit_of. cbn [fst snd]. rewrite run_bind.
  assert (0 < str_len c) by (destruct c; [done|]; unfold str_len; cbn; lia).
  rewrite append_chunk_run, (receiving_visible _ _ _ _ _ Hr Hn). cbn [received_bytes up_state expected_size with_received].
  rewrite (decide_False (P := str_len got = expected_size u)) by lia. rewrite !decide_True by done.
  destruct (Z.ltb_spec (expected_size u) (str_len got + str_len c)); [lia|].
  destruct Hr as [Hrow Hfile Hst]. unfold temp_append. rewrite Hfile. rewrite decide_False by (by intros []).
  cbn. split; cbn; [|by rewrite temp_insert|done].
  rewrite lookup_insert_eq. unfold received, with_received. cbn. by rewrite str_len_app.
Qed.

Lemma chunks_receiving u chunks got b w :
  receiving u got b w → Forall (λ c, c.1 ≤ expires_at u ∧ c.2 ≠ "") chunks →
  str_len got + str_len (joined chunks) ≤ expected_size u →
  receiving u (got +:+ joined chunks) b
    (foldl (serve settings) w (chunk_requests (tenant_id u) (upload_id u) (str_len got) chunks)).
Proof using Type.
  revert got w. induction chunks as [|[now c] chunks IH]; intros got w Hr Hc Hle.
  - cbn. unfold joined. cbn. by rewrite str_app_nil_r.
  - apply Forall_cons in Hc as [[Hn Hne] Hc]. cbn [fst snd] in Hn, Hne. unfold joined in Hle |- *. cbn in Hle |- *.
    fold (joined chunks) in *. rewrite str_len_app in Hle. pose proof (str_len_nonneg (joined chunks)).
    rewrite str_app_assoc, <-str_len_app. apply IH; [|done|rewrite str_len_app; lia].
    apply append_receiving; [done..|lia].
Qed.

(** ** Finalisation *)

Lemma finalize_receiving now u data client_sha b w :
  receiving u data b w → now ≤ expires_at u → str_len data = expected_size u → data ≠ "" →
  differs (expected_sha u) (sha256_hex data) = false → differs client_sha (sha256_hex data) = false →
  let r := request true (finalize_upload now (tenant_id u) (upload_id u) client_sha) w in
  let v := finalized (sha256_hex data) (with_received (str_len data) "received" u) in
  r.1 = Ok v ∧ uploads (db r.2) !! upload_id u = Some v ∧ temp r.2 !! upload_id u = None ∧
  store r.2 = (put_stream CHUNK_SIZE data b).2.
Proof using Type*.
  intros Hr Hn Hl Hne He Hc. unfold request. rewrite finalize_upload_run, (receiving_visible _ _ _ _ _ Hr Hn).
  rewrite (decide_True (P := str_len data = expected_size u)) by done. cbn [up_state with_received].
  rewrite decide_False by done. rewrite bool_decide_eq_false_2 by done. cbn [andb].
  destruct Hr as [Hrow Hfile Hst]. destruct (temp w !! upload_id u) as [d|]; [|by subst].
  cbn in Hfile. subst d. cbn [expected_sha with_received]. rewrite He, Hc. cbn [expected_size with_received].
  rewrite decide_True by done. cbn [fst snd db temp store].
  split_and!; [done| |by rewrite temp_delete|by rewrite Hst].
  unfold put_upload. cbn. by rewrite lookup_insert_eq.
Qed.

(** ** The guarantees *)

(** C37: Chunked uploads are well formed in every reachable world. From an empty
    database and a content-addressed store, whatever the sequence of upload requests
    and sweeps, their tenants, offsets, data and times, and whichever commits fail
    (the files written by a failed transaction stay): the bytes received by an
    upload stay within its size, which is positive; its state is open with bytes
    missing, received with all of them, or finalized, and then the size is exact,
    the requested digest matches and the blob named by the row is in the store and
    has a row of its own; no two uploads of a tenant share an idempotency key; and
    every blob is stored under its own digest. *)
Theorem uploads_well_formed (b : B) q steps :
  addressed b →
  let w := foldl (serve settings) (mkWorld (mkUploadDb ∅ ∅ q) ∅ b) steps in
  (∀ id u, uploads (db w) !! id = Some u →
    0 < expected_size u ∧ 0 ≤ received_bytes u ≤ expected_size u ∧
    ((up_state u = "open" ∧ received_bytes u < expected_size u ∧ blob_sha u = None) ∨
     (up_state u = "received" ∧ received_bytes u = expected_size u ∧ blob_sha u = None) ∨
     (up_state u = "finalized" ∧ received_bytes u = expected_size u ∧
      ∃ data, blob_sha u = Some (sha256_hex data) ∧ str_len data = expected_size u ∧
        differs (expected_sha u) (sha256_hex data) = false ∧
        blob_exists (sha256_hex data) (store w) = true ∧ is_Some (blob_rows (db w) !! sha256_hex data)))) ∧
  (∀ i j u v k, uploads (db w) !! i = Some u → uploads (db w) !! j = Some v → tenant_id u = tenant_id v →
    idempotency_key u = Some k → idempotency_key v = Some k → i = j) ∧
  addressed (store w).
Proof using Type*.
  intros Hb w. destruct (serve_all_inv steps (mkWorld (mkUploadDb ∅ ∅ q) ∅ b)) as [Hr Hk Ha];
    [by apply start_inv|]. fold w in Hr, Hk, Ha. split; [|done].
  intros id u Hu. destruct (Hr id u Hu) as [_ [Hs Hb'] Hst]. split; [done|]. split; [done|].
  destruct Hst as [|?|data]; [auto..|]. do 2 right. split; [done|]. split; [done|].
  exists data. split_and!; try done. by apply exists_holds.
Qed.

(** C38: A chunked upload is a round trip. A tenant that opens an upload of the size
    of its data under a fresh id and key, sends the data in any non-empty chunks in
    order and finalizes it, all within the expiry and with the digests it claims
    being right, gets a finalized upload naming the digest of the whole data,
    whatever the chunking and the read size of the store; the blob is there (the
    data, or the content the store already had under that digest) and the working
    file is gone. *)
Theorem upload_round_trip w t0 id tenant ctype sha key chunks tf client_sha :
  let data := joined chunks in
  let until := t0 + upload_expiry_seconds settings in
  data ≠ "" → Forall (λ c, c.1 ≤ until ∧ c.2 ≠ "") chunks → tf ≤ until →
  uploads (db w) !! id = None → temp w !! id = None → key_free tenant key (db w) →
  (check_storage settings tenant (str_len data) w).1 = Ok tt →
  differs sha (sha256_hex data) = false → differs client_sha (sha256_hex data) = false →
  let w1 := serve settings w (t0, true, OpInit id tenant (str_len data) ctype sha key) in
  let w2 := foldl (serve settings) w1 (chunk_requests tenant id 0 chunks) in
  let r := request true (finalize_upload tf tenant id client_sha) w2 in
  ∃ u, r.1 = Ok u ∧ uploads (db r.2) !! id = Some u ∧ up_state u = "finalized" ∧
    received_bytes u = str_len data ∧ blob_sha u = Some (sha256_hex data) ∧
    (∃ kept, read_blob (sha256_hex data) (store r.2) = Ok kept ∧
      (kept = data ∨ read_blob (sha256_hex data) (store w) = Ok kept)) ∧
    temp r.2 !! id = None.
Proof using Type*.
  intros data until Hne Hc Htf Hid Ht Hk Hq Hs Hcs w1 w2 r.
  assert (0 < str_len data) by (destruct data; [done|]; unfold str_len; cbn; lia).
  set (u := mkUpload id tenant key (str_len data) 0 ctype sha "open" None until).
  assert (receiving u "" (store w) w1) as Hw1 by (by apply init_receiving).
  assert (receiving u data (store w) w2) as Hw2.
  { apply (chunks_receiving u chunks "" (store w) w1 Hw1); [done|]. unfold str_len at 1. cbn. unfold data. lia. }
  destruct (finalize_receiving tf u data client_sha (store w) w2) as (Hr & Hrow & Htmp & Hst); [done..|].
  exists (finalized (sha256_hex data) (with_received (str_len data) "received" u)).
  split_and!; try done. rewrite (Hst : store r.2 = _).
  destruct (put_holds CHUNK_SIZE data (store w) CHUNK_SIZE_pos) as (kept & Hkept & Hor). by exists kept.
Qed.

(** The bytes of an upload whose digest check fails at finalisation are gone: the
    row rolls back to its received state, and every later attempt finds no data. *)
Theorem failed_finalize_loses_data now tenant id u data client_sha w :
  visible now tenant id (db w) = Some u → up_state u = "received" → temp w !! id = Some data →
  differs client_sha (sha256_hex data) = true →
  let r := request true (finalize_upload now tenant id client_sha) w in
  (∃ err, r.1 = Err (Some err)) ∧ db r.2 = db w ∧
  (request true (finalize_upload now tenant id (Some (sha256_hex data))) r.2).1 =
    Err (Some (storage_error ("No upload data for " +:+ id))).
Proof using Type*.
  intros Hv Hs Ht Hd. unfold request. rewrite finalize_upload_run, Hv. rewrite (decide_False (P := up_state u = _)) by (by rewrite Hs).
  rewrite bool_decide_eq_false_2 by (by rewrite Hs). cbn [andb]. rewrite Ht. cbn zeta. rewrite Hd.
  assert (∀ w', db w' = db w → temp w' = delete id (temp w) →
    finalize_upload now tenant id (Some (sha256_hex data)) w' = (Err (storage_error ("No upload data for " +:+ id)), w')) as Hagain.
  { intros w' Hdb Htm. rewrite finalize_upload_run, Hdb, Hv, Htm, temp_delete.
    rewrite decide_False by (by rewrite Hs). by rewrite bool_decide_eq_false_2 by (by rewrite Hs). }
  destruct (differs (expected_sha u) _); cbn [fst snd db temp store]; (split; [by eexists|]; split; [done|]);
    by rewrite Hagain.
Qed.

(** A chunk whose commit fails leaves its bytes in the working file, past what the
    row records: the offset a client resumes from is refused from then on. *)
Theorem failed_commit_blocks_upload now now' tenant id u data more w :
  visible now tenant id (db w) = Some u → visible now' tenant id (db w) = Some u →
  up_state u = "open" → default "" (temp w !! id) = data → received_bytes u = str_len data →
  more ≠ "" → received_bytes u + str_len more ≤ expected_size u →
  let w1 := serve settings w (now, false, OpAppend tenant id (received_bytes u) more) in
  db w1 = db w ∧
  (request true (append_chunk now' tenant id (received_bytes u) more) w1).1 =
    Err (Some (storage_error ("Out-of-order chunk: expected offset " +:+ pretty (str_len (data +:+ more)) +:+ ", got " +:+
      pretty (received_bytes u)))).
Proof using Type.
  intros Hv Hv' Hs Ht Hr Hm Hle. assert (0 < str_len more) by (destruct more; [done|]; unfold str_len; cbn; lia).
  assert ((expected_size u <? received_bytes u + str_len more) = false) as Hfit by (apply Z.ltb_ge; lia).
  assert (temp_append id (received_bytes u) more (temp w) =
    (Ok (str_len data + str_len more), <[id := data +:+ more]> (temp w))) as Ha.
  { unfold temp_append. rewrite Ht. rewrite decide_False by (by intros []). done. }
  set (w1 := serve _ _ _). assert (w1 = mkWorld (db w) (<[id := data +:+ more]> (temp w)) (store w)) as Hw1.
  { unfold w1, serve, request, run_op, unit_of. cbn [fst snd]. rewrite run_bind, append_chunk_run, Hv.
    rewrite !decide_True by done. by rewrite Hfit, Ha. }
  rewrite Hw1. split; [done|]. unfold request. rewrite append_chunk_run. cbn [db temp store]. rewrite Hv', !decide_True by done.
  rewrite Hfit. unfold temp_append. rewrite temp_insert. cbn [default from_option]. unfold Datatypes.id.
  rewrite str_len_app.
  rewrite (decide_True (P := received_bytes u ≠ _)) by lia. done.
Qed.
End facts.

(** ** Witnesses *)

Definition example_settings : UploadSettings := mkUploadSettings true 100.
Definition empty_store : InMemoryBlobStore := mkMemory ∅.

Lemma uploads_well_formed_witness :
  let w := foldl (serve example_settings) (mkWorld (mkUploadDb ∅ ∅ ∅) ∅ empty_store)
    [(0, true, OpInit "u" "t" 2 None None None); (1, true, OpAppend "t" "u" 0 "ab"); (2, false, OpFinalize "t" "u" None)] in
  (option_map up_state (uploads (db w) !! "u") = Some "received" ∧ size (_bytes (store w)) = 1%nat) ∧
  ∀ id u, uploads (db w) !! id = Some u → 0 < expected_size u ∧ 0 ≤ received_bytes u ≤ expected_size u.
Proof.
  intros w. split; [split; by vm_compute|]. intros id u Hu.
  destruct (uploads_well_formed example_settings empty_store ∅
    [(0, true, OpInit "u" "t" 2 None None None); (1, true, OpAppend "t" "u" 0 "ab"); (2, false, OpFinalize "t" "u" None)])
    as (Hw & _ & _).
  - by intros sha data [=].
  - destruct (Hw id u Hu) as (H1 & H2 & _). by split.
Defined.

Lemma upload_round_trip_witness :
  ∃ u, (request true (finalize_upload 9 "t" "u" None)
      (foldl (serve example_settings) (serve example_settings (mkWorld (mkUploadDb ∅ ∅ ∅) ∅ empty_store)
        (0, true, OpInit "u" "t" 5 None None (Some "k"))) (chunk_requests "t" "u" 0 [(1, "sc"); (2, "ene")]))).1 = Ok u ∧
    blob_sha u = Some (sha256_hex "scene").
Proof.
  destruct (upload_round_trip example_settings (mkWorld (mkUploadDb ∅ ∅ ∅) ∅ empty_store) 0 "u" "t" None None (Some "k")
    [(1, "sc"); (2, "ene")] 9 None) as (u & Hr & _ & _ & _ & Hb & _).
  - done.
  - by repeat constructor.
  - done.
  - done.
  - done.
  - by intros k i u _ Hu.
  - done.
  - done.
  - done.
  - exists u. split; [exact Hr|exact Hb].
Defined.
