(* ===== verification/ArtifactVocab.v ===== *)
(** [sceneapi/server/core/artifacts.py]: the artifact formats and kinds the server
    serves, joined with the format registry of the contract package at import, and
    the lookups between kinds, formats, datatypes and input roles; with the format a
    plugin declares for a kind ([adapters/backend_artifacts.py]). *)
From S2P Require Import Prelude PyValue.
From stdpp Require Import options.

Module Vocab.

(** ** Data *)

(** A row of the contract package's registry. *)
Record FormatSpec : Type := mkFormatSpec { spec_id : string; spec_kind : string; spec_description : string }.

(** The JSON schema and the examples served with a format are left out. *)
Record ArtifactFormatDefinition : Type := mkFormat {
  format_id : string;
  f_datatype : string;
  f_title : string;
  f_description : string;
  f_schema_version : Z;
  media_types : list string;
  serves_kinds : list string
}.

Record ArtifactKindDefinition : Type := mkKind {
  kd_kind : string;
  kd_datatype : string;
  kd_title : string;
  kd_description : string;
  durable : bool;
  kd_format : string;
  kd_schema_version : Z
}.

(** [_CoreFormatWireDetails]: the title and the media types. *)
Record WireDetails : Type := mkWire { w_title : string; w_media_types : list string }.

Definition json_stream : list string := ["application/json"; "application/octet-stream"].

Definition _CORE_FORMAT_WIRE_DETAILS : dict WireDetails := [
  ("sfmapi.features.local.v1", mkWire "sfmapi local features" ["application/json"; "application/x-ndjson"; "application/octet-stream"]);
  ("sfmapi.features.global.v1", mkWire "sfmapi global descriptors" json_stream);
  ("sfmapi.pairs.image_names.v1", mkWire "sfmapi image-name pairs" ["text/plain"; "application/json"]);
  ("sfmapi.matches.indexed.v1", mkWire "sfmapi indexed matches" json_stream);
  ("sfmapi.matches.coordinates.v1", mkWire "sfmapi coordinate matches" json_stream);
  ("sfmapi.matches.dense.v1", mkWire "sfmapi dense matches" json_stream);
  ("sfmapi.matches.verified.v1", mkWire "sfmapi verified two-view geometry" json_stream);
  ("sfmapi.reconstruction.sparse.v1", mkWire "sfmapi sparse reconstruction" json_stream);
  ("sfmapi.reconstruction.snapshot.v1", mkWire "sfmapi sealed snapshot" json_stream);
  ("sfmapi.reconstruction.submodel.v1", mkWire "sfmapi reconstruction submodel" json_stream);
  ("sfmapi.projection.images.v1", mkWire "sfmapi projected image set" ["application/json"; "image/jpeg"; "image/png"])
].

(** The arguments of the calls to [_kind]: kind, title, description, durable, format. *)
Definition core_kind_rows : list (string * string * string * bool * string) := [
  ("features.local.v1", "Local feature set",
   "Portable per-image local keypoints and descriptors. Supports SIFT-like and learned local features through manifest-declared layouts.",
   false, "sfmapi.features.local.v1");
  ("features.global.v1", "Global image descriptors",
   "Portable per-image retrieval descriptors such as VLAD or NetVLAD.", false, "sfmapi.features.global.v1");
  ("pairs.image_names.v1", "Image-name pairs",
   "Portable newline-delimited or manifest-addressed image pair list.", false, "sfmapi.pairs.image_names.v1");
  ("matches.indexed.v1", "Indexed feature matches",
   "Portable raw matches expressed as keypoint-index pairs.", false, "sfmapi.matches.indexed.v1");
  ("matches.coordinates.v1", "Coordinate matches",
   "Portable detector-free matches expressed as image coordinate pairs.", false, "sfmapi.matches.coordinates.v1");
  ("matches.dense.v1", "Dense or semi-dense matches",
   "Portable tiled/chunked dense match field.", false, "sfmapi.matches.dense.v1");
  ("matches.verified.v1", "Verified two-view geometry",
   "Portable verified matches with F/E/H matrices and inlier pairs.", false, "sfmapi.matches.verified.v1");
  ("reconstruction.sparse.v1", "Sparse reconstruction",
   "Portable cameras, image poses, tracks, and sparse points manifest.", true, "sfmapi.reconstruction.sparse.v1");
  ("reconstruction.snapshot", "Sealed reconstruction snapshot",
   "Immutable sealed snapshot directory for a reconstruction.", true, "sfmapi.reconstruction.snapshot.v1");
  ("reconstruction.submodel", "Reconstruction submodel",
   "One disconnected mapping component inside a reconstruction snapshot.", true, "sfmapi.reconstruction.submodel.v1");
  ("projection.images.v1", "Projected image set",
   "Images produced by a portable projection transform plus a manifest.", true, "sfmapi.projection.images.v1")
].

(** ** The tables built at import; an [Err] is an exception that aborts the import *)

Definition subset (a b : list string) : bool := forallb (λ x, bool_decide (x ∈ b)) a.

Definition join_format (spec : FormatSpec) (d : WireDetails) : ArtifactFormatDefinition :=
  mkFormat (spec_id spec) (spec_kind spec) (w_title d) (spec_description spec) 1 (w_media_types d) [].

(** [io] is the registry of the contract package. *)
Definition _build_core_artifact_formats (io : dict FormatSpec) : res string (dict ArtifactFormatDefinition) :=
  let core := dict_keys _CORE_FORMAT_WIRE_DETAILS in
  _ ← raise_if (negb (subset (dict_keys io) core && subset core (dict_keys io)))
        "core artifact formats out of sync with sceneio.formats.CORE_FORMATS";
  fold_res (λ out kv,
    match dict_get kv.1 _CORE_FORMAT_WIRE_DETAILS with
    | Some d => Ok (dict_set kv.1 (join_format kv.2 d) out)
    | None => Err kv.1
    end) [] io.

(** [_kind]: a format that is not in the table is a [KeyError]. *)
Definition _kind (formats : dict ArtifactFormatDefinition) (row : string * string * string * bool * string) :
    res string ArtifactKindDefinition :=
  let '(kind, title, description, durable, fmt) := row in
  match dict_get fmt formats with
  | Some f => Ok (mkKind kind (f_datatype f) title description durable fmt 1)
  | None => Err fmt
  end.

Definition core_kinds (formats : dict ArtifactFormatDefinition) : res string (dict ArtifactKindDefinition) :=
  fold_res (λ out row, k ← _kind formats row; Ok (dict_set (kd_kind k) k out)) [] core_kind_rows.

(** [kind.split(".", 1)[0]] *)
Definition namespace (kind : string) : string :=
  match partition_on "."%char kind with Some (ns, _) => ns | None => kind end.

Definition add_namespace (m : dict string) (kv : string * ArtifactKindDefinition) : res string (dict string) :=
  let ns := namespace kv.1 in
  let dt := kd_datatype kv.2 in
  _ ← raise_if (bool_decide (default dt (dict_get ns m) ≠ dt))
        ("kind namespace " +:+ str_repr ns +:+ " maps to two DataTypes");
  Ok (dict_set ns dt m).

Definition _KIND_NAMESPACE_TO_DATATYPE (kinds : dict ArtifactKindDefinition) : res string (dict string) :=
  fold_res add_namespace [] kinds.

Record Vocabulary : Type := mkVocabulary {
  CORE_ARTIFACT_FORMATS : dict ArtifactFormatDefinition;
  CORE_ARTIFACT_KINDS : dict ArtifactKindDefinition;
  namespaces : dict string
}.

Definition build_vocabulary (io : dict FormatSpec) : res string Vocabulary :=
  formats ← _build_core_artifact_formats io;
  kinds ← core_kinds formats;
  ns ← _KIND_NAMESPACE_TO_DATATYPE kinds;
  Ok (mkVocabulary formats kinds ns).

(** ** Input roles *)

Definition ARTIFACT_INPUT_ROLE_KINDS : dict (list string) := [
  ("features", ["features.local.v1"; "features.global.v1"]);
  ("pairs", ["pairs.image_names.v1"]);
  ("matches", ["matches.indexed.v1"; "matches.coordinates.v1"; "matches.dense.v1"]);
  ("verified_matches", ["matches.verified.v1"]);
  ("snapshot", ["reconstruction.sparse.v1"; "reconstruction.snapshot"]);
  ("submodel", ["reconstruction.submodel"])
].

Definition ARTIFACT_INPUT_ROLE_PREFIXES : dict (list string) := [
  ("features", ["features."]);
  ("pairs", ["pairs."]);
  ("matches", ["matches."]);
  ("verified_matches", ["matches.verified."; "matches.database.verified."]);
  ("snapshot", ["reconstruction.sparse."; "reconstruction.snapshot."]);
  ("submodel", ["reconstruction.submodel."])
].

Definition is_artifact_allowed_for_role (role kind : string) : bool :=
  match dict_get role ARTIFACT_INPUT_ROLE_KINDS with
  | None => true
  | Some allowed =>
      bool_decide (kind ∈ allowed) ||
      existsb (λ prefix, starts_with prefix kind) (default [] (dict_get role ARTIFACT_INPUT_ROLE_PREFIXES))
  end.

(** ** Lookups *)

Section lookups.
Variable v : Vocabulary.

Definition is_core_artifact_kind (kind : string) : bool := dict_mem kind (CORE_ARTIFACT_KINDS v).
Definition is_core_artifact_format (fmt : string) : bool := dict_mem fmt (CORE_ARTIFACT_FORMATS v).

(** [None] for an unknown kind; a known kind whose format is not in the table would be a [KeyError]. *)
Definition default_format_for_kind (kind : string) : res string (option ArtifactFormatDefinition) :=
  match dict_get kind (CORE_ARTIFACT_KINDS v) with
  | None => Ok None
  | Some k => match dict_get (kd_format k) (CORE_ARTIFACT_FORMATS v) with Some f => Ok (Some f) | None => Err (kd_format k) end
  end.

Definition kind_for_default_format (fmt : string) : option string :=
  fst <$> head (filter (λ kv, kd_format kv.2 = fmt) (CORE_ARTIFACT_KINDS v)).

Definition datatype_for_format (fmt : string) : option string := f_datatype <$> dict_get fmt (CORE_ARTIFACT_FORMATS v).

Definition datatype_for_kind (kind : string) : option string :=
  match dict_get kind (CORE_ARTIFACT_KINDS v) with
  | Some k => Some (kd_datatype k)
  | None => dict_get (namespace kind) (namespaces v)
  end.

Definition is_format_compatible_with_kind (kind fmt : string) : bool :=
  match datatype_for_kind kind, datatype_for_format fmt with
  | Some a, Some b => bool_decide (a = b)
  | _, _ => true
  end.

Definition resolve_io_formats (type_id : string) (plugin_formats : list ArtifactFormatDefinition) :
    list ArtifactFormatDefinition :=
  filter (λ f, f_datatype f = type_id) plugin_formats ++
  filter (λ f, f_datatype f = type_id) (CORE_ARTIFACT_FORMATS v).*2.

(** [backend_default_format_for_kind]; [plugin_formats] is [backend_io_formats(backend)] and
    [artifact_types] the artifact datatypes of the core registry. *)
Definition backend_default_format_for_kind (artifact_types : list string) (plugin_formats : list ArtifactFormatDefinition)
    (kind : string) : option string :=
  match dict_get kind (CORE_ARTIFACT_KINDS v) with
  | None => None
  | Some k =>
      if decide (kd_datatype k ∈ artifact_types) then
        let overrides := filter (λ f, is_core_artifact_format (format_id f) = false)
                           (resolve_io_formats (kd_datatype k) plugin_formats) in
        match head (filter (λ f, kind ∈ serves_kinds f) overrides) with
        | Some f => Some (format_id f)
        | None => format_id <$> head (filter (λ f, serves_kinds f = []) overrides)
        end
      else None
  end.
End lookups.

End Vocab.
Import Vocab.

(** A core kind outside a role's list is still accepted when a prefix covers it. *)
Example verified_accepted_as_matches : is_artifact_allowed_for_role "matches" "matches.verified.v1" = true.
Proof. by vm_compute. Qed.

(** ** The tables are coherent *)

(** A format table names its rows by their key, when the registry does. *)
Lemma formats_keyed io formats :
  (∀ id spec, (id, spec) ∈ io → spec_id spec = id) → _build_core_artifact_formats io = Ok formats →
  ∀ id f, (id, f) ∈ formats → format_id f = id ∧ f_schema_version f = 1%Z.
Proof.
  intros Hio (_ & _ & Hf)%bind_Ok.
  refine (fold_res_ind _ (λ out, ∀ id f, (id, f) ∈ out → format_id f = id ∧ f_schema_version f = 1%Z) _ _ _ _ _ Hf).
  - by intros ?? ?%elem_of_nil.
  - intros out [id spec] out' Hin IH. cbn [fst snd].
    destruct (dict_get id _CORE_FORMAT_WIRE_DETAILS) as [d|]; [|done]. intros [= <-] k f Hk.
    apply dict_set_elem in Hk as [Hk|[-> ->]]; [by apply IH|]. cbn. split; [by apply Hio|done].
Qed.

(** Every kind's default format is in the table, with the datatype of the kind. *)
Definition kinds_covered (formats : dict ArtifactFormatDefinition) (kinds : dict ArtifactKindDefinition) : Prop :=
  ∀ kind k, (kind, k) ∈ kinds → kd_kind k = kind ∧ kd_schema_version k = 1%Z ∧
    ∃ f, dict_get (kd_format k) formats = Some f ∧ f_datatype f = kd_datatype k.

Lemma core_kinds_covered formats kinds : core_kinds formats = Ok kinds → kinds_covered formats kinds.
Proof.
  apply (fold_res_ind _ (kinds_covered formats)); [by intros ?? ?%elem_of_nil|].
  intros out row out' _ IH (k & Hk & [= <-])%bind_Ok kind k' Hin.
  apply dict_set_elem in Hin as [Hin|[-> ->]]; [by apply IH|]. unfold _kind in Hk.
  destruct row as [[[[kind title] description] d] fmt]. destruct (dict_get fmt formats) as [f|] eqn:Ef; [|done].
  injection Hk as <-. cbn. split_and!; [done..|]. by exists f.
Qed.

(** Kinds of a namespace share its datatype. *)
Lemma namespaces_agree kinds ns :
  _KIND_NAMESPACE_TO_DATATYPE kinds = Ok ns →
  ∀ kind k, (kind, k) ∈ kinds → dict_get (namespace kind) ns = Some (kd_datatype k).
Proof.
  unfold _KIND_NAMESPACE_TO_DATATYPE. intros Hns.
  enough (∀ l m m', fold_res add_namespace m l = Ok m' →
    (∀ n d, dict_get n m = Some d → dict_get n m' = Some d) ∧
    ∀ kind k, (kind, k) ∈ l → dict_get (namespace kind) m' = Some (kd_datatype k)) as H by (by apply (H kinds [])).
  clear Hns ns kinds. induction l as [|[kind k] l IH]; intros m m'; cbn; [intros [= <-]; split; [done|by intros ?? ?%elem_of_nil]|].
  intros (m1 & ([] & Hr & [= <-])%bind_Ok & Hl)%bind_Ok. apply raise_if_Ok, bool_decide_eq_false, dec_stable in Hr.
  destruct (IH _ _ Hl) as [Hkeep Hall]. split.
  - intros n d Hn. apply Hkeep. destruct (decide (n = namespace kind)) as [->|Hne].
    + rewrite dict_get_set_eq. cbn [fst snd] in Hr. rewrite Hn in Hr. cbn in Hr. congruence.
    + by rewrite dict_get_set_ne.
  - intros kind' k' [[= -> ->]|Hin]%elem_of_cons; [|by apply Hall]. apply Hkeep. apply dict_get_set_eq.
Qed.

(** What a successful import gives. *)
Record coherent (v : Vocabulary) : Prop := {
  coh_formats id f : (id, f) ∈ CORE_ARTIFACT_FORMATS v → format_id f = id ∧ f_schema_version f = 1%Z;
  coh_kinds : kinds_covered (CORE_ARTIFACT_FORMATS v) (CORE_ARTIFACT_KINDS v);
  coh_namespaces kind k : (kind, k) ∈ CORE_ARTIFACT_KINDS v → dict_get (namespace kind) (namespaces v) = Some (kd_datatype k)
}.

Lemma build_vocabulary_coherent io v :
  (∀ id spec, (id, spec) ∈ io → spec_id spec = id) → build_vocabulary io = Ok v → coherent v.
Proof.
  intros Hio (formats & Hf & (kinds & Hk & (ns & Hn & [= <-])%bind_Ok)%bind_Ok)%bind_Ok. split; cbn.
  - by eapply formats_keyed.
  - by apply core_kinds_covered.
  - by apply namespaces_agree.
Qed.

(** A known kind has a default format, of the kind's datatype and compatible with it. *)
Lemma default_format_compatible v kind k :
  coherent v → dict_get kind (CORE_ARTIFACT_KINDS v) = Some k →
  datatype_for_kind v kind = Some (kd_datatype k) ∧ datatype_for_format v (kd_format k) = Some (kd_datatype k) ∧
  is_format_compatible_with_kind v kind (kd_format k) = true ∧
  ∃ f, default_format_for_kind v kind = Ok (Some f) ∧ format_id f = kd_format k.
Proof.
  intros Hc Hk. destruct (coh_kinds v Hc kind k) as (_ & _ & f & Hf & Hd); [by apply dict_get_elem|].
  assert (datatype_for_kind v kind = Some (kd_datatype k)) as H1 by (unfold datatype_for_kind; by rewrite Hk).
  assert (datatype_for_format v (kd_format k) = Some (kd_datatype k)) as H2
    by (unfold datatype_for_format; rewrite Hf; cbn; by rewrite Hd).
  split_and!; [done..| |].
  - unfold is_format_compatible_with_kind. rewrite H1, H2. by apply bool_decide_eq_true.
  - exists f. unfold default_format_for_kind. rewrite Hk, Hf. split; [done|]. by eapply coh_formats, dict_get_elem.
Qed.

(** A plugin's format for a kind serializes the kind's datatype and is not a core format. *)
Lemma backend_default_format_sound v artifact_types plugin_formats kind fmt :
  coherent v → backend_default_format_for_kind v artifact_types plugin_formats kind = Some fmt →
  ∃ k f, dict_get kind (CORE_ARTIFACT_KINDS v) = Some k ∧ f ∈ plugin_formats ∧ format_id f = fmt ∧
    f_datatype f = kd_datatype k ∧ is_core_artifact_format v fmt = false ∧
    (kind ∈ serves_kinds f ∨ serves_kinds f = []).
Proof.
  intros Hc. unfold backend_default_format_for_kind. destruct (dict_get kind _) as [k|] eqn:Ek; [|done].
  case_decide; [|done]. set (overrides := filter _ (resolve_io_formats _ _ _)).
  assert (∀ f, f ∈ overrides → f ∈ plugin_formats ∧ f_datatype f = kd_datatype k ∧ is_core_artifact_format v (format_id f) = false)
    as Ho.
  { intros f [Hcore Hf]%list_elem_of_filter. unfold resolve_io_formats in Hf.
    apply elem_of_app in Hf as [[Hd Hf]%list_elem_of_filter|[Hd Hf]%list_elem_of_filter]; [done|].
    apply list_elem_of_fmap in Hf as ([id f'] & -> & Hin). destruct (coh_formats v Hc id f' Hin) as [Hid _].
    cbn in Hcore. rewrite Hid in Hcore. unfold is_core_artifact_format in Hcore.
    assert (dict_mem id (CORE_ARTIFACT_FORMATS v) = true) by (apply dict_mem_true, list_elem_of_fmap; by exists (id, f')).
    congruence. }
  assert (∀ P (HP : ∀ f, Decision (P f)) f, head (filter P overrides) = Some f → P f ∧ f ∈ overrides) as Hh.
  { intros P HP f Hf. rewrite <-(list_elem_of_filter P). destruct (filter P overrides); [done|]. injection Hf as ->. by left. }
  destruct (head (filter (λ f, kind ∈ serves_kinds f) overrides)) as [f|] eqn:E1.
  - intros [= <-]. apply Hh in E1 as [Hs Hf]. destruct (Ho f Hf) as (? & ? & ?). exists k, f. auto 10.
  - destruct (head (filter (λ f, serves_kinds f = []) overrides)) as [f|] eqn:E2; [|done]. intros [= <-].
    apply Hh in E2 as [Hs Hf]. destruct (Ho f Hf) as (? & ? & ?). exists k, f. auto 10.
Qed.
