(* ===== verification/Conversion.v ===== *)
(** [sceneapi/server/services/artifact_conversion_service.py], its planning part:
    the conversions a backend's artifact contracts advertise and the breadth-first
    search over them; with the de-duplication of contracts in
    [adapters/_descriptor_registry.py] and the artifact keys of [core/ids.py]. *)
From S2P Require Import Prelude PyValue Errors Processors HubManifest.
From stdpp Require Import options.
Import Errors.

#[local] Arguments String.append !_ _ / : simpl nomatch.

Module Conversion.

(** An exception: one of the API errors, or another one ([None]). *)
Definition raised : Type := option api_error.
Definition invalid (detail : string) : raised := Some (api_error_init ValidationError detail []).

(** [str(v)] and [repr(v)] *)
Fixpoint py_repr (v : value) : string :=
  match v with
  | VNone => "None"
  | VBool b => if b then "True" else "False"
  | VInt z => pretty z
  | VFloat f => fl_repr f
  | VStr s => str_repr s
  | VList l => "[" +:+ join ", " (map py_repr l) +:+ "]"
  | VDict d => "{" +:+ join ", " (map (λ kv, match kv with (k, v) => str_repr k +:+ ": " +:+ py_repr v end) d) +:+ "}"
  end.

Definition py_str (v : value) : string := match v with VStr s => s | _ => py_repr v end.

(** ** Artifact keys *)

Definition alnum (a : ascii) : bool :=
  Manifest.lower_or_digit a || Manifest.char_between "A" "Z" a.

Definition ARTIFACT_KEY_PATTERN : string := "^[A-Za-z0-9][A-Za-z0-9_.-]{0,95}$".

(** [ARTIFACT_KEY_RE.fullmatch] *)
Definition is_artifact_key (s : string) : bool :=
  Manifest.word_of alnum (λ a, alnum a || Manifest.one_of ["_"; "."; "-"]%char a) s && (String.length s <=? 96).

Definition is_valid_artifact_key : string → bool := is_artifact_key.

(** ** Contracts *)

(** A normalized row of a backend's artifact contracts, the fields planning reads. *)
Record ArtifactContract : Type := mkContract {
  contract_id : string;
  c_backend : string;
  c_stage : string;
  c_provider : option string;
  conversions : list value
}.

Definition stage_weight (c : ArtifactContract) : Z := default 999%Z (dict_get (c_stage c) Processors.CONFIG_STAGE_ORDER).

(** The sort key [(order.get(stage, 999), id)]. *)
Definition contract_le (a b : ArtifactContract) : Prop :=
  (stage_weight a < stage_weight b)%Z ∨ stage_weight a = stage_weight b ∧ String.le (contract_id a) (contract_id b).

#[export] Instance contract_le_dec a b : Decision (contract_le a b).
Proof. unfold contract_le. apply _. Defined.

(** [by_id.setdefault(id, row)] *)
Definition setdefault (d : dict ArtifactContract) (c : ArtifactContract) : dict ArtifactContract :=
  match dict_get (contract_id c) d with Some _ => d | None => dict_set (contract_id c) c d end.

Definition dedupe (rows : list ArtifactContract) : list ArtifactContract :=
  merge_sort contract_le (foldl setdefault [] rows).*2.

(** [find] and [get_row] *)
Definition find_row (rows : list ArtifactContract) (id : string) : option ArtifactContract :=
  head (filter (λ c, contract_id c = id) rows).

Definition get_row (rows : list ArtifactContract) (id : string) : res raised ArtifactContract :=
  match find_row rows id with
  | Some c => Ok c
  | None => Err (Some (api_error_init NotFoundError ("Backend artifact contract " +:+ str_repr id +:+ " not found") []))
  end.

(** ** Artifacts and requests *)

Record StageArtifact : Type := mkArtifact { artifact_id : string; a_kind : string; metadata_json : value }.

Definition _metadata (a : StageArtifact) : dict value := match metadata_json a with VDict d => d | _ => [] end.

Definition _artifact_format (a : StageArtifact) : option string :=
  match value_get "artifact_format" (_metadata a) with
  | VStr s => if decide (s = "") then None else Some s
  | _ => None
  end.

Record ArtifactConversionPlanRequest : Type := mkRequest {
  rq_provider : option string;
  rq_to_format : option string;
  accepted_formats : list string;
  require_lossless : bool
}.

Record ArtifactConversionStepOut : Type := mkStep {
  st_contract_id : option string;
  st_backend : option string;
  st_provider : option string;
  from_format : string;
  to_format : string;
  lossless : bool;
  st_description : option string
}.

Record ArtifactConversionPlanOut : Type := mkPlan {
  p_artifact_id : string;
  source_format : option string;
  target_format : string;
  conversion_required : bool;
  executable : bool;
  reason : option string;
  steps : list ArtifactConversionStepOut
}.

(** [x if x not in out], appended. *)
Definition append_new (x : string) (out : list string) : list string :=
  if decide (x ∈ out) then out else out ++ [x].

Definition nonempty (s : option string) : option string :=
  match s with Some "" | None => None | Some s => Some s end.

Definition _target_formats (r : ArtifactConversionPlanRequest) : res raised (list string) :=
  out ← fold_res (λ out v,
      if is_valid_artifact_key v then Ok (append_new v out)
      else Err (invalid ("accepted_formats contains invalid format id " +:+ str_repr v +:+ "; expected " +:+
                         str_repr ARTIFACT_KEY_PATTERN)))
    (match nonempty (rq_to_format r) with Some f => [f] | None => [] end) (accepted_formats r);
  match out with [] => Err (invalid "to_format or accepted_formats is required") | _ => Ok out end.

(** ** Steps *)

(** A missing format is a [KeyError]. *)
Definition _conversion_step (c : ArtifactContract) (conversion : dict value) : res raised ArtifactConversionStepOut :=
  match dict_get "from_format" conversion, dict_get "to_format" conversion with
  | Some f, Some t =>
      Ok (mkStep (nonempty (Some (contract_id c))) (nonempty (Some (c_backend c))) (nonempty (c_provider c))
        (py_str f) (py_str t) (truthy (value_get "lossless" conversion))
        (match value_get "description" conversion with VNone => None | v => Some (py_str v) end))
  | _, _ => Err None
  end.

Definition contract_steps (c : ArtifactContract) : res raised (list ArtifactConversionStepOut) :=
  fold_res (λ out v,
    match v with
    | VDict d => s ← _conversion_step c d; Ok (out ++ [s])
    | _ => Ok out
    end) [] (conversions c).

Section planning.

(** [_resolve_backend(provider)] with the normalized rows of the backend it
    returns, before de-duplication, or the message of its [KeyError]: the backend
    is a plugin. *)
Variable backend_contracts : option string → res string (list ArtifactContract).

Definition _iter_conversion_steps (provider : option string) : res raised (list ArtifactConversionStepOut) :=
  match backend_contracts provider with
  | Err msg => Err (invalid (str_repr msg))
  | Ok rows =>
      fold_res (λ out c, more ← contract_steps c; Ok (out ++ more)) [] (dedupe rows)
  end.

(** ** The search *)

(** [edges_by_source], a list of steps per source format in order. *)
Definition edges_by_source (l : list ArtifactConversionStepOut) : dict (list ArtifactConversionStepOut) :=
  foldl (λ d s, dict_set (from_format s) (default [] (dict_get (from_format s) d) ++ [s]) d) [] l.

Definition path : Type := list ArtifactConversionStepOut.

(** What the inner loop ends in: a target, or the new queue entries and the visited formats. *)
Inductive expansion : Type :=
  | Found (target : string) (p : path)
  | Queued (entries : list (string * path)) (visited : list string).

Fixpoint expand (targets : list string) (p : path) (l : list ArtifactConversionStepOut)
    (entries : list (string * path)) (visited : list string) : expansion :=
  match l with
  | [] => Queued entries visited
  | s :: l =>
      if decide (to_format s ∈ visited) then expand targets p l entries visited
      else if decide (to_format s ∈ targets) then Found (to_format s) (p ++ [s])
      else expand targets p l (entries ++ [(to_format s, p ++ [s])]) (to_format s :: visited)
  end.

(** [while queue: ...]; [None] when the fuel runs out. Each round pops one entry
    and every format is queued once, so two more than the number of steps is
    enough. *)
Fixpoint search (fuel : nat) (edges : dict (list ArtifactConversionStepOut)) (targets : list string)
    (queue : list (string * path)) (visited : list string) : option (option (string * path)) :=
  match fuel with
  | O => None
  | S fuel =>
      match queue with
      | [] => Some None
      | (current, p) :: queue =>
          match expand targets p (default [] (dict_get current edges)) [] visited with
          | Found t p => Some (Some (t, p))
          | Queued entries visited => search fuel edges targets (queue ++ entries) visited
          end
      end
  end.

(** The steps that may be used. *)
Definition usable (need_lossless : bool) (l : list ArtifactConversionStepOut) : list ArtifactConversionStepOut :=
  filter (λ s, need_lossless = true → lossless s = true) l.

Definition _find_conversion_path (from : string) (targets : list string) (need_lossless : bool)
    (provider : option string) : option (res raised (option (string * path))) :=
  if decide (from ∈ targets) then Some (Ok (Some (from, [])))
  else
    match _iter_conversion_steps provider with
    | Err x => Some (Err x)
    | Ok l =>
        let l := usable need_lossless l in
        Ok <$> search (S (S (length l))) (edges_by_source l) targets [(from, [])] [from]
    end.

Definition no_path_reason (need_lossless : bool) : string :=
  "no backend artifact conversion path matches the requested formats" +:+
  (if need_lossless then " with lossless=true" else "").

Definition plan_conversion_for_artifact (a : StageArtifact) (r : ArtifactConversionPlanRequest) :
    option (res raised ArtifactConversionPlanOut) :=
  match _target_formats r with
  | Err x => Some (Err x)
  | Ok targets =>
      let first := default "" (head targets) in
      match _artifact_format a with
      | None =>
          Some (Ok (mkPlan (artifact_id a) None first true false
            (Some "artifact has no artifact_format metadata") []))
      | Some src =>
          if decide (src ∈ targets) then
            Some (Ok (mkPlan (artifact_id a) (Some src) src false true
              (Some "artifact already uses the selected format") []))
          else
            match _find_conversion_path src targets (require_lossless r) (rq_provider r) with
            | None => None
            | Some (Err x) => Some (Err x)
            | Some (Ok (Some (t, l))) => Some (Ok (mkPlan (artifact_id a) (Some src) t true true None l))
            | Some (Ok None) =>
                Some (Ok (mkPlan (artifact_id a) (Some src) first true false
                  (Some (no_path_reason (require_lossless r))) []))
            end
      end
  end.

End planning.

(** [_target_kind]; [core_kind] is the kind whose default format is the target, if any. *)
Definition _target_kind (core_kind : string → option string) (source_kind target : string) (explicit : option string) :
    string :=
  match explicit with
  | Some k => k
  | None => match core_kind target with Some k => k | None => source_kind end
  end.

End Conversion.
