(* ===== verification/ConversionGuarantees.v ===== *)
(** What conversion planning guarantees: a plan is executable exactly when a path
    exists, and its path is a shortest one. *)
From S2P Require Import Prelude PyValue Errors Conversion.
From stdpp Require Import options.
Import Errors Conversion.

Implicit Types (s : ArtifactConversionStepOut) (l edges : list ArtifactConversionStepOut) (p : path).

(** ** De-duplicated contracts *)

Lemma setdefault_keys (d : dict ArtifactContract) c :
  NoDup (dict_keys d) → (∀ k v, (k, v) ∈ d → contract_id v = k) →
  NoDup (dict_keys (setdefault d c)) ∧ (∀ k v, (k, v) ∈ setdefault d c → contract_id v = k).
Proof.
  intros Hnd Hk. unfold setdefault. destruct (dict_get (contract_id c) d) eqn:E; [done|].
  apply dict_get_None in E. split; [by apply dict_set_NoDup|].
  intros k v Hin. rewrite dict_set_fresh in Hin by done. apply elem_of_app in Hin as [Hin|Hin]; [by apply Hk|].
  apply list_elem_of_singleton in Hin. by injection Hin as -> ->.
Qed.

Lemma setdefault_get d c id :
  dict_get id (setdefault d c) =
  match dict_get id d with Some v => Some v | None => if decide (contract_id c = id) then Some c else None end.
Proof.
  unfold setdefault. destruct (decide (contract_id c = id)) as [<-|Hne].
  - destruct (dict_get (contract_id c) d) eqn:E; [done|]. by rewrite dict_get_set_eq.
  - destruct (dict_get (contract_id c) d) eqn:E; [by destruct (dict_get id d)|].
    rewrite dict_get_set_ne by done. by destruct (dict_get id d).
Qed.

Lemma setdefault_all rows d :
  NoDup (dict_keys d) → (∀ k v, (k, v) ∈ d → contract_id v = k) →
  let d' := foldl setdefault d rows in
  NoDup (dict_keys d') ∧ (∀ k v, (k, v) ∈ d' → contract_id v = k) ∧
  ∀ id, dict_get id d' = match dict_get id d with Some v => Some v | None => find_row rows id end.
Proof.
  revert d. induction rows as [|c rows IH]; intros d Hnd Hk; cbn.
  - split_and!; [done..|]. intros id. by destruct (dict_get id d).
  - destruct (setdefault_keys d c Hnd Hk) as [Hnd' Hk']. destruct (IH _ Hnd' Hk') as (H1 & H2 & H3).
    split_and!; [done..|]. intros id. rewrite H3, setdefault_get. destruct (dict_get id d); [done|].
    unfold find_row. destruct (decide (contract_id c = id)); [by rewrite filter_cons_True|by rewrite filter_cons_False].
Qed.

(** The contracts listed: one per id, the first row with that id. *)
Lemma dedupe_first rows c : c ∈ dedupe rows ↔ find_row rows (contract_id c) = Some c.
Proof.
  destruct (setdefault_all rows []) as (Hnd & Hk & Hget); [constructor|by intros ?? ?%elem_of_nil|].
  unfold dedupe. rewrite merge_sort_Permutation, list_elem_of_fmap. specialize (Hget (contract_id c)). cbn in Hget.
  rewrite <-Hget. split.
  - intros ([k v] & Hc & Hin). cbn in Hc. subst v. rewrite (Hk k c Hin). by apply dict_elem_get.
  - intros Hc. exists (contract_id c, c). split; [done|]. by apply dict_get_elem.
Qed.

Lemma dedupe_ids rows : NoDup (contract_id <$> dedupe rows).
Proof.
  destruct (setdefault_all rows []) as (Hnd & Hk & _); [constructor|by intros ?? ?%elem_of_nil|].
  unfold dedupe. rewrite merge_sort_Permutation.
  replace (contract_id <$> (foldl setdefault [] rows).*2) with (foldl setdefault [] rows).*1; [done|].
  rewrite <-list_fmap_compose. apply list_fmap_ext. intros i [k v] Hi. cbn. symmetry.
  eapply Hk, list_elem_of_lookup_2, Hi.
Qed.

(** ** The index *)

Lemma edges_lookup l current :
  default [] (dict_get current (edges_by_source l)) = filter (λ s, from_format s = current) l.
Proof.
  unfold edges_by_source.
  enough (∀ d, default [] (dict_get current (foldl (λ d s,
      dict_set (from_format s) (default [] (dict_get (from_format s) d) ++ [s]) d) d l)) =
    default [] (dict_get current d) ++ filter (λ s, from_format s = current) l) as H by apply (H []).
  induction l as [|s l IH]; intros d; cbn [foldl]; [by rewrite filter_nil, app_nil_r|].
  rewrite IH. destruct (decide (from_format s = current)) as [<-|Hne].
  - rewrite dict_get_set_eq, filter_cons_True by done. cbn. by rewrite <-app_assoc.
  - rewrite dict_get_set_ne, filter_cons_False by done. done.
Qed.

(** ** Chains of steps *)

Inductive chain edges (x : string) : path → string → Prop :=
  | chain_nil : chain edges x [] x
  | chain_snoc p s : chain edges x p (from_format s) → s ∈ edges → chain edges x (p ++ [s]) (to_format s).

Lemma chain_snoc_inv edges x p s y :
  chain edges x (p ++ [s]) y → chain edges x p (from_format s) ∧ s ∈ edges ∧ y = to_format s.
Proof.
  inversion 1 as [|p' s' Hc Hin Heq]; [by destruct p|].
  match goal with H : p' ++ [s'] = p ++ [s] |- _ => apply app_inj_tail in H as [-> ->] end. done.
Qed.

Lemma chain_nil_inv edges x y : chain edges x [] y → y = x.
Proof. inversion 1 as [|p' s']; [done|]. by destruct p'. Qed.

(** ** One expansion *)

(** What the inner loop adds to the entries and the visited formats. *)
Lemma expand_spec targets p l entries visited :
  match expand targets p l entries visited with
  | Found t q => ∃ s, s ∈ l ∧ q = p ++ [s] ∧ t = to_format s ∧ t ∈ targets
  | Queued entries' visited' =>
      ∃ news, entries' = entries ++ news ∧ visited' = reverse (news.*1) ++ visited ∧
        (∀ n q, (n, q) ∈ news → (n ∉ targets) ∧ (n ∉ visited) ∧ ∃ s, s ∈ l ∧ q = p ++ [s] ∧ n = to_format s) ∧
        NoDup (news.*1) ∧
        (∀ s, s ∈ l → to_format s ∈ visited')
  end.
Proof.
  revert entries visited. induction l as [|s l IH]; intros entries visited; cbn.
  { exists []. rewrite app_nil_r. split_and!; [done..|by intros ?? ?%elem_of_nil|constructor|by intros ? ?%elem_of_nil]. }
  case_decide as Hv; [|case_decide as Ht].
  - specialize (IH entries visited). destruct (expand targets p l entries visited) as [t q|es vs].
    + destruct IH as (s' & ? & ?). exists s'. split; [by right|done].
    + destruct IH as (news & -> & -> & Hn & Hnd & Hall). exists news. split_and!; [done..| |done|].
      * intros n q Hin. destruct (Hn n q Hin) as (? & ? & s' & ? & ?). split_and!; [done..|]. exists s'. split; [by right|done].
      * intros s' [->|Hin]%elem_of_cons; [apply elem_of_app; by right|by apply Hall].
  - exists s. split_and!; [by left|done..].
  - specialize (IH (entries ++ [(to_format s, p ++ [s])]) (to_format s :: visited)).
    destruct (expand targets p l _ _) as [t q|es vs].
    + destruct IH as (s' & ? & ?). exists s'. split; [by right|done].
    + destruct IH as (news & -> & -> & Hn & Hnd & Hall). exists ((to_format s, p ++ [s]) :: news).
      assert (to_format s ∉ (news.*1)) as Hs.
      { intros ([n q] & Heq & Hin)%list_elem_of_fmap. destruct (Hn _ _ Hin) as (_ & Hnv & _). apply Hnv.
        rewrite Heq. by left. }
      rewrite fmap_cons, reverse_cons, <-!app_assoc. split_and!; [done|done| |by constructor|].
      * intros n q [[= -> ->]|Hin]%elem_of_cons; [split_and!; [done..|]; exists s; split_and!; [by left|done..]|].
        destruct (Hn n q Hin) as (? & Hnv & s' & ? & ?). split_and!; [done|by intros ?; apply Hnv; right|].
        exists s'. split; [by right|done].
      * intros s' [->|Hin]%elem_of_cons; [apply elem_of_app; right; by left|].
        specialize (Hall s' Hin). apply elem_of_app in Hall as [?|[->|?]%elem_of_cons]; apply elem_of_app;
          [by left|right; by left|right; by right].
Qed.

(** ** The invariant *)

Section search.
Variables (edges : list ArtifactConversionStepOut) (targets : list string) (source : string).

(** The path lengths of a queue: the head's [n] first, then [n] or one more. *)
Definition layered (n : nat) (queue : list (string * path)) : Prop :=
  ∃ a b, queue = a ++ b ∧ Forall (λ e, length e.2 = n) a ∧ Forall (λ e, length e.2 = S n) b.

Record bfs (n : nat) (queue : list (string * path)) (visited : list string) : Prop := {
  bfs_paths x p : (x, p) ∈ queue → chain edges source p x;
  bfs_seen x p : (x, p) ∈ queue → x ∈ visited;
  bfs_open x : x ∈ visited → x ∉ targets;
  bfs_start : source ∈ visited;
  bfs_layers : layered n queue;
  (* a visited format that is not queued has been expanded *)
  bfs_closed s : s ∈ edges → from_format s ∈ visited → from_format s ∉ (queue.*1) → to_format s ∈ visited;
  (* the formats within reach of [n] steps are known *)
  bfs_near x p : chain edges source p x → length p ≤ n → x ∈ visited;
  (* queued paths are shortest *)
  bfs_short x p q : (x, p) ∈ queue → chain edges source q x → length p ≤ length q;
  bfs_nodup : NoDup (queue.*1) ∧ NoDup visited
}.

Lemma bfs_init : source ∉ targets → bfs 0 [(source, [])] [source].
Proof using Type.
  intros Hs. split.
  - intros x p [= -> ->]%list_elem_of_singleton. constructor.
  - intros x p [= -> ->]%list_elem_of_singleton. by left.
  - by intros x ->%list_elem_of_singleton.
  - by left.
  - exists [(source, [])], []. split_and!; [done|by repeat constructor|constructor].
  - intros s _ ->%list_elem_of_singleton Hn. destruct Hn. by left.
  - intros x [|] Hc Hl; [|cbn in Hl; lia]. apply chain_nil_inv in Hc as ->. by left.
  - intros x p q [= -> ->]%list_elem_of_singleton _. cbn. lia.
  - split; apply NoDup_singleton.
Qed.

(** Every target lies beyond the formats known. *)
Lemma target_far n queue visited t q :
  bfs n queue visited → t ∈ targets → chain edges source q t → n < length q.
Proof using Type.
  intros Hb Ht Hc. destruct (decide (length q ≤ n)); [|lia].
  by destruct (bfs_open _ _ _ Hb t (bfs_near _ _ _ Hb t q Hc ltac:(done))).
Qed.

(** When the queue is empty, everything reachable is known and no target is. *)
Lemma bfs_empty n visited x p : bfs n [] visited → chain edges source p x → x ∈ visited ∧ x ∉ targets.
Proof using Type.
  intros Hb Hc. assert (x ∈ visited) as Hx; [|split; [done|by eapply bfs_open]].
  induction Hc as [|p s Hc IH Hin]; [apply (bfs_start _ _ _ Hb)|].
  apply (bfs_closed _ _ _ Hb); [done..|by intros ?%elem_of_nil].
Qed.

(** At the end of a layer the next one is complete. *)
Lemma bfs_next_layer n queue visited :
  bfs n queue visited → Forall (λ e, length e.2 = S n) queue → bfs (S n) queue visited.
Proof using Type.
  intros Hb Hl. pose proof Hb as [H1 H2 H3 H4 H5 H6 H7 H8 H9]. split; try done.
  - exists queue, []. split_and!; [by rewrite app_nil_r|done|constructor].
  - intros x p Hc Hle. destruct (decide (length p ≤ n)); [by eapply H7|].
    destruct Hc as [|p s Hc Hin]; [done|]. rewrite length_app in *. cbn in *.
    apply H6; [done|apply (H7 _ p); [done|lia]|].
    intros ([x' q] & Heq & Hq)%list_elem_of_fmap. cbn in Heq.
    rewrite Forall_forall in Hl. specialize (Hl _ Hq). cbn in Hl.
    specialize (H8 x' q p Hq ltac:(by rewrite <-Heq)). lia.
Qed.

(** The invariant with a head of length [n]. *)
Lemma bfs_head n x p queue visited :
  bfs n ((x, p) :: queue) visited → ∃ m, length p = m ∧ bfs m ((x, p) :: queue) visited.
Proof using Type.
  intros Hb. destruct (bfs_layers _ _ _ Hb) as (a & b & Heq & Ha & Hb').
  destruct a as [|e a]; cbn in Heq.
  - exists (S n). split; [|apply bfs_next_layer; [done|by rewrite Heq]].
    rewrite <-Heq in Hb'. apply Forall_cons in Hb' as [? _]. done.
  - exists n. split; [|done]. injection Heq as <- _. apply Forall_cons in Ha as [? _]. done.
Qed.

Definition out_of (x : string) : list ArtifactConversionStepOut := filter (λ s, from_format s = x) edges.

(** A round that finds no target. *)
Lemma bfs_step n x p queue visited news :
  length p = n → bfs n ((x, p) :: queue) visited →
  (∀ y q, (y, q) ∈ news → (y ∉ targets) ∧ (y ∉ visited) ∧ ∃ s, s ∈ out_of x ∧ q = p ++ [s] ∧ y = to_format s) →
  NoDup (news.*1) →
  (∀ s, s ∈ out_of x → to_format s ∈ reverse (news.*1) ++ visited) →
  bfs n (queue ++ news) (reverse (news.*1) ++ visited).
Proof using Type.
  intros Hp Hb Hn Hnd Hall. pose proof Hb as [H1 H2 H3 H4 H5 H6 H7 H8 [H9 H10]].
  assert (∀ y, y ∈ reverse (news.*1) ++ visited ↔ (∃ q, (y, q) ∈ news) ∨ y ∈ visited) as Hv.
  { intros y. rewrite elem_of_app, elem_of_reverse, list_elem_of_fmap. split; (intros [Hy|Hy]; [left|by right]).
    - destruct Hy as ([y' q] & -> & Hy). by exists q.
    - destruct Hy as (q & Hy). by exists (y, q). }
  assert (∀ y q, (y, q) ∈ news → chain edges source q y ∧ length q = S n) as Hnew.
  { intros y q Hy. destruct (Hn y q Hy) as (_ & _ & s & [Hf Hs]%list_elem_of_filter & -> & ->).
    split; [|rewrite length_app; cbn; lia]. constructor; [|done]. rewrite Hf. apply H1. by left. }
  split.
  - intros y q [Hy|Hy]%elem_of_app; [apply H1; by right|by apply Hnew].
  - intros y q [Hy|Hy]%elem_of_app; apply Hv; [right; by eapply H2; right|left; by exists q].
  - intros y [[q Hy]|Hy]%Hv; [by destruct (Hn y q Hy)|by apply H3].
  - apply Hv. by right.
  - destruct H5 as (a & b & Heq & Ha & Hb'). assert (Forall (λ e, length e.2 = S n) news) as Hf
      by (apply Forall_forall; intros [y q] Hy; by apply (Hnew y q)).
    destruct a as [|e a]; cbn in Heq.
    + subst b. apply Forall_cons in Hb' as [Hc _]. cbn in Hc. lia.
    + injection Heq as _ ->. apply Forall_cons in Ha as [_ Ha]. exists a, (b ++ news).
      split_and!; [by rewrite app_assoc|done|by apply Forall_app].
  - intros s Hs Hsrc Hq. destruct (decide (from_format s = x)) as [Hx|Hx]; [apply Hall, list_elem_of_filter; done|].
    apply Hv. right. rewrite fmap_app, elem_of_app in Hq. apply H6; [done| |].
    + apply Hv in Hsrc as [[q Hy]|]; [|done]. destruct Hq. right. apply list_elem_of_fmap. by exists (from_format s, q).
    + cbn. rewrite elem_of_cons. intros [?|?]; [done|]. apply Hq. by left.
  - intros y q Hc Hl. apply Hv. right. by eapply H7.
  - intros y q r [Hy|Hy]%elem_of_app Hc; [eapply H8; [by right|done]|].
    destruct (Hnew y q Hy) as [_ ->]. destruct (Hn y q Hy) as (_ & Hnv & _).
    destruct (decide (length r ≤ n)); [|lia]. destruct Hnv. by eapply H7.
  - split.
    + rewrite fmap_app. apply NoDup_app. cbn in H9. apply NoDup_cons in H9 as [_ H9]. split_and!; [done| |done].
      intros y ([y' q] & -> & Hy)%list_elem_of_fmap ([y'' q'] & Heq & Hy')%list_elem_of_fmap. cbn in Heq. subst y''.
      destruct (Hn y' q' Hy') as (_ & Hnv & _). apply Hnv. apply (H2 y' q). by right.
    + apply NoDup_app. split_and!; [by rewrite reverse_Permutation| |done].
      intros y ([y' q] & -> & Hy)%elem_of_reverse%list_elem_of_fmap Hin. by destruct (Hn y' q Hy) as (_ & ? & _).
Qed.

(** ** The measure *)

(** Visited formats are the source and targets of steps. *)
Definition universe : list string := source :: map to_format edges.

(** Rounds left: the queued entries and the formats not yet visited. *)
Definition rounds (queue : list (string * path)) (visited : list string) : nat :=
  length queue + (length universe - length visited).

Lemma visited_bound visited : NoDup visited → visited ⊆ universe → length visited ≤ length universe.
Proof using Type. intros Hnd Hsub. by apply submseteq_length, NoDup_submseteq. Qed.

(** ** The search *)

Definition search_ok (r : option (string * path)) : Prop :=
  match r with
  | Some (t, p) => t ∈ targets ∧ chain edges source p t ∧
      ∀ t' q, t' ∈ targets → chain edges source q t' → length p ≤ length q
  | None => ∀ t q, t ∈ targets → ¬ chain edges source q t
  end.

Lemma search_spec fuel n queue visited :
  bfs n queue visited → visited ⊆ universe → rounds queue visited < fuel →
  ∃ r, search fuel (edges_by_source edges) targets queue visited = Some r ∧ search_ok r.
Proof using Type.
  revert n queue visited. induction fuel as [|fuel IH]; intros n queue visited Hb Hu Hf; [lia|].
  cbn. destruct queue as [|[x p] queue].
  { exists None. split; [done|]. intros t q Ht Hc. by destruct (bfs_empty n visited t q Hb Hc). }
  apply bfs_head in Hb as (m & Hp & Hb). rewrite edges_lookup.
  pose proof (expand_spec targets p (out_of x) [] visited) as He. unfold out_of in He at 1.
  destruct (expand targets p _ [] visited) as [t q|entries visited'].
  - destruct He as (s & [Hfrom Hs]%list_elem_of_filter & -> & -> & Ht). eexists. split; [done|]. split_and!; [done| |].
    + constructor; [|done]. rewrite Hfrom. eapply bfs_paths; [done|by left].
    + intros t' q' Ht' Hc. pose proof (target_far _ _ _ t' q' Hb Ht' Hc). rewrite length_app. cbn. lia.
  - destruct He as (news & -> & -> & Hn & Hnd & Hall). cbn.
    pose proof (bfs_step m x p queue visited news Hp Hb Hn Hnd Hall) as Hb'.
    assert (reverse (news.*1) ++ visited ⊆ universe) as Hu'.
    { intros y [Hy|Hy]%elem_of_app; [|by apply Hu]. apply elem_of_reverse, list_elem_of_fmap in Hy as ([y' q] & -> & Hy).
      destruct (Hn y' q Hy) as (_ & _ & s & [_ Hs]%list_elem_of_filter & _ & Heq). cbn. rewrite Heq. right.
      by apply list_elem_of_fmap_2. }
    apply (IH m); [done..|].
    pose proof (visited_bound _ (proj2 (bfs_nodup _ _ _ Hb')) Hu') as Hle.
    assert (length (reverse (news.*1)) = length news) as Hr by (by rewrite length_reverse, length_fmap).
    unfold rounds in *. rewrite length_cons in Hf. rewrite length_app in Hle.
    rewrite (length_app (reverse _)), (length_app queue), Hr in *. lia.
Qed.

Lemma search_from_source :
  source ∉ targets →
  ∃ r, search (S (S (length edges))) (edges_by_source edges) targets [(source, [])] [source] = Some r ∧ search_ok r.
Proof using Type.
  intros Hs. apply (search_spec _ 0); [by apply bfs_init| |].
  - intros y ->%list_elem_of_singleton. left.
  - unfold rounds, universe. cbn. rewrite length_map. lia.
Qed.
End search.

Section planning.
Variable backend_contracts : option string → res string (list ArtifactContract).

Lemma find_path_spec source targets need_lossless provider l :
  source ∉ targets → _iter_conversion_steps backend_contracts provider = Ok l →
  ∃ r, _find_conversion_path backend_contracts source targets need_lossless provider = Some (Ok r) ∧
    search_ok (usable need_lossless l) targets source r.
Proof using Type.
  intros Hs Hl. unfold _find_conversion_path. rewrite decide_False, Hl by done.
  destruct (search_from_source (usable need_lossless l) targets source Hs) as (r & Hr & Hok).
  exists r. by rewrite Hr.
Qed.

(** C39: Conversion planning is exact. When an artifact has a format, the request
    names valid targets that do not include it, and the backend's contracts list the
    steps, planning always returns a plan. The plan is executable exactly when the
    listed steps (only the lossless ones if the request asks) connect the artifact's
    format to a target; then its target is one of the requested formats, its steps
    lead from the artifact's format to it, each starting where the previous one
    ends, and no chain to any target is shorter. Otherwise the plan has no steps and
    names the first target. *)
Theorem conversion_plan_shortest a r src targets l :
  _artifact_format a = Some src → _target_formats r = Ok targets → src ∉ targets →
  _iter_conversion_steps backend_contracts (rq_provider r) = Ok l →
  let E := usable (require_lossless r) l in
  ∃ plan, plan_conversion_for_artifact backend_contracts a r = Some (Ok plan) ∧
    source_format plan = Some src ∧ conversion_required plan = true ∧
    (executable plan = true ↔ ∃ t p, t ∈ targets ∧ chain E src p t) ∧
    (executable plan = true →
      target_format plan ∈ targets ∧ chain E src (steps plan) (target_format plan) ∧
      ∀ t p, t ∈ targets → chain E src p t → length (steps plan) ≤ length p) ∧
    (executable plan = false → steps plan = [] ∧ head targets = Some (target_format plan)).
Proof using Type.
  intros Ha Ht Hs Hl E. destruct (find_path_spec src targets (require_lossless r) _ l Hs Hl) as (found & Hf & Hok).
  unfold plan_conversion_for_artifact. rewrite Ht, Ha, decide_False, Hf by done.
  destruct found as [[t p]|]; eexists; (split; [done|]); cbn.
  - destruct Hok as (Hin & Hc & Hmin). split_and!; try done. split; [|done]. intros _. by exists t, p.
  - assert (targets ≠ []) as Hne.
    { intros ->. unfold _target_formats in Ht. apply bind_Ok in Ht as ([|] & _ & [=]). }
    split_and!; try done; [split; [done|]|by destruct targets].
    intros (t & p & Hin & Hc). by destruct (Hok t p Hin).
Qed.
End planning.

(** ** A backend with two routes to the target *)

Definition convert (from to : string) (exact : bool) : value :=
  VDict [("from_format", VStr from); ("to_format", VStr to); ("lossless", VBool exact)].

Definition example_contracts (_ : option string) : res string (list ArtifactContract) :=
  Ok [mkContract "acme.convert" "acme" "matcher" None
        [convert "a" "b" true; convert "b" "c" true; convert "c" "d" true; convert "b" "d" false]].

Definition example_artifact : StageArtifact :=
  mkArtifact "art" "features.local.v1" (VDict [("artifact_format", VStr "a")]).

Lemma conversion_plan_shortest_witness :
  (option_map (λ r, match r with Ok p => length (steps p) | Err _ => 0%nat end)
     (plan_conversion_for_artifact example_contracts example_artifact (mkRequest None (Some "d") [] false)) = Some 2) ∧
  ∃ plan, plan_conversion_for_artifact example_contracts example_artifact (mkRequest None (Some "d") [] true) = Some (Ok plan) ∧
    executable plan = true ∧ length (steps plan) = 3 ∧
    ∀ l, _iter_conversion_steps example_contracts None = Ok l →
      ∀ t p, t ∈ ["d"] → chain (usable true l) "a" p t → 3 ≤ length p.
Proof.
  split; [by vm_compute|].
  destruct (_iter_conversion_steps example_contracts None) as [l|x] eqn:El; [|by vm_compute in El].
  destruct (conversion_plan_shortest example_contracts example_artifact (mkRequest None (Some "d") [] true) "a" ["d"] l)
    as (plan & Hp & _ & _ & _ & Hex & _).
  - by vm_compute.
  - by vm_compute.
  - by intros ?%list_elem_of_singleton.
  - exact El.
  - exists plan. split; [exact Hp|].
    assert (executable plan = true ∧ length (steps plan) = 3) as [He Hn].
    { vm_compute in Hp. injection Hp as <-. by vm_compute. }
    split; [exact He|]. split; [exact Hn|]. intros l' [= <-] t p Ht Hc.
    destruct (Hex He) as (_ & _ & Hmin). rewrite <-Hn. by apply (Hmin t p).
Defined.
