(* ===== verification/Artifacts.v ===== *)
(** [sceneapi/server/services/artifact_service.py]: checking and completing the
    artifact descriptors a worker returns, recording them, and resolving the
    artifacts a stage takes as inputs; with the naming rules of
    [core/public_outputs.py] it applies. *)
From S2P Require Import Prelude PyValue Errors HubManifest ArtifactVocab Conversion.
From stdpp Require Import options.
Import Errors Vocab.

#[local] Open Scope Z_scope.
#[local] Arguments String.append !_ _ / : simpl nomatch.

Module Artifacts.

(** ** Texts: [len] and slices count code points of UTF-8 bytes *)

Definition continuation (a : ascii) : bool := let n := nat_of_ascii a in ((128 <=? n) && (n <? 192))%nat.

Fixpoint py_len (s : string) : nat :=
  match s with EmptyString => 0 | String a s => if continuation a then py_len s else S (py_len s) end%nat.

(** [s[:n]] *)
Fixpoint py_take (n : nat) (s : string) : string :=
  match s with
  | EmptyString => ""
  | String a s =>
      if continuation a then String a (py_take n s)
      else match n with O => "" | S n => String a (py_take n s) end
  end.

Definition slash : ascii := "/".
Definition backslash : ascii := "\".

Definition ascii_lower (a : ascii) : ascii :=
  let n := nat_of_ascii a in if ((65 <=? n) && (n <=? 90))%nat then ascii_of_nat (n + 32) else a.

Fixpoint str_lower (s : string) : string :=
  match s with EmptyString => "" | String a s => String (ascii_lower a) (str_lower s) end.

Definition digit (a : ascii) : bool := Manifest.char_between "0" "9" a.
Definition letter (a : ascii) : bool := Manifest.lower (ascii_lower a).

(** ** Public names ([core/public_outputs.py])

    On ASCII letters and digits; the redaction of secrets and paths inside a text is
    an argument. *)

(** [^/v\d+(?:/|$)] *)
Fixpoint api_version (seen : bool) (s : string) : bool :=
  match s with
  | EmptyString => seen
  | String a rest =>
      if digit a then api_version true rest
      else seen && (bool_decide (a = slash) || bool_decide (a = Manifest.newline ∧ rest = ""))
  end.

Definition _PUBLIC_API_PATH_RE (s : string) : bool :=
  match s with String a (String b rest) => bool_decide (a = slash) && bool_decide (b = "v"%char) && api_version false rest | _ => false end.

(** The text before the first ["://"], if it is there. *)
Fixpoint before_scheme (s : string) : option string :=
  if starts_with "://" s then Some ""
  else match s with EmptyString => None | String a s => String a <$> before_scheme s end.

Definition _has_url_scheme (s : string) : bool :=
  match before_scheme s with
  | None | Some "" => false
  | Some scheme => Manifest.all_chars (λ a, letter a || digit a || Manifest.one_of ["+"; "-"; "."]%char a) scheme
  end.

Definition first_is (p : ascii → bool) (s : string) : bool := match s with String a _ => p a | _ => false end.
Definition path_sep (a : ascii) : bool := bool_decide (a = slash) || bool_decide (a = backslash).

Definition _is_local_uri (s : string) : bool :=
  if decide (s = "") then false
  else if _PUBLIC_API_PATH_RE s then false
  else if starts_with "file://" (str_lower s) then true
  else if first_is path_sep s then true
  else match s with
       | String a (String b (String c _)) =>
           if letter a && bool_decide (b = ":"%char) && path_sep c then true else negb (_has_url_scheme s)
       | _ => negb (_has_url_scheme s)
       end.

Definition _is_local_artifact_reference (s : string) : bool :=
  if decide (s = "") then false
  else if _PUBLIC_API_PATH_RE s then false
  else if starts_with "file://" (str_lower s) then true
  else if str_mem backslash s then true
  else if first_is (λ a, bool_decide (a = slash)) s then true
  else match s with
       | String a (String b _) =>
           if letter a && bool_decide (b = ":"%char) then true
           else if _has_url_scheme s then false else bool_decide (".." ∈ split_on slash s)
       | _ => if _has_url_scheme s then false else bool_decide (".." ∈ split_on slash s)
       end.

(** The text after the last separator. *)
Fixpoint _base_name (s : string) : string :=
  match s with
  | EmptyString => ""
  | String a rest =>
      if str_mem slash rest || str_mem backslash rest then _base_name rest
      else if path_sep a then rest else s
  end.

(** ** Errors and scalar checks *)

Definition invalid (where_ detail : string) : api_error := api_error_init ValidationError (where_ +:+ detail) [].

Definition bad_key (where_ field : string) : api_error :=
  invalid where_ (field +:+ " must match " +:+ str_repr Conversion.ARTIFACT_KEY_PATTERN).

Definition _artifact_context (context : string) (index : nat) : string := context +:+ "[" +:+ pretty index +:+ "]".

(** [_SHA256_RE.fullmatch] *)
Definition hex_lower (a : ascii) : bool := digit a || Manifest.char_between "a" "f" a.
Definition _SHA256_RE (s : string) : bool := Manifest.all_chars hex_lower s && (String.length s =? 64)%nat.

(** [x is None or isinstance(x, str) and len(x) <= n] *)
Definition text_upto (n : nat) (x : value) : bool :=
  match x with VNone => true | VStr s => (py_len s <=? n)%nat | _ => false end.
Definition opt_key (x : value) : bool :=
  match x with VNone => true | VStr s => Conversion.is_valid_artifact_key s | _ => false end.
Definition opt_positive (x : value) : bool := match x with VNone => true | VInt z => 1 <=? z | _ => false end.
Definition opt_natural (x : value) : bool := match x with VNone => true | VInt z => 0 <=? z | _ => false end.
Definition opt_sha (x : value) : bool := match x with VNone => true | VStr s => _SHA256_RE s | _ => false end.
Definition opt_dict (x : value) : bool := match x with VNone | VDict _ => true | _ => false end.
Definition filled_text (x : value) : bool := match x with VStr s => negb (bool_decide (s = "")) | _ => false end.

Definition require (ok : bool) (where_ detail : string) : res api_error unit := raise_if (negb ok) (invalid where_ detail).

(** ** File references *)

Definition file_text (where_ : string) (ref : dict value) (kn : string * nat) : res api_error unit :=
  require (text_upto kn.2 (value_get kn.1 ref)) where_ ("." +:+ kn.1 +:+ " must be a string up to " +:+ pretty kn.2 +:+ " chars").

Definition file_uri (ref : dict value) : value :=
  match dict_get "uri" ref with Some x => x | None => value_get "path" ref end.

Definition check_file_ref (base field : string) (if_ : nat * value) : res api_error unit :=
  let where_ := base +:+ "." +:+ field +:+ "[" +:+ pretty if_.1 +:+ "]" in
  match if_.2 with
  | VDict ref =>
      _ ← require (filled_text (value_get "name" ref)) where_ ".name is required";
      _ ← require (filled_text (file_uri ref)) where_ ".uri is required";
      _ ← for_each (file_text where_ ref) [("name", 255); ("uri", 2048); ("path", 2048); ("media_type", 127)]%nat;
      _ ← require (opt_sha (value_get "sha256" ref)) where_ ".sha256 must be a lowercase hex SHA-256 digest";
      require (opt_natural (value_get "byte_size" ref)) where_ ".byte_size must be a non-negative int"
  | _ => Err (invalid where_ " must be an object")
  end.

Definition enumerate {A} (l : list A) : list (nat * A) := zip (seq 0 (length l)) l.

Definition _validate_artifact_file_refs (base field : string) (files : value) : res api_error unit :=
  match files with
  | VNone => Ok tt
  | VList l => for_each (check_file_ref base field) (enumerate l)
  | _ => Err (invalid base ("." +:+ field +:+ " must be a list"))
  end.

(** ** Reserved metadata *)

Definition _RESERVED_ARTIFACT_METADATA_KEYS : list string :=
  ["artifact_format"; "datatype"; "schema_version"; "files"; "sha256"; "byte_size"; "coordinate_frame"; "producer"].

Definition _validate_reserved_metadata (base : string) (m : dict value) : res api_error unit :=
  _ ← for_each (λ key, raise_if (negb (opt_key (value_get key m))) (bad_key base (".metadata." +:+ key)))
        ["artifact_format"; "datatype"];
  _ ← require (opt_positive (value_get "schema_version" m)) base ".metadata.schema_version must be a positive int";
  _ ← _validate_artifact_file_refs base "metadata.files" (value_get "files" m);
  _ ← require (opt_sha (value_get "sha256" m)) base ".metadata.sha256 must be a lowercase hex SHA-256 digest";
  _ ← require (opt_natural (value_get "byte_size" m)) base ".metadata.byte_size must be a non-negative int";
  _ ← require (text_upto 255 (value_get "coordinate_frame" m)) base
        ".metadata.coordinate_frame must be a string up to 255 chars";
  require (opt_dict (value_get "producer" m)) base ".metadata.producer must be an object".

(** [if descriptor.get(key) is None and metadata.get(key) is not None: descriptor[key] = metadata[key]] *)
Definition lift_reserved (m d : dict value) (key : string) : dict value :=
  match value_get key d, value_get key m with
  | VNone, VNone => d
  | VNone, x => dict_set key x d
  | _, _ => d
  end.

Definition remove_key (key : string) (m : dict value) : dict value := filter (λ kv, kv.1 ≠ key) m.

(** [if key in descriptor: metadata[key] = descriptor[key]] *)
Definition keep_reserved (d m : dict value) (key : string) : dict value :=
  match dict_get key d with Some x => dict_set key x m | None => m end.

(** [d[key] = x] when [d.get(key)] is [None] and there is an [x]. *)
Definition fill (key : string) (x : option value) (d : dict value) : dict value :=
  match value_get key d, x with VNone, Some x => dict_set key x d | _, _ => d end.

(** ** Descriptors *)

Section descriptors.
Variable v : Vocabulary.
(** The artifact datatypes of the core registry and the formats the backend declares. *)
Variable artifact_types : list string.
Variable plugin_formats : list ArtifactFormatDefinition.
(** [_redact_public_text(text, key="name")] and [sanitize_public_artifact_metadata_dict] on a dict. *)
Variable redact_name : string → string.
Variable public_metadata : dict value → dict value.

Definition sanitize_public_artifact_name (s : string) : option string :=
  let text := if _is_local_artifact_reference s || _is_local_uri s then _base_name s else s in
  let text := redact_name text in
  if decide (text = "") then None else Some (py_take 255 text).

Definition _public_artifact_metadata (m : dict value) : dict value :=
  let public := public_metadata (remove_key "files" m) in
  match value_get "files" m with VList l => dict_set "files" (VList l) public | _ => public end.

Definition opt_text (s : option string) : value := match s with Some s => VStr s | None => VNone end.

Definition core_kind (kind : string) : option ArtifactKindDefinition := dict_get kind (CORE_ARTIFACT_KINDS v).

(** [backend_default_format_for_kind(kind) or core_kind.artifact_format] *)
Definition default_format (kind : string) : option value :=
  k ← core_kind kind;
  Some (VStr (default (kd_format k)
    (Conversion.nonempty (backend_default_format_for_kind v artifact_types plugin_formats kind)))).

Definition default_version (kind : string) : option value := k ← core_kind kind; Some (VInt (kd_schema_version k)).

(** The datatype of the format, else of the kind, else of the core kind. *)
Definition inferred_datatype (kind : string) (fmt : value) : option value :=
  match match fmt with VStr f => datatype_for_format v f | _ => None end with
  | Some dt => Some (VStr dt)
  | None =>
      match datatype_for_kind v kind with
      | Some dt => Some (VStr dt)
      | None => k ← core_kind kind; Some (VStr (kd_datatype k))
      end
  end.

Definition check_name (base : string) (d : dict value) : res api_error (dict value) :=
  _ ← require (text_upto 255 (value_get "name" d)) base ".name must be a string up to 255 chars";
  Ok (match value_get "name" d with
      | VStr s => dict_set "name" (opt_text (sanitize_public_artifact_name s)) d
      | _ => d
      end).

Definition check_format (base kind : string) (fmt : value) : res api_error unit :=
  _ ← raise_if (negb (opt_key fmt)) (bad_key base ".artifact_format");
  match fmt with
  | VStr f => require (is_format_compatible_with_kind v kind f) base
                (".artifact_format " +:+ str_repr f +:+ " is not compatible with kind " +:+ str_repr kind)
  | _ => Ok tt
  end.

Definition check_version (base : string) (fmt version : value) : res api_error unit :=
  _ ← require (opt_positive version) base ".schema_version must be a positive int";
  match fmt, version with
  | VStr f, VInt z =>
      match dict_get f (CORE_ARTIFACT_FORMATS v) with
      | Some def => require (z =? f_schema_version def) base
                      (".schema_version " +:+ pretty z +:+ " does not match artifact_format " +:+ str_repr f)
      | None => Ok tt
      end
  | _, _ => Ok tt
  end.

Definition check_datatype (base kind : string) (fmt dt : value) : res api_error unit :=
  _ ← raise_if (negb (opt_key dt)) (bad_key base ".datatype");
  match dt with
  | VStr t =>
      _ ← match fmt with
          | VStr f =>
              match datatype_for_format v f with
              | Some ft => require (bool_decide (t = ft)) base
                             (".datatype " +:+ str_repr t +:+ " is not compatible with artifact_format " +:+ str_repr f)
              | None => Ok tt
              end
          | _ => Ok tt
          end;
      match datatype_for_kind v kind with
      | Some kt => require (bool_decide (t = kt)) base
                     (".datatype " +:+ str_repr t +:+ " is not compatible with kind " +:+ str_repr kind)
      | None => Ok tt
      end
  | _ => Ok tt
  end.

(** The checks after the datatype. *)
Definition check_rest (base : string) (d : dict value) : res api_error unit :=
  _ ← _validate_artifact_file_refs base "files" (value_get "files" d);
  _ ← require (opt_sha (value_get "sha256" d)) base ".sha256 must be a lowercase hex SHA-256 digest";
  _ ← require (opt_natural (value_get "byte_size" d)) base ".byte_size must be a non-negative int";
  _ ← require (text_upto 255 (value_get "coordinate_frame" d)) base ".coordinate_frame must be a string up to 255 chars";
  _ ← require (opt_dict (value_get "producer" d)) base ".producer must be an object";
  require (opt_dict (value_get "summary" d)) base ".summary must be an object".

(** [if x is not None: descriptor[key] = _public_metadata_dict(x) or {}] *)
Definition publish (key : string) (d : dict value) : dict value :=
  match value_get key d with VDict x => dict_set key (VDict (public_metadata x)) d | _ => d end.

(** The metadata stored: the public part without the reserved keys, then those of the descriptor. *)
Definition final_metadata (m d : dict value) : dict value :=
  foldl (keep_reserved d)
    (foldl (λ m key, remove_key key m) (_public_artifact_metadata m) _RESERVED_ARTIFACT_METADATA_KEYS)
    _RESERVED_ARTIFACT_METADATA_KEYS.

Definition metadata_of (base : string) (d : dict value) : res api_error (dict value) :=
  match value_get "metadata" d with
  | VNone => Ok []
  | VDict m => Ok m
  | _ => Err (invalid base ".metadata must be an object")
  end.

Definition kind_of (base : string) (d : dict value) : res api_error string :=
  match value_get "kind" d with
  | VStr k => if Conversion.is_valid_artifact_key k then Ok k else Err (bad_key base ".kind")
  | _ => Err (bad_key base ".kind")
  end.

(** The descriptor is completed in place; the result is its final content. *)
Definition validate_artifact_descriptor (context : string) (index : nat) (descriptor : value) : res api_error (dict value) :=
  let base := _artifact_context context index in
  match descriptor with
  | VDict d =>
      m ← metadata_of base d;
      _ ← _validate_reserved_metadata base m;
      let d := foldl (lift_reserved m) d _RESERVED_ARTIFACT_METADATA_KEYS in
      kind ← kind_of base d;
      d ← check_name base d;
      _ ← require (text_upto 2048 (value_get "uri" d)) base ".uri must be a string up to 2048 chars";
      _ ← require (text_upto 127 (value_get "media_type" d)) base ".media_type must be a string up to 127 chars";
      let d := fill "artifact_format" (default_format kind) d in
      let fmt := value_get "artifact_format" d in
      _ ← check_format base kind fmt;
      let d := fill "schema_version" (default_version kind) d in
      _ ← check_version base fmt (value_get "schema_version" d);
      let d := fill "datatype" (inferred_datatype kind fmt) d in
      _ ← check_datatype base kind fmt (value_get "datatype" d);
      _ ← check_rest base d;
      let d := publish "summary" (publish "producer" d) in
      Ok (dict_set "metadata" (VDict (final_metadata m d)) d)
  | _ => Err (invalid base " must be an object")
  end.

(** ** Outputs *)

Definition type_name (x : value) : string :=
  match x with
  | VNone => "NoneType" | VBool _ => "bool" | VInt _ => "int" | VFloat _ => "float" | VStr _ => "str" | VList _ => "list"
  | VDict _ => "dict"
  end.

(** The key [(kind, name, uri)] of a checked descriptor: texts or [None]. *)
Definition text_of (x : value) : option string := match x with VStr s => Some s | _ => None end.
Definition artifact_key (d : dict value) : option string * option string * option string :=
  (text_of (value_get "kind" d), text_of (value_get "name" d), text_of (value_get "uri" d)).

Definition _append_unique (out : list (dict value)) (item : dict value) : list (dict value) :=
  if decide (artifact_key item ∈ artifact_key <$> out) then out else out ++ [item].

Definition collect (out : list (dict value)) (ix : nat * value) : res api_error (list (dict value)) :=
  item ← validate_artifact_descriptor "outputs.artifacts" ix.1 ix.2;
  Ok (_append_unique out item).

Definition not_a_list : api_error := invalid "" "outputs.artifacts must be a list of objects".

(** The items of a falsy or list [artifacts]. *)
Definition listed_artifacts (d : dict value) : res api_error (list value) :=
  let x := value_get "artifacts" d in
  if truthy x then match x with VList l => Ok l | _ => Err not_a_list end else Ok [].

(** A payload's descriptors are distinct objects, so completing one leaves the others alone. *)
Definition normalize_task_outputs (task_kind : string) (outputs : value) : res api_error (dict value) :=
  match match outputs with VNone => VDict [] | x => x end with
  | VDict d =>
      l ← listed_artifacts d;
      artifacts ← fold_res collect [] (enumerate l);
      Ok (match artifacts with [] => d | _ => dict_set "artifacts" (VList (VDict <$> artifacts)) d end)
  | x => Err (invalid task_kind (" worker returned " +:+ type_name x +:+ "; expected dict"))
  end.

(** ** Recording *)

Record ArtifactRow : Type := mkRow {
  ar_id : string;
  ar_tenant_id : string;
  ar_job_id : string;
  ar_task_id : string;
  ar_recon_id : option string;
  ar_dataset_id : option string;
  ar_kind : string;
  ar_name : option string;
  ar_uri : option string;
  ar_media_type : option string;
  summary_json : option (dict value);
  ar_metadata : option (dict value)
}.

Definition _optional_str (x : value) : option string :=
  match x with VNone => None | _ => Conversion.nonempty (Some (Conversion.py_str x)) end.

(** [state.get("inputs")] of the task's state column. *)
Definition _task_inputs (state : value) : dict value :=
  match state with VDict d => match value_get "inputs" d with VDict i => i | _ => [] end | _ => [] end.

Definition or_else {A} (x y : option A) : option A := match x with Some _ => x | None => y end.

(** One row; [id] is what the primary key's default draws. *)
Definition artifact_row (tenant job task id : string) (inputs item : dict value) : ArtifactRow :=
  mkRow id tenant job task
    (or_else (_optional_str (value_get "recon_id" item)) (_optional_str (value_get "recon_id" inputs)))
    (or_else (_optional_str (value_get "dataset_id" item)) (_optional_str (value_get "dataset_id" inputs)))
    (Conversion.py_str (value_get "kind" item))
    (_optional_str (value_get "name" item)) (_optional_str (value_get "uri" item)) (_optional_str (value_get "media_type" item))
    (match value_get "summary" item with VDict s => Some (public_metadata s) | _ => None end)
    (match value_get "metadata" item with VDict m => Some m | _ => None end).

Definition of_task (tenant task : string) (r : ArtifactRow) : Prop := ar_tenant_id r = tenant ∧ ar_task_id r = task.

#[export] Instance of_task_dec tenant task r : Decision (of_task tenant task r).
Proof. unfold of_task. apply _. Defined.

Definition record_task_artifacts (tenant job task : string) (state : value) (new_id : nat → string)
    (outputs : dict value) (rows : list ArtifactRow) : res api_error (list ArtifactRow) :=
  l ← listed_artifacts outputs;
  fold_res (λ rows ix,
      item ← validate_artifact_descriptor "outputs.artifacts" ix.1 ix.2;
      Ok (rows ++ [artifact_row tenant job task (new_id ix.1) (_task_inputs state) item]))
    (filter (λ r, ¬ of_task tenant task r) rows) (enumerate l).

(** ** Input artifacts *)

Definition get_artifact (tenant id : string) (rows : list ArtifactRow) : res api_error ArtifactRow :=
  let missing := api_error_init NotFoundError ("artifact not found: " +:+ id) [] in
  match head (filter (λ r, ar_id r = id) rows) with
  | Some r => if decide (ar_tenant_id r = tenant) then Ok r else Err missing
  | None => Err missing
  end.

(** The id and the expected kind of a reference. *)
Definition _artifact_ref_dict (role : string) (x : value) : res api_error (string * option string) :=
  let where_ := "input_artifacts." +:+ role in
  match x with
  | VDict d =>
      match value_get "artifact_id" d with
      | VStr id =>
          _ ← require (negb (bool_decide (id = ""))) where_ ".artifact_id is required";
          _ ← raise_if (negb (opt_key (value_get "kind" d))) (bad_key where_ ".kind");
          Ok (id, text_of (value_get "kind" d))
      | _ => Err (invalid where_ ".artifact_id is required")
      end
  | _ => Err (invalid where_ " must be an object")
  end.

Definition row_metadata (key : string) (r : ArtifactRow) : value :=
  match ar_metadata r with Some m => value_get key m | None => VNone end.

Definition opt_obj (x : option (dict value)) : value := match x with Some d => VDict d | None => VNone end.

(** [metadata datatype or datatype_for_kind(kind)] *)
Definition row_datatype (r : ArtifactRow) : value :=
  let x := row_metadata "datatype" r in if truthy x then x else opt_text (datatype_for_kind v (ar_kind r)).

Definition resolved_artifact (r : ArtifactRow) : dict value := [
  ("artifact_id", VStr (ar_id r)); ("kind", VStr (ar_kind r)); ("name", opt_text (ar_name r)); ("uri", opt_text (ar_uri r));
  ("media_type", opt_text (ar_media_type r)); ("artifact_format", row_metadata "artifact_format" r);
  ("datatype", row_datatype r); ("schema_version", row_metadata "schema_version" r); ("summary", opt_obj (summary_json r));
  ("metadata", opt_obj (ar_metadata r)); ("job_id", VStr (ar_job_id r)); ("task_id", VStr (ar_task_id r));
  ("recon_id", opt_text (ar_recon_id r)); ("dataset_id", opt_text (ar_dataset_id r))
].

Definition resolve_one (tenant : string) (dataset_id : option string) (rows : list ArtifactRow) (role : string) (x : value) :
    res api_error ArtifactRow :=
  let where_ := "input_artifacts." +:+ role in
  _ ← raise_if (negb (Conversion.is_valid_artifact_key role)) (bad_key "input_artifacts" " role");
  ref ← _artifact_ref_dict role x;
  r ← get_artifact tenant ref.1 rows;
  _ ← match ref.2 with
      | Some k => require (bool_decide (ar_kind r = k)) where_
                    (".kind expected " +:+ str_repr k +:+ ", but artifact " +:+ ar_id r +:+ " is " +:+ str_repr (ar_kind r))
      | None => Ok tt
      end;
  _ ← require (is_artifact_allowed_for_role role (ar_kind r)) where_
        (" expects one of [" +:+ join ", " (py_sorted (default [] (dict_get role ARTIFACT_INPUT_ROLE_KINDS))) +:+ "], got " +:+
         str_repr (ar_kind r));
  _ ← match dataset_id, ar_dataset_id r with
      | Some a, Some b => require (bool_decide (b = a)) where_ (" belongs to dataset " +:+ b +:+ ", not " +:+ a)
      | _, _ => Ok tt
      end;
  Ok r.

(** [input_artifacts] is absent or a dict with text keys. *)
Definition resolve_input_artifacts (tenant : string) (dataset_id : option string) (input_artifacts : dict value)
    (rows : list ArtifactRow) : res api_error (dict (dict value)) :=
  fold_res (λ out rx, r ← resolve_one tenant dataset_id rows rx.1 rx.2; Ok (dict_set rx.1 (resolved_artifact r) out))
    [] input_artifacts.

(** [artifact_uri_from_input_artifacts] *)
Fixpoint artifact_uri_from_input_artifacts (input_artifacts : dict (dict value)) (roles prefixes : list string) : option string :=
  match roles with
  | [] => None
  | role :: roles =>
      let artifact := default [] (dict_get role input_artifacts) in
      let uri := value_get "uri" artifact in
      if negb (is_nil artifact) && truthy uri &&
         (is_nil prefixes || existsb (λ p, starts_with p (Conversion.py_str (value_get "kind" artifact))) prefixes)
      then Some (Conversion.py_str uri)
      else artifact_uri_from_input_artifacts input_artifacts roles prefixes
  end.

Definition database_path_from_input_artifacts (input_artifacts : dict (dict value)) (roles : list string) : option string :=
  artifact_uri_from_input_artifacts input_artifacts roles ["features.database."; "matches.database."].

End descriptors.

End Artifacts.
