(* ===== verification/ArtifactFacts.v ===== *)
(** Lemmas on artifact descriptors: lookups through updates, checks that do not
    depend on where an error is reported, and what a checked descriptor is. *)
From S2P Require Import Prelude PyValue Errors ArtifactVocab Conversion Artifacts.
From stdpp Require Import options.
Import Errors Vocab Artifacts.

#[local] Open Scope Z_scope.
#[local] Arguments require : simpl never.
#[local] Arguments value_get : simpl never.
#[local] Arguments dict_set : simpl never.

(** ** Lookups *)

Lemma value_get_set_eq k x d : value_get k (dict_set k x d) = x.
Proof. unfold value_get. by rewrite dict_get_set_eq. Qed.

Lemma value_get_set_ne k k' x d : k' ≠ k → value_get k' (dict_set k x d) = value_get k' d.
Proof. intros Hne. unfold value_get. by rewrite dict_get_set_ne. Qed.

Lemma value_get_fill_ne k k' x d : k' ≠ k → value_get k' (fill k x d) = value_get k' d.
Proof. intros Hne. unfold fill. destruct (value_get k d), x; try done. by apply value_get_set_ne. Qed.

Lemma fill_noop k x d : (value_get k d = VNone → x = None) → fill k x d = d.
Proof. intros Hx. unfold fill. destruct (value_get k d); try done. by rewrite Hx. Qed.

Lemma fill_still_None k x d : x ≠ Some VNone → value_get k (fill k x d) = VNone → x = None.
Proof.
  unfold fill. destruct (value_get k d) eqn:E; intros Hx; rewrite ?E; try done. destruct x as [x|]; [|done].
  rewrite value_get_set_eq. congruence.
Qed.

Lemma value_get_publish_ne pm k k' d : k' ≠ k → value_get k' (publish pm k d) = value_get k' d.
Proof. intros Hne. unfold publish. destruct (value_get k d); try done. by apply value_get_set_ne. Qed.

Lemma publish_dict pm k d : opt_dict (value_get k d) = true → opt_dict (value_get k (publish pm k d)) = true.
Proof. unfold publish. destruct (value_get k d) eqn:E; rewrite ?E, ?value_get_set_eq; done. Qed.

Lemma py_take_len n s : (py_len (py_take n s) ≤ n)%nat.
Proof.
  revert n. induction s as [|a s IH]; intros n; cbn; [lia|]. destruct (continuation a) eqn:E; [cbn; by rewrite E|].
  destruct n as [|n]; cbn; [lia|]. rewrite E. specialize (IH n). lia.
Qed.

(** ** Checks succeed or fail wherever they report *)

Lemma require_Ok ok where_ detail : require ok where_ detail = Ok tt ↔ ok = true.
Proof. unfold require. rewrite raise_if_Ok. by destruct ok. Qed.

Lemma bind_unit {E B} (m : res E unit) (f : unit → res E B) b :
  (m ≫= f) = Ok b ↔ m = Ok tt ∧ f tt = Ok b.
Proof. rewrite bind_Ok. split; [by intros ([] & ? & ?)|by intros [? ?]; exists tt]. Qed.

(** A check whose outcome does not depend on the place it names. *)
Definition placeless (f : string → res api_error unit) : Prop := ∀ a b, f a = Ok tt → f b = Ok tt.

Lemma placeless_require ok g : placeless (λ base, require ok base (g base)).
Proof. intros a b. by rewrite !require_Ok. Qed.

Lemma placeless_raise_if ok g : placeless (λ base, raise_if ok (g base)).
Proof. intros a b. by rewrite !raise_if_Ok. Qed.

Lemma placeless_bind f g :
  placeless f → placeless g → placeless (λ base, _ ← f base; g base).
Proof. intros Hf Hg a b [H1 H2]%bind_unit. apply bind_unit. eauto. Qed.

Lemma placeless_const r : placeless (λ _, r).
Proof. by intros a b. Qed.

Definition file_ref_ok (x : value) : bool :=
  match x with
  | VDict ref =>
      filled_text (value_get "name" ref) && filled_text (file_uri ref) &&
      forallb (λ kn, text_upto kn.2 (value_get kn.1 ref)) [("name", 255); ("uri", 2048); ("path", 2048); ("media_type", 127)]%nat &&
      opt_sha (value_get "sha256" ref) && opt_natural (value_get "byte_size" ref)
  | _ => false
  end.

Definition files_ok (x : value) : bool :=
  match x with VNone => true | VList l => forallb file_ref_ok l | _ => false end.

Lemma for_each_forallb {E A} (f : A → res E unit) (p : A → bool) l :
  (∀ x, f x = Ok tt ↔ p x = true) → for_each f l = Ok tt ↔ forallb p l = true.
Proof.
  intros Hf. induction l as [|x l IH]; cbn; [done|]. rewrite bind_unit, IH, Hf. by rewrite andb_true_iff.
Qed.

Lemma check_file_ref_Ok base field ix : check_file_ref base field ix = Ok tt ↔ file_ref_ok ix.2 = true.
Proof.
  unfold check_file_ref, file_ref_ok. destruct ix.2; try done.
  rewrite !bind_unit, !require_Ok, !andb_true_iff. rewrite (for_each_forallb _ (λ kn, text_upto kn.2 (value_get kn.1 d))); [tauto|].
  intros kn. apply require_Ok.
Qed.

Lemma forallb_enumerate {A} (p : A → bool) l n : forallb (λ ix : nat * A, p ix.2) (zip (seq n (length l)) l) = forallb p l.
Proof. revert n. induction l as [|x l IH]; intros n; cbn; [done|]. by rewrite IH. Qed.

Lemma files_Ok base field x : _validate_artifact_file_refs base field x = Ok tt ↔ files_ok x = true.
Proof.
  unfold _validate_artifact_file_refs, files_ok. destruct x; try done.
  rewrite (for_each_forallb _ (λ ix, file_ref_ok ix.2)) by (apply check_file_ref_Ok).
  unfold enumerate. by rewrite forallb_enumerate.
Qed.

Lemma placeless_files field x : placeless (λ base, _validate_artifact_file_refs base field x).
Proof. intros a b. by rewrite !files_Ok. Qed.

(** The reserved fields of a dictionary. *)
Record reserved_ok (m : dict value) : Prop := {
  ro_format : opt_key (value_get "artifact_format" m) = true;
  ro_datatype : opt_key (value_get "datatype" m) = true;
  ro_version : opt_positive (value_get "schema_version" m) = true;
  ro_files : files_ok (value_get "files" m) = true;
  ro_sha : opt_sha (value_get "sha256" m) = true;
  ro_size : opt_natural (value_get "byte_size" m) = true;
  ro_frame : text_upto 255 (value_get "coordinate_frame" m) = true;
  ro_producer : opt_dict (value_get "producer" m) = true
}.

Lemma reserved_Ok base m : _validate_reserved_metadata base m = Ok tt ↔ reserved_ok m.
Proof.
  unfold _validate_reserved_metadata. rewrite !bind_unit, files_Ok, !require_Ok. cbn [for_each].
  rewrite !bind_unit, !raise_if_Ok, !negb_false_iff. split; [intros H; destruct_and! H; by split|].
  intros []. by split_and!.
Qed.

Lemma reserved_ok_ext m d :
  (∀ key, key ∈ _RESERVED_ARTIFACT_METADATA_KEYS → value_get key m = value_get key d) → reserved_ok d → reserved_ok m.
Proof. intros Hk []. split; rewrite Hk by list_in; done. Qed.

(** ** Metadata *)

Lemma dict_get_remove key k m : dict_get k (remove_key key m) = if decide (k = key) then None else dict_get k m.
Proof.
  unfold remove_key. induction m as [|[k' x] m IH]; [by case_decide|].
  destruct (decide (k' = key)) as [->|Hne].
  - rewrite filter_cons_False by (by intros []). rewrite IH. cbn. repeat case_decide; congruence.
  - rewrite filter_cons_True by done. cbn. rewrite IH. repeat case_decide; congruence.
Qed.

Lemma removed_keys l m k : k ∈ l → dict_get k (foldl (λ m key, remove_key key m) m l) = None.
Proof.
  assert (∀ l m, dict_get k m = None → dict_get k (foldl (λ m key, remove_key key m) m l) = None) as Hkeep.
  { clear. induction l as [|key l IH]; intros m Hm; [done|]. apply IH. rewrite dict_get_remove. by case_decide. }
  revert m. induction l as [|key l IH]; intros m; [by intros ?%elem_of_nil|]. cbn [foldl].
  intros [->|Hin]%elem_of_cons; [|by apply IH]. apply Hkeep. rewrite dict_get_remove. by rewrite decide_True.
Qed.

Lemma kept_keys d l m k :
  dict_get k (foldl (keep_reserved d) m l) =
  if decide (k ∈ l) then match dict_get k d with Some x => Some x | None => dict_get k m end else dict_get k m.
Proof.
  revert m. induction l as [|key l IH]; intros m; cbn [foldl]; [by rewrite decide_False by (by intros ?%elem_of_nil)|].
  rewrite IH. unfold keep_reserved. destruct (decide (k = key)) as [->|Hne].
  - rewrite (decide_True (P := key ∈ key :: l)) by left. destruct (dict_get key d) as [x|] eqn:E.
    + rewrite dict_get_set_eq. by case_decide.
    + by case_decide.
  - assert (dict_get k (match dict_get key d with Some x => dict_set key x m | None => m end) = dict_get k m) as ->
      by (destruct (dict_get key d); [by rewrite dict_get_set_ne|done]).
    destruct (decide (k ∈ l)); [by rewrite decide_True by (by right)|].
    rewrite decide_False; [done|]. by intros [?|?]%elem_of_cons.
Qed.

(** The reserved entries of the metadata stored are those of the descriptor. *)
Lemma final_metadata_reserved pm m d key :
  key ∈ _RESERVED_ARTIFACT_METADATA_KEYS → value_get key (final_metadata pm m d) = value_get key d.
Proof.
  intros Hk. unfold value_get, final_metadata. rewrite kept_keys, decide_True, removed_keys by done.
  by destruct (dict_get key d).
Qed.

Lemma lift_noop m d l :
  (∀ key, key ∈ l → value_get key m = value_get key d) → foldl (lift_reserved m) d l = d.
Proof.
  induction l as [|key l IH]; intros Hk; [done|]. cbn [foldl].
  assert (lift_reserved m d key = d) as ->.
  { unfold lift_reserved. rewrite Hk by left. by destruct (value_get key d). }
  apply IH. intros key' Hin. apply Hk. by right.
Qed.

Lemma check_rest_Ok base d :
  check_rest base d = Ok tt ↔
  files_ok (value_get "files" d) = true ∧ opt_sha (value_get "sha256" d) = true ∧
  opt_natural (value_get "byte_size" d) = true ∧ text_upto 255 (value_get "coordinate_frame" d) = true ∧
  opt_dict (value_get "producer" d) = true ∧ opt_dict (value_get "summary" d) = true.
Proof. unfold check_rest. by rewrite !bind_unit, files_Ok, !require_Ok. Qed.

Lemma kind_of_Ok base d kind :
  kind_of base d = Ok kind ↔ value_get "kind" d = VStr kind ∧ Conversion.is_valid_artifact_key kind = true.
Proof.
  unfold kind_of. destruct (value_get "kind" d) as [| | | |k| |]; try (split; [done|by intros [? _]]).
  destruct (Conversion.is_valid_artifact_key k) eqn:E; split; try done; naive_solver congruence.
Qed.

Lemma lift_other m d l key : key ∉ l → value_get key (foldl (lift_reserved m) d l) = value_get key d.
Proof.
  revert d. induction l as [|k l IH]; intros d Hk; [done|]. cbn [foldl]. rewrite IH by (intros ?; apply Hk; by right).
  assert (key ≠ k) as Hne by (intros ->; apply Hk; by left).
  unfold lift_reserved. destruct (value_get k d), (value_get k m); try done; by apply value_get_set_ne.
Qed.

(** ** Checked descriptors *)

Section descriptors.
Variable v : Vocabulary.
Variable artifact_types : list string.
Variable plugin_formats : list ArtifactFormatDefinition.
Variable redact_name : string → string.
Variable public_metadata : dict value → dict value.

#[local] Abbreviation validate := (validate_artifact_descriptor v artifact_types plugin_formats redact_name public_metadata).
#[local] Abbreviation default_fmt := (default_format v artifact_types plugin_formats).

Lemma placeless_format kind fmt : placeless (λ base, check_format v base kind fmt).
Proof using Type.
  apply placeless_bind; [apply placeless_raise_if|]. destruct fmt; try apply placeless_const. apply placeless_require.
Qed.

Lemma placeless_version fmt version : placeless (λ base, check_version v base fmt version).
Proof using Type.
  apply placeless_bind; [apply placeless_require|]. destruct fmt; try apply placeless_const.
  destruct version; try apply placeless_const. destruct (dict_get s _); [apply placeless_require|apply placeless_const].
Qed.

Lemma placeless_datatype kind fmt dt : placeless (λ base, check_datatype v base kind fmt dt).
Proof using Type.
  apply placeless_bind; [apply placeless_raise_if|]. destruct dt as [| | | |t| |]; try apply placeless_const.
  apply placeless_bind.
  - destruct fmt as [| | | |f| |]; try apply placeless_const.
    destruct (datatype_for_format v f); [apply placeless_require|apply placeless_const].
  - destruct (datatype_for_kind v kind); [apply placeless_require|apply placeless_const].
Qed.

(** A complete descriptor of a kind: every field is what validation demands, and
    nothing is left to fill in. *)
Record checked (kind : string) (d : dict value) : Prop := {
  ck_kind : value_get "kind" d = VStr kind;
  ck_key : Conversion.is_valid_artifact_key kind = true;
  ck_name : text_upto 255 (value_get "name" d) = true;
  ck_uri : text_upto 2048 (value_get "uri" d) = true;
  ck_media : text_upto 127 (value_get "media_type" d) = true;
  ck_reserved : reserved_ok d;
  ck_format base : check_format v base kind (value_get "artifact_format" d) = Ok tt;
  ck_version base : check_version v base (value_get "artifact_format" d) (value_get "schema_version" d) = Ok tt;
  ck_datatype base : check_datatype v base kind (value_get "artifact_format" d) (value_get "datatype" d) = Ok tt;
  ck_summary : opt_dict (value_get "summary" d) = true;
  ck_default : value_get "artifact_format" d = VNone → default_fmt kind = None;
  ck_default_version : value_get "schema_version" d = VNone → default_version v kind = None;
  ck_inferred : value_get "datatype" d = VNone → inferred_datatype v kind (value_get "artifact_format" d) = None
}.

(** The metadata repeats the reserved fields. *)
Definition mirrored (m d : dict value) : Prop :=
  value_get "metadata" d = VDict m ∧
  ∀ key, key ∈ _RESERVED_ARTIFACT_METADATA_KEYS → value_get key m = value_get key d.

(** The named descriptor differs from the given one in its name only. *)
Lemma check_name_Ok base d d' :
  check_name redact_name base d = Ok d' →
  text_upto 255 (value_get "name" d') = true ∧ ∀ key, key ≠ "name" → value_get key d' = value_get key d.
Proof using Type.
  unfold check_name. intros [Hok%require_Ok [= <-]]%bind_unit. destruct (value_get "name" d) as [| | | |s| |] eqn:E; try done.
  - rewrite E. by split.
  - split; [|intros key Hk; by apply value_get_set_ne]. rewrite value_get_set_eq.
    unfold sanitize_public_artifact_name. destruct (decide _); [done|]. cbn. apply Nat.leb_le. apply py_take_len.
Qed.

Lemma check_name_succeeds base d :
  text_upto 255 (value_get "name" d) = true → ∃ d', check_name redact_name base d = Ok d'.
Proof using Type. intros Hn. unfold check_name, require. rewrite Hn. by eexists. Qed.

(** Rewrite lookups through the updates of validation, at other keys. *)
Ltac gets :=
  repeat first [rewrite value_get_set_ne by done | rewrite value_get_publish_ne by done | rewrite value_get_fill_ne by done].

(** A text that is not in a literal list. *)

(** What validation returns is complete, its metadata repeats the reserved fields, and
    the kind, the location and the media type are those given. *)
Lemma validate_checked context index x d :
  validate context index x = Ok d →
  (∃ kind m, checked kind d ∧ mirrored m d) ∧
  ∀ d0 key, x = VDict d0 → key ∈ ["kind"; "uri"; "media_type"; "recon_id"; "dataset_id"] → value_get key d = value_get key d0.
Proof using Type.
  unfold validate_artifact_descriptor. destruct x as [| | | | | |d0]; try done. set (base := _artifact_context _ _).
  intros (m & Hm & [Hres (kind & [Hk Hkey]%kind_of_Ok & H)%bind_Ok]%bind_unit)%bind_Ok.
  set (d1 := foldl _ d0 _) in *.
  apply bind_Ok in H as (d2 & [Hname Hother]%check_name_Ok & H).
  apply bind_unit in H as [Huri%require_Ok H]. apply bind_unit in H as [Hmedia%require_Ok H]. cbn zeta in H.
  set (d3 := fill "artifact_format" _ d2) in *. apply bind_unit in H as [Hfmt H].
  set (d4 := fill "schema_version" _ d3) in *. apply bind_unit in H as [Hver H].
  set (d5 := fill "datatype" _ d4) in *. apply bind_unit in H as [Hdt H].
  apply bind_unit in H as [(Hfiles & Hsha & Hsize & Hframe & Hprod & Hsum)%check_rest_Ok [= <-]].
  set (d6 := publish _ "summary" _).
  assert (∀ key, key ∉ ["metadata"; "summary"; "producer"; "datatype"; "schema_version"; "artifact_format"] →
    value_get key (dict_set "metadata" (VDict (final_metadata public_metadata m d6)) d6) = value_get key d2) as Hget.
  { intros key Hin. unfold d6, d5, d4, d3. repeat (rewrite not_elem_of_cons in Hin; destruct Hin as [? Hin]). by gets. }
  assert (value_get "artifact_format" d5 = value_get "artifact_format" d3) as Hf5 by (unfold d5, d4; by gets).
  assert (value_get "schema_version" d5 = value_get "schema_version" d4) as Hv5 by (unfold d5; by gets).
  split.
  2: { intros d0' key [= <-] Hin. set (reserved := _RESERVED_ARTIFACT_METADATA_KEYS) in *.
    repeat (apply elem_of_cons in Hin as [->|Hin]); [..|by apply elem_of_nil in Hin];
      (rewrite Hget by not_listed); rewrite Hother by done; apply lift_other; not_listed. }
  exists kind, (final_metadata public_metadata m d6). split.
  - split; try (rewrite Hget by not_listed); try done; try (rewrite Hother by done); try done.
    all: unfold d6; gets; rewrite ?Hf5, ?Hv5.
    all: try (intros b; first [by eapply placeless_format|by eapply placeless_version|by eapply placeless_datatype]).
    + split; gets; rewrite ?Hf5, ?Hv5; try done.
      * unfold check_format in Hfmt. apply bind_unit in Hfmt as [Ho _]. by apply raise_if_Ok, negb_false_iff in Ho.
      * unfold check_datatype in Hdt. apply bind_unit in Hdt as [Ho _]. by apply raise_if_Ok, negb_false_iff in Ho.
      * unfold check_version in Hver. apply bind_unit in Hver as [Ho _]. by apply require_Ok in Ho.
      * by apply publish_dict.
    + apply publish_dict. gets. done.
    + apply fill_still_None. unfold default_format. by destruct (core_kind v kind).
    + apply fill_still_None. unfold default_version. by destruct (core_kind v kind).
    + apply fill_still_None. unfold inferred_datatype.
      destruct (match value_get "artifact_format" d3 with VStr f => datatype_for_format v f | _ => None end); [done|].
      destruct (datatype_for_kind v kind); [done|]. by destruct (core_kind v kind).
  - split; [by rewrite value_get_set_eq|]. intros key Hkey'. rewrite final_metadata_reserved by done.
    rewrite value_get_set_ne; [done|]. intros ->. by repeat (apply elem_of_cons in Hkey' as [?|Hkey']); [done..|apply elem_of_nil in Hkey'].
Qed.

(** A complete descriptor passes validation again. *)
Lemma checked_validates context index kind m d :
  checked kind d → mirrored m d → ∃ d', validate context index (VDict d) = Ok d'.
Proof using Type.
  intros [] [Hm Hmirror]. unfold validate_artifact_descriptor. generalize (_artifact_context context index) as base.
  intros base. destruct (check_name_succeeds base d) as [d2 Hd2]; [done|].
  destruct (check_name_Ok _ _ _ Hd2) as [_ Hother]. eexists.
  apply bind_Ok. exists m. split; [unfold metadata_of; by rewrite Hm|].
  apply bind_unit. split; [apply reserved_Ok; by eapply reserved_ok_ext|]. cbn beta zeta. rewrite (lift_noop m d) by done.
  apply bind_Ok. exists kind. split; [by apply kind_of_Ok|]. apply bind_Ok. exists d2. split; [done|].
  apply bind_unit. split; [apply require_Ok; by rewrite Hother|].
  apply bind_unit. split; [apply require_Ok; by rewrite Hother|]. cbn beta zeta.
  rewrite (fill_noop "artifact_format") by (by rewrite Hother). apply bind_unit. split; [by rewrite Hother|].
  rewrite (fill_noop "schema_version") by (by rewrite Hother). apply bind_unit. split; [by rewrite !Hother|].
  rewrite (fill_noop "datatype") by (by rewrite !Hother). apply bind_unit. split; [by rewrite !Hother|].
  destruct ck_reserved0. apply bind_unit. split; [apply check_rest_Ok; by rewrite !Hother|]. done.
Qed.

End descriptors.
