(* ===== verification/ArtifactGuarantees.v ===== *)
(** What artifact records promise: the outputs accepted from a worker can be
    recorded, and stages only get artifacts their tenant may use. *)
From S2P Require Import Prelude PyValue Errors ArtifactVocab Conversion Artifacts ArtifactFacts.
From stdpp Require Import options.
Import Errors Vocab Artifacts.

#[local] Open Scope Z_scope.
#[local] Arguments require : simpl never.
#[local] Arguments value_get : simpl never.
#[local] Arguments dict_set : simpl never.
#[local] Arguments validate_artifact_descriptor : simpl never.

Section outputs.
Variable v : Vocabulary.
Variable artifact_types : list string.
Variable plugin_formats : list ArtifactFormatDefinition.
Variable redact_name : string → string.
Variable public_metadata : dict value → dict value.

#[local] Abbreviation validate := (validate_artifact_descriptor v artifact_types plugin_formats redact_name public_metadata).
#[local] Abbreviation complete := (λ d, ∃ kind m, checked v artifact_types plugin_formats kind d ∧ mirrored m d).

(** ** Normalisation *)

Lemma append_unique_spec out item :
  NoDup (artifact_key <$> out) → Forall complete out → complete item →
  NoDup (artifact_key <$> _append_unique out item) ∧ Forall complete (_append_unique out item) ∧ _append_unique out item ≠ [].
Proof using Type.
  intros Hnd Hall Hitem. unfold _append_unique. case_decide as Hin.
  - split_and!; [done..|]. intros ->. by apply elem_of_nil in Hin.
  - rewrite fmap_app. split_and!; [|by apply Forall_app; auto|by destruct out].
    apply NoDup_app. split_and!; [done| |apply NoDup_singleton]. by intros key Hkey ->%list_elem_of_singleton.
Qed.

#[local] Abbreviation collected := (fold_res (collect v artifact_types plugin_formats redact_name public_metadata)).

Lemma collected_cons out i x l :
  collected out ((i, x) :: l) = (validate "outputs.artifacts" i x ≫= λ item, collected (_append_unique out item) l).
Proof using Type.
  transitivity ((validate "outputs.artifacts" i x ≫= λ item, Ok (_append_unique out item)) ≫= λ s, collected s l); [done|].
  by destruct (validate "outputs.artifacts" i x).
Qed.

Lemma collected_nonempty l out : out ≠ [] → collected out l ≠ Ok [].
Proof using Type.
  revert out. induction l as [|[i x] l IH]; intros out Hout; [cbn; congruence|]. rewrite collected_cons.
  intros (item & _ & Hf)%bind_Ok. revert Hf. apply IH. unfold _append_unique. case_decide; [done|]. by destruct out.
Qed.

Lemma collect_spec l out items :
  NoDup (artifact_key <$> out) → Forall complete out → collected out l = Ok items →
  NoDup (artifact_key <$> items) ∧ Forall complete items ∧ (items = [] → l = []).
Proof using Type.
  revert out. induction l as [|[i x] l IH]; intros out Hnd Hall; [cbn; by intros [= <-]|]. rewrite collected_cons.
  intros (item & Hv & Hf)%bind_Ok. apply validate_checked in Hv as [Hc _].
  destruct (append_unique_spec out item Hnd Hall Hc) as (H1 & H2 & H3).
  destruct (IH _ H1 H2 Hf) as (? & ? & _). split_and!; [done..|]. intros ->. by apply collected_nonempty in Hf.
Qed.

(** ** Recording *)

(** The row recorded for an item. *)
Record recorded (tenant job task : string) (item : dict value) (r : ArtifactRow) : Prop := {
  rc_task : of_task tenant task r;
  rc_job : ar_job_id r = job;
  rc_kind : value_get "kind" item = VStr (ar_kind r) ∧ Conversion.is_valid_artifact_key (ar_kind r) = true;
  rc_uri : ar_uri r = _optional_str (value_get "uri" item);
  rc_format f : row_metadata "artifact_format" r = VStr f → is_format_compatible_with_kind v (ar_kind r) f = true;
  rc_datatype dt kt : row_metadata "datatype" r = VStr dt → datatype_for_kind v (ar_kind r) = Some kt → dt = kt;
  rc_core : core_kind v (ar_kind r) ≠ None → ∃ f, row_metadata "artifact_format" r = VStr f
}.

Lemma row_recorded tenant job task id inputs i item d :
  validate "outputs.artifacts" i (VDict item) = Ok d →
  recorded tenant job task item (artifact_row public_metadata tenant job task id inputs d).
Proof using Type.
  intros Hi.
  apply validate_checked in Hi as [(kind & m & Hc & [Hm Hmirror]) Hkeep]. specialize (Hkeep item).
  assert (ar_kind (artifact_row public_metadata tenant job task id inputs d) = kind) as Hkind by (cbn; by rewrite (ck_kind _ _ _ _ _ Hc)).
  assert (∀ key, key ∈ _RESERVED_ARTIFACT_METADATA_KEYS →
    row_metadata key (artifact_row public_metadata tenant job task id inputs d) = value_get key d) as Hrow.
  { intros key Hk. unfold row_metadata. cbn. rewrite Hm. by apply Hmirror. }
  split; rewrite ?Hkind.
  - done.
  - done.
  - split; [|by apply (ck_key _ _ _ _ _ Hc)]. rewrite <-Hkeep by (done || list_in). apply (ck_kind _ _ _ _ _ Hc).
  - cbn. by rewrite Hkeep by (done || list_in).
  - intros f. rewrite Hrow by list_in. intros Hf. pose proof (ck_format _ _ _ _ _ Hc "") as Hok. rewrite Hf in Hok.
    unfold check_format in Hok. apply bind_unit in Hok as [_ Hok]. by apply require_Ok in Hok.
  - intros dt kt. rewrite Hrow by list_in. intros Hdt Hkt. pose proof (ck_datatype _ _ _ _ _ Hc "") as Hok. rewrite Hdt in Hok.
    unfold check_datatype in Hok. apply bind_unit in Hok as [_ Hok]. apply bind_unit in Hok as [_ Hok]. rewrite Hkt in Hok.
    by apply require_Ok, bool_decide_eq_true in Hok.
  - intros Hcore. rewrite Hrow by list_in. pose proof (ck_format _ _ _ _ _ Hc "") as Hok.
    unfold check_format in Hok. apply bind_unit in Hok as [Hok _]. apply raise_if_Ok, negb_false_iff in Hok.
    destruct (value_get "artifact_format" d) eqn:Ef; try done; [|by eexists].
    apply (ck_default _ _ _ _ _ Hc) in Ef. unfold default_format in Ef. by destruct (core_kind v kind).
Qed.

Lemma record_spec tenant job task state new_id items n rows :
  Forall complete items →
  ∃ new, fold_res (λ rows ix,
      item ← validate "outputs.artifacts" ix.1 ix.2;
      Ok (rows ++ [artifact_row public_metadata tenant job task (new_id ix.1) (_task_inputs state) item]))
    rows (zip (seq n (length items)) (VDict <$> items)) = Ok (rows ++ new) ∧
    Forall2 (recorded tenant job task) items new ∧ ar_id <$> new = new_id <$> seq n (length items).
Proof using Type.
  revert n rows. induction items as [|item items IH]; intros n rows Hall; cbn.
  - exists []. by rewrite app_nil_r.
  - apply Forall_cons in Hall as [(kind & m & Hc & Hm) Hall].
    destruct (checked_validates v artifact_types plugin_formats redact_name public_metadata "outputs.artifacts" n kind m item Hc Hm) as [d Hd].
    rewrite Hd. cbn.
    destruct (IH (S n) (rows ++ [artifact_row public_metadata tenant job task (new_id n) (_task_inputs state) d]) Hall) as (new & Hf & H2 & Hids).
    eexists (artifact_row public_metadata tenant job task (new_id n) (_task_inputs state) d :: new). rewrite Hf, <-app_assoc.
    split_and!; [done| |cbn; by rewrite Hids]. constructor; [|done]. by eapply row_recorded.
Qed.

Lemma listed_set items d : items ≠ [] → listed_artifacts (dict_set "artifacts" (VList (VDict <$> items)) d) = Ok (VDict <$> items).
Proof using Type. intros Hne. unfold listed_artifacts. rewrite value_get_set_eq. by destruct items. Qed.


(** ** Input artifacts *)

(** The row a reference may be resolved to. *)
Record admissible (tenant : string) (dataset_id : option string) (rows : list ArtifactRow) (role : string) (x : value)
    (r : ArtifactRow) : Prop := {
  ad_role : Conversion.is_valid_artifact_key role = true;
  ad_row : r ∈ rows;
  ad_tenant : ar_tenant_id r = tenant;
  ad_ref : ∃ d, x = VDict d ∧ value_get "artifact_id" d = VStr (ar_id r) ∧ ar_id r ≠ "" ∧
    (value_get "kind" d = VNone ∨ value_get "kind" d = VStr (ar_kind r) ∧ Conversion.is_valid_artifact_key (ar_kind r) = true);
  ad_allowed : is_artifact_allowed_for_role role (ar_kind r) = true;
  ad_dataset a b : dataset_id = Some a → ar_dataset_id r = Some b → a = b
}.

Lemma get_artifact_Ok tenant id rows r :
  NoDup (ar_id <$> rows) →
  get_artifact tenant id rows = Ok r ↔ r ∈ rows ∧ ar_id r = id ∧ ar_tenant_id r = tenant.
Proof using Type.
  intros Hnd. unfold get_artifact.
  assert (∀ r', head (filter (λ r, ar_id r = id) rows) = Some r' ↔ r' ∈ rows ∧ ar_id r' = id) as Hh.
  { intros r'. split.
    - intros Hr. assert (r' ∈ filter (λ r, ar_id r = id) rows) as [? ?]%list_elem_of_filter; [|done].
      destruct (filter _ rows); [done|]. injection Hr as ->. by left.
    - intros [Hin <-]. induction rows as [|r0 rows IH]; [by apply elem_of_nil in Hin|].
      cbn in Hnd. apply NoDup_cons in Hnd as [Hr0 Hnd]. apply elem_of_cons in Hin as [->|Hin].
      + by rewrite filter_cons_True.
      + rewrite filter_cons_False; [by apply IH|]. intros Heq. apply Hr0. rewrite Heq. by apply list_elem_of_fmap_2. }
  destruct (head _) as [r'|] eqn:E.
  - clear E. destruct (proj1 (Hh r') eq_refl) as [Hin Hid]. case_decide as Ht.
    + split; [by intros [= <-]|]. intros (Hr & Hir & _). assert (Some r' = Some r) as [= ->] by (by apply Hh). done.
    + split; [done|]. intros (Hr & Hir & Htr). destruct Ht. assert (Some r' = Some r) as [= ->] by (by apply Hh). done.
  - split; [done|]. intros (Hr & Hir & _). assert (None = Some r) as [=]. by apply Hh.
Qed.

Lemma ref_Ok role x id k :
  _artifact_ref_dict role x = Ok (id, k) ↔
  ∃ d, x = VDict d ∧ value_get "artifact_id" d = VStr id ∧ id ≠ "" ∧
    (value_get "kind" d = VNone ∧ k = None ∨ ∃ kind, value_get "kind" d = VStr kind ∧ k = Some kind ∧ Conversion.is_valid_artifact_key kind = true).
Proof using Type.
  unfold _artifact_ref_dict. destruct x as [| | | | | |d]; try (split; [done|by intros (d & [=] & _)]).
  destruct (value_get "artifact_id" d) as [| | | |id'| |] eqn:Ei;
    try (split; [done|by intros (d' & [= <-] & Hid & _); rewrite Ei in Hid]).
  rewrite !bind_unit, require_Ok, raise_if_Ok, negb_true_iff, negb_false_iff, bool_decide_eq_false. split.
  - intros (Hne & Hk & [= -> <-]). exists d. split_and!; [done..|]. destruct (value_get "kind" d) as [| | | |kind| |]; try done; [by left|].
    right. by exists kind.
  - intros (d' & [= <-] & Hid & Hne & Hk). rewrite Ei in Hid. injection Hid as ->. split; [done|].
    destruct Hk as [[-> ->]|(kind & -> & -> & Hv)]; by split.
Qed.

Lemma resolve_one_Ok tenant dataset_id rows role x r :
  NoDup (ar_id <$> rows) →
  resolve_one tenant dataset_id rows role x = Ok r ↔ admissible tenant dataset_id rows role x r.
Proof using Type.
  intros Hnd. unfold resolve_one. rewrite bind_unit, raise_if_Ok, negb_false_iff. split.
  - intros (Hrole & ([id k] & Href & (r' & Hr & [Hkind [Hall [Hds [= ->]]%bind_unit]%bind_unit]%bind_unit)%bind_Ok)%bind_Ok).
    cbn [fst snd] in Hr, Hkind. apply get_artifact_Ok in Hr as (Hin & Hid & Ht); [|done]. subst id.
    apply ref_Ok in Href as (d & -> & Hid & Hne & Hk). apply require_Ok in Hall. split; try done.
    + exists d. split_and!; [done..|]. destruct Hk as [[? ->]|(kind & ? & -> & ?)]; [by left|right].
      apply require_Ok, bool_decide_eq_true in Hkind as ->. done.
    + intros a b -> Hb. rewrite Hb in Hds. apply require_Ok, bool_decide_eq_true in Hds. congruence.
  - intros [Hrole Hin Ht (d & -> & Hid & Hne & Hk) Hall Hds]. split; [done|]. apply bind_Ok.
    destruct Hk as [Hk|[Hk Hv]].
    + exists (ar_id r, None). split; [apply ref_Ok; exists d; auto 10|]. apply bind_Ok. exists r. cbn [fst snd].
      split; [by apply get_artifact_Ok|]. apply bind_unit. split; [done|]. apply bind_unit. split; [by apply require_Ok|].
      apply bind_unit. split; [|done]. destruct dataset_id as [a|], (ar_dataset_id r) as [b|]; try done.
      apply require_Ok, bool_decide_eq_true. symmetry. by apply Hds.
    + exists (ar_id r, Some (ar_kind r)). split; [apply ref_Ok; exists d; eauto 10|]. apply bind_Ok. exists r. cbn [fst snd].
      split; [by apply get_artifact_Ok|]. apply bind_unit. split; [by apply require_Ok, bool_decide_eq_true|].
      apply bind_unit. split; [by apply require_Ok|].
      apply bind_unit. split; [|done]. destruct dataset_id as [a|], (ar_dataset_id r) as [b|]; try done.
      apply require_Ok, bool_decide_eq_true. symmetry. by apply Hds.
Qed.

Lemma resolve_all tenant dataset_id rows inp out0 out :
  NoDup (dict_keys inp) → (∀ role, role ∈ dict_keys inp → role ∉ dict_keys out0) →
  fold_res (λ out rx, r ← resolve_one tenant dataset_id rows rx.1 rx.2; Ok (dict_set rx.1 (resolved_artifact v r) out)) out0 inp =
    Ok out ↔
  ∃ rs, Forall2 (λ rx r, resolve_one tenant dataset_id rows rx.1 rx.2 = Ok r) inp rs ∧
    out = out0 ++ zip (dict_keys inp) (resolved_artifact v <$> rs).
Proof using Type.
  revert out0 out. induction inp as [|[role x] inp IH]; intros out0 out Hnd Hfresh; cbn.
  - split; [intros [= <-]; exists []; by rewrite app_nil_r|]. intros (rs & Hrs & ->). by rewrite app_nil_r.
  - cbn in Hnd. apply NoDup_cons in Hnd as [Hrole Hnd].
    assert (∀ r, NoDup (dict_keys inp) ∧ ∀ role', role' ∈ dict_keys inp → role' ∉ dict_keys (dict_set role (resolved_artifact v r) out0)) as Hnext.
    { intros r. split; [done|]. intros role' Hin [->|Hin']%dict_keys_set; [done|]. apply (Hfresh role'); [by right|done]. }
    assert (∀ r, dict_set role (resolved_artifact v r) out0 = out0 ++ [(role, resolved_artifact v r)]) as Hset
      by (intros r; apply dict_set_fresh, Hfresh; by left).
    split.
    + intros (out1 & (r & Hr & [= <-])%bind_Ok & Hf)%bind_Ok. destruct (Hnext r) as [N1 N2].
      apply (IH _ _ N1 N2) in Hf as (rs & H2 & ->).
      exists (r :: rs). split; [by constructor|]. cbn. by rewrite Hset, <-app_assoc.
    + intros (rs & H2 & ->). inversion H2 as [|? r ? rs' Hr H2']; subst. cbn in Hr |- *. apply bind_Ok.
      exists (dict_set role (resolved_artifact v r) out0). split; [by rewrite Hr|]. destruct (Hnext r) as [N1 N2].
      apply (IH _ _ N1 N2). exists rs'.
      split; [done|]. by rewrite Hset, <-app_assoc.
Qed.

End outputs.

(** ** Witnesses *)

Definition example_datatypes : dict string :=
  [("features", "feature_set"); ("pairs", "pair_set"); ("matches", "match_graph"); ("reconstruction", "sparse_model");
   ("projection", "image_set")].

Definition example_io : dict FormatSpec :=
  (λ kv, (kv.1, mkFormatSpec kv.1 (default "" (dict_get (namespace (remove_prefix "sfmapi." kv.1)) example_datatypes)) "")) <$>
    _CORE_FORMAT_WIRE_DETAILS.

Definition example_vocabulary : Vocabulary :=
  match build_vocabulary example_io with Ok v => v | Err _ => mkVocabulary [] [] [] end.

Example example_import : build_vocabulary example_io = Ok example_vocabulary.
Proof. by vm_compute. Qed.

Definition example_outputs : value :=
  let item := VDict [("kind", VStr "features.local.v1"); ("name", VStr "/tmp/run/f.h5"); ("uri", VStr "s3://bucket/f")] in
  VDict [("count", VInt 2); ("artifacts", VList [item; item])].

Definition normalize_example : res api_error (dict value) :=
  normalize_task_outputs example_vocabulary [] [] id id "extract_features" example_outputs.


Definition example_row : ArtifactRow :=
  mkRow "a1" "t" "j" "k" None (Some "d") "matches.indexed.v1" None None None None None.

Definition example_reference : value := VDict [("artifact_id", VStr "a1"); ("kind", VNone)].

