(* ===== verification/PathSafety.v ===== *)
(** [sceneapi/server/core/path_safety.py]: the relative paths users may supply, and
    why an accepted one stays under its root. *)
From S2P Require Import Prelude PyValue Errors.
From stdpp Require Import options.
Import Errors.

#[local] Arguments String.append !_ _ / : simpl nomatch.

Module PathSafety.

Definition slash : ascii := "/".
Definition backslash : ascii := "\".
Definition nul : ascii := ascii_of_nat 0.

(** [value.replace("\\", "/")] *)
Fixpoint normalized (s : string) : string :=
  match s with
  | EmptyString => ""
  | String a s => String (if decide (a = backslash) then slash else a) (normalized s)
  end.

(** [PurePosixPath(value).is_absolute()] *)
Definition posix_absolute (s : string) : bool := match s with String a _ => bool_decide (a = slash) | _ => false end.

(** Whether [PureWindowsPath(value)] has a drive or a root: [ntpath.splitroot] finds
    one when the text starts with a separator (a root, or a UNC drive), or when its
    second character is a colon. An absolute Windows path has both. *)
Definition windows_anchored (s : string) : bool :=
  match s with
  | String a s =>
      bool_decide (a = slash) || bool_decide (a = backslash) ||
      match s with String b _ => bool_decide (b = ":"%char) | _ => false end
  | _ => false
  end.

(** Neither [""] nor ["."]: a component that names something. *)
Definition names (part : string) : Prop := part ≠ "" ∧ part ≠ ".".

#[export] Instance names_dec part : Decision (names part).
Proof. unfold names. apply _. Defined.

Definition parts (s : string) : list string := filter names (split_on slash (normalized s)).

Definition rejected (field detail : string) : api_error := api_error_init ValidationError (field +:+ detail) [].

Definition validate_safe_relative_path (field value : string) : res api_error string :=
  raise_if (bool_decide (value = "")) (rejected field " must be a non-empty relative path") ≫= λ _,
  raise_if (str_mem nul value) (rejected field " must not contain NUL bytes") ≫= λ _,
  raise_if (posix_absolute value || windows_anchored value) (rejected field " must be a relative path") ≫= λ _,
  raise_if (bool_decide (parts value = []) || bool_decide (".." ∈ parts value))
    (rejected field " must stay under the configured root") ≫= λ _,
  Ok value.

(** ** Resolution

    A [Path] is the list of its components. The file system is a parameter: the
    resolved root ([None] on an [OSError]), which paths are files, and the real
    path links lead to. *)

Section resolve.
Variable resolve_root : string → option (list string).
Variable is_file : list string → bool.
Variable resolve : list string → list string.

(** [root_path / rel_path] on POSIX *)
Definition joinpath (root : list string) (rel : string) : list string :=
  (if posix_absolute rel then [] else root) ++ filter names (split_on slash rel).

Definition resolve_under_root (root rel_path field : string) (require_file : bool) : res api_error (list string) :=
  validate_safe_relative_path field rel_path ≫= λ rel_path,
  match resolve_root root with
  | None => Err (rejected field " root does not exist")
  | Some root_path =>
      let target := joinpath root_path rel_path in
      if require_file && negb (is_file target) then Err (rejected field " does not reference an existing file")
      else if decide (root_path `prefix_of` resolve target) then Ok (resolve target)
      else Err (rejected field " must stay under the configured root")
  end.
End resolve.

(** ** Walking a path without links *)

Definition step (dir : list string) (part : string) : list string :=
  if decide (names part) then if decide (part = "..") then take (pred (length dir)) dir else dir ++ [part] else dir.

Definition walk (root : list string) (l : list string) : list string := foldl step root l.

(** The components a POSIX system and a Windows system see. *)
Definition posix_parts (s : string) : list string := split_on slash s.
Definition windows_parts (s : string) : list string := split_on slash (normalized s).

End PathSafety.
Import PathSafety.

(** ** Lemmas *)

Lemma split_on_cons c s : ∃ w ws, split_on c s = w :: ws.
Proof.
  destruct s as [|a s]; cbn; [by exists "", []|]. case_decide; [by eexists _, _|].
  destruct (split_on c s); by eexists _, _.
Qed.

(** Splitting after normalisation refines each component. *)
Lemma windows_refines s : windows_parts s = posix_parts s ≫= windows_parts.
Proof.
  unfold windows_parts, posix_parts. induction s as [|a s IH]; [done|]. cbn.
  destruct (split_on_cons slash s) as (w & ws & Hs). destruct (split_on_cons slash (normalized w)) as (v & vs & Hv).
  rewrite Hs in IH |- *. cbn in IH. rewrite Hv in IH. cbn in IH.
  destruct (decide (a = backslash)) as [->|Hb].
  - rewrite (decide_True (P := slash = slash)) by done. rewrite decide_False by done. cbn.
    rewrite decide_True by done. cbn. by rewrite Hv, IH.
  - destruct (decide (a = slash)) as [->|Ha]; cbn; [by rewrite Hv, IH|].
    rewrite !(decide_False (P := a = backslash)), !(decide_False (P := a = slash)) by done. by rewrite Hv, IH.
Qed.

Lemma windows_of_posix s p : p ∈ posix_parts s → windows_parts p ⊆ windows_parts s.
Proof.
  intros Hp q Hq. rewrite (windows_refines s). apply list_elem_of_bind. by exists p.
Qed.

Lemma in_parts s p : p ∈ parts s ↔ names p ∧ p ∈ windows_parts s.
Proof. apply list_elem_of_filter. Qed.

Lemma dotdot_posix s : ".." ∈ posix_parts s → ".." ∈ parts s.
Proof.
  intros Hp. apply in_parts. split; [done|]. apply (windows_of_posix s ".." Hp). by left.
Qed.

Lemma names_posix s p : p ∈ parts s → ∃ q, q ∈ posix_parts s ∧ names q.
Proof.
  intros [Hn Hp]%in_parts. rewrite windows_refines in Hp. apply list_elem_of_bind in Hp as (q & Hp & Hq).
  exists q. split; [done|]. split; intros ->; cbn in Hp; apply list_elem_of_singleton in Hp; by destruct Hn.
Qed.

Lemma walk_below root l :
  ".." ∉ l → root `prefix_of` walk root l ∧ ((∃ p, p ∈ l ∧ names p) → root ≠ walk root l).
Proof.
  intros Hl. enough (∃ k, walk root l = root ++ k ∧ ((∃ p, p ∈ l ∧ names p) → k ≠ [])) as (k & -> & Hk).
  { split; [by apply prefix_app_r|]. intros Hp Heq. apply (Hk Hp). apply (app_inv_head root). by rewrite app_nil_r. }
  induction l as [|p l IH] using rev_ind.
  - exists []. cbn. rewrite app_nil_r. split; [done|]. by intros (p & ?%elem_of_nil & _).
  - rewrite elem_of_app, list_elem_of_singleton in Hl. destruct IH as (k & Hw & Hk); [tauto|].
    unfold walk in *. rewrite foldl_app. cbn. rewrite Hw. unfold step. destruct (decide (names p)) as [Hn|Hn].
    + rewrite decide_False by (intros ->; tauto). exists (k ++ [p]). rewrite app_assoc. split; [done|]. by destruct k.
    + exists k. split; [done|]. intros (q & [Hq| ->%list_elem_of_singleton]%elem_of_app & Hnq); [|done]. apply Hk. by exists q.
Qed.

Lemma validate_Ok field value v :
  validate_safe_relative_path field value = Ok v ↔
  v = value ∧ value ≠ "" ∧ str_mem nul value = false ∧ windows_anchored value = false ∧
  (∃ p, p ∈ parts value) ∧ ".." ∉ parts value.
Proof.
  unfold validate_safe_relative_path. rewrite bind_Ok.
  assert (posix_absolute value || windows_anchored value = windows_anchored value) as ->.
  { destruct value as [|a value]; [done|]. cbn. by destruct (bool_decide (a = slash)). }
  setoid_rewrite bind_Ok. setoid_rewrite bind_Ok. setoid_rewrite bind_Ok. split.
  - intros ([] & H1 & [] & H2 & [] & H3 & [] & H4 & [= <-]).
    apply raise_if_Ok in H1, H2, H3, H4. apply bool_decide_eq_false in H1.
    apply orb_false_iff in H4 as [H4 H5]. apply bool_decide_eq_false in H4, H5. split_and!; try done.
    destruct (parts value) as [|p l]; [done|]. exists p. by left.
  - intros (-> & H1 & H2 & H3 & [p Hp] & H5). exists tt. split; [by apply raise_if_Ok, bool_decide_eq_false|].
    exists tt. split; [by apply raise_if_Ok|]. exists tt. split; [by apply raise_if_Ok|]. exists tt. split; [|done].
    apply raise_if_Ok, orb_false_iff. split; apply bool_decide_eq_false; [|done]. intros Hn. rewrite Hn in Hp.
    by apply elem_of_nil in Hp.
Qed.

(** C40: Accepted relative paths stay under their root. A path that validation
    accepts comes back unchanged, has no NUL byte, drive or root, and followed from
    any directory, component by component as a POSIX or as a Windows system splits
    it, never leaves that directory at any point and ends strictly below it.
    Validation rejects nothing else than an empty text, a NUL byte, an anchored
    path, a path that names nothing and one with a parent component. When a root is
    involved the resolved path is below the resolved root whatever links the file
    system has. *)
Theorem accepted_paths_confined field value :
  (∀ v, validate_safe_relative_path field value = Ok v →
    v = value ∧ str_mem nul value = false ∧ windows_anchored value = false ∧
    ∀ l root, l = posix_parts value ∨ l = windows_parts value →
      (∀ n, root `prefix_of` walk root (take n l)) ∧ walk root l ≠ root) ∧
  (∀ e, validate_safe_relative_path field value = Err e →
    value = "" ∨ str_mem nul value = true ∨ windows_anchored value = true ∨
    (∀ p, p ∈ windows_parts value → ¬ (names p)) ∨ ".." ∈ windows_parts value) ∧
  (∀ resolve_root is_file resolve root require_file target,
    resolve_under_root resolve_root is_file resolve root value field require_file = Ok target →
    ∃ root_path, resolve_root root = Some root_path ∧ root_path `prefix_of` target).
Proof.
  split_and!.
  - intros v (-> & _ & Hnul & Hanch & [p Hp] & Hdd)%validate_Ok. split_and!; [done..|].
    intros l root Hl.
    assert ((".." ∉ l) ∧ ∃ q, q ∈ l ∧ names q) as [Hd Hn].
    { destruct Hl as [->| ->].
      - split; [by intros ?%dotdot_posix|by apply (names_posix _ p)].
      - split; [intros Hin; by apply Hdd, in_parts|]. exists p. apply in_parts in Hp as [? ?]. done. }
    split; [|intros Heq; by apply (proj2 (walk_below root l Hd) Hn)].
    intros n. apply walk_below. intros Hin. apply Hd. by apply (subseteq_take n).
  - intros e He. destruct (decide (value = "")) as [|Hne]; [by left|right].
    destruct (str_mem nul value) eqn:Hn; [by left|right]. destruct (windows_anchored value) eqn:Ha; [by left|right].
    destruct (decide (".." ∈ windows_parts value)) as [|Hd]; [by right|left]. intros p Hp Hnp.
    assert (validate_safe_relative_path field value = Ok value) as Hok; [|congruence].
    apply validate_Ok. split_and!; try done; [exists p; by apply in_parts|]. by intros [_ ?]%in_parts.
  - intros resolve_root is_file resolve root require_file target. unfold resolve_under_root.
    rewrite bind_Ok. intros (rel & _ & Ht). destruct (resolve_root root) as [root_path|]; [|done]. exists root_path.
    split; [done|]. destruct (require_file && _); [done|]. case_decide; [|done]. by injection Ht as <-.
Qed.

Lemma accepted_paths_confined_witness :
  validate_safe_relative_path "name" "a/./b\c.jpg" = Ok "a/./b\c.jpg" ∧
  validate_safe_relative_path "name" "a\..\b" = Err (rejected "name" " must stay under the configured root") ∧
  walk ["srv"; "images"] (windows_parts "a/./b\c.jpg") ≠ ["srv"; "images"].
Proof.
  split; [by vm_compute|]. split; [by vm_compute|].
  destruct (accepted_paths_confined "name" "a/./b\c.jpg") as (Hok & _ & _).
  destruct (Hok "a/./b\c.jpg") as (_ & _ & _ & Hw); [by vm_compute|].
  destruct (Hw (windows_parts "a/./b\c.jpg") ["srv"; "images"]) as [_ Hne]; [by right|exact Hne].
Defined.
