(* ===== verification/ImageMetadata.v ===== *)
(** [sceneapi/server/core/image_metadata.py]: the format and the dimensions of an
    image, from the bytes of its header. *)
From S2P Require Import Prelude PyValue.
From stdpp Require Import options.

#[local] Open Scope Z_scope.

Module ImageMetadata.

(** ** Bytes: a list of integers in [0, 256) *)

Abbreviation bytes := (list Z).

(** [data[i:j]] for [0 <= i] *)
Definition slice (i j : nat) (data : bytes) : bytes := take (j - i) (drop i data).

Definition from_big (bs : bytes) : Z := foldl (λ acc b, acc * 256 + b) 0 bs.
Definition from_little (bs : bytes) : Z := foldr (λ b acc, b + 256 * acc) 0 bs.
(** [int.from_bytes(bs, "little", signed=True)] of [n] bytes. *)
Definition from_little_signed (n : Z) (bs : bytes) : Z :=
  let v := from_little bs in if v <? 2 ^ (8 * n - 1) then v else v - 2 ^ (8 * n).

Inductive byteorder : Type := Little | Big.
Definition from_bytes (o : byteorder) (bs : bytes) : Z := match o with Little => from_little bs | Big => from_big bs end.

(** What a scan can fail with: reading past the end raises, and a loop that is given
    too few rounds is cut. *)
Inductive scan_error : Type := IndexError | OutOfRounds.

(** [data[i]] *)
Definition byte_at (data : bytes) (i : nat) : res scan_error Z :=
  match data !! i with Some b => Ok b | None => Err IndexError end.

Abbreviation size := (option (Z * Z)).

(** A loop: [body] goes on from another position or leaves with a size. *)
Inductive move : Type := Next (i : nat) | Done (s : size).

Fixpoint scan (body : nat → res scan_error move) (rounds i : nat) : res scan_error size :=
  match rounds with
  | O => Err OutOfRounds
  | S rounds => m ← body i; match m with Next i => scan body rounds i | Done s => Ok s end
  end.

(** ** Formats *)

Definition MAX_HEADER_SCAN_BYTES : Z := 2 * 1024 * 1024.

Definition _JPEG_SOF_MARKERS : list Z := [192; 193; 194; 195; 197; 198; 199; 201; 202; 203; 205; 206; 207].

Definition _MEDIA_TYPE_BY_FORMAT : dict string := [
  ("jpeg", "image/jpeg"); ("png", "image/png"); ("tiff", "image/tiff"); ("bmp", "image/bmp"); ("webp", "image/webp")
].

Definition _EXTENSION_BY_FORMAT : dict string := [
  ("jpeg", ".jpg"); ("png", ".png"); ("tiff", ".tif"); ("bmp", ".bmp"); ("webp", ".webp")
].

Definition png_signature : bytes := [137; 80; 78; 71; 13; 10; 26; 10].
Definition ihdr : bytes := [73; 72; 68; 82].
Definition tiff_little : bytes := [73; 73; 42; 0].
Definition tiff_big : bytes := [77; 77; 0; 42].
Definition bm : bytes := [66; 77].
Definition riff : bytes := [82; 73; 70; 70].
Definition webp : bytes := [87; 69; 66; 80].

Definition sniff_image_format (data : bytes) : option string :=
  let b := slice 0 16 data in
  if decide (length b < 2)%nat then None
  else if decide (slice 0 3 b = [255; 216; 255]) then Some "jpeg"
  else if decide (slice 0 8 b = png_signature) then Some "png"
  else if decide (slice 0 4 b ∈ [tiff_little; tiff_big]) then Some "tiff"
  else if decide (slice 0 2 b = bm) then Some "bmp"
  else if decide (12 ≤ length b ∧ slice 0 4 b = riff ∧ slice 8 12 b = webp)%nat then Some "webp"
  else None.

(** The detected formats are keys of the table. *)
Definition sniff_image_extension (data : bytes) : option string :=
  f ← sniff_image_format data; dict_get f _EXTENSION_BY_FORMAT.

Definition _known_media_type (content_type : option string) : option string :=
  c ← content_type; if decide (c ∈ _MEDIA_TYPE_BY_FORMAT.*2) then Some c else None.

Definition _valid_size (width height : Z) : size := if (width <=? 0) || (height <=? 0) then None else Some (width, height).

Definition _png_size (data : bytes) : size :=
  if decide (length data < 24 ∨ slice 0 8 data ≠ png_signature ∨ slice 12 16 data ≠ ihdr)%nat then None
  else _valid_size (from_big (slice 16 20 data)) (from_big (slice 20 24 data)).

(** *** JPEG *)

(** [while i < limit and data[i] == 0xFF: i += 1], on the bytes from [i] on. *)
Fixpoint skip_fill (rest : bytes) (i : nat) : nat :=
  match rest with b :: rest => if b =? 255 then skip_fill rest (S i) else i | [] => i end.

(** The part of a round after the marker byte; [i] is the position behind it. *)
Definition jpeg_marker (data : bytes) (marker : Z) (i : nat) : move :=
  let limit := length data in
  if (marker =? 0) || (marker =? 1) || ((208 <=? marker) && (marker <=? 217)) then Next i
  else if marker =? 218 then Done None
  else if (limit <? i + 2)%nat then Done None
  else
    let segment_len := from_big (slice i (i + 2) data) in
    if (segment_len <? 2) || (Z.of_nat limit <? Z.of_nat i + segment_len) then Done None
    else if decide (marker ∈ _JPEG_SOF_MARKERS) then
      if segment_len <? 7 then Done None
      else
        let height := from_big (slice (i + 3) (i + 5) data) in
        let width := from_big (slice (i + 5) (i + 7) data) in
        Done (_valid_size width height)
    else Next (i + Z.to_nat segment_len)%nat.

(** One round of the marker loop. *)
Definition jpeg_step (data : bytes) (i : nat) : res scan_error move :=
  let limit := length data in
  if negb (i + 1 <? limit)%nat then Ok (Done None)
  else
    b ← byte_at data i;
    if negb (b =? 255) then Ok (Next (i + 1)%nat)
    else
      let i := skip_fill (drop i data) i in
      if (limit <=? i)%nat then Ok (Done None)
      else
        marker ← byte_at data i;
        Ok (jpeg_marker data marker (i + 1)).

Definition _jpeg_size (data : bytes) : res scan_error size :=
  if decide ((length data < 4)%nat ∨ slice 0 2 data ≠ [255; 216]) then Ok None
  else scan (jpeg_step data) (S (length data)) 2.

(** *** TIFF *)

Definition _tiff_value (data : bytes) (value_pos : nat) (field_type count : Z) (o : byteorder) : option Z :=
  if negb (count =? 1) || (length data <? value_pos + 4)%nat then None
  else if field_type =? 3 then Some (from_bytes o (slice value_pos (value_pos + 2) data))
  else if field_type =? 4 then Some (from_bytes o (slice value_pos (value_pos + 4) data))
  else None.

(** [for _ in range(tag_count)] over the entries of a directory. *)
Fixpoint tiff_tags (data : bytes) (o : byteorder) (tag_count pos : nat) (width height : option Z) : size :=
  match tag_count with
  | O => None
  | S n =>
      if (length data <? pos + 12)%nat then None
      else
        let tag := from_bytes o (slice pos (pos + 2) data) in
        let field_type := from_bytes o (slice (pos + 2) (pos + 4) data) in
        let count := from_bytes o (slice (pos + 4) (pos + 8) data) in
        let value := _tiff_value data (pos + 8) field_type count o in
        let width := if tag =? 256 then value else width in
        let height := if negb (tag =? 256) && (tag =? 257) then value else height in
        match width, height with
        | Some w, Some h => _valid_size w h
        | _, _ => tiff_tags data o n (pos + 12) width height
        end
  end.

Definition tiff_order (data : bytes) : option byteorder :=
  if decide (slice 0 4 data = tiff_little) then Some Little
  else if decide (slice 0 4 data = tiff_big) then Some Big
  else None.

Definition _tiff_size (data : bytes) : size :=
  if (length data <? 8)%nat then None
  else
    match tiff_order data with
    | None => None
    | Some o =>
        let ifd_offset := from_bytes o (slice 4 8 data) in
        if (ifd_offset <? 8) || (Z.of_nat (length data) <? ifd_offset + 2) then None
        else
          let ifd := Z.to_nat ifd_offset in
          let tag_count := Z.min (from_bytes o (slice ifd (ifd + 2) data)) 256 in
          tiff_tags data o (Z.to_nat tag_count) (ifd + 2) None None
    end.

(** *** BMP *)

Definition _bmp_size (data : bytes) : size :=
  if decide (length data < 26 ∨ slice 0 2 data ≠ bm)%nat then None
  else _valid_size (Z.abs (from_little_signed 4 (slice 18 22 data))) (Z.abs (from_little_signed 4 (slice 22 26 data))).

(** *** WebP *)

Definition vp8x : bytes := [86; 80; 56; 88].
Definition vp8l : bytes := [86; 80; 56; 76].
Definition vp8 : bytes := [86; 80; 56; 32].

Definition _webp_vp8x_size (data : bytes) (pos : nat) : size :=
  if (length data <? pos + 10)%nat then None
  else _valid_size (from_little (slice (pos + 4) (pos + 7) data) + 1) (from_little (slice (pos + 7) (pos + 10) data) + 1).

(** [pos + 5 > len(data) or data[pos] != 0x2F]: the right side is read only when in range. *)
Definition _webp_vp8l_size (data : bytes) (pos : nat) : res scan_error size :=
  if (length data <? pos + 5)%nat then Ok None
  else
    b ← byte_at data pos;
    if negb (b =? 47) then Ok None
    else
      let bits := from_little (slice (pos + 1) (pos + 5) data) in
      Ok (_valid_size (Z.land bits 16383 + 1) (Z.land (Z.shiftr bits 14) 16383 + 1)).

Definition _webp_vp8_size (data : bytes) (pos : nat) : size :=
  if decide ((length data < pos + 10)%nat ∨ slice (pos + 3) (pos + 6) data ≠ [157; 1; 42]) then None
  else
    _valid_size (Z.land (from_little (slice (pos + 6) (pos + 8) data)) 16383)
      (Z.land (from_little (slice (pos + 8) (pos + 10) data)) 16383).

(** One round of the chunk loop. *)
Definition webp_step (data : bytes) (pos : nat) : res scan_error move :=
  let limit := length data in
  if negb (pos + 8 <=? limit)%nat then Ok (Done None)
  else
    let chunk_type := slice pos (pos + 4) data in
    let chunk_size := from_little (slice (pos + 4) (pos + 8) data) in
    let chunk_start := (pos + 8)%nat in
    if Z.of_nat limit <? Z.of_nat chunk_start + chunk_size then Ok (Done None)
    else if decide (chunk_type = vp8x) then Ok (Done (_webp_vp8x_size data chunk_start))
    else if decide (chunk_type = vp8l) then s ← _webp_vp8l_size data chunk_start; Ok (Done s)
    else if decide (chunk_type = vp8) then Ok (Done (_webp_vp8_size data chunk_start))
    else Ok (Next (chunk_start + Z.to_nat (chunk_size + chunk_size mod 2))%nat).

Definition _webp_size (data : bytes) : res scan_error size :=
  if decide (length data < 20 ∨ slice 0 4 data ≠ riff ∨ slice 8 12 data ≠ webp)%nat then Ok None
  else scan (webp_step data) (S (length data)) 12.

(** ** The entry point *)

Record ImageMetadata : Type := mkMetadata {
  width : option Z;
  height : option Z;
  format : option string;
  media_type : option string
}.

Definition read_image_metadata (data : bytes) (content_type : option string) : res scan_error ImageMetadata :=
  let payload := slice 0 (Z.to_nat MAX_HEADER_SCAN_BYTES) data in
  let detected := sniff_image_format payload in
  s ← match detected with
      | Some "jpeg" => _jpeg_size payload
      | Some "png" => Ok (_png_size payload)
      | Some "tiff" => Ok (_tiff_size payload)
      | Some "bmp" => Ok (_bmp_size payload)
      | Some "webp" => _webp_size payload
      | _ => Ok None
      end;
  Ok (mkMetadata (fst <$> s) (snd <$> s) detected
        (match detected with
         | Some f => dict_get f _MEDIA_TYPE_BY_FORMAT
         | None => _known_media_type content_type
         end)).

End ImageMetadata.
