(* ===== verification/ImageGuarantees.v ===== *)
(** What header parsing promises: it answers on any bytes, with sane sizes only, and
    reads the dimensions back from images laid out as their formats prescribe. *)
From S2P Require Import Prelude PyValue ImageMetadata.
From stdpp Require Import options.
Import ImageMetadata.

#[local] Open Scope Z_scope.

(** ** Byte strings *)

Definition byte (b : Z) : Prop := 0 ≤ b < 256.

Fixpoint to_little (n : nat) (z : Z) : bytes := match n with O => [] | S n => z mod 256 :: to_little n (z / 256) end.
Definition to_big (n : nat) (z : Z) : bytes := rev (to_little n z).
Definition to_bytes (o : byteorder) (n : nat) (z : Z) : bytes := match o with Little => to_little n z | Big => to_big n z end.

Lemma from_big_rev bs : from_big bs = from_little (rev bs).
Proof.
  induction bs as [|b bs IH] using rev_ind; [done|]. rewrite rev_app_distr. cbn. fold (from_little (rev bs)).
  rewrite <-IH. unfold from_big. rewrite foldl_app. cbn. lia.
Qed.

Lemma to_little_length n z : length (to_little n z) = n.
Proof. revert z. induction n as [|n IH]; intros z; cbn; [done|]. by rewrite IH. Qed.

Lemma to_bytes_length o n z : length (to_bytes o n z) = n.
Proof. destruct o; cbn; [|unfold to_big; rewrite length_rev]; apply to_little_length. Qed.

Lemma from_to_little n z : 0 ≤ z < 256 ^ Z.of_nat n → from_little (to_little n z) = z.
Proof.
  revert z. induction n as [|n IH]; intros z Hz; [cbn in *; lia|].
  cbn. fold (from_little (to_little n (z / 256))). rewrite Nat2Z.inj_succ, Z.pow_succ_r in Hz by lia.
  rewrite IH; [pose proof (Z.div_mod z 256); lia|]. split; [apply Z.div_pos; lia|apply Z.div_lt_upper_bound; lia].
Qed.

Lemma from_to_bytes o n z : 0 ≤ z < 256 ^ Z.of_nat n → from_bytes o (to_bytes o n z) = z.
Proof.
  intros Hz. destruct o; cbn; [by apply from_to_little|].
  unfold to_big. rewrite from_big_rev, rev_involutive. by apply from_to_little.
Qed.

Lemma from_little_bound bs : Forall byte bs → 0 ≤ from_little bs < 256 ^ Z.of_nat (length bs).
Proof.
  induction 1 as [|b bs Hb _ IH]; [cbn; lia|]. cbn [length]. rewrite Nat2Z.inj_succ, Z.pow_succ_r by lia.
  cbn. fold (from_little bs). unfold byte in Hb. lia.
Qed.

Lemma from_big_bound bs : Forall byte bs → 0 ≤ from_big bs < 256 ^ Z.of_nat (length bs).
Proof.
  intros H. rewrite from_big_rev, <-(length_rev bs). apply from_little_bound.
  rewrite Forall_forall in *. intros x Hx. apply H. by rewrite list_elem_of_In, in_rev, <-list_elem_of_In.
Qed.

Lemma slice_byte i j data : Forall byte data → Forall byte (slice i j data).
Proof. intros H. unfold slice. by apply Forall_take, Forall_drop. Qed.

Lemma slice_length i j data : (length (slice i j data) ≤ j - i)%nat.
Proof. unfold slice. rewrite length_take. lia. Qed.

Lemma pow_256_mono (a b : nat) : (a ≤ b)%nat → 256 ^ Z.of_nat a ≤ 256 ^ Z.of_nat b.
Proof. intros. apply Z.pow_le_mono_r; lia. Qed.

Lemma field_bound o i j n data :
  Forall byte data → (j - i ≤ n)%nat → 0 ≤ from_bytes o (slice i j data) < 256 ^ Z.of_nat n.
Proof.
  intros Hd Hn. pose proof (slice_length i j data) as Hl. pose proof (slice_byte i j data Hd) as Hb.
  pose proof (pow_256_mono (length (slice i j data)) n ltac:(lia)).
  destruct o; cbn; [pose proof (from_little_bound _ Hb)|pose proof (from_big_bound _ Hb)]; lia.
Qed.

(** Fields behind a prefix are those of what follows it. *)
Lemma slice_app pre post i j : slice (length pre + i) (length pre + j) (pre ++ post) = slice i j post.
Proof.
  unfold slice. rewrite drop_app_add' by done. f_equal. lia.
Qed.

Lemma lookup_app_at (pre post : bytes) i : (pre ++ post) !! (length pre + i)%nat = post !! i.
Proof. by rewrite lookup_app_r, Nat.add_comm, Nat.add_sub by lia. Qed.

(** ** Loops *)

(** The body goes forward, only from inside the data, and never raises. *)
Definition advances (limit : nat) (body : nat → res scan_error move) : Prop :=
  ∀ i, (∃ s, body i = Ok (Done s)) ∨ (∃ j, body i = Ok (Next j) ∧ (i < j)%nat ∧ (i < limit)%nat).

Lemma scan_total limit body rounds i :
  advances limit body → (limit < rounds + i)%nat → (0 < rounds)%nat → ∃ s, scan body rounds i = Ok s.
Proof.
  intros Hb. revert i. induction rounds as [|n IH]; intros i Hi Hpos; [lia|]. cbn.
  destruct (Hb i) as [[s ->]|(j & -> & Hj & Hl)]; cbn; [by exists s|]. apply IH; lia.
Qed.

Lemma scan_result (P : size → Prop) body rounds i s :
  (∀ i s, body i = Ok (Done s) → P s) → scan body rounds i = Ok s → P s.
Proof.
  intros Hb. revert i. induction rounds as [|n IH]; intros i; cbn; [done|].
  intros (m & Hm & Hs)%bind_Ok. destruct m as [j|s']; [by apply IH in Hs|]. injection Hs as <-. by eapply Hb.
Qed.

(** More rounds change nothing. *)
Lemma scan_step body rounds i j s : body i = Ok (Next j) → scan body rounds j = Ok s → scan body (S rounds) i = Ok s.
Proof. intros Hb Hs. cbn. by rewrite Hb. Qed.

Lemma scan_more body rounds rounds' i s : scan body rounds i = Ok s → (rounds ≤ rounds')%nat → scan body rounds' i = Ok s.
Proof.
  revert rounds' i. induction rounds as [|n IH]; intros rounds' i Hs Hr; [done|].
  destruct rounds' as [|n']; [lia|]. cbn in *. apply bind_Ok in Hs as (m & -> & Hs). cbn.
  destruct m as [j|s']; [|done]. apply IH; [done|lia].
Qed.

Lemma skip_fill_ge rest i : (i ≤ skip_fill rest i)%nat.
Proof. revert i. induction rest as [|b rest IH]; intros i; cbn; [done|]. case_match; [|done]. specialize (IH (S i)). lia. Qed.

Lemma byte_at_in data i : (i < length data)%nat → ∃ b, byte_at data i = Ok b ∧ data !! i = Some b.
Proof. intros H. unfold byte_at. destruct (data !! i) eqn:E; [by eexists|]. apply lookup_ge_None in E. lia. Qed.

Lemma jpeg_step_advances data : advances (length data) (jpeg_step data).
Proof.
  intros i. unfold jpeg_step. cbn zeta. destruct (i + 1 <? length data)%nat eqn:Hi; cbn [negb]; [|by left; eexists].
  apply Nat.ltb_lt in Hi. destruct (byte_at_in data i) as (b & -> & Hb); [lia|]. cbn.
  destruct (b =? 255); cbn; [|right; eexists; split_and!; [done|lia..]].
  pose proof (skip_fill_ge (drop i data) i) as Hge. set (k := skip_fill _ _) in *. clearbody k.
  destruct (length data <=? k)%nat eqn:Hk; [by left; eexists|]. apply Nat.leb_gt in Hk.
  destruct (byte_at_in data k) as (m & -> & _); [lia|]. cbn [mbind res_bind]. unfold jpeg_marker. cbn zeta.
  repeat (case_match; try (by left; eexists)); right; eexists; (split_and!; [done|lia..]).
Qed.

Lemma webp_vp8l_total data pos : ∃ s, _webp_vp8l_size data pos = Ok s.
Proof.
  unfold _webp_vp8l_size. destruct (length data <? pos + 5)%nat eqn:Hl; [by eexists|]. apply Nat.ltb_ge in Hl.
  destruct (byte_at_in data pos) as (b & -> & _); [lia|]. cbn. case_match; by eexists.
Qed.

Lemma webp_step_advances data : advances (length data) (webp_step data).
Proof.
  intros i. unfold webp_step. cbn zeta. destruct (i + 8 <=? length data)%nat eqn:Hi; cbn [negb]; [|by left; eexists].
  apply Nat.leb_le in Hi. destruct (webp_vp8l_total data (i + 8)) as [s Hs].
  repeat (case_match; try (by left; eexists)).
  - left. exists s. by rewrite Hs.
  - right. eexists. split_and!; [done|lia..].
Qed.

Lemma jpeg_size_total data : ∃ s, _jpeg_size data = Ok s.
Proof. unfold _jpeg_size. case_decide; [by eexists|]. apply (scan_total (length data)); [apply jpeg_step_advances|lia..]. Qed.

Lemma webp_size_total data : ∃ s, _webp_size data = Ok s.
Proof. unfold _webp_size. case_decide; [by eexists|]. apply (scan_total (length data)); [apply webp_step_advances|lia..]. Qed.

(** ** Bounds *)

(** A size found is positive and fits 32 bits. *)
Definition fits (s : size) : Prop := match s with None => True | Some (w, h) => 1 ≤ w < 2 ^ 32 ∧ 1 ≤ h < 2 ^ 32 end.

Lemma valid_size_fits w h : w < 2 ^ 32 → h < 2 ^ 32 → fits (_valid_size w h).
Proof.
  intros Hw Hh. unfold _valid_size. destruct (w <=? 0) eqn:Ew; [done|]. destruct (h <=? 0) eqn:Eh; [done|]. cbn. lia.
Qed.

Section bounds.
Context (data : bytes) (Hd : Forall byte data).

Lemma field4_fits o i j : (j - i ≤ 4)%nat → 0 ≤ from_bytes o (slice i j data) < 2 ^ 32.
Proof using Hd. intros. pose proof (field_bound o i j 4 data Hd ltac:(done)) as Hb. cbn [Z.of_nat] in Hb. lia. Qed.

Lemma png_fits : fits (_png_size data).
Proof using Hd.
  unfold _png_size. case_decide; [done|].
  pose proof (field4_fits Big 16 20 ltac:(lia)). pose proof (field4_fits Big 20 24 ltac:(lia)). cbn [from_bytes] in *.
  apply valid_size_fits; lia.
Qed.

Lemma signed_fits i j : (j - i ≤ 4)%nat → Z.abs (from_little_signed 4 (slice i j data)) < 2 ^ 32.
Proof using Hd.
  intros H. pose proof (field4_fits Little i j H) as Hb. cbn [from_bytes] in Hb.
  unfold from_little_signed. cbn zeta. case_match; lia.
Qed.

Lemma bmp_fits : fits (_bmp_size data).
Proof using Hd. unfold _bmp_size. case_decide; [done|]. apply valid_size_fits; apply signed_fits; lia. Qed.

Lemma tiff_value_fits pos t c o v : _tiff_value data pos t c o = Some v → v < 2 ^ 32.
Proof using Hd.
  unfold _tiff_value. repeat case_match; intros [= <-].
  - pose proof (field4_fits o pos (pos + 2) ltac:(lia)). lia.
  - pose proof (field4_fits o pos (pos + 4) ltac:(lia)). lia.
Qed.

Lemma tiff_tags_fits o n pos w h :
  (∀ x, w = Some x → x < 2 ^ 32) → (∀ x, h = Some x → x < 2 ^ 32) → fits (tiff_tags data o n pos w h).
Proof using Hd.
  revert pos w h. induction n as [|n IH]; intros pos w h Hw Hh; cbn [tiff_tags]; [done|]. case_match; [done|].
  pose proof (tiff_value_fits (pos + 8) (from_bytes o (slice (pos + 2) (pos + 4) data))
    (from_bytes o (slice (pos + 4) (pos + 8) data)) o) as Hv. cbn zeta. revert Hv.
  generalize (_tiff_value data (pos + 8) (from_bytes o (slice (pos + 2) (pos + 4) data))
    (from_bytes o (slice (pos + 4) (pos + 8) data)) o) as v.
  generalize (from_bytes o (slice pos (pos + 2) data)) as tag. intros tag v Hv.
  assert (∀ x, (if tag =? 256 then v else w) = Some x → x < 2 ^ 32) as Hw' by (case_match; auto).
  assert (∀ x, (if negb (tag =? 256) && (tag =? 257) then v else h) = Some x → x < 2 ^ 32) as Hh' by (destruct (negb (tag =? 256) && (tag =? 257)); auto).
  revert Hw' Hh'. generalize (if tag =? 256 then v else w) as w'.
  generalize (if negb (tag =? 256) && (tag =? 257) then v else h) as h'. intros h' w' Hw' Hh'.
  destruct w' as [w'|], h' as [h'|]; try (apply IH; done). apply valid_size_fits; auto.
Qed.

Lemma tiff_fits : fits (_tiff_size data).
Proof using Hd.
  unfold _tiff_size. case_match; [done|]. destruct (tiff_order data) as [o|]; [|done]. cbn zeta. case_match; [done|].
  by apply tiff_tags_fits.
Qed.

Lemma jpeg_step_fits i s : jpeg_step data i = Ok (Done s) → fits s.
Proof using Hd.
  unfold jpeg_step. cbn zeta. case_match; [by intros [= <-]|]. intros (b & _ & Hb)%bind_Ok. revert Hb. case_match; [done|].
  case_match; [by intros [= <-]|]. intros (m & _ & [= Hm])%bind_Ok. revert Hm. set (k := (_ + 1)%nat).
  unfold jpeg_marker. cbn zeta. case_match; [done|]. do 3 (case_match; [by intros [= <-]|]). case_decide; [|done]. case_match; [by intros [= <-]|]. intros [= <-].
  pose proof (field4_fits Big (k + 3) (k + 5) ltac:(lia)). pose proof (field4_fits Big (k + 5) (k + 7) ltac:(lia)).
  cbn [from_bytes] in *. apply valid_size_fits; lia.
Qed.

Lemma vp8l_fits pos s : _webp_vp8l_size data pos = Ok s → fits s.
Proof using Hd.
  unfold _webp_vp8l_size. case_match; [by intros [= <-]|]. intros (b & _ & Hb)%bind_Ok. revert Hb.
  case_match; [by intros [= <-]|]. intros [= <-].
  assert (∀ x, 0 ≤ Z.land x 16383 < 2 ^ 14) as Hl.
  { intros x. change 16383 with (Z.ones 14). rewrite Z.land_ones by lia. apply Z.mod_pos_bound. lia. }
  pose proof (Hl (from_little (slice (pos + 1) (pos + 5) data))).
  pose proof (Hl (Z.shiftr (from_little (slice (pos + 1) (pos + 5) data)) 14)). apply valid_size_fits; lia.
Qed.

Lemma vp8x_fits pos : fits (_webp_vp8x_size data pos).
Proof using Hd.
  unfold _webp_vp8x_size. case_match; [done|].
  pose proof (field_bound Little (pos + 4) (pos + 7) 3 data Hd ltac:(lia)).
  pose proof (field_bound Little (pos + 7) (pos + 10) 3 data Hd ltac:(lia)). cbn [from_bytes Z.of_nat] in *.
  apply valid_size_fits; lia.
Qed.

Lemma vp8_fits pos : fits (_webp_vp8_size data pos).
Proof using Hd.
  unfold _webp_vp8_size. case_decide; [done|].
  assert (∀ x, 0 ≤ Z.land x 16383 < 2 ^ 14) as Hl.
  { intros x. change 16383 with (Z.ones 14). rewrite Z.land_ones by lia. apply Z.mod_pos_bound. lia. }
  pose proof (Hl (from_little (slice (pos + 6) (pos + 8) data))).
  pose proof (Hl (from_little (slice (pos + 8) (pos + 10) data))). apply valid_size_fits; lia.
Qed.

Lemma webp_step_fits i s : webp_step data i = Ok (Done s) → fits s.
Proof using Hd.
  unfold webp_step. cbn zeta. do 2 (case_match; [by intros [= <-]|]).
  case_decide; [intros [= <-]; apply vp8x_fits|]. case_decide.
  { intros (s' & Hs & [= <-])%bind_Ok. by apply vp8l_fits in Hs. }
  case_decide; [intros [= <-]; apply vp8_fits|done].
Qed.

Lemma jpeg_fits s : _jpeg_size data = Ok s → fits s.
Proof using Hd.
  unfold _jpeg_size. case_decide; [by intros [= <-]|]. apply scan_result. intros ??. apply jpeg_step_fits.
Qed.

Lemma webp_fits s : _webp_size data = Ok s → fits s.
Proof using Hd.
  unfold _webp_size. case_decide; [by intros [= <-]|]. apply scan_result. intros ??. apply webp_step_fits.
Qed.

End bounds.

#[local] Opaque Z.pow.

(** ** The layouts *)

(** A JPEG segment: fill bytes, marker, length and payload. *)
Definition jpeg_segment (fill : nat) (marker : Z) (payload : bytes) : bytes :=
  replicate (S fill) 255 ++ marker :: to_big 2 (Z.of_nat (length payload) + 2) ++ payload.

(** A marker of a segment that is neither a frame header nor the start of a scan. *)
Definition plain_marker (m : Z) : Prop :=
  1 < m ∧ m < 255 ∧ m ≠ 218 ∧ ¬ (208 ≤ m ≤ 217) ∧ (m ∉ _JPEG_SOF_MARKERS).

Definition short (payload : bytes) : Prop := Z.of_nat (length payload) < 65534.

Definition jpeg_segments (l : list (nat * Z * bytes)) : bytes := l ≫= λ s, jpeg_segment s.1.1 s.1.2 s.2.

Definition plain_segment (s : nat * Z * bytes) : Prop := plain_marker s.1.2 ∧ short s.2.

(** A RIFF chunk, padded to an even length. *)
Definition riff_chunk (kind payload : bytes) : bytes :=
  let padding := if Nat.even (length payload) then [] else [0] in
  kind ++ to_little 4 (Z.of_nat (length payload)) ++ payload ++ padding.

Definition other_chunk (c : bytes * bytes) : Prop :=
  length c.1 = 4%nat ∧ (c.1 ∉ [vp8x; vp8l; vp8]) ∧ Z.of_nat (length c.2) < 2 ^ 32.

(** A directory entry with one SHORT or LONG value. *)
Definition tiff_entry (o : byteorder) (tag : Z) (long : bool) (v : Z) : bytes :=
  let field := if long then to_bytes o 4 v else (to_bytes o 2 v ++ [0; 0]) in
  to_bytes o 2 tag ++ to_bytes o 2 (if long then 4 else 3) ++ to_bytes o 4 1 ++ field.

Definition tiff_magic (o : byteorder) : bytes := match o with Little => tiff_little | Big => tiff_big end.

(** The image payload of each kind of WebP file. *)
Inductive webp_image (w h : Z) : bytes → bytes → Prop :=
  | WebpExtended flags rest :
      length flags = 4%nat → w ≤ 2 ^ 24 → h ≤ 2 ^ 24 →
      webp_image w h vp8x (flags ++ to_little 3 (w - 1) ++ to_little 3 (h - 1) ++ rest)
  | WebpLossless high rest :
      0 ≤ high < 16 → w ≤ 2 ^ 14 → h ≤ 2 ^ 14 →
      webp_image w h vp8l (47 :: to_little 4 (w - 1 + 2 ^ 14 * (h - 1 + 2 ^ 14 * high)) ++ rest)
  | WebpLossy tag sx sy rest :
      length tag = 3%nat → 0 ≤ sx < 4 → 0 ≤ sy < 4 → w < 2 ^ 14 → h < 2 ^ 14 →
      webp_image w h vp8 (tag ++ [157; 1; 42] ++ to_little 2 (w + 2 ^ 14 * sx) ++ to_little 2 (h + 2 ^ 14 * sy) ++ rest).

(** [encodes f w h data]: [data] is the start of a [w] by [h] image in format [f]. *)
Inductive encodes (w h : Z) : string → bytes → Prop :=
  | EncPng len rest :
      length len = 4%nat → w < 2 ^ 32 → h < 2 ^ 32 →
      encodes w h "png" (png_signature ++ len ++ ihdr ++ to_big 4 w ++ to_big 4 h ++ rest)
  | EncJpeg segments fill sof precision components rest :
      Forall plain_segment segments → sof ∈ _JPEG_SOF_MARKERS → w < 2 ^ 16 → h < 2 ^ 16 → 
      short (precision :: to_big 2 h ++ to_big 2 w ++ components) →
      encodes w h "jpeg"
        ([255; 216] ++ jpeg_segments segments ++
         jpeg_segment fill sof (precision :: to_big 2 h ++ to_big 2 w ++ components) ++ rest)
  | EncTiff (o : byteorder) (gap : bytes) (n : Z) (long_w long_h : bool) (rest : bytes) :
      2 ≤ n < 2 ^ 16 → Z.of_nat (length gap) + 10 < 2 ^ 32 →
      w < (if long_w then 2 ^ 32 else 2 ^ 16) → h < (if long_h then 2 ^ 32 else 2 ^ 16) →
      encodes w h "tiff"
        (tiff_magic o ++ to_bytes o 4 (Z.of_nat (length gap) + 8) ++ gap ++
         to_bytes o 2 n ++ tiff_entry o 256 long_w w ++ tiff_entry o 257 long_h h ++ rest)
  | EncBmp header (top_down : bool) rest :
      length header = 16%nat → w < 2 ^ 31 → h < 2 ^ 31 →
      encodes w h "bmp" (bm ++ header ++ to_little 4 w ++ to_little 4 (if top_down then 2 ^ 32 - h else h) ++ rest)
  | EncWebp riff_size others kind payload rest :
      length riff_size = 4%nat → Forall other_chunk others → webp_image w h kind payload →
      Z.of_nat (length payload) < 2 ^ 32 →
      encodes w h "webp" (riff ++ riff_size ++ webp ++ (others ≫= λ c, riff_chunk c.1 c.2) ++ riff_chunk kind payload ++ rest).

(** ** Reading each layout *)

Ltac list4 l H := destruct l as [|? [|? [|? [|? [|? ?]]]]]; try discriminate H; clear H.

Lemma valid_size_pos w h : 0 < w → 0 < h → _valid_size w h = Some (w, h).
Proof. intros. unfold _valid_size. by rewrite !(proj2 (Z.leb_gt _ _)). Qed.

Lemma big_bytes n z : 0 ≤ z < 256 ^ Z.of_nat n → from_big (to_big n z) = z.
Proof. apply (from_to_bytes Big). Qed.

Lemma png_read w h len rest :
  length len = 4%nat → 0 < w < 2 ^ 32 → 0 < h < 2 ^ 32 →
  _png_size (png_signature ++ len ++ ihdr ++ to_big 4 w ++ to_big 4 h ++ rest) = Some (w, h).
Proof.
  intros Hl Hw Hh. list4 len Hl. unfold _png_size. set (data := _ ++ _).
  assert (slice 16 20 data = to_big 4 w) as -> by reflexivity.
  assert (slice 20 24 data = to_big 4 h) as -> by reflexivity.
  rewrite decide_False; [|intros [Hd|[Hd|Hd]]; [|by apply Hd..]; cbn in Hd; lia].
  rewrite !big_bytes by (cbn [Z.of_nat]; lia). apply valid_size_pos; lia.
Qed.

(** *** JPEG *)

Lemma skip_fill_replicate n m rest i : m ≠ 255 → skip_fill (replicate n 255 ++ m :: rest) i = (i + n)%nat.
Proof.
  intros Hm. revert i. induction n as [|n IH]; intros i; cbn; [rewrite (proj2 (Z.eqb_neq _ _) Hm); lia|]. rewrite IH. lia.
Qed.

Lemma jpeg_step_marker pre fill m post :
  m ≠ 255 →
  jpeg_step (pre ++ replicate (S fill) 255 ++ m :: post) (length pre) =
    Ok (jpeg_marker (pre ++ replicate (S fill) 255 ++ m :: post) m (length pre + S fill + 1)).
Proof.
  intros Hm. unfold jpeg_step. cbn zeta. set (data := pre ++ _).
  assert (length data = length pre + S fill + S (length post))%nat as Hl.
  { subst data. rewrite !length_app, length_replicate. cbn. lia. }
  rewrite (proj2 (Nat.ltb_lt _ _)) by lia. cbn [negb].
  assert (byte_at data (length pre) = Ok 255) as ->.
  { unfold byte_at. subst data. by rewrite <-(Nat.add_0_r (length pre)), lookup_app_at. }
  cbn [mbind res_bind]. change (255 =? 255) with true. cbn [negb].
  assert (skip_fill (drop (length pre) data) (length pre) = length pre + S fill)%nat as ->.
  { subst data. rewrite drop_app_length. by apply skip_fill_replicate. }
  rewrite (proj2 (Nat.leb_gt _ _)) by lia.
  assert (byte_at data (length pre + S fill) = Ok m) as ->; [|done].
  unfold byte_at. subst data. rewrite lookup_app_at.
  rewrite lookup_app_r by (rewrite length_replicate; done). by rewrite length_replicate, Nat.sub_diag.
Qed.

(** The length field of a segment whose position is known. *)
Lemma segment_length pre payload post :
  short payload →
  from_big (slice (length pre) (length pre + 2)
    (pre ++ to_big 2 (Z.of_nat (length payload) + 2) ++ payload ++ post)) = Z.of_nat (length payload) + 2.
Proof.
  intros Hs. rewrite <-(Nat.add_0_r (length pre)) at 1. rewrite slice_app.
  set (n := Z.of_nat (length payload) + 2). change (slice 0 2 (to_big 2 n ++ payload ++ post)) with (to_big 2 n).
  apply big_bytes. unfold short in Hs. subst n. change (256 ^ Z.of_nat 2) with 65536. lia.
Qed.

Lemma special_plain m : plain_marker m → ((m =? 0) || (m =? 1) || ((208 <=? m) && (m <=? 217))) = false ∧ (m =? 218) = false.
Proof. unfold plain_marker. intros. lia. Qed.

Lemma jpeg_marker_plain pre m payload post :
  plain_marker m → short payload →
  jpeg_marker (pre ++ to_big 2 (Z.of_nat (length payload) + 2) ++ payload ++ post) m (length pre) =
    Next (length pre + (2 + length payload)).
Proof.
  intros Hm Hs. unfold jpeg_marker. cbn zeta. destruct (special_plain m Hm) as [-> ->].
  rewrite segment_length by done. set (data := pre ++ _).
  assert (length data = length pre + (2 + (length payload + length post)))%nat as Hl.
  { subst data. rewrite !length_app. cbn. lia. }
  rewrite (proj2 (Nat.ltb_ge _ _)) by lia. rewrite (proj2 (Z.ltb_ge _ 2)) by lia. rewrite (proj2 (Z.ltb_ge _ _)) by lia.
  cbn [orb]. rewrite decide_False by apply Hm. f_equal. lia.
Qed.

Lemma sof_markers m : m ∈ _JPEG_SOF_MARKERS → m ≠ 255 ∧ ((m =? 0) || (m =? 1) || ((208 <=? m) && (m <=? 217))) = false ∧ (m =? 218) = false.
Proof. intros H. repeat (apply elem_of_cons in H as [->|H]; [done|]). by apply elem_of_nil in H. Qed.

Lemma jpeg_marker_sof pre m w h precision components post :
  m ∈ _JPEG_SOF_MARKERS → 0 < w < 2 ^ 16 → 0 < h < 2 ^ 16 →
  let payload := precision :: to_big 2 h ++ to_big 2 w ++ components in
  short payload →
  jpeg_marker (pre ++ to_big 2 (Z.of_nat (length payload) + 2) ++ payload ++ post) m (length pre) = Done (Some (w, h)).
Proof.
  intros Hm Hw Hh payload Hs. unfold jpeg_marker. cbn zeta. destruct (sof_markers m Hm) as (_ & -> & ->).
  rewrite segment_length by done.
  rewrite !slice_app. set (data := pre ++ _).
  assert (length data = length pre + (2 + (length payload + length post)))%nat as Hl.
  { subst data. rewrite !length_app. cbn. lia. }
  rewrite (proj2 (Nat.ltb_ge _ _)) by lia. rewrite (proj2 (Z.ltb_ge _ 2)) by lia. rewrite (proj2 (Z.ltb_ge _ _)) by lia.
  cbn [orb]. rewrite decide_True by done.
  rewrite (proj2 (Z.ltb_ge _ 7)) by (subst payload; cbn [length app to_big to_little rev]; lia).
  change (slice 3 5 (to_big 2 (Z.of_nat (length payload) + 2) ++ payload ++ post)) with (to_big 2 h).
  change (slice 5 7 (to_big 2 (Z.of_nat (length payload) + 2) ++ payload ++ post)) with (to_big 2 w).
  rewrite !big_bytes by (change (256 ^ Z.of_nat 2) with (2 ^ 16); lia). rewrite valid_size_pos by lia. done.
Qed.

Lemma jpeg_segments_scan pre segments post rounds s :
  Forall plain_segment segments →
  (let data := pre ++ jpeg_segments segments ++ post in
   scan (jpeg_step data) rounds (length (pre ++ jpeg_segments segments)) = Ok s →
   scan (jpeg_step data) (length segments + rounds) (length pre) = Ok s).
Proof.
  intros Hall. revert pre. induction Hall as [|[[fill m] payload] segments [Hm Hs] _ IH]; intros pre data Hscan.
  { by rewrite app_nil_r in Hscan. }
  cbn [fst snd] in Hm, Hs. specialize (IH (pre ++ jpeg_segment fill m payload)). cbn zeta in IH.
  change (jpeg_segments ((fill, m, payload) :: segments)) with (jpeg_segment fill m payload ++ jpeg_segments segments) in *.
  assert (data = (pre ++ jpeg_segment fill m payload) ++ jpeg_segments segments ++ post) as Hd by (subst data; by rewrite <-!app_assoc).
  rewrite <-Hd, <-app_assoc in IH. apply IH in Hscan. clear IH.
  apply (scan_step _ _ _ (length (pre ++ jpeg_segment fill m payload))); [|done].
  assert (data = pre ++ replicate (S fill) 255 ++ m :: (to_big 2 (Z.of_nat (length payload) + 2) ++ payload ++ jpeg_segments segments ++ post)) as ->.
  { rewrite Hd. unfold jpeg_segment. by rewrite <-!app_assoc. }
  rewrite jpeg_step_marker by (destruct Hm as (_ & ? & _); lia).
  set (pre' := pre ++ replicate (S fill) 255 ++ [m]).
  assert (length pre + S fill + 1 = length pre')%nat as -> by (subst pre'; rewrite !length_app, length_replicate; cbn; lia).
  replace (pre ++ replicate (S fill) 255 ++ m :: to_big 2 (Z.of_nat (length payload) + 2) ++ payload ++ jpeg_segments segments ++ post)
    with (pre' ++ to_big 2 (Z.of_nat (length payload) + 2) ++ payload ++ (jpeg_segments segments ++ post))
    by (subst pre'; by rewrite <-!app_assoc).
  rewrite jpeg_marker_plain by done. do 2 f_equal. subst pre'. unfold jpeg_segment.
  repeat (rewrite length_app || rewrite length_replicate || cbn [length]). cbn. lia.
Qed.

Lemma jpeg_segments_length segments : (length segments ≤ length (jpeg_segments segments))%nat.
Proof.
  induction segments as [|s segments IH]; [done|].
  change (jpeg_segments (s :: segments)) with (jpeg_segment s.1.1 s.1.2 s.2 ++ jpeg_segments segments).
  rewrite length_app. unfold jpeg_segment at 1. rewrite length_app, length_replicate. cbn [length]. lia.
Qed.

Lemma jpeg_read w h segments fill sof precision components rest :
  0 < w < 2 ^ 16 → 0 < h < 2 ^ 16 → Forall plain_segment segments → sof ∈ _JPEG_SOF_MARKERS →
  short (precision :: to_big 2 h ++ to_big 2 w ++ components) →
  _jpeg_size ([255; 216] ++ jpeg_segments segments ++
    jpeg_segment fill sof (precision :: to_big 2 h ++ to_big 2 w ++ components) ++ rest) = Ok (Some (w, h)).
Proof.
  intros Hw Hh Hsegs Hsof Hs. set (payload := precision :: _) in *.
  set (tail := jpeg_segment fill sof payload ++ rest). unfold _jpeg_size.
  set (data := [255; 216] ++ jpeg_segments segments ++ tail).
  assert (length segments + 6 ≤ length data)%nat as Hl.
  { subst data tail. pose proof (jpeg_segments_length segments). unfold jpeg_segment. rewrite !length_app, length_replicate. cbn. lia. }
  rewrite decide_False by (intros [?|Hd]; [lia|by apply Hd]).
  apply scan_more with (length segments + 1)%nat; [|lia].
  apply (jpeg_segments_scan [255; 216] segments tail); [done|]. fold data.
  set (pre := [255; 216] ++ jpeg_segments segments).
  assert (data = pre ++ replicate (S fill) 255 ++ sof :: (to_big 2 (Z.of_nat (length payload) + 2) ++ payload ++ rest)) as ->.
  { subst data pre tail. unfold jpeg_segment. by rewrite <-!app_assoc. }
  cbn [scan]. rewrite jpeg_step_marker by (by apply sof_markers). cbn [mbind res_bind].
  set (pre' := pre ++ replicate (S fill) 255 ++ [sof]).
  assert (length pre + S fill + 1 = length pre')%nat as -> by (subst pre'; rewrite !length_app, length_replicate; cbn; lia).
  replace (pre ++ replicate (S fill) 255 ++ sof :: to_big 2 (Z.of_nat (length payload) + 2) ++ payload ++ rest)
    with (pre' ++ to_big 2 (Z.of_nat (length payload) + 2) ++ payload ++ rest) by (subst pre'; by rewrite <-!app_assoc).
  subst payload. cbn [scan]. by rewrite jpeg_marker_sof.
Qed.

(** *** BMP *)

Lemma signed_small n v : 0 ≤ v < 2 ^ 31 → n = 4 → from_little_signed n (to_little 4 v) = v.
Proof.
  intros Hv ->. unfold from_little_signed. rewrite from_to_little by (change (256 ^ Z.of_nat 4) with (2 ^ 32); lia).
  change (8 * 4 - 1) with 31. by rewrite (proj2 (Z.ltb_lt _ _)) by lia.
Qed.

Lemma signed_negative v : 0 < v < 2 ^ 31 → from_little_signed 4 (to_little 4 (2 ^ 32 - v)) = - v.
Proof.
  intros Hv. unfold from_little_signed. rewrite from_to_little by (change (256 ^ Z.of_nat 4) with (2 ^ 32); lia).
  change (8 * 4 - 1) with 31. change (8 * 4) with 32. rewrite (proj2 (Z.ltb_ge _ _)) by lia. lia.
Qed.

Lemma bmp_read w h header (top_down : bool) rest :
  length header = 16%nat → 0 < w < 2 ^ 31 → 0 < h < 2 ^ 31 →
  _bmp_size (bm ++ header ++ to_little 4 w ++ to_little 4 (if top_down then 2 ^ 32 - h else h) ++ rest) = Some (w, h).
Proof.
  intros Hl Hw Hh. set (hh := if top_down then _ else _). unfold _bmp_size. set (data := _ ++ _).
  do 17 (destruct header as [|? header]; try discriminate Hl).
  assert (slice 18 22 data = to_little 4 w) as -> by reflexivity.
  assert (slice 22 26 data = to_little 4 hh) as -> by reflexivity.
  rewrite decide_False; [|intros [Hd|Hd]; [cbn in Hd; lia|by apply Hd]].
  rewrite (signed_small 4 w) by lia.
  assert (Z.abs (from_little_signed 4 (to_little 4 hh)) = h) as ->.
  { subst hh. destruct top_down; [rewrite signed_negative by done|rewrite signed_small by lia]; lia. }
  rewrite Z.abs_eq by lia. apply valid_size_pos; lia.
Qed.

(** *** TIFF *)

Lemma tiff_entry_length o tag long v : length (tiff_entry o tag long v) = 12%nat.
Proof. by destruct o, long. Qed.

Section tiff_entry.
Context (o : byteorder) (tag : Z) (long : bool) (v : Z) (pre post : bytes).
Let data := pre ++ tiff_entry o tag long v ++ post.

Lemma tiff_entry_in : (length data <? length pre + 12)%nat = false.
Proof using Type. subst data. apply Nat.ltb_ge. rewrite !length_app, tiff_entry_length. lia. Qed.

Lemma tiff_entry_field i j :
  slice (length pre + i) (length pre + j) data = slice i j (tiff_entry o tag long v ++ post).
Proof using Type. apply slice_app. Qed.

Lemma tiff_entry_tag : 0 ≤ tag < 2 ^ 16 → from_bytes o (slice (length pre) (length pre + 2) data) = tag.
Proof using Type.
  intros Ht. rewrite <-(Nat.add_0_r (length pre)) at 1. rewrite tiff_entry_field.
  assert (slice 0 2 (tiff_entry o tag long v ++ post) = to_bytes o 2 tag) as -> by (by destruct o).
  by apply from_to_bytes.
Qed.

Lemma tiff_entry_value :
  0 ≤ v < (if long then 2 ^ 32 else 2 ^ 16) →
  _tiff_value data (length pre + 8) (from_bytes o (slice (length pre + 2) (length pre + 4) data))
    (from_bytes o (slice (length pre + 4) (length pre + 8) data)) o = Some v.
Proof using Type.
  intros Hv. rewrite !tiff_entry_field.
  assert (from_bytes o (slice 2 4 (tiff_entry o tag long v ++ post)) = if long then 4 else 3) as ->.
  { transitivity (from_bytes o (to_bytes o 2 (if long then 4 else 3))); [by destruct o|]. by destruct o, long. }
  assert (from_bytes o (slice 4 8 (tiff_entry o tag long v ++ post)) = 1) as ->.
  { transitivity (from_bytes o (to_bytes o 4 1)); by destruct o. }
  unfold _tiff_value. cbn [Z.eqb negb orb]. change (negb (1 =? 1)) with false. cbn [orb].
  rewrite (proj2 (Nat.ltb_ge _ _)) by (subst data; rewrite !length_app, tiff_entry_length; lia).
  rewrite <-!Nat.add_assoc, !tiff_entry_field. destruct long; cbn [Z.eqb Pos.eqb].
  - assert (slice 8 (8 + 4) (tiff_entry o tag true v ++ post) = to_bytes o 4 v) as -> by (by destruct o).
    f_equal. by apply from_to_bytes.
  - assert (slice 8 (8 + 2) (tiff_entry o tag false v ++ post) = to_bytes o 2 v) as -> by (by destruct o).
    f_equal. by apply from_to_bytes.
Qed.

End tiff_entry.

Lemma tiff_read w h o gap n (long_w long_h : bool) rest :
  2 ≤ n < 2 ^ 16 → Z.of_nat (length gap) + 10 < 2 ^ 32 →
  0 < w < (if long_w then 2 ^ 32 else 2 ^ 16) → 0 < h < (if long_h then 2 ^ 32 else 2 ^ 16) →
  _tiff_size (tiff_magic o ++ to_bytes o 4 (Z.of_nat (length gap) + 8) ++ gap ++ to_bytes o 2 n ++
    tiff_entry o 256 long_w w ++ tiff_entry o 257 long_h h ++ rest) = Some (w, h).
Proof.
  intros Hn Hgap Hw Hh. set (off := Z.of_nat (length gap) + 8). set (data := _ ++ _).
  set (pre := tiff_magic o ++ to_bytes o 4 off ++ gap).
  assert (length pre = 8 + length gap)%nat as Hpre by (subst pre; by destruct o).
  assert (data = pre ++ to_bytes o 2 n ++ tiff_entry o 256 long_w w ++ tiff_entry o 257 long_h h ++ rest) as Hd
    by (subst data pre; by rewrite <-!app_assoc).
  assert (length data = 8 + length gap + (26 + length rest))%nat as Hl.
  { rewrite Hd, !length_app, Hpre, !tiff_entry_length, to_bytes_length. lia. }
  unfold _tiff_size. rewrite (proj2 (Nat.ltb_ge _ _)) by lia.
  assert (tiff_order data = Some o) as -> by (subst data; by destruct o).
  assert (slice 4 8 data = to_bytes o 4 off) as -> by (subst data; by destruct o).
  rewrite from_to_bytes by (change (256 ^ Z.of_nat 4) with (2 ^ 32); lia). cbn zeta.
  rewrite (proj2 (Z.ltb_ge off 8)) by lia. rewrite (proj2 (Z.ltb_ge _ _)) by lia. cbn [orb].
  assert (Z.to_nat off = length pre) as -> by lia.
  assert (from_bytes o (slice (length pre) (length pre + 2) data) = n) as ->.
  { rewrite Hd. rewrite <-(Nat.add_0_r (length pre)) at 1. rewrite slice_app.
    change (slice 0 2 ?l) with (take 2 l). rewrite take_app_length' by (symmetry; apply to_bytes_length). apply from_to_bytes. change (256 ^ Z.of_nat 2) with (2 ^ 16). lia. }
  destruct (Z.to_nat (Z.min n 256)) as [|[|k]] eqn:Hk; [lia..|].
  set (pre1 := pre ++ to_bytes o 2 n). set (pre2 := pre1 ++ tiff_entry o 256 long_w w).
  assert (data = pre1 ++ tiff_entry o 256 long_w w ++ tiff_entry o 257 long_h h ++ rest) as Hd1
    by (rewrite Hd; subst pre1; by rewrite <-!app_assoc).
  assert (data = pre2 ++ tiff_entry o 257 long_h h ++ rest) as Hd2 by (rewrite Hd1; subst pre2; by rewrite <-!app_assoc).
  assert (length pre + 2 = length pre1)%nat as -> by (subst pre1; by rewrite length_app, to_bytes_length).
  cbn [tiff_tags]. rewrite Hd1 at 1. rewrite tiff_entry_in. rewrite Hd1. rewrite tiff_entry_tag by done.
  rewrite tiff_entry_value by lia. change (256 =? 256) with true. cbn [negb andb]. rewrite <-Hd1.
  assert (length pre1 + 12 = length pre2)%nat as -> by (subst pre2; by rewrite length_app, tiff_entry_length).
  rewrite Hd2 at 1. rewrite tiff_entry_in. rewrite Hd2. rewrite tiff_entry_tag by done. rewrite tiff_entry_value by lia.
  change (257 =? 256) with false. change (257 =? 257) with true. cbn [negb andb]. apply valid_size_pos; lia.
Qed.

(** *** WebP *)

Lemma riff_chunk_length kind payload :
  length (riff_chunk kind payload) = (length kind + 4 + length payload + length payload mod 2)%nat.
Proof.
  unfold riff_chunk. cbn zeta. rewrite !length_app, to_little_length.
  assert (length (if Nat.even (length payload) then [] else [0 : Z]) = length payload mod 2)%nat as ->; [|lia].
  destruct (Nat.Even_or_Odd (length payload)) as [He|Ho].
  - rewrite (proj2 (Nat.even_spec _) He). destruct He as [m ->]. by rewrite Nat.mul_comm, Nat.Div0.mod_mul.
  - rewrite <-Nat.negb_odd, (proj2 (Nat.odd_spec _) Ho). destruct Ho as [m ->].
    by rewrite Nat.add_comm, Nat.mul_comm, Nat.Div0.mod_add.
Qed.

Section riff_chunk.
Context (kind payload pre post : bytes) (Hk : length kind = 4%nat) (Hp : Z.of_nat (length payload) < 2 ^ 32).
Let data := pre ++ riff_chunk kind payload ++ post.
Let padding := if Nat.even (length payload) then [] else [0].

Lemma chunk_data : data = (pre ++ kind ++ to_little 4 (Z.of_nat (length payload))) ++ payload ++ (padding ++ post).
Proof using Type. subst data padding. unfold riff_chunk. by rewrite <-!app_assoc. Qed.

Lemma chunk_header_length : length (pre ++ kind ++ to_little 4 (Z.of_nat (length payload))) = (length pre + 8)%nat.
Proof using Hk. rewrite !length_app, to_little_length, Hk. lia. Qed.

(** A field of the payload. *)
Lemma chunk_field i j :
  slice (length pre + 8 + i) (length pre + 8 + j) data = slice i j (payload ++ (padding ++ post)).
Proof using Hk. rewrite chunk_data, <-chunk_header_length. apply slice_app. Qed.

Lemma chunk_fits : (length pre + 8 + length payload ≤ length data)%nat.
Proof using Hk. rewrite chunk_data, length_app, chunk_header_length, length_app. lia. Qed.

Lemma webp_step_chunk :
  webp_step data (length pre) =
    (if decide (kind = vp8x) then Ok (Done (_webp_vp8x_size data (length pre + 8)))
     else if decide (kind = vp8l) then s ← _webp_vp8l_size data (length pre + 8); Ok (Done s)
     else if decide (kind = vp8) then Ok (Done (_webp_vp8_size data (length pre + 8)))
     else Ok (Next (length (pre ++ riff_chunk kind payload)))).
Proof using Hk Hp.
  pose proof chunk_fits as Hf. unfold webp_step. cbn zeta. rewrite (proj2 (Nat.leb_le _ _)) by lia. cbn [negb].
  assert (slice (length pre) (length pre + 4) data = kind) as ->.
  { subst data. rewrite <-(Nat.add_0_r (length pre)) at 1. rewrite slice_app. unfold riff_chunk. rewrite <-!app_assoc.
    change (slice 0 4 ?l) with (take 4 l). by apply take_app_length'. }
  assert (from_little (slice (length pre + 4) (length pre + 8) data) = Z.of_nat (length payload)) as ->.
  { subst data. rewrite slice_app. unfold riff_chunk. rewrite <-!app_assoc.
    assert (∀ l, slice 4 8 (kind ++ l) = slice 0 4 l) as ->.
    { intros l. pose proof (slice_app kind l 0 4) as Hs. by rewrite Hk in Hs. }
    change (slice 0 4 ?l) with (take 4 l). rewrite take_app_length' by (symmetry; apply to_little_length).
    apply from_to_little. change (256 ^ Z.of_nat 4) with (2 ^ 32). lia. }
  rewrite (proj2 (Z.ltb_ge _ _)) by lia. repeat (case_decide; [done|]).
  do 2 f_equal. rewrite length_app, riff_chunk_length, Hk. rewrite <-(Nat2Z.inj_mod _ 2). lia.
Qed.
End riff_chunk.

Lemma low14 x y : 0 ≤ x < 2 ^ 14 → Z.land (x + 2 ^ 14 * y) 16383 = x.
Proof.
  intros Hx. change 16383 with (Z.ones 14). rewrite Z.land_ones by lia.
  rewrite Z.mul_comm, Z.mod_add by lia. by apply Z.mod_small.
Qed.

Lemma high14 x y : 0 ≤ x < 2 ^ 14 → Z.shiftr (x + 2 ^ 14 * y) 14 = y.
Proof. intros Hx. rewrite Z.shiftr_div_pow2, Z.mul_comm, Z.div_add by lia. rewrite Z.div_small by done. lia. Qed.

Lemma pow_bytes (n : nat) (k : Z) : k = 8 * Z.of_nat n → 256 ^ Z.of_nat n = 2 ^ k.
Proof. intros ->. rewrite Z.pow_mul_r by lia. done. Qed.

Lemma webp_image_read w h kind payload pre post :
  webp_image w h kind payload → 0 < w → 0 < h → Z.of_nat (length payload) < 2 ^ 32 →
  length kind = 4%nat ∧
  webp_step (pre ++ riff_chunk kind payload ++ post) (length pre) = Ok (Done (Some (w, h))).
Proof.
  intros Hi Hw Hh Hp. assert (length kind = 4%nat) as Hk by (by destruct Hi). split; [done|].
  rewrite webp_step_chunk by done. set (data := pre ++ _).
  pose proof (chunk_fits kind payload pre post Hk) as Hf. fold data in Hf.
  destruct Hi as [flags rest Hl Hw' Hh'|high rest Hhigh Hw' Hh'|tag sx sy rest Hl Hsx Hsy Hw' Hh'].
  - rewrite decide_True by done. do 2 f_equal. list4 flags Hl. unfold _webp_vp8x_size.
    rewrite (proj2 (Nat.ltb_ge _ _)) by (cbn in Hf; lia). subst data. rewrite !chunk_field by done.
    change (slice 4 7 (_ ++ _)) with (to_little 3 (w - 1)).
    change (slice 7 10 (_ ++ _)) with (to_little 3 (h - 1)).
    rewrite !from_to_little by (rewrite (pow_bytes 3 24) by done; lia). rewrite !Z.sub_add. by apply valid_size_pos.
  - rewrite decide_False, decide_True by done. unfold _webp_vp8l_size.
    rewrite (proj2 (Nat.ltb_ge _ _)) by (cbn in Hf; lia).
    assert (byte_at data (length pre + 8) = Ok 47) as ->.
    { unfold byte_at. subst data. rewrite chunk_data. erewrite <-(chunk_header_length vp8l _ pre) by done.
      by rewrite <-(Nat.add_0_r (length _)), lookup_app_at. }
    cbn [mbind res_bind]. change (47 =? 47) with true. cbn [negb]. subst data. rewrite chunk_field by done.
    change (slice 1 5 (_ ++ _)) with (to_little 4 (w - 1 + 2 ^ 14 * (h - 1 + 2 ^ 14 * high))).
    rewrite from_to_little by (rewrite (pow_bytes 4 32) by done; change (2 ^ 32) with (2 ^ 14 * 2 ^ 14 * 16); nia).
    rewrite low14, high14, low14 by lia. rewrite !Z.sub_add. by rewrite valid_size_pos.
  - rewrite decide_False, decide_False, decide_True by done. do 2 f_equal.
    destruct tag as [|? [|? [|? [|? ?]]]]; try discriminate Hl. unfold _webp_vp8_size.
    assert (length pre + 8 + 10 ≤ length data)%nat as Hf' by (cbn in Hf; lia). subst data. clear Hf.
    rewrite decide_False.
    2: { intros [Hd|Hd]; [lia|]. by rewrite chunk_field in Hd. }
    rewrite !chunk_field by done.
    change (slice 6 8 (_ ++ _)) with (to_little 2 (w + 2 ^ 14 * sx)).
    change (slice 8 10 (_ ++ _)) with (to_little 2 (h + 2 ^ 14 * sy)).
    rewrite !from_to_little by (rewrite (pow_bytes 2 16) by done; change (2 ^ 16) with (2 ^ 14 * 4); nia).
    rewrite !low14 by lia. apply valid_size_pos; lia.
Qed.

Definition riff_chunks (l : list (bytes * bytes)) : bytes := l ≫= λ c, riff_chunk c.1 c.2.

Lemma riff_chunks_scan pre others post rounds s :
  Forall other_chunk others →
  (let data := pre ++ riff_chunks others ++ post in
   scan (webp_step data) rounds (length (pre ++ riff_chunks others)) = Ok s →
   scan (webp_step data) (length others + rounds) (length pre) = Ok s).
Proof.
  intros Hall. revert pre. induction Hall as [|[kind payload] others (Hk & Ho & Hp) _ IH]; intros pre data Hscan.
  { by rewrite app_nil_r in Hscan. }
  cbn [fst snd] in Hk, Ho, Hp. specialize (IH (pre ++ riff_chunk kind payload)). cbn zeta in IH.
  change (riff_chunks ((kind, payload) :: others)) with (riff_chunk kind payload ++ riff_chunks others) in *.
  assert (data = (pre ++ riff_chunk kind payload) ++ riff_chunks others ++ post) as Hd by (subst data; by rewrite <-!app_assoc).
  rewrite <-Hd, <-app_assoc in IH. apply IH in Hscan. clear IH.
  apply (scan_step _ _ _ (length (pre ++ riff_chunk kind payload))); [|done].
  rewrite Hd, <-app_assoc. rewrite webp_step_chunk by done.
  assert (kind ≠ vp8x ∧ kind ≠ vp8l ∧ kind ≠ vp8) as (? & ? & ?).
  { split_and!; intros ->; apply Ho; list_in. }
  by rewrite !decide_False by done.
Qed.

Lemma riff_chunks_length others : Forall other_chunk others → (length others ≤ length (riff_chunks others))%nat.
Proof.
  induction 1 as [|[kind payload] others (Hk & _ & _) _ IH]; [done|].
  change (riff_chunks ((kind, payload) :: others)) with (riff_chunk kind payload ++ riff_chunks others).
  rewrite length_app, riff_chunk_length. cbn in Hk. cbn [length]. lia.
Qed.

Lemma webp_read w h riff_size others kind payload rest :
  length riff_size = 4%nat → Forall other_chunk others → webp_image w h kind payload → 0 < w → 0 < h →
  Z.of_nat (length payload) < 2 ^ 32 →
  _webp_size (riff ++ riff_size ++ webp ++ riff_chunks others ++ riff_chunk kind payload ++ rest) = Ok (Some (w, h)).
Proof.
  intros Hl Hall Hi Hw Hh Hp. set (data := _ ++ _).
  set (pre := riff ++ riff_size ++ webp). assert (length pre = 12%nat) as Hpre by (subst pre; by rewrite !length_app, Hl).
  assert (data = pre ++ riff_chunks others ++ riff_chunk kind payload ++ rest) as Hd by (subst data pre; by rewrite <-!app_assoc).
  destruct (webp_image_read w h kind payload (pre ++ riff_chunks others) rest Hi Hw Hh Hp) as [Hk Hstep].
  rewrite <-app_assoc, <-Hd in Hstep.
  assert (20 + length others ≤ length data)%nat as Hlen.
  { rewrite Hd, !length_app, riff_chunk_length, Hk, Hpre. pose proof (riff_chunks_length _ Hall). lia. }
  unfold _webp_size. rewrite decide_False.
  2: { subst data. list4 riff_size Hl. intros [?|[Hd'|Hd']]; [lia|by apply Hd'..]. }
  apply scan_more with (length others + 1)%nat; [|lia].
  pose proof (riff_chunks_scan pre others (riff_chunk kind payload ++ rest) 1 (Some (w, h)) Hall) as Hs. cbn zeta in Hs.
  rewrite <-Hd, Hpre in Hs. apply Hs. cbn [scan]. by rewrite Hstep.
Qed.

(** *** Sniffing *)

Ltac sniff :=
  unfold sniff_image_format; cbn zeta;
  rewrite decide_False by (cbn; lia);
  repeat first [rewrite decide_True by (done || list_in || (split_and!; [cbn; lia|done..]))
               |rewrite decide_False by (done || not_listed || (let H := fresh in intros H; repeat (apply elem_of_cons in H as [H|H]; [done|]); by apply elem_of_nil in H))];
  reflexivity.

Lemma sniff_encoded w h f data : encodes w h f data → sniff_image_format data = Some f.
Proof.
  destruct 1 as [len rest Hl _ _|segs fill sof prec comps rest _ _ _ _ _|o gap n lw lh rest _ _ _ _|header td rest Hl _ _
    |size others kind payload rest Hl _ _ _].
  - list4 len Hl. sniff.
  - destruct segs as [|[[f m] p] segs]; sniff.
  - destruct o; sniff.
  - do 17 (destruct header as [|? header]; try discriminate Hl). sniff.
  - list4 size Hl. sniff.
Qed.

(** The whole of a short file is looked at. *)
Lemma slice_whole data : Z.of_nat (length data) ≤ MAX_HEADER_SCAN_BYTES →
  slice 0 (Z.to_nat MAX_HEADER_SCAN_BYTES) data = data.
Proof. intros H. unfold slice. rewrite drop_0, Nat.sub_0_r. apply take_ge. lia. Qed.

(** ** Theorems *)

(** C28: Reading image metadata is total and safe on hostile input. On any bytes,
    truncated or corrupt, it returns: the marker and chunk loops end within one round
    per byte and no read leaves the buffer. What it reports is consistent: both
    dimensions or neither, each positive and below 2^32, dimensions only for a
    recognised format, and a recognised format always with its media type. *)
Theorem read_image_metadata_total (data : bytes) (content_type : option string) (Hd : Forall byte data) :
  ∃ m, read_image_metadata data content_type = Ok m ∧
    match width m, height m with
    | Some w, Some h => 1 ≤ w < 2 ^ 32 ∧ 1 ≤ h < 2 ^ 32 ∧ is_Some (format m)
    | None, None => True
    | _, _ => False
    end ∧
    (∀ f, format m = Some f → ∃ t, dict_get f _MEDIA_TYPE_BY_FORMAT = Some t ∧ media_type m = Some t).
Proof.
  unfold read_image_metadata. set (payload := slice 0 _ data).
  assert (Forall byte payload) as Hp by (by apply slice_byte).
  assert (∀ (s : size) f t, fits s → dict_get f _MEDIA_TYPE_BY_FORMAT = Some t →
    let m := mkMetadata (fst <$> s) (snd <$> s) (Some f) (dict_get f _MEDIA_TYPE_BY_FORMAT) in
    match width m, height m with
    | Some w, Some h => 1 ≤ w < 2 ^ 32 ∧ 1 ≤ h < 2 ^ 32 ∧ is_Some (format m) | None, None => True | _, _ => False end ∧
    (∀ f, format m = Some f → ∃ t, dict_get f _MEDIA_TYPE_BY_FORMAT = Some t ∧ media_type m = Some t)) as Hok.
  { intros s f t Hs Hf m. subst m. cbn [width height format media_type].
    split; [|intros ? [= <-]; by exists t]. destruct s as [[w h]|]; cbn in *; [|done]. destruct Hs. split_and!; try lia. by eexists. }
  destruct (sniff_image_format payload) as [f|] eqn:Hf; [|eexists; split; [reflexivity|]; by split].
  assert (f ∈ ["jpeg"; "png"; "tiff"; "bmp"; "webp"]) as Hin.
  { revert Hf. unfold sniff_image_format. cbn zeta. repeat (case_decide; [intros [= <-]; list_in|]); done. }
  clear Hf. repeat (apply elem_of_cons in Hin as [->|Hin]); [| | | | |by apply elem_of_nil in Hin].
  - destruct (jpeg_size_total payload) as [s Hs]. rewrite Hs. eexists. split; [reflexivity|].
    eapply Hok; [by eapply jpeg_fits|reflexivity].
  - eexists. split; [reflexivity|]. eapply Hok; [by apply png_fits|reflexivity].
  - eexists. split; [reflexivity|]. eapply Hok; [by apply tiff_fits|reflexivity].
  - eexists. split; [reflexivity|]. eapply Hok; [by apply bmp_fits|reflexivity].
  - destruct (webp_size_total payload) as [s Hs]. rewrite Hs. eexists. split; [reflexivity|].
    eapply Hok; [by eapply webp_fits|reflexivity].
Qed.

Lemma read_image_metadata_total_witness :
  ∃ m, read_image_metadata [255; 216; 255; 192; 0; 3; 8] None = Ok m ∧
    match width m, height m with
    | Some w, Some h => 1 ≤ w < 2 ^ 32 ∧ 1 ≤ h < 2 ^ 32 ∧ is_Some (format m)
    | None, None => True
    | _, _ => False
    end ∧
    (∀ f, format m = Some f → ∃ t, dict_get f _MEDIA_TYPE_BY_FORMAT = Some t ∧ media_type m = Some t).
Proof. apply read_image_metadata_total. repeat constructor; done. Defined.

(** C13: Image dimensions are read back. A file that starts the way its format
    prescribes, PNG, JPEG behind any run of other segments and fill bytes, TIFF in
    either byte order, BMP of either orientation, or WebP of the three kinds behind any
    other chunks, is reported with exactly the width and height it encodes, its format
    and its media type, whatever the caller's hint and whatever follows. *)
Theorem read_image_metadata_round_trip (w h : Z) (f : string) (data : bytes) (content_type : option string)
    (He : encodes w h f data) (Hw : 0 < w) (Hh : 0 < h) (Hlen : Z.of_nat (length data) ≤ MAX_HEADER_SCAN_BYTES) :
  read_image_metadata data content_type =
    Ok (mkMetadata (Some w) (Some h) (Some f) (dict_get f _MEDIA_TYPE_BY_FORMAT)).
Proof.
  unfold read_image_metadata. rewrite slice_whole by done. rewrite (sniff_encoded w h f) by done.
  destruct He.
  - by rewrite (png_read w h) by (done || lia).
  - by rewrite (jpeg_read w h) by (done || lia).
  - by rewrite (tiff_read w h) by (done || lia).
  - by rewrite (bmp_read w h) by (done || lia).
  - fold (riff_chunks others). by rewrite (webp_read w h) by (done || lia).
Qed.

Lemma read_image_metadata_round_trip_witness :
  read_image_metadata
    ([255; 216] ++ jpeg_segments [(0%nat, 224, [1; 2; 3]); (2%nat, 219, [])] ++
     jpeg_segment 0 194 (8 :: to_big 2 480 ++ to_big 2 640 ++ [3]) ++ [255; 218]) (Some "image/png") =
    Ok (mkMetadata (Some 640) (Some 480) (Some "jpeg") (Some "image/jpeg")).
Proof.
  refine (read_image_metadata_round_trip 640 480 "jpeg" _ (Some "image/png") _ _ _ _); [|done|done|by vm_compute].
  apply EncJpeg; try done.
  - apply Forall_forall. intros x Hx. repeat (apply elem_of_cons in Hx as [->|Hx]); [..|by apply elem_of_nil in Hx].
    all: split; [|done]; split_and!; cbn; try lia; not_listed.
  - list_in.
Defined.
