(* ===== verification/Datasets.v ===== *)
(** Projects, datasets and images: [services/project_service.py],
    [services/dataset_service.py] and [services/image_service.py] over their tables. A
    service call is one transaction. *)
From S2P Require Import Prelude PyValue Store Hashing Service Errors PathSafety Uploads HubManifest ArtifactVocab Conversion Artifacts ImageMetadata.
From stdpp Require Import options.
Import Errors PathSafety.

#[local] Open Scope Z_scope.
#[local] Arguments String.append !_ _ / : simpl nomatch.

Module Datasets.

(** ** Rows ([db/models.py]) *)

Record Project : Type := mkProject {
  p_project_id : string;
  p_tenant_id : string;
  p_name : string;
  p_description : option string
}.

Record ImageSource : Type := mkSource {
  source_id : string;
  s_tenant_id : string;
  s_kind : string;
  uri_or_root : option string;
  fingerprint_json : value
}.

Record Dataset : Type := mkDataset {
  dataset_id : string;
  d_tenant_id : string;
  d_project_id : string;
  d_source_id : string;
  d_name : string;
  camera_model : string;
  intrinsics_mode : string;
  is_spherical : bool;
  rig_config_json : value;
  respect_exif_orientation : bool;
  active_maskset_id : option string;
  manifest_hash : string
}.

(** [pose_prior_json] is [None] when the column is NULL. *)
Record Image : Type := mkImage {
  image_id : string;
  i_tenant_id : string;
  i_dataset_id : string;
  i_name : string;
  content_sha : string;
  i_byte_size : option Z;
  i_width : option Z;
  i_height : option Z;
  exif_json : value;
  pose_prior_json : option value;
  source_kind : string;
  rel_path : option string
}.

Record Data : Type := mkData {
  projects : list Project;
  sources : list ImageSource;
  datasets : list Dataset;
  images : list Image;
  blobs : gmap string Uploads.Blob
}.

Abbreviation call := (svc api_error Data).

Definition error (c : error_class) (detail : string) : api_error := api_error_init c detail [].

Definition set_projects (x : list Project) (w : Data) : Data := mkData x (sources w) (datasets w) (images w) (blobs w).
Definition set_sources (x : list ImageSource) (w : Data) : Data := mkData (projects w) x (datasets w) (images w) (blobs w).
Definition set_datasets (x : list Dataset) (w : Data) : Data := mkData (projects w) (sources w) x (images w) (blobs w).
Definition set_images (x : list Image) (w : Data) : Data := mkData (projects w) (sources w) (datasets w) x (blobs w).
Definition set_blobs (x : gmap string Uploads.Blob) (w : Data) : Data :=
  mkData (projects w) (sources w) (datasets w) (images w) x.

(** [session.add(row)] and the flush: an insert fails on a unique constraint. *)
Definition add_row {A} (get : Data → list A) (set : list A → Data → Data) (taken : Data → bool) (e : api_error) (r : A) : call unit :=
  clash ← gets taken;
  _ ← guard (negb clash) e;
  modify (λ w, set (get w ++ [r]) w).

(** ** Projects *)

Definition project_name_taken (id tenant name : string) (w : Data) : bool :=
  existsb (λ p, negb (bool_decide (p_project_id p = id)) && bool_decide (p_tenant_id p = tenant) && bool_decide (p_name p = name))
    (projects w).

Definition id_taken {A} (key : A → string) (id : string) (rows : list A) : bool :=
  existsb (λ r, bool_decide (key r = id)) rows.

Definition create_project (new_id tenant name : string) (description : option string) : call Project :=
  let p := mkProject new_id tenant name description in
  _ ← add_row projects set_projects (λ w, id_taken p_project_id new_id (projects w) || project_name_taken new_id tenant name w)
        (error ConflictError ("Project " +:+ str_repr name +:+ " already exists")) p;
  mret p.

Definition get_project (tenant id : string) : call Project :=
  p ← gets (λ w, row_get p_project_id id (select (λ p, bool_decide (p_tenant_id p = tenant)) (projects w)));
  found p (error NotFoundError ("Project " +:+ id +:+ " not found")).

(** The updates a request may carry, by key. *)
Inductive project_update : Type :=
  | SetProjectName (s : string)
  | SetDescription (s : option string)
  | OtherProjectKey.

Definition apply_project_update (p : Project) (u : project_update) : Project :=
  match u with
  | SetProjectName s => mkProject (p_project_id p) (p_tenant_id p) s (p_description p)
  | SetDescription s => mkProject (p_project_id p) (p_tenant_id p) (p_name p) s
  | OtherProjectKey => p
  end.

Definition patch_project (tenant id : string) (updates : list project_update) : call Project :=
  p ← get_project tenant id;
  if is_nil updates then mret p
  else
    let p := foldl apply_project_update p updates in
    clash ← gets (project_name_taken id tenant (p_name p));
    _ ← guard (negb clash) (error ConflictError "Project name conflict on update");
    _ ← modify (λ w, set_projects (put_row p_project_id p (projects w)) w);
    mret p.

(** ** Image sources *)

(** A request's source. The file system and the object store answer the fingerprint of a
    local directory, with its resolved path, and of a bucket prefix. *)
Inductive SourceSpec : Type :=
  | UploadSourceSpec (entries : list (string * string))
  | LocalSourceSpec (resolved : string) (fingerprint : value)
  | S3SourceSpec (bucket prefix : string) (fingerprint : res string value).

(** [sorted] of pairs of texts. *)
Definition entry_le (a b : string * string) : Prop := if decide (a.1 = b.1) then String.le a.2 b.2 else String.le a.1 b.1.

#[export] Instance entry_le_dec a b : Decision (entry_le a b).
Proof. unfold entry_le. case_decide; apply _. Defined.

Definition VPair (p : string * string) : value := VList [VStr p.1; VStr p.2].

Definition upload_fingerprint (entries : list (string * string)) : value :=
  VDict [("kind", VStr "upload"); ("entries", VList (VPair <$> merge_sort entry_le entries))].

Definition create_image_source (new_id tenant : string) (source : SourceSpec) : call ImageSource :=
  src ← match source with
        | UploadSourceSpec entries => mret (mkSource new_id tenant "upload" None (upload_fingerprint entries))
        | LocalSourceSpec resolved fp => mret (mkSource new_id tenant "local" (Some resolved) fp)
        | S3SourceSpec bucket prefix (Ok fp) => mret (mkSource new_id tenant "s3" (Some ("s3://" +:+ bucket +:+ "/" +:+ prefix)) fp)
        | S3SourceSpec _ _ (Err text) => raise (error ValidationError ("S3 fingerprint failed: " +:+ text))
        end;
  _ ← add_row sources set_sources (λ w, id_taken source_id new_id (sources w)) (error ConflictError "") src;
  mret src.

(** ** Datasets *)

Definition dataset_name_taken (id project name : string) (w : Data) : bool :=
  existsb (λ d, negb (bool_decide (dataset_id d = id)) && bool_decide (d_project_id d = project) && bool_decide (d_name d = name))
    (datasets w).

Definition create_dataset (new_id tenant project source name camera intrinsics : string) (spherical : bool) (rig : value)
    (respect_exif : bool) : call Dataset :=
  let d := mkDataset new_id tenant project source name camera intrinsics spherical rig respect_exif None "" in
  _ ← add_row datasets set_datasets (λ w, id_taken dataset_id new_id (datasets w) || dataset_name_taken new_id project name w)
        (error ConflictError ("Dataset " +:+ str_repr name +:+ " already exists in project")) d;
  mret d.

Definition get_dataset (tenant id : string) (project : option string) : call Dataset :=
  d ← gets (λ w, row_get dataset_id id (select (λ d, bool_decide (d_tenant_id d = tenant)) (datasets w)));
  d ← found d (error NotFoundError ("Dataset " +:+ id +:+ " not found"));
  _ ← match project with
      | Some p => guard (bool_decide (d_project_id d = p)) (error ValidationError "Dataset does not belong to project")
      | None => mret tt
      end;
  mret d.

(** [b.refcount = max(0, b.refcount - 1)] *)
Definition release_blob (b : Uploads.Blob) : Uploads.Blob :=
  Uploads.mkBlob (Uploads.byte_size b) (Uploads.mime b) (Z.max 0 (Uploads.refcount b - 1)).
Definition retain_blob (b : Uploads.Blob) : Uploads.Blob :=
  Uploads.mkBlob (Uploads.byte_size b) (Uploads.mime b) (Uploads.refcount b + 1).

(** Release the blob of one image row. *)
Definition release_image (m : gmap string Uploads.Blob) (i : Image) : gmap string Uploads.Blob :=
  if decide (source_kind i = "upload") then alter release_blob (content_sha i) m else m.

Definition of_dataset (tenant dataset : string) (i : Image) : bool :=
  bool_decide (i_tenant_id i = tenant) && bool_decide (i_dataset_id i = dataset).

Definition in_dataset (dataset : string) (i : Image) : bool := bool_decide (i_dataset_id i = dataset).

Definition delete_dataset (tenant id : string) : call unit :=
  d ← get_dataset tenant id None;
  rows ← gets (λ w, select (of_dataset tenant (dataset_id d)) (images w));
  _ ← modify (λ w, set_blobs (foldl release_image (blobs w) rows) w);
  _ ← modify (λ w, set_images (delete_where (in_dataset (dataset_id d)) (images w)) w);
  modify (λ w, set_datasets (delete_where (λ r, bool_decide (dataset_id r = dataset_id d)) (datasets w)) w).

Inductive dataset_update : Type :=
  | SetName (s : string)
  | SetCameraModel (s : string)
  | SetIntrinsicsMode (s : string)
  | SetSpherical (b : bool)
  | SetRigConfig (v : value)
  | SetRespectExif (b : bool)
  | SetMaskset (s : option string)
  | OtherKey.

Definition apply_update (d : Dataset) (u : dataset_update) : Dataset :=
  let 'mkDataset id t p s n c i sph rig ex ms h := d in
  match u with
  | SetName x => mkDataset id t p s x c i sph rig ex ms h
  | SetCameraModel x => mkDataset id t p s n x i sph rig ex ms h
  | SetIntrinsicsMode x => mkDataset id t p s n c x sph rig ex ms h
  | SetSpherical x => mkDataset id t p s n c i x rig ex ms h
  | SetRigConfig x => mkDataset id t p s n c i sph x ex ms h
  | SetRespectExif x => mkDataset id t p s n c i sph rig x ms h
  | SetMaskset x => mkDataset id t p s n c i sph rig ex x h
  | OtherKey => d
  end.

Definition patch_dataset (tenant id : string) (updates : list dataset_update) : call Dataset :=
  d ← get_dataset tenant id None;
  if is_nil updates then mret d
  else
    let d := foldl apply_update d updates in
    clash ← gets (dataset_name_taken id (d_project_id d) (d_name d));
    _ ← guard (negb clash) (error ConflictError "Dataset name conflict on update");
    _ ← modify (λ w, set_datasets (put_row dataset_id d (datasets w)) w);
    mret d.

(** *** The manifest *)

(** [ORDER BY name]; rows of equal name keep the table's order. *)
Definition name_le (a b : Image) : Prop := String.le (i_name a) (i_name b).

#[export] Instance name_le_dec a b : Decision (name_le a b).
Proof. unfold name_le. apply _. Defined.

Definition images_by_name (rows : list Image) : list Image := merge_sort name_le rows.

Definition manifest_payload (rows : list Image) : value :=
  VDict [("images", VList ((λ i, VPair (i_name i, content_sha i)) <$> images_by_name rows))].

Definition manifest_of (rows : list Image) : string := content_address (canonical_json (manifest_payload rows)).

Definition set_manifest_hash (h : string) (d : Dataset) : Dataset :=
  let 'mkDataset id t p s n c i sph rig ex ms _ := d in mkDataset id t p s n c i sph rig ex ms h.

Definition recompute_manifest_hash (dataset : string) : call string :=
  h ← gets (λ w, manifest_of (select (in_dataset dataset) (images w)));
  _ ← modify (λ w, set_datasets (update_where (λ d, bool_decide (dataset_id d = dataset)) (set_manifest_hash h) (datasets w)) w);
  mret h.

(** ** Images *)

Definition image_name_taken (dataset name : string) (w : Data) : bool :=
  existsb (λ i, bool_decide (i_dataset_id i = dataset) && bool_decide (i_name i = name)) (images w).

(** What the kinds check and fill in: the relative path and the size. *)
Definition prepare_image (kind sha : string) (rel : option string) (size : option Z) : call (option string * option Z) :=
  if decide (kind = "upload") then
    b ← gets (λ w, blobs w !! sha);
    b ← found b (error NotFoundError ("Blob " +:+ sha +:+ " not found"));
    _ ← modify (λ w, set_blobs (alter retain_blob sha (blobs w)) w);
    mret (rel, match size with Some n => Some n | None => Some (Uploads.byte_size b) end)
  else if decide (kind = "local") then
    match rel with
    | None => raise (error ValidationError "local images require rel_path")
    | Some r => r ← lift (validate_safe_relative_path "rel_path" r); mret (Some r, size)
    end
  else mret (rel, size).

Definition add_image (new_id tenant : string) (d : Dataset) (name sha kind : string) (rel : option string) (size w_ h_ : option Z)
    (exif : value) : call Image :=
  _ ← lift (validate_safe_relative_path "name" name);
  source ← gets (λ w, row_get source_id (d_source_id d) (sources w));
  source ← found source (error NotFoundError "dataset source not found");
  _ ← guard (bool_decide (s_kind source = kind))
        (error ValidationError (kind +:+ " images require a " +:+ kind +:+ " dataset source"));
  rs ← prepare_image kind sha rel size;
  let i := mkImage new_id tenant (dataset_id d) name sha rs.2 w_ h_ exif None kind rs.1 in
  _ ← add_row images set_images (λ w, id_taken image_id new_id (images w) || image_name_taken (dataset_id d) name w)
        (error ConflictError ("Image " +:+ str_repr name +:+ " already exists in dataset")) i;
  _ ← recompute_manifest_hash (dataset_id d);
  mret i.

Definition get_image (tenant id : string) : call Image :=
  i ← gets (λ w, row_get image_id id (select (λ i, bool_decide (i_tenant_id i = tenant)) (images w)));
  found i (error NotFoundError ("Image " +:+ id +:+ " not found")).

Definition with_prior (p : option value) (i : Image) : Image :=
  mkImage (image_id i) (i_tenant_id i) (i_dataset_id i) (i_name i) (content_sha i) (i_byte_size i) (i_width i) (i_height i)
    (exif_json i) p (source_kind i) (rel_path i).

(** Assigning [None] stores JSON null. *)
Definition set_pose_prior (tenant id : string) (prior : value) : call Image :=
  i ← get_image tenant id;
  let i := with_prior (Some prior) i in
  _ ← modify (λ w, set_images (put_row image_id i (images w)) w);
  mret i.

Definition has_prior (i : Image) : bool := match pose_prior_json i with Some _ => true | None => false end.
Definition prior_of (i : Image) : value := default VNone (pose_prior_json i).

Definition list_pose_priors (tenant dataset : string) : call (list (Image * value)) :=
  rows ← gets (λ w, images_by_name (select (λ i, of_dataset tenant dataset i && has_prior i) (images w)));
  mret ((λ i, (i, prior_of i)) <$> select (λ i, truthy (prior_of i)) rows).

Definition _delete_image_row (i : Image) : call unit :=
  _ ← modify (λ w, set_blobs (release_image (blobs w) i) w);
  _ ← modify (λ w, set_images (delete_where (λ r, bool_decide (image_id r = image_id i)) (images w)) w);
  _ ← recompute_manifest_hash (i_dataset_id i);
  mret tt.

Definition delete_image (tenant dataset name : string) : call unit :=
  i ← gets (λ w, head (select (λ i, of_dataset tenant dataset i && bool_decide (i_name i = name)) (images w)));
  i ← found i (error NotFoundError ("Image " +:+ name +:+ " not found in dataset"));
  _delete_image_row i.

Definition delete_image_by_id (tenant id : string) : call unit :=
  i ← get_image tenant id;
  _delete_image_row i.

(** Deleting a project. Where the engine enforces foreign keys, the rows of its datasets
    and their images go with it. *)
Definition cascade (enforced : bool) (project : string) (w : Data) : Data :=
  if enforced then
    let ids := dataset_id <$> select (λ d, bool_decide (d_project_id d = project)) (datasets w) in
    set_images (delete_where (λ i, bool_decide (i_dataset_id i ∈ ids)) (images w))
      (set_datasets (delete_where (λ d, bool_decide (d_project_id d = project)) (datasets w)) w)
  else w.

Definition delete_project (enforced : bool) (tenant id : string) : call unit :=
  p ← get_project tenant id;
  _ ← modify (λ w, set_projects (delete_where (λ r, bool_decide (p_project_id r = p_project_id p)) (projects w)) w);
  modify (cascade enforced (p_project_id p)).

(** ** Requests ([api/v1/projects.py], [datasets.py], [images.py]) *)

Record ImageCreate : Type := mkImageCreate {
  c_name : string;
  c_blob_sha : option string;
  c_rel_path : option string;
  c_width : option Z;
  c_height : option Z;
  c_exif : value
}.

Definition zero_sha : string := "0000000000000000000000000000000000000000000000000000000000000000".

Definition _resolve_kind (body : ImageCreate) : res api_error (string * string) :=
  match c_blob_sha body, c_rel_path body with
  | Some _, Some _ => Err (error ValidationError "Exactly one of blob_sha or rel_path is required")
  | Some sha, None => Ok ("upload", sha)
  | None, Some _ => Ok ("local", zero_sha)
  | None, None => Err (error ValidationError "Either blob_sha or rel_path is required")
  end.

Definition register_image (tenant : string) (d : Dataset) (ib : string * ImageCreate) : call Image :=
  kind_sha ← lift (_resolve_kind ib.2);
  add_image ib.1 tenant d (c_name ib.2) kind_sha.2 kind_sha.1 (c_rel_path ib.2) None (c_width ib.2) (c_height ib.2) (c_exif ib.2).

(** The ids of new rows come with the bodies. *)
Definition create_image (tenant dataset : string) (ib : string * ImageCreate) : call Image :=
  d ← get_dataset tenant dataset None;
  register_image tenant d ib.

Definition batch_create (tenant dataset : string) (requests : list (string * ImageCreate)) : call (list Image) :=
  _ ← guard (negb (is_nil requests)) (error ValidationError "requests must be non-empty");
  _ ← guard (length requests <=? 1000)%nat (error ValidationError "batch limit is 1000 items");
  d ← get_dataset tenant dataset None;
  map_each (register_image tenant d) requests.

(** The dataset of the path is not used. *)
Definition bulk_set_pose_priors (tenant dataset : string) (body : dict value) : call nat :=
  _ ← each (λ ip, _ ← set_pose_prior tenant ip.1 ip.2; mret tt) body;
  mret (length body).

Definition post_dataset (source_id_ dataset_id_ tenant project : string) (source : SourceSpec) (name camera intrinsics : string)
    (spherical : bool) (rig : value) (respect_exif : bool) : call Dataset :=
  _ ← get_project tenant project;
  src ← create_image_source source_id_ tenant source;
  create_dataset dataset_id_ tenant project (source_id src) name camera intrinsics spherical rig respect_exif.

Definition remove_dataset (tenant project id : string) : call unit :=
  _ ← get_dataset tenant id (Some project);
  delete_dataset tenant id.

Definition update_dataset (tenant project id : string) (updates : list dataset_update) : call Dataset :=
  _ ← get_dataset tenant id (Some project);
  patch_dataset tenant id updates.

(** [ensure_blob_row] of the upload service: a finalized upload has a blob row. *)
Definition blob_finalized (sha : string) (size : Z) (mime : option string) : call unit :=
  modify (λ w, match blobs w !! sha with
               | Some _ => w
               | None => set_blobs (<[sha := Uploads.mkBlob size mime 0]> (blobs w)) w
               end).

Inductive data_op : Type :=
  | OpCreateProject (id tenant name : string) (description : option string)
  | OpPatchProject (tenant id : string) (updates : list project_update)
  | OpDeleteProject (enforced : bool) (tenant id : string)
  | OpCreateDataset (source_id_ dataset_id_ tenant project : string) (source : SourceSpec) (name camera intrinsics : string)
      (spherical : bool) (rig : value) (respect_exif : bool)
  | OpPatchDataset (tenant project id : string) (updates : list dataset_update)
  | OpDeleteDataset (tenant project id : string)
  | OpCreateImage (tenant dataset : string) (ib : string * ImageCreate)
  | OpBatchCreate (tenant dataset : string) (requests : list (string * ImageCreate))
  | OpDeleteImage (tenant dataset name : string)
  | OpDeleteImageById (tenant id : string)
  | OpSetPosePrior (tenant id : string) (prior : value)
  | OpBulkPosePriors (tenant dataset : string) (body : dict value)
  | OpBlobFinalized (sha : string) (size : Z) (mime : option string).

Definition ignore {A} (m : call A) : call unit := _ ← m; mret tt.

Definition run_data_op (o : data_op) : call unit :=
  match o with
  | OpCreateProject id tenant name description => ignore (create_project id tenant name description)
  | OpPatchProject tenant id updates => ignore (patch_project tenant id updates)
  | OpDeleteProject enforced tenant id => delete_project enforced tenant id
  | OpCreateDataset sid did tenant project source name camera intrinsics spherical rig respect_exif =>
      ignore (post_dataset sid did tenant project source name camera intrinsics spherical rig respect_exif)
  | OpPatchDataset tenant project id updates => ignore (update_dataset tenant project id updates)
  | OpDeleteDataset tenant project id => remove_dataset tenant project id
  | OpCreateImage tenant dataset ib => ignore (create_image tenant dataset ib)
  | OpBatchCreate tenant dataset requests => ignore (batch_create tenant dataset requests)
  | OpDeleteImage tenant dataset name => delete_image tenant dataset name
  | OpDeleteImageById tenant id => delete_image_by_id tenant id
  | OpSetPosePrior tenant id prior => ignore (set_pose_prior tenant id prior)
  | OpBulkPosePriors tenant dataset body => ignore (bulk_set_pose_priors tenant dataset body)
  | OpBlobFinalized sha size mime => blob_finalized sha size mime
  end.

(** One request: a failed one leaves the tables as they were. *)
Definition serve (o : data_op) (w : Data) : Data := match run_data_op o w with Ok (_, w) => w | Err _ => w end.

End Datasets.
