(* ===== verification/DatasetFacts.v ===== *)
(** The invariant of the dataset tables and how the requests keep it. *)
From S2P Require Import Prelude PyValue Readiness Store Hashing Service Errors PathSafety Uploads Datasets.
From stdpp Require Import options.
Import PathSafety Datasets.

#[local] Open Scope Z_scope.
#[local] Opaque sha256_hex validate_safe_relative_path.

(** ** Row lists *)

Lemma elem_app_single {A} (x y : A) l : x ∈ l ++ [y] ↔ x ∈ l ∨ x = y.
Proof. rewrite elem_of_app, list_elem_of_singleton. done. Qed.

Lemma select_app {A} (p : A → bool) l1 l2 : select p (l1 ++ l2) = select p l1 ++ select p l2.
Proof. apply List.filter_app. Qed.

Lemma select_none {A} (p : A → bool) l : (∀ x, x ∈ l → p x = false) → select p l = [].
Proof.
  intros H. apply list_nil_elem. intros x [Hp Hx]%elem_of_select. rewrite H in Hp by done. done.
Qed.

Lemma select_congr {A} (p q : A → bool) l : (∀ x, x ∈ l → p x = q x) → select p l = select q l.
Proof.
  unfold select. induction l as [|x l IH]; intros H; [done|]. cbn. rewrite (H x) by list_in.
  rewrite IH; [done|]. intros y Hy. apply H. by constructor.
Qed.

Lemma delete_where_select {A} (p : A → bool) l : delete_where p l = select (λ x, negb (p x)) l.
Proof. done. Qed.

(** Deleting other rows leaves a selection alone. *)
Lemma select_delete {A} (p q : A → bool) l : (∀ x, x ∈ l → p x = true → q x = false) → select p (delete_where q l) = select p l.
Proof.
  induction l as [|x l IH]; intros H; [done|].
  assert (select p (delete_where q l) = select p l) as Hl by (apply IH; intros y Hy; apply H; by constructor).
  specialize (H x ltac:(list_in)). unfold delete_where, select in *. cbn.
  destruct (q x) eqn:Hq; cbn; destruct (p x) eqn:Hp; rewrite ?Hl; try done. by discriminate H.
Qed.

Lemma delete_where_sublist {A} (p : A → bool) l : sublist (delete_where p l) l.
Proof. unfold delete_where. induction l as [|x l IH]; cbn; [done|]. destruct (p x); cbn; by constructor. Qed.

Lemma fmap_delete_NoDup {A B} (f : A → B) (p : A → bool) l : NoDup (f <$> l) → NoDup (f <$> delete_where p l).
Proof. intros H. eapply sublist_NoDup; [exact H|]. apply fmap_sublist, delete_where_sublist. Qed.

(** Inserting a row whose key is not taken. *)
Lemma fmap_insert_NoDup {A B} `{EqDecision B} (f : A → B) r l : NoDup (f <$> l) → f r ∉ f <$> l → NoDup (f <$> l ++ [r]).
Proof.
  intros Hd Hr. rewrite fmap_app. apply NoDup_app. split_and!; [done| |by apply NoDup_singleton].
  cbn. intros x Hx ->%list_elem_of_singleton. done.
Qed.

(** Updating rows without touching the key. *)
Lemma fmap_update {A B} (f : A → B) (p : A → bool) (g : A → A) l :
  (∀ x, f (g x) = f x) → f <$> update_where p g l = f <$> l.
Proof.
  intros H. unfold update_where. rewrite <-list_fmap_compose. apply list_fmap_ext. intros i x _. cbn. by destruct (p x).
Qed.

Lemma id_not_taken {A} (key : A → string) id rows : id_taken key id rows = false → id ∉ key <$> rows.
Proof.
  unfold id_taken. rewrite Readiness.existsb_false. intros H (r & -> & Hr)%list_elem_of_fmap.
  specialize (H r Hr). by rewrite bool_decide_true in H.
Qed.

(** ** The invariant *)

Definition uses (sha : string) (i : Image) : bool := bool_decide (source_kind i = "upload") && bool_decide (content_sha i = sha).

(** The images whose bytes are the blob. *)
Definition references (sha : string) (rows : list Image) : Z := Z.of_nat (length (select (uses sha) rows)).

Definition image_key (i : Image) : string * string := (i_dataset_id i, i_name i).
Definition dataset_key (d : Dataset) : string * string := (d_project_id d, d_name d).
Definition project_key (p : Project) : string * string := (p_tenant_id p, p_name p).

(** The names of an image are safe, and it comes from where its dataset's images come from. *)
Definition well_placed (w : Data) (i : Image) : Prop :=
  (∃ d s, d ∈ datasets w ∧ dataset_id d = i_dataset_id i ∧ d_tenant_id d = i_tenant_id i ∧
     s ∈ sources w ∧ source_id s = d_source_id d ∧ s_kind s = source_kind i) ∧
  source_kind i ∈ ["upload"; "local"] ∧
  validate_safe_relative_path "name" (i_name i) = Ok (i_name i) ∧
  (source_kind i = "local" → ∃ r, rel_path i = Some r ∧ validate_safe_relative_path "rel_path" r = Ok r) ∧
  (source_kind i = "upload" → is_Some (blobs w !! content_sha i)).

(** The stored hash is that of the images there are; it is empty until one was registered. *)
Definition hash_current (rows : list Image) (d : Dataset) : Prop :=
  let own := select (in_dataset (dataset_id d)) rows in
  manifest_hash d = manifest_of own ∨ (own = [] ∧ manifest_hash d = "").

(** [stale] is the dataset whose hash is about to be recomputed. *)
Record consistent_but (stale : option string) (w : Data) : Prop := {
  project_ids_unique : NoDup (p_project_id <$> projects w);
  project_names_unique : NoDup (project_key <$> projects w);
  source_ids_unique : NoDup (source_id <$> sources w);
  dataset_ids_unique : NoDup (dataset_id <$> datasets w);
  dataset_names_unique : NoDup (dataset_key <$> datasets w);
  dataset_sources : ∀ d, d ∈ datasets w → ∃ s, s ∈ sources w ∧ source_id s = d_source_id d;
  image_ids_unique : NoDup (image_id <$> images w);
  image_names_unique : NoDup (image_key <$> images w);
  images_well_placed : ∀ i, i ∈ images w → well_placed w i;
  hashes_current : ∀ d, d ∈ datasets w → stale ≠ Some (dataset_id d) → hash_current (images w) d;
  refcounts_cover : ∀ sha b, blobs w !! sha = Some b → references sha (images w) ≤ Uploads.refcount b
}.

Abbreviation consistent := (consistent_but None).

(** Every reference count is the number of references. *)
Definition counted (w : Data) : Prop :=
  ∀ sha b, blobs w !! sha = Some b → Uploads.refcount b = references sha (images w).

(** ** Reference counts *)

Lemma references_app sha l1 l2 : references sha (l1 ++ l2) = references sha l1 + references sha l2.
Proof. unfold references. rewrite select_app, length_app. lia. Qed.

Lemma references_nonneg sha l : 0 ≤ references sha l.
Proof. unfold references. lia. Qed.

Lemma references_cons sha i l : references sha (i :: l) = (if uses sha i then 1 else 0) + references sha l.
Proof. unfold references, select. cbn. destruct (uses sha i); cbn [length]; lia. Qed.

Lemma references_split sha (p : Image → bool) l :
  references sha l = references sha (select p l) + references sha (delete_where p l).
Proof.
  induction l as [|i l IH]; [done|]. unfold select, delete_where in *. cbn. destruct (p i); cbn; rewrite !references_cons; lia.
Qed.

(** Releasing rows lowers each count by its references, never below zero. *)
Lemma release_images_count rows sha m b :
  m !! sha = Some b → 0 ≤ Uploads.refcount b →
  ∃ b', foldl release_image m rows !! sha = Some b' ∧ Uploads.refcount b' = Z.max 0 (Uploads.refcount b - references sha rows).
Proof.
  revert m b. induction rows as [|i rows IH]; intros m b Hm Hb; cbn [foldl].
  { exists b. split; [done|]. change (references sha []) with 0. lia. }
  rewrite references_cons. pose proof (references_nonneg sha rows). unfold release_image at 2, uses.
  destruct (decide (source_kind i = "upload")) as [Hk|Hk].
  - rewrite bool_decide_true by done. cbn [andb]. destruct (decide (content_sha i = sha)) as [->|Hne].
    + rewrite bool_decide_true by done. destruct (IH (alter release_blob sha m) (release_blob b)) as (b' & ? & Hc).
      * by rewrite lookup_alter_eq, Hm.
      * cbn. lia.
      * exists b'. split; [done|]. rewrite Hc. cbn. lia.
    + rewrite bool_decide_false by done. destruct (IH (alter release_blob (content_sha i) m) b) as (b' & ? & Hc); [|done|].
      * by rewrite lookup_alter_ne.
      * exists b'. split; [done|]. lia.
  - rewrite bool_decide_false by done. cbn [andb]. destruct (IH m b Hm Hb) as (b' & ? & Hc). exists b'. split; [done|]. lia.
Qed.

Lemma release_images_none rows sha m : foldl release_image m rows !! sha = None ↔ m !! sha = None.
Proof.
  revert m. induction rows as [|i rows IH]; intros m; cbn [foldl]; [done|]. rewrite IH. unfold release_image.
  case_decide; [|done]. destruct (decide (content_sha i = sha)) as [->|].
  - rewrite lookup_alter_eq. by destruct (m !! sha).
  - by rewrite lookup_alter_ne.
Qed.

Lemma release_images_Some rows sha m : is_Some (foldl release_image m rows !! sha) ↔ is_Some (m !! sha).
Proof. rewrite <-!not_eq_None_Some. by rewrite release_images_none. Qed.

(** ** Rewriting one row *)

Lemma fmap_update_at {A B} (f : A → B) (p : A → bool) (g : A → A) l :
  (∀ x, x ∈ l → p x = true → f (g x) = f x) → f <$> update_where p g l = f <$> l.
Proof.
  intros H. unfold update_where. rewrite <-list_fmap_compose. apply list_fmap_ext. intros i x Hx%list_elem_of_lookup_2. cbn.
  destruct (p x) eqn:Hp; auto.
Qed.

Lemma put_row_ids {A} (key : A → string) r l : key <$> put_row key r l = key <$> l.
Proof. apply fmap_update_at. intros x _ Hx%bool_decide_eq_true. done. Qed.

Lemma elem_put_row {A} (key : A → string) r x l :
  x ∈ put_row key r l → (x = r ∧ key r ∈ key <$> l) ∨ (x ∈ l ∧ key x ≠ key r).
Proof.
  unfold put_row. intros (y & Hy & ->)%elem_of_update_where. case_bool_decide as He; [left|by right].
  split; [done|]. rewrite <-He. by apply list_elem_of_fmap_2.
Qed.

Lemma put_row_NoDup {A B} (key : A → string) (f : A → B) r l :
  NoDup (key <$> l) → NoDup (f <$> l) → (∀ x, x ∈ l → key x ≠ key r → f x ≠ f r) → NoDup (f <$> put_row key r l).
Proof.
  induction l as [|x l IH]; [done|]. rewrite !fmap_cons, !NoDup_cons. intros [Hk Hkl] [Hf Hfl] Hx.
  change (put_row key r (x :: l)) with ((if bool_decide (key x = key r) then r else x) :: put_row key r l).
  rewrite fmap_cons, NoDup_cons. split; [|apply IH; [done..|]; intros y Hy; apply Hx; by constructor].
  intros (y & Hy & Hin)%list_elem_of_fmap. apply elem_put_row in Hin. case_bool_decide as Hxr.
  - destruct Hin as [[-> Hin]|[Hin Hne]]; [apply Hk; by rewrite Hxr|]. by apply (Hx y); [constructor|..].
  - destruct Hin as [[-> _]|[Hin Hne]]; [by apply (Hx x); [list_in|..]|]. apply Hf. rewrite Hy. by apply list_elem_of_fmap_2.
Qed.

Lemma key_inj {A} (key : A → string) l x y : NoDup (key <$> l) → x ∈ l → y ∈ l → key x = key y → x = y.
Proof.
  intros Hd Hx Hy He. pose proof (elem_row_get key l x Hd Hx) as H1. pose proof (elem_row_get key l y Hd Hy) as H2.
  rewrite He in H1. congruence.
Qed.

(** ** Placement *)

Lemma well_placed_mono w w' i :
  (∀ d, d ∈ datasets w → ∃ d', d' ∈ datasets w' ∧ dataset_id d' = dataset_id d ∧ d_tenant_id d' = d_tenant_id d ∧
     d_source_id d' = d_source_id d) →
  (∀ s, s ∈ sources w → s ∈ sources w') →
  (∀ sha, is_Some (blobs w !! sha) → is_Some (blobs w' !! sha)) →
  well_placed w i → well_placed w' i.
Proof.
  intros Hd Hs Hb ((d & s & H1 & H2 & H3 & H4 & H5 & H6) & Hk & Hn & Hl & Hu). split; [|split_and!; auto].
  destruct (Hd d H1) as (d' & ? & Hi & Ht & Hsrc). exists d', s.
  rewrite Hi, Ht, Hsrc. split_and!; auto.
Qed.

(** ** Projects and sources *)

Lemma consistent_projects ps w :
  NoDup (p_project_id <$> ps) → NoDup (project_key <$> ps) → consistent w → consistent (set_projects ps w).
Proof. intros H1 H2 []. by split. Qed.

Lemma consistent_source s w :
  source_id s ∉ source_id <$> sources w → consistent w → consistent (set_sources (sources w ++ [s]) w).
Proof.
  intros Hs []. split; cbn; try done.
  - by apply fmap_insert_NoDup.
  - intros d (s' & ? & ?)%dataset_sources0. exists s'. by rewrite elem_of_app; auto.
  - intros i Hi%images_well_placed0. eapply well_placed_mono; [..|exact Hi]; cbn; try done.
    + intros d Hd. by exists d.
    + intros s' Hs'. rewrite elem_of_app. by left.
Qed.

(** ** Datasets *)

Lemma consistent_dataset d s w :
  dataset_id d ∉ dataset_id <$> datasets w → dataset_key d ∉ dataset_key <$> datasets w →
  s ∈ sources w → source_id s = d_source_id d → manifest_hash d = "" →
  consistent w → consistent (set_datasets (datasets w ++ [d]) w).
Proof.
  intros Hid Hkey Hs Hsd Hh []. split; cbn; try done.
  - by apply fmap_insert_NoDup.
  - by apply fmap_insert_NoDup.
  - intros d' [Hd| ->]%elem_app_single; [by auto|by exists s].
  - intros i Hi%images_well_placed0. eapply well_placed_mono; [..|exact Hi]; cbn; try done.
    intros d' Hd. exists d'. by rewrite elem_of_app; auto.
  - intros d' [Hd| ->]%elem_app_single _; [by auto|]. right. split; [|done]. apply select_none. intros i Hi.
    unfold in_dataset. apply bool_decide_eq_false. intros He.
    destruct (images_well_placed0 i Hi) as ((d0 & _ & Hd0 & Hi0 & _) & _). apply Hid. rewrite <-He, <-Hi0.
    by apply list_elem_of_fmap_2.
Qed.

(** A dataset rewritten under its id, with the columns that never change. *)
Lemma consistent_put_dataset d d0 w :
  d0 ∈ datasets w → dataset_id d = dataset_id d0 → d_tenant_id d = d_tenant_id d0 → d_source_id d = d_source_id d0 →
  manifest_hash d = manifest_hash d0 →
  (∀ x, x ∈ datasets w → dataset_id x ≠ dataset_id d → dataset_key x ≠ dataset_key d) →
  consistent w → consistent (set_datasets (put_row dataset_id d (datasets w)) w).
Proof.
  intros Hd0 Hid Ht Hsrc Hh Hkey Hc. pose proof Hc as []. split; cbn; try done.
  - by rewrite put_row_ids.
  - by apply put_row_NoDup.
  - intros x [[-> _]|[Hx _]]%elem_put_row; [|by auto]. rewrite Hsrc. auto.
  - intros i Hi%images_well_placed0. eapply well_placed_mono; [..|exact Hi]; cbn; try done.
    intros x Hx. destruct (decide (dataset_id x = dataset_id d)) as [He|He].
    + exists d. assert (x = d0) as ->.
      { apply (key_inj dataset_id (datasets w)); congruence. }
      split_and!; try done. unfold put_row. apply elem_of_update_where. exists d0. by rewrite bool_decide_true.
    + exists x. split_and!; try done. unfold put_row. apply elem_of_update_where. exists x. by rewrite bool_decide_false.
  - intros x [[-> _]|[Hx _]]%elem_put_row _; [|by apply hashes_current0].
    specialize (hashes_current0 d0 Hd0 ltac:(done)). unfold hash_current in *. by rewrite Hid, Hh.
Qed.

(** ** The manifest hash *)

Lemma set_manifest_hash_cols h d :
  dataset_id (set_manifest_hash h d) = dataset_id d ∧ d_tenant_id (set_manifest_hash h d) = d_tenant_id d ∧
  d_source_id (set_manifest_hash h d) = d_source_id d ∧ dataset_key (set_manifest_hash h d) = dataset_key d ∧
  manifest_hash (set_manifest_hash h d) = h.
Proof. by destruct d. Qed.

(** Rows sorted by distinct keys are determined by their contents. *)
Lemma sorted_keys_unique {V} (l1 l2 : list (string * V)) :
  NoDup (l1.*1) → Sorted String.le (l1.*1) → Sorted String.le (l2.*1) → l1 ≡ₚ l2 → l1 = l2.
Proof.
  intros Hd H1 H2 Hp. assert (l1.*1 = l2.*1) as Hk.
  { apply (Sorted_unique String.le); [done..|]. by rewrite Hp. }
  apply list_eq. intros i. pose proof (f_equal (lookup i) Hk) as Hi. rewrite !list_lookup_fmap in Hi.
  destruct (l1 !! i) as [[k v]|] eqn:E1, (l2 !! i) as [[k' v']|] eqn:E2; try done. injection Hi as <-.
  apply list_elem_of_lookup_2 in E1, E2. rewrite <-Hp in E2.
  apply (dict_elem_get k v l1 Hd) in E1. apply (dict_elem_get k v' l1 Hd) in E2. congruence.
Qed.

Definition manifest_entry (i : Image) : string * string := (i_name i, content_sha i).

Lemma images_by_name_sorted rows : Sorted String.le ((manifest_entry <$> images_by_name rows).*1).
Proof.
  assert (Sorted name_le (images_by_name rows)) as Hs.
  { apply Sorted_merge_sort. intros a b. unfold name_le. apply total. apply _. }
  induction Hs as [|i l _ IH Hhd]; [constructor|]. cbn. constructor; [exact IH|].
  destruct Hhd as [|j l Hj]; constructor. exact Hj.
Qed.

Lemma images_by_name_perm rows : images_by_name rows ≡ₚ rows.
Proof. apply merge_sort_Permutation. Qed.

(** The manifest depends on the names and contents only, in any order. *)
Lemma manifest_entries rows1 rows2 :
  NoDup (i_name <$> rows1) → manifest_entry <$> rows1 ≡ₚ manifest_entry <$> rows2 →
  manifest_entry <$> images_by_name rows1 = manifest_entry <$> images_by_name rows2.
Proof.
  intros Hd Hp. apply sorted_keys_unique; [|apply images_by_name_sorted..|by rewrite !images_by_name_perm].
  rewrite <-list_fmap_compose. change (fst ∘ manifest_entry) with i_name. by rewrite images_by_name_perm.
Qed.

Lemma manifest_payload_entries rows :
  manifest_payload rows = VDict [("images", VList (VPair <$> (manifest_entry <$> images_by_name rows)))].
Proof. unfold manifest_payload. by rewrite <-list_fmap_compose. Qed.

Lemma manifest_of_perm rows1 rows2 :
  NoDup (i_name <$> rows1) → manifest_entry <$> rows1 ≡ₚ manifest_entry <$> rows2 → manifest_of rows1 = manifest_of rows2.
Proof. intros Hd Hp. unfold manifest_of. rewrite !manifest_payload_entries. by rewrite (manifest_entries rows1 rows2). Qed.

(** The images of one dataset have distinct names. *)
Lemma own_names_unique w id : NoDup (image_key <$> images w) → NoDup (i_name <$> select (in_dataset id) (images w)).
Proof.
  induction (images w) as [|i l IH]; [constructor|]. rewrite fmap_cons, NoDup_cons. intros [Hi Hl]. unfold select in *. cbn.
  destruct (in_dataset id i) eqn:E; [|by apply IH]. rewrite fmap_cons, NoDup_cons. split; [|by apply IH].
  intros (j & Hn & Hj)%list_elem_of_fmap. apply Hi. apply elem_of_select in Hj as [Hj ?].
  unfold in_dataset in *. apply bool_decide_eq_true in E, Hj. apply list_elem_of_fmap. exists j. split; [|done].
  unfold image_key. congruence.
Qed.

(** The state after recomputing one dataset's hash. *)
Definition refreshed (id : string) (w : Data) : Data :=
  set_datasets (update_where (λ d, bool_decide (dataset_id d = id))
    (set_manifest_hash (manifest_of (select (in_dataset id) (images w)))) (datasets w)) w.

Lemma recompute_spec id w h w' : recompute_manifest_hash id w = Ok (h, w') → w' = refreshed id w.
Proof. intros H. unfold recompute_manifest_hash in H. svc_inv H. done. Qed.

Lemma consistent_refreshed id w : consistent_but (Some id) w → consistent (refreshed id w).
Proof.
  intros []. unfold refreshed. set (h := manifest_of _). split; cbn; try done.
  - rewrite fmap_update; [done|]. intros x. apply set_manifest_hash_cols.
  - rewrite fmap_update; [done|]. intros x. apply set_manifest_hash_cols.
  - intros d (d0 & Hd0 & ->)%elem_of_update_where. destruct (set_manifest_hash_cols h d0) as (_ & _ & Hs & _).
    case_match; rewrite ?Hs; by apply dataset_sources0.
  - intros i Hi%images_well_placed0. eapply well_placed_mono; [..|exact Hi]; cbn; try done.
    intros d Hd. destruct (set_manifest_hash_cols h d) as (H1 & H2 & H3 & _).
    exists (if bool_decide (dataset_id d = id) then set_manifest_hash h d else d).
    split; [apply elem_of_update_where; by exists d|]. case_match; auto.
  - intros d (d0 & Hd0 & ->)%elem_of_update_where _. case_bool_decide as He.
    + left. destruct (set_manifest_hash_cols h d0) as (-> & _ & _ & _ & ->). by rewrite He.
    + apply hashes_current0; congruence.
Qed.

(** ** Adding an image *)

(** The blobs after a new image took its reference, if it takes one. *)
Definition retained (i : Image) (m : gmap string Uploads.Blob) : gmap string Uploads.Blob :=
  if decide (source_kind i = "upload") then alter retain_blob (content_sha i) m else m.

Lemma retained_Some i sha m : is_Some (retained i m !! sha) ↔ is_Some (m !! sha).
Proof.
  unfold retained. case_decide; [|done]. destruct (decide (content_sha i = sha)) as [->|].
  - by rewrite lookup_alter_eq, fmap_is_Some.
  - by rewrite lookup_alter_ne.
Qed.

Lemma retained_count i sha m b :
  retained i m !! sha = Some b →
  ∃ b0, m !! sha = Some b0 ∧ Uploads.refcount b = Uploads.refcount b0 + references sha [i].
Proof.
  unfold retained. rewrite (references_cons sha i []). change (references sha []) with 0. unfold uses.
  case_decide as Hk; [rewrite bool_decide_true by done|rewrite bool_decide_false by done]; cbn [andb].
  - destruct (decide (content_sha i = sha)) as [->|Hne].
    + rewrite lookup_alter_eq, bool_decide_true by done. intros (b0 & -> & ->)%fmap_Some. exists b0. split; [done|]. cbn. lia.
    + rewrite lookup_alter_ne, bool_decide_false by done. intros H. exists b. split; [done|]. lia.
  - intros H. exists b. split; [done|]. lia.
Qed.

(** The state with an image inserted, its hash still to be recomputed. *)
Definition inserted (i : Image) (w : Data) : Data := set_images (images w ++ [i]) (set_blobs (retained i (blobs w)) w).

Lemma consistent_inserted i w :
  image_id i ∉ image_id <$> images w → image_key i ∉ image_key <$> images w → well_placed w i →
  consistent w → consistent_but (Some (i_dataset_id i)) (inserted i w).
Proof.
  intros Hid Hkey Hp []. split; cbn; try done.
  - by apply fmap_insert_NoDup.
  - by apply fmap_insert_NoDup.
  - intros x Hx%elem_app_single. eapply (well_placed_mono w); cbn; try done.
    + intros d Hd. by exists d.
    + intros sha. apply retained_Some.
    + destruct Hx as [Hx| ->]; auto.
  - intros d Hd Hne. specialize (hashes_current0 d Hd ltac:(done)). unfold hash_current in *.
    rewrite select_app. replace (select (in_dataset (dataset_id d)) [i]) with (@nil Image); [by rewrite app_nil_r|].
    cbn. unfold in_dataset. rewrite bool_decide_false by congruence. done.
  - intros sha b (b0 & Hb0 & ->)%retained_count. rewrite references_app. specialize (refcounts_cover0 sha b0 Hb0). lia.
Qed.

Lemma counted_inserted i w : counted w → counted (inserted i w).
Proof. intros Hc sha b (b0 & Hb0 & ->)%retained_count. cbn. rewrite references_app, (Hc sha b0) by done. lia. Qed.

(** ** Deleting images *)

(** The state with the images of a selection gone and their blobs released. *)
Definition removed (p : Image → bool) (w : Data) : Data :=
  set_images (delete_where p (images w)) (set_blobs (foldl release_image (blobs w) (select p (images w))) w).

Lemma removed_count p w sha b :
  (∀ sha b, blobs w !! sha = Some b → references sha (images w) ≤ Uploads.refcount b) →
  blobs (removed p w) !! sha = Some b →
  ∃ b0, blobs w !! sha = Some b0 ∧ Uploads.refcount b = Uploads.refcount b0 - references sha (select p (images w)).
Proof.
  intros Hcover Hb. assert (is_Some (blobs w !! sha)) as [b0 Hb0].
  { rewrite <-(release_images_Some (select p (images w))). by exists b. }
  exists b0. split; [done|]. pose proof (Hcover sha b0 Hb0) as Hc.
  rewrite (references_split sha p) in Hc. pose proof (references_nonneg sha (select p (images w))).
  pose proof (references_nonneg sha (delete_where p (images w))).
  destruct (release_images_count (select p (images w)) sha (blobs w) b0) as (b' & Hb' & Hr); [done|lia|].
  cbn in Hb. rewrite Hb in Hb'. injection Hb' as <-. lia.
Qed.

Lemma consistent_removed p stale w :
  (∀ d i, d ∈ datasets w → stale ≠ Some (dataset_id d) → i ∈ images w → in_dataset (dataset_id d) i = true → p i = false) →
  consistent w → consistent_but stale (removed p w).
Proof.
  intros Hp Hc. pose proof Hc as []. split; cbn; try done.
  - by apply fmap_delete_NoDup.
  - by apply fmap_delete_NoDup.
  - intros i [_ Hi]%elem_of_delete_where. eapply (well_placed_mono w); cbn; try done; [..|by auto].
    + intros d Hd. by exists d.
    + intros sha. apply release_images_Some.
  - intros d Hd Hne. specialize (hashes_current0 d Hd ltac:(done)). unfold hash_current in *.
    rewrite select_delete; [done|]. intros i Hi. by apply Hp.
  - intros sha b Hb. destruct (removed_count p w sha b refcounts_cover0 Hb) as (b0 & Hb0 & ->).
    specialize (refcounts_cover0 sha b0 Hb0). rewrite (references_split sha p) in refcounts_cover0. lia.
Qed.

Lemma counted_removed p w : consistent w → counted w → counted (removed p w).
Proof.
  intros [] Hc sha b Hb. destruct (removed_count p w sha b refcounts_cover0 Hb) as (b0 & Hb0 & ->).
  rewrite (Hc sha b0 Hb0), (references_split sha p). cbn. lia.
Qed.

(** Deleting datasets that have no images left, a stale one among them. *)
Lemma consistent_drop_datasets stale (q : Dataset → bool) w :
  (∀ d i, d ∈ datasets w → q d = true → i ∈ images w → i_dataset_id i ≠ dataset_id d) →
  (∀ d, d ∈ datasets w → stale = Some (dataset_id d) → q d = true) →
  consistent_but stale w → consistent (set_datasets (delete_where q (datasets w)) w).
Proof.
  intros Hq Hst []. split; cbn; try done.
  - by apply fmap_delete_NoDup.
  - by apply fmap_delete_NoDup.
  - intros d [_ Hd]%elem_of_delete_where. auto.
  - intros i Hi. destruct (images_well_placed0 i Hi) as ((d & s & Hd & He & ?) & ?). split; [|done]. exists d, s.
    split; [|done]. apply elem_of_delete_where. split; [|done]. destruct (q d) eqn:E; [|done].
    by destruct (Hq d i Hd E Hi).
  - intros d [Hp Hd]%elem_of_delete_where _. apply hashes_current0; [done|]. intros E. rewrite (Hst d Hd E) in Hp. done.
Qed.

(** ** Priors *)

Lemma consistent_prior i0 prior w :
  i0 ∈ images w → consistent w → consistent (set_images (put_row image_id (with_prior prior i0) (images w)) w) ∧
  (counted w → counted (set_images (put_row image_id (with_prior prior i0) (images w)) w)).
Proof.
  intros Hi0 Hc. pose proof Hc as [].
  assert (∀ x, x ∈ images w → image_id x = image_id (with_prior prior i0) → x = i0) as Hsame
    by (intros x Hx He; by apply (key_inj image_id (images w))).
  set (put := put_row image_id (with_prior prior i0)).
  assert (∀ B (f : Image → B), (∀ x, f (with_prior prior x) = f x) → f <$> put (images w) = f <$> images w) as Hf.
  { intros B f Hx. apply fmap_update_at. intros x Hin Hid%bool_decide_eq_true. rewrite (Hsame x Hin Hid). apply Hx. }
  assert (∀ p : Image → bool, (∀ x, p (with_prior prior x) = p x) →
    select p (put (images w)) = (λ x, if bool_decide (image_id x = image_id i0) then with_prior prior i0 else x) <$> select p (images w)) as Hsel.
  { intros p Hp. subst put. unfold put_row, update_where. change (image_id (with_prior prior i0)) with (image_id i0).
    assert (∀ l, l ⊆ images w → select p ((λ r, if bool_decide (image_id r = image_id i0) then with_prior prior i0 else r) <$> l) =
      (λ x, if bool_decide (image_id x = image_id i0) then with_prior prior i0 else x) <$> select p l) as Hl; [|by apply Hl].
    unfold select. induction l as [|x l IH]; intros Hl; [done|]. cbn.
    rewrite IH by (intros y Hy; apply Hl; by constructor).
    assert (p (if bool_decide (image_id x = image_id i0) then with_prior prior i0 else x) = p x) as ->.
    { case_bool_decide as He; [|done]. rewrite Hp. by rewrite (Hsame x) by (done || apply Hl; list_in). }
    by destruct (p x). }
  assert (∀ sha, references sha (put (images w)) = references sha (images w)) as Hrefs.
  { intros sha. unfold references. rewrite (Hsel (uses sha)) by done. by rewrite length_fmap. }
  split; [|intros Hcount sha b Hb; cbn in *; by rewrite Hrefs, (Hcount sha b)].
  split; cbn; try done.
  - by rewrite Hf.
  - by rewrite Hf.
  - intros x [[-> _]|[Hx _]]%elem_put_row; [exact (images_well_placed0 i0 Hi0)|exact (images_well_placed0 x Hx)].
  - intros d Hd _. specialize (hashes_current0 d Hd ltac:(done)). unfold hash_current in *.
    rewrite (Hsel (in_dataset (dataset_id d))) by done. destruct hashes_current0 as [->|[-> ->]]; [left|by right].
    apply manifest_of_perm; [by apply own_names_unique|]. rewrite <-list_fmap_compose.
    match goal with |- ?a ≡ₚ ?b => assert (a = b) as ->; [|done] end. apply list_fmap_ext. intros k x Hx%list_elem_of_lookup_2. cbn. case_bool_decide as He; [|done].
    apply elem_of_select in Hx as [_ Hx]. by rewrite (Hsame x).
  - intros sha b Hb. rewrite Hrefs. auto.
Qed.

(** ** What each call does when it returns *)

Lemma add_row_spec {A} (get : Data → list A) set taken e r w u w' :
  add_row get set taken e r w = Ok (u, w') → taken w = false ∧ w' = set (get w ++ [r]) w.
Proof. intros H. unfold add_row in H. svc_inv H. by match goal with H : negb _ = true |- _ => apply negb_true_iff in H end. Qed.

Lemma row_of_tenant {A} (key : A → string) (p : A → bool) id l r :
  row_get key id (select p l) = Some r → r ∈ l ∧ p r = true ∧ key r = id.
Proof. intros [[Hp Hr]%elem_of_select Hk]%row_get_elem. done. Qed.

(** The row a query by id and tenant found. *)
Ltac row_found :=
  match goal with
  | H : row_get _ _ (select _ _) = Some _ |- _ =>
      let Hin := fresh "Hin" in let Ht := fresh "Ht" in let Hid := fresh "Hid" in
      apply row_of_tenant in H as (Hin & Ht & Hid); apply bool_decide_eq_true in Ht
  end.

Lemma get_dataset_spec tenant id project w d w' :
  get_dataset tenant id project w = Ok (d, w') →
  w' = w ∧ d ∈ datasets w ∧ d_tenant_id d = tenant ∧ dataset_id d = id ∧ (∀ p, project = Some p → d_project_id d = p).
Proof.
  intros H. unfold get_dataset in H. svc_inv H. row_found.
  destruct project as [p|]; svc_inv H1; split_and!; try done. intros p' [= ->]. by apply bool_decide_eq_true in H1.
Qed.

Lemma get_project_spec tenant id w p w' :
  get_project tenant id w = Ok (p, w') → w' = w ∧ p ∈ projects w ∧ p_tenant_id p = tenant ∧ p_project_id p = id.
Proof. intros H. unfold get_project in H. svc_inv H. by row_found. Qed.

Lemma get_image_spec tenant id w i w' :
  get_image tenant id w = Ok (i, w') → w' = w ∧ i ∈ images w ∧ i_tenant_id i = tenant ∧ image_id i = id.
Proof. intros H. unfold get_image in H. svc_inv H. by row_found. Qed.

Lemma validate_safe_same field s r : validate_safe_relative_path field s = Ok r → r = s.
Proof.
  Transparent validate_safe_relative_path. unfold validate_safe_relative_path.
  intros (? & _ & (? & _ & (? & _ & (? & _ & [= <-])%bind_Ok)%bind_Ok)%bind_Ok)%bind_Ok. done.
Qed.
#[local] Opaque validate_safe_relative_path.

Lemma prepare_image_spec kind sha rel size w rs w' :
  prepare_image kind sha rel size w = Ok (rs, w') →
  (kind = "upload" ∧ is_Some (blobs w !! sha) ∧ w' = set_blobs (alter retain_blob sha (blobs w)) w) ∨
  (kind = "local" ∧ w' = w ∧ ∃ r, rs.1 = Some r ∧ validate_safe_relative_path "rel_path" r = Ok r) ∨
  (kind ≠ "upload" ∧ kind ≠ "local" ∧ w' = w).
Proof.
  unfold prepare_image. destruct (decide (kind = "upload")) as [->|]; [|destruct (decide (kind = "local")) as [->|]].
  - intros H. svc_inv H. left. split_and!; [done|by eexists|done].
  - destruct rel as [r|]; intros H; svc_inv H. right; left. split_and!; [done..|].
    pose proof (validate_safe_same _ _ _ H0) as ->. by exists r.
  - intros H. svc_inv H. by right; right.
Qed.

Lemma image_name_not_taken dataset name w : image_name_taken dataset name w = false → (dataset, name) ∉ image_key <$> images w.
Proof.
  unfold image_name_taken. rewrite Readiness.existsb_false. intros H (i & [= -> ->] & Hi)%list_elem_of_fmap. specialize (H i Hi).
  by rewrite !bool_decide_true in H.
Qed.

(** Adding an image: the row, and the tables with it. *)
Lemma add_image_spec new_id tenant d name sha kind rel size w_ h_ exif w i w' :
  kind ∈ ["upload"; "local"] → d ∈ datasets w → d_tenant_id d = tenant →
  add_image new_id tenant d name sha kind rel size w_ h_ exif w = Ok (i, w') →
  w' = refreshed (dataset_id d) (inserted i w) ∧ i_dataset_id i = dataset_id d ∧ image_id i = new_id ∧
  i_name i = name ∧ content_sha i = sha ∧ source_kind i = kind ∧
  (image_id i ∉ image_id <$> images w) ∧ (image_key i ∉ image_key <$> images w) ∧ well_placed w i.
Proof.
  intros Hkind Hd Ht H. unfold add_image in H. svc_inv H.
  match goal with H : row_get _ _ _ = Some _ |- _ => apply row_get_elem in H as [Hs Hsid] end.
  match goal with H : bool_decide _ = true |- _ => apply bool_decide_eq_true in H as Hsk end.
  match goal with H : prepare_image _ _ _ _ _ = _ |- _ => apply prepare_image_spec in H as Hprep end.
  match goal with H : add_row _ _ _ _ _ _ = _ |- _ => apply add_row_spec in H as [Htaken ->] end.
  match goal with H : recompute_manifest_hash _ _ = _ |- _ => apply recompute_spec in H as -> end.
  match goal with H : validate_safe_relative_path _ _ = Ok _ |- _ => pose proof (validate_safe_same _ _ _ H); subst; rename H into Hname end.
  apply orb_false_iff in Htaken as [Hid%id_not_taken Hkey%image_name_not_taken].
  set (i := mkImage new_id _ _ _ _ _ _ _ _ _ _ _).
  assert (∃ bs, w0 = set_blobs bs w ∧ bs = retained i (blobs w)) as (bs & -> & Hbs).
  { unfold retained. change (source_kind i) with (s_kind a0). destruct Hprep as [(Hk & _ & ->)|[(Hk & -> & _)|(Hn1 & Hn2 & _)]].
    - eexists. split; [done|]. by rewrite decide_True.
    - exists (blobs w). split; [by destruct w|]. by rewrite decide_False by congruence.
    - apply elem_of_cons in Hkind as [?|[?|?%elem_of_nil]%elem_of_cons]; done. }
  split_and!; try done; [by rewrite Hbs|]. split; [|split_and!; try done].
  - exists d, a0. by split_and!.
  - intros Hl. destruct Hprep as [(Hk & _)|[(_ & _ & Hr)|(_ & Hn2 & _)]]; [|exact Hr|done].
    cbn in Hl. congruence.
  - intros Hu. destruct Hprep as [(_ & Hb & _)|[(Hk & _)|(Hn1 & _)]]; [exact Hb| |done]. cbn in Hu. congruence.
Qed.
