(* ===== verification/DatasetInvariant.v ===== *)
(** Every request of the dataset routes keeps the tables' invariant, and exact reference
    counts as long as no cascading project deletion happened. *)
From S2P Require Import Prelude PyValue Readiness Store Hashing Service Errors PathSafety Uploads Datasets DatasetFacts.
From stdpp Require Import options.
Import PathSafety Datasets.

#[local] Open Scope Z_scope.
#[local] Opaque sha256_hex validate_safe_relative_path.

(** ** Every request keeps the invariant *)

(** The invariant, with exact counts as long as [exact]. *)
Definition sound (exact : bool) (w : Data) : Prop := consistent w ∧ (exact = true → counted w).

Section keep.
Context (exact : bool).

(** Changes that leave images and blobs alone. *)
Lemma sound_consistent w w' :
  sound exact w → consistent w' → images w' = images w → blobs w' = blobs w → sound exact w'.
Proof.
  intros [_ Hc] Hw' Hi Hb. split; [done|]. intros He sha b. rewrite Hb, Hi. by apply Hc.
Qed.

Lemma keep_add_image new_id tenant d name sha kind rel size w_ h_ exif w i w' :
  kind ∈ ["upload"; "local"] → d ∈ datasets w → d_tenant_id d = tenant →
  add_image new_id tenant d name sha kind rel size w_ h_ exif w = Ok (i, w') → sound exact w → sound exact w'.
Proof.
  intros Hk Hd Ht H [Hc He]. apply add_image_spec in H as (-> & Hds & _ & _ & _ & _ & Hid & Hkey & Hp); [|done..].
  rewrite <-Hds. split; [by apply consistent_refreshed, consistent_inserted|].
  intros E. exact (counted_inserted i w (He E)).
Qed.

Lemma resolve_kind_cases body k : _resolve_kind body = Ok k → k.1 ∈ ["upload"; "local"].
Proof. unfold _resolve_kind. destruct (c_blob_sha body), (c_rel_path body); intros [= <-]; list_in. Qed.

(** The datasets keep their identity while images are added. *)
Definition still_there (d : Dataset) (w : Data) : Prop :=
  ∃ d', d' ∈ datasets w ∧ dataset_id d' = dataset_id d ∧ d_tenant_id d' = d_tenant_id d ∧ d_source_id d' = d_source_id d.

Lemma add_image_any new_id tenant d d' name sha kind rel size w_ h_ exif :
  dataset_id d' = dataset_id d → d_source_id d' = d_source_id d →
  add_image new_id tenant d name sha kind rel size w_ h_ exif = add_image new_id tenant d' name sha kind rel size w_ h_ exif.
Proof. intros Hi Hs. unfold add_image. by rewrite Hi, Hs. Qed.

Lemma still_there_refreshed d id w : still_there d w → still_there d (refreshed id w).
Proof.
  intros (d' & Hd & Hi & Ht & Hs). set (h := manifest_of (select (in_dataset id) (images w))).
  destruct (set_manifest_hash_cols h d') as (H1 & H2 & H3 & _).
  exists (if bool_decide (dataset_id d' = id) then set_manifest_hash h d' else d').
  split; [apply elem_of_update_where; by exists d'|]. case_match; split_and!; congruence.
Qed.

Lemma keep_register tenant d ib w i w' :
  d_tenant_id d = tenant → register_image tenant d ib w = Ok (i, w') →
  sound exact w ∧ still_there d w → sound exact w' ∧ still_there d w'.
Proof.
  intros Ht H [Hs (d' & Hd' & Hi & Ht' & Hsrc)]. unfold register_image in H. svc_inv H.
  match goal with H : _resolve_kind _ = _ |- _ => apply resolve_kind_cases in H as Hk end.
  match goal with H : add_image _ _ _ _ _ _ _ _ _ _ _ _ = _ |- _ => rename H into Hadd end.
  rewrite (add_image_any _ _ d d') in Hadd by done.
  split; [eapply keep_add_image; [exact Hk|exact Hd'| |exact Hadd|exact Hs]; congruence|].
  apply add_image_spec in Hadd as (-> & _); [|done..|congruence].
  apply still_there_refreshed. by exists d'.
Qed.

Lemma keep_registers tenant d l w is_ w' :
  d_tenant_id d = tenant → map_each (register_image tenant d) l w = Ok (is_, w') →
  sound exact w ∧ still_there d w → sound exact w' ∧ still_there d w'.
Proof.
  intros Ht H Hw. eapply (preserves_map_each (λ w, sound exact w ∧ still_there d w)); [|exact Hw|exact H].
  intros ib _ w0 i w1 Hw0 H1. by eapply keep_register.
Qed.

Lemma select_id i l : NoDup (image_id <$> l) → i ∈ l → select (λ r, bool_decide (image_id r = image_id i)) l = [i].
Proof.
  intros Hd Hi. unfold select. induction l as [|x l IH]; [by apply elem_of_nil in Hi|].
  cbn. rewrite fmap_cons, NoDup_cons in Hd. destruct Hd as [Hx Hd]. apply elem_of_cons in Hi as [->|Hi].
  - rewrite bool_decide_true by done. f_equal. apply (select_none (λ r, bool_decide (image_id r = image_id x))).
    intros y Hy. apply bool_decide_eq_false. intros Hxy. apply Hx. rewrite <-Hxy. by apply list_elem_of_fmap_2.
  - rewrite bool_decide_false by (intros Hix; apply Hx; rewrite Hix; by apply list_elem_of_fmap_2). by apply IH.
Qed.

Lemma keep_delete_row i w u w' :
  i ∈ images w → _delete_image_row i w = Ok (u, w') → sound exact w → sound exact w'.
Proof.
  intros Hi H [Hc He]. unfold _delete_image_row in H. svc_inv H.
  match goal with H : recompute_manifest_hash _ _ = _ |- _ => apply recompute_spec in H as -> end.
  set (p := λ r, bool_decide (image_id r = image_id i)).
  assert (set_images (delete_where p (images w)) (set_blobs (release_image (blobs w) i) w) = removed p w) as Hrem.
  { unfold removed. subst p. rewrite select_id; [done|apply Hc|done]. }
  change (sound exact (refreshed (i_dataset_id i) (set_images (delete_where p (images w)) (set_blobs (release_image (blobs w) i) w)))).
  rewrite Hrem. split.
  - apply consistent_refreshed, consistent_removed; [|done]. intros d x Hd Hne Hx Hdx%bool_decide_eq_true. subst p.
    apply bool_decide_eq_false. intros Hxi. apply Hne. f_equal. rewrite <-Hdx. f_equal. symmetry.
    by apply (key_inj image_id (images w)); [apply Hc|..].
  - intros E. exact (counted_removed p w Hc (He E)).
Qed.

(** The rows of one's own dataset are those of the dataset. *)
Lemma own_rows w d : consistent w → d ∈ datasets w →
  ∀ x, x ∈ images w → of_dataset (d_tenant_id d) (dataset_id d) x = in_dataset (dataset_id d) x.
Proof.
  intros Hc Hd x Hx. unfold of_dataset, in_dataset. destruct (bool_decide (i_dataset_id x = dataset_id d)) eqn:E; [|by rewrite andb_false_r].
  apply bool_decide_eq_true in E. destruct (images_well_placed _ _ Hc x Hx) as ((d' & _ & Hd' & Hi' & Ht' & _) & _).
  rewrite bool_decide_true; [done|]. rewrite <-Ht'. f_equal. apply (key_inj dataset_id (datasets w)); [apply Hc|done..|congruence].
Qed.

Lemma keep_delete_dataset tenant id w u w' : delete_dataset tenant id w = Ok (u, w') → sound exact w → sound exact w'.
Proof.
  intros H [Hc He]. unfold delete_dataset in H. svc_inv H.
  match goal with H : get_dataset _ _ _ _ = _ |- _ => apply get_dataset_spec in H as (-> & Hd & <- & <- & _) end.
  rename a into d. set (p := in_dataset (dataset_id d)).
  rewrite (select_congr _ p (images w)) by by apply own_rows.
  change (sound exact (set_datasets (delete_where (λ r, bool_decide (dataset_id r = dataset_id d)) (datasets (removed p w))) (removed p w))).
  split; [|intros E; exact (counted_removed p w Hc (He E))].
  apply (consistent_drop_datasets (Some (dataset_id d))).
  - intros d' x Hd' Hq%bool_decide_eq_true [Hp Hx]%elem_of_delete_where. rewrite Hq. by apply bool_decide_eq_false in Hp.
  - intros d' _ [= ->]. by rewrite bool_decide_true.
  - apply consistent_removed; [|done]. intros d' i _ Hne _ Hi%bool_decide_eq_true. apply bool_decide_eq_false. congruence.
Qed.

(** *** Names *)

Lemma name_free_others {A} (id_ : A → string) (key : A → string * string) id k l :
  existsb (λ x, negb (bool_decide (id_ x = id)) && bool_decide ((key x).1 = k.1) && bool_decide ((key x).2 = k.2)) l = false →
  ∀ x, x ∈ l → id_ x ≠ id → key x ≠ k.
Proof.
  rewrite Readiness.existsb_false. intros H x Hx Hid <-. specialize (H x Hx).
  by rewrite (bool_decide_false (id_ x = id)), !bool_decide_true in H by done.
Qed.

Lemma name_free {A} (id_ : A → string) (key : A → string * string) id k l :
  existsb (λ x, negb (bool_decide (id_ x = id)) && bool_decide ((key x).1 = k.1) && bool_decide ((key x).2 = k.2)) l = false →
  id ∉ id_ <$> l → k ∉ key <$> l.
Proof.
  intros H Hid (x & -> & Hx)%list_elem_of_fmap. eapply (name_free_others id_ key id _ l H); [exact Hx| |done].
  intros <-. apply Hid. by apply list_elem_of_fmap_2.
Qed.

Lemma keep_projects ps w :
  NoDup (p_project_id <$> ps) → NoDup (project_key <$> ps) → sound exact w → sound exact (set_projects ps w).
Proof. intros H1 H2 [Hc He]. split; [by apply consistent_projects|exact He]. Qed.

Lemma keep_create_project id tenant name description w p w' :
  create_project id tenant name description w = Ok (p, w') → sound exact w → sound exact w'.
Proof.
  intros H Hs. unfold create_project in H. svc_inv H.
  match goal with H : add_row _ _ _ _ _ _ = _ |- _ => apply add_row_spec in H as [[Hid%id_not_taken Hn]%orb_false_iff ->] end.
  pose proof Hs as [[] _]. apply keep_projects; [by apply fmap_insert_NoDup| |done].
  apply fmap_insert_NoDup; [done|]. exact (name_free p_project_id project_key id (tenant, name) _ Hn Hid).
Qed.

Lemma apply_project_update_cols p u :
  p_project_id (apply_project_update p u) = p_project_id p ∧ p_tenant_id (apply_project_update p u) = p_tenant_id p.
Proof. by destruct u. Qed.

Lemma apply_project_updates_cols us p :
  p_project_id (foldl apply_project_update p us) = p_project_id p ∧ p_tenant_id (foldl apply_project_update p us) = p_tenant_id p.
Proof.
  revert p. induction us as [|u us IH]; intros p; [done|]. cbn. destruct (IH (apply_project_update p u)) as [-> ->].
  apply apply_project_update_cols.
Qed.

Lemma keep_patch_project tenant id updates w p w' :
  patch_project tenant id updates w = Ok (p, w') → sound exact w → sound exact w'.
Proof.
  intros H Hs. unfold patch_project in H. svc_inv H.
  match goal with H : get_project _ _ _ = _ |- _ => apply get_project_spec in H as (-> & Hp & Ht & Hid) end.
  destruct (is_nil updates); svc_inv H1; [done|].
  match goal with H : negb _ = true |- _ => apply negb_true_iff in H as Hn end.
  destruct (apply_project_updates_cols updates a) as [Hi Htn]. set (p := foldl apply_project_update a updates) in *.
  pose proof Hs as [[] _]. apply keep_projects; [by rewrite put_row_ids| |done].
  apply put_row_NoDup; [done..|]. intros x Hx Hne.
  eapply (name_free_others p_project_id project_key (p_project_id a) (project_key p) (projects w)); [|done|congruence].
  rewrite <-Hn. unfold project_name_taken, project_key. cbn. by rewrite Htn.
Qed.

Lemma keep_post_dataset sid did tenant project source name cam intr sph rig exif w d w' :
  post_dataset sid did tenant project source name cam intr sph rig exif w = Ok (d, w') → sound exact w → sound exact w'.
Proof.
  intros H Hs. unfold post_dataset in H. svc_inv H.
  match goal with H : get_project _ _ _ = _ |- _ => apply get_project_spec in H as (-> & _) end.
  match goal with H : create_image_source _ _ _ _ = Ok (?s, ?w1) |- _ =>
    assert (sound exact w1 ∧ s ∈ sources w1) as [Hs1 Hsrc] end.
  { unfold create_image_source in H. svc_inv H.
    match goal with H : add_row _ _ _ _ _ _ = _ |- _ => apply add_row_spec in H as [Hid%id_not_taken ->] end.
    assert (source_id a0 = sid) as Hid0.
    { destruct source as [|?|? ? []]; match goal with H : _ = Ok (a0, _) |- _ => svc_inv H; done end. }
    assert (w0 = w) as -> by (destruct source as [|?|? ? []]; match goal with H : _ = Ok (a0, _) |- _ => svc_inv H; done end).
    split; [|cbn; apply elem_app_single; by right].
    eapply sound_consistent; [exact Hs| |done..]. apply consistent_source; [by rewrite Hid0|]. apply Hs. }
  match goal with H : create_dataset _ _ _ _ _ _ _ _ _ _ _ = _ |- _ => unfold create_dataset in H; svc_inv H end.
  match goal with H : add_row datasets _ _ _ _ _ = _ |- _ => apply add_row_spec in H as [[Hid%id_not_taken Hn]%orb_false_iff ->] end.
  eapply sound_consistent; [exact Hs1| |done..]. eapply consistent_dataset; [exact Hid| |exact Hsrc|done|done|apply Hs1].
  exact (name_free dataset_id dataset_key did (project, name) _ Hn Hid).
Qed.

Lemma apply_update_cols d u :
  dataset_id (apply_update d u) = dataset_id d ∧ d_tenant_id (apply_update d u) = d_tenant_id d ∧
  d_source_id (apply_update d u) = d_source_id d ∧ d_project_id (apply_update d u) = d_project_id d ∧
  manifest_hash (apply_update d u) = manifest_hash d.
Proof. by destruct d, u. Qed.

Lemma apply_updates_cols us d :
  dataset_id (foldl apply_update d us) = dataset_id d ∧ d_tenant_id (foldl apply_update d us) = d_tenant_id d ∧
  d_source_id (foldl apply_update d us) = d_source_id d ∧ d_project_id (foldl apply_update d us) = d_project_id d ∧
  manifest_hash (foldl apply_update d us) = manifest_hash d.
Proof.
  revert d. induction us as [|u us IH]; intros d; [done|]. cbn. destruct (IH (apply_update d u)) as (-> & -> & -> & -> & ->).
  apply apply_update_cols.
Qed.

Lemma keep_patch_dataset tenant id updates w d w' :
  patch_dataset tenant id updates w = Ok (d, w') → sound exact w → sound exact w'.
Proof.
  intros H Hs. unfold patch_dataset in H. svc_inv H.
  match goal with H : get_dataset _ _ _ _ = _ |- _ => apply get_dataset_spec in H as (-> & Hd & Ht & Hid & _) end.
  destruct (is_nil updates); svc_inv H1; [done|].
  match goal with H : negb _ = true |- _ => apply negb_true_iff in H as Hn end.
  destruct (apply_updates_cols updates a) as (Hi & Htn & Hsrc & Hpr & Hh). set (d := foldl apply_update a updates) in *.
  eapply sound_consistent; [exact Hs| |done..]. apply (consistent_put_dataset d a); [done..| |apply Hs].
  intros x Hx Hne. eapply (name_free_others dataset_id dataset_key (dataset_id a) (dataset_key d) (datasets w)); [|done|congruence].
  exact Hn.
Qed.

(** *** Projects deleted with their datasets *)

Lemma consistent_cascade project w : consistent w → consistent (cascade true project w).
Proof.
  intros []. unfold cascade. set (gone := λ d, bool_decide (d_project_id d = project)).
  set (ids := dataset_id <$> select gone (datasets w)).
  assert (∀ d, d ∈ datasets w → gone d = false → dataset_id d ∉ ids) as Hids.
  { intros d Hd Hg (d' & He & [Hg' Hd']%elem_of_select)%list_elem_of_fmap.
    rewrite (key_inj dataset_id (datasets w) d' d) in Hg' by done. congruence. }
  assert (∀ sha, references sha (delete_where (λ i, bool_decide (i_dataset_id i ∈ ids)) (images w)) ≤ references sha (images w)) as Hrefs.
  { intros sha. rewrite (references_split sha (λ i, bool_decide (i_dataset_id i ∈ ids)) (images w)).
    pose proof (references_nonneg sha (select (λ i, bool_decide (i_dataset_id i ∈ ids)) (images w))). lia. }
  split; cbn; try done.
  - by apply fmap_delete_NoDup.
  - by apply fmap_delete_NoDup.
  - intros d [_ Hd]%elem_of_delete_where. auto.
  - by apply fmap_delete_NoDup.
  - by apply fmap_delete_NoDup.
  - intros i [Hi Hin]%elem_of_delete_where. apply bool_decide_eq_false in Hi.
    destruct (images_well_placed i Hin) as ((d & s & Hd & He & ?) & ?). split; [|done]. exists d, s. split; [|done].
    apply elem_of_delete_where. split; [|done]. destruct (gone d) eqn:Hg; [|done]. destruct Hi. subst ids. rewrite <-He.
    apply list_elem_of_fmap_2, elem_of_select. by split.
  - intros d [Hg Hd]%elem_of_delete_where _. specialize (hashes_current d Hd ltac:(done)). unfold hash_current in *.
    rewrite select_delete; [done|]. intros i Hi Hin%bool_decide_eq_true. apply bool_decide_eq_false. rewrite Hin. by apply Hids.
  - intros sha b Hb. specialize (Hrefs sha). specialize (refcounts_cover sha b Hb). lia.
Qed.

Lemma keep_delete_project enforced tenant id w u w' :
  delete_project enforced tenant id w = Ok (u, w') → (enforced = true → exact = false) → sound exact w → sound exact w'.
Proof.
  intros H Hex Hs. unfold delete_project in H. svc_inv H.
  match goal with H : get_project _ _ _ = _ |- _ => apply get_project_spec in H as (-> & _) end.
  match goal with |- sound _ (cascade _ _ ?w1) => assert (sound exact w1) as Hs1 end.
  { pose proof Hs as [[] _]. apply keep_projects; [by apply fmap_delete_NoDup..|done]. }
  destruct enforced; [|exact Hs1]. split; [apply consistent_cascade, Hs1|]. rewrite Hex by done. done.
Qed.

(** *** Priors and blobs *)

Lemma keep_prior tenant id prior w i w' : set_pose_prior tenant id prior w = Ok (i, w') → sound exact w → sound exact w'.
Proof.
  intros H [Hc He]. unfold set_pose_prior in H. svc_inv H.
  match goal with H : get_image _ _ _ = _ |- _ => apply get_image_spec in H as (-> & Hi & _) end.
  destruct (consistent_prior a (Some prior) w Hi Hc) as [Hc' He']. split; [done|]. intros E. exact (He' (He E)).
Qed.

Lemma keep_bulk_priors tenant dataset body w n w' :
  bulk_set_pose_priors tenant dataset body w = Ok (n, w') → sound exact w → sound exact w'.
Proof.
  intros H Hs. unfold bulk_set_pose_priors in H. svc_inv H.
  match goal with H : each _ _ _ = _ |- _ => rename H into Heach end.
  eapply (preserves_each (sound exact)); [|exact Hs|exact Heach].
  intros ip _ w0 [] w1 Hw0 H1. svc_inv H1. eapply keep_prior; eauto.
Qed.

Lemma keep_blob sha size mime w u w' :
  blob_finalized sha size mime w = Ok (u, w') → sound exact w → sound exact w'.
Proof.
  intros H [Hc He]. unfold blob_finalized in H. svc_inv H. destruct (blobs w !! sha) as [b|] eqn:Hb; [by split|].
  pose proof Hc as [].
  assert (references sha (images w) = 0) as Hzero.
  { unfold references. rewrite select_none; [done|]. intros i Hi. unfold uses. apply andb_false_iff.
    destruct (decide (source_kind i = "upload")) as [Hk|]; [right|left; by apply bool_decide_eq_false].
    apply bool_decide_eq_false. intros <-. destruct (images_well_placed i Hi) as (_ & _ & _ & _ & [? Hu]); [done|]. congruence. }
  split.
  - split; cbn; try done.
    + intros i Hi%images_well_placed. eapply well_placed_mono; [..|exact Hi]; cbn; try done; [intros d Hd; by exists d|].
      intros s. rewrite lookup_insert_is_Some. intros. destruct (decide (sha = s)); auto.
    + intros s b. destruct (decide (sha = s)) as [<-|]; [|rewrite lookup_insert_ne by done; auto].
      rewrite lookup_insert_eq. intros [= <-]. cbn. lia.
  - intros E s b. destruct (decide (sha = s)) as [<-|]; [|cbn; rewrite lookup_insert_ne by done; by apply He].
    cbn. rewrite lookup_insert_eq. by intros [= <-].
Qed.
End keep.

(** ** The requests *)

(** A project deletion that takes its datasets and images along. *)
Definition cascades (o : data_op) : bool := match o with OpDeleteProject true _ _ => true | _ => false end.

Lemma keep_op exact o w u w' :
  run_data_op o w = Ok (u, w') → (cascades o = true → exact = false) → sound exact w → sound exact w'.
Proof.
  intros H Hex Hs. destruct o; cbn [run_data_op] in H.
  - unfold ignore in H. svc_inv H. by eapply keep_create_project.
  - unfold ignore in H. svc_inv H. by eapply keep_patch_project.
  - eapply keep_delete_project; [exact H| |done]. intros ->. by apply Hex.
  - unfold ignore in H. svc_inv H. by eapply keep_post_dataset.
  - unfold ignore, update_dataset in H. svc_inv H.
    match goal with H : get_dataset _ _ _ _ = _ |- _ => apply get_dataset_spec in H as (-> & _) end. by eapply keep_patch_dataset.
  - unfold remove_dataset in H. svc_inv H.
    match goal with H : get_dataset _ _ _ _ = _ |- _ => apply get_dataset_spec in H as (-> & _) end. by eapply keep_delete_dataset.
  - unfold ignore, create_image in H. svc_inv H.
    match goal with H : get_dataset _ _ _ _ = _ |- _ => apply get_dataset_spec in H as (-> & Hd & Ht & _) end.
    eapply keep_register; [exact Ht|done|]. split; [done|by eexists].
  - unfold ignore, batch_create in H. svc_inv H.
    match goal with H : get_dataset _ _ _ _ = _ |- _ => apply get_dataset_spec in H as (-> & Hd & Ht & _) end.
    eapply keep_registers; [exact Ht|done|]. split; [done|by eexists].
  - unfold delete_image in H. svc_inv H. eapply keep_delete_row; [|done..].
    match goal with H : head _ = Some _ |- _ => apply head_Some_elem_of, elem_of_select in H as [_ ?] end. done.
  - unfold delete_image_by_id in H. svc_inv H.
    match goal with H : get_image _ _ _ = _ |- _ => apply get_image_spec in H as (-> & Hi & _) end. by eapply keep_delete_row.
  - unfold ignore in H. svc_inv H. by eapply keep_prior.
  - unfold ignore in H. svc_inv H. by eapply keep_bulk_priors.
  - by eapply keep_blob.
Qed.

Lemma keep_serve exact o w : (cascades o = true → exact = false) → sound exact w → sound exact (serve o w).
Proof. intros Hex Hs. unfold serve. destruct (run_data_op o w) as [[u w']|e] eqn:H; [by eapply keep_op|done]. Qed.

(** The tables of a new server, and after its requests. *)
Definition no_data : Data := mkData [] [] [] [] ∅.
Definition served (ops : list data_op) : Data := foldl (λ w o, serve o w) no_data ops.

Lemma sound_no_data exact : sound exact no_data.
Proof.
  split; [|intros _ sha b H; cbn in H; by rewrite lookup_empty in H].
  split; cbn; try apply NoDup_nil_2.
  - by intros d Hd%elem_of_nil.
  - by intros i Hi%elem_of_nil.
  - by intros d Hd%elem_of_nil.
  - intros sha b H. by rewrite lookup_empty in H.
Qed.

Lemma served_sound exact ops : (existsb cascades ops = true → exact = false) → sound exact (served ops).
Proof.
  unfold served. assert (sound exact no_data) as H by apply sound_no_data. revert H. generalize no_data.
  induction ops as [|o ops IH]; intros w Hw Hex; [done|]. cbn in *. apply IH.
  - apply keep_serve; [|done]. intros Ho. apply Hex. by rewrite Ho.
  - intros Ho. apply Hex. rewrite Ho. apply orb_true_r.
Qed.

Lemma served_consistent ops : consistent (served ops).
Proof. by apply (served_sound false). Qed.
