(* ===== verification/DatasetGuarantees.v ===== *)
(** What the dataset routes guarantee: consistent tables after every sequence of
    requests, manifest hashes that identify the images, and tenants that do not touch
    each other's rows. *)
From S2P Require Import Prelude PyValue Store Hashing Service JsonFacts Errors PathSafety Uploads Datasets DatasetFacts DatasetInvariant.
From stdpp Require Import options.
Import PathSafety Datasets.

#[local] Open Scope Z_scope.
#[local] Opaque sha256_hex validate_safe_relative_path.

(** ** Manifests *)

#[local] Instance VPair_inj : Inj eq eq VPair.
Proof. intros [] []. by intros [= -> ->]. Qed.

Lemma manifest_payload_sorted rows : sorted_members (manifest_payload rows) = manifest_payload rows.
Proof.
  rewrite manifest_payload_entries, sorted_members_dict. cbn [sort_dict foldr insert_key fst snd]. rewrite sorted_members_list.
  rewrite <-list_fmap_compose. by erewrite (list_fmap_ext (sorted_members ∘ VPair) VPair).
Qed.

Lemma manifest_payload_float_free rows : float_free (manifest_payload rows) = true.
Proof.
  rewrite manifest_payload_entries. apply float_free_dict. constructor; [|constructor]. apply float_free_list.
  apply Forall_fmap, Forall_forall. intros p _. done.
Qed.

(** The text whose digest is the manifest's hash, for the images of a dataset. *)
Definition own_images (w : Data) (d : Dataset) : list Image := select (in_dataset (dataset_id d)) (images w).
Definition manifest_text (w : Data) (d : Dataset) : string := canonical_json (manifest_payload (own_images w d)).

Lemma manifest_text_entries w1 w2 d1 d2 :
  manifest_text w1 d1 = manifest_text w2 d2 → manifest_entry <$> own_images w1 d1 ≡ₚ manifest_entry <$> own_images w2 d2.
Proof.
  intros H%canonical_json_inj; [|apply manifest_payload_float_free..]. unfold same_json in H.
  rewrite !manifest_payload_sorted, !manifest_payload_entries in H. injection H as H%(inj (fmap VPair)).
  by rewrite <-(images_by_name_perm (own_images w1 d1)), H, images_by_name_perm.
Qed.


(** Two servers that registered the same two images in different orders. *)
Definition demo_setup : list data_op :=
  [OpBlobFinalized "aa" 10 None; OpBlobFinalized "bb" 20 None; OpCreateProject "p" "t" "P" None;
   OpCreateDataset "s" "d" "t" "p" (UploadSourceSpec []) "D" "SIMPLE_RADIAL" "single_camera" false VNone true].
Definition demo_image (id name sha : string) : data_op :=
  OpCreateImage "t" "d" (id, mkImageCreate name (Some sha) None None None VNone).
Definition demo_ops1 : list data_op := demo_setup ++ [demo_image "i1" "a.jpg" "aa"; demo_image "i2" "b.jpg" "bb"].
Definition demo_ops2 : list data_op := demo_setup ++ [demo_image "i3" "b.jpg" "bb"; demo_image "i4" "a.jpg" "aa"].
Definition no_dataset : Dataset := mkDataset "" "" "" "" "" "" "" false VNone true None "".
Definition first_dataset (w : Data) : Dataset := default no_dataset (head (datasets w)).


(** ** Tenants *)

Definition alien {A} (tenant_of : A → string) (tenant : string) (x : A) : bool := negb (bool_decide (tenant_of x = tenant)).

(** The rows of the other tenants. *)
Definition foreign (tenant : string) (w : Data) : list Project * list ImageSource * list Dataset * list Image :=
  (select (alien p_tenant_id tenant) (projects w), select (alien s_tenant_id tenant) (sources w),
   select (alien d_tenant_id tenant) (datasets w), select (alien i_tenant_id tenant) (images w)).

Lemma alien_own {A} (f : A → string) t x : f x = t → alien f t x = false.
Proof. intros <-. unfold alien. by rewrite bool_decide_true. Qed.

Lemma foreign_insert {A} (f : A → string) t r l : f r = t → select (alien f t) (l ++ [r]) = select (alien f t) l.
Proof. intros Hr. rewrite select_app. unfold select at 2. cbn. by rewrite alien_own, app_nil_r. Qed.

Lemma foreign_delete {A} (f : A → string) t p l :
  (∀ x, x ∈ l → p x = true → f x = t) → select (alien f t) (delete_where p l) = select (alien f t) l.
Proof.
  intros H. apply select_delete. intros x Hx Ha. destruct (p x) eqn:E; [|done]. by rewrite alien_own in Ha by auto.
Qed.

Lemma foreign_update {A} (f : A → string) t p g l :
  (∀ x, x ∈ l → p x = true → f x = t ∧ f (g x) = t) → select (alien f t) (update_where p g l) = select (alien f t) l.
Proof.
  unfold update_where, select. induction l as [|x l IH]; intros H; [done|]. cbn.
  rewrite IH by (intros y Hy; apply H; by constructor). destruct (p x) eqn:E; [|done].
  destruct (H x ltac:(list_in) E) as [H1 H2]. by rewrite !alien_own.
Qed.

Lemma foreign_put {A} (f key : A → string) t r0 r l :
  NoDup (key <$> l) → r0 ∈ l → key r = key r0 → f r0 = t → f r = t → select (alien f t) (put_row key r l) = select (alien f t) l.
Proof.
  intros Hd Hr Hk H0 H1. unfold put_row. apply foreign_update. intros x Hx Hkx%bool_decide_eq_true. split; [|done].
  assert (x = r0) as -> by (apply (key_inj key l); congruence). done.
Qed.

(** A dataset's hash is recomputed in its tenant's row. *)
Lemma foreign_refreshed t d w :
  NoDup (dataset_id <$> datasets w) → d ∈ datasets w → d_tenant_id d = t → foreign t (refreshed (dataset_id d) w) = foreign t w.
Proof.
  intros Hu Hd Ht. unfold foreign, refreshed. cbn. rewrite foreign_update; [done|]. intros x Hx Hid%bool_decide_eq_true.
  assert (x = d) as -> by (by apply (key_inj dataset_id (datasets w))). split; [done|].
  by destruct (set_manifest_hash_cols (manifest_of (select (in_dataset (dataset_id d)) (images w))) d) as (_ & -> & _).
Qed.

Section isolation.
Context (tenant : string) (F : list Project * list ImageSource * list Dataset * list Image).

(** The tables are consistent and the other tenants' rows are [F]. *)
Definition leaves (w : Data) : Prop := sound false w ∧ foreign tenant w = F.

Lemma leaves_sound w w' : leaves w → sound false w' → foreign tenant w' = foreign tenant w → leaves w'.
Proof. intros [_ Hf] Hs He. split; [done|congruence]. Qed.

Lemma leaves_create_project id name description w p w' :
  create_project id tenant name description w = Ok (p, w') → leaves w → leaves w'.
Proof.
  intros H Hw. eapply leaves_sound; [exact Hw|eapply keep_create_project; [exact H|apply Hw]|].
  unfold create_project in H. svc_inv H. match goal with H : add_row _ _ _ _ _ _ = _ |- _ => apply add_row_spec in H as [_ ->] end.
  unfold foreign. cbn. by rewrite foreign_insert.
Qed.

Lemma leaves_patch_project id updates w p w' :
  patch_project tenant id updates w = Ok (p, w') → leaves w → leaves w'.
Proof.
  intros H Hw. eapply leaves_sound; [exact Hw|eapply keep_patch_project; [exact H|apply Hw]|].
  unfold patch_project in H. svc_inv H.
  match goal with H : get_project _ _ _ = _ |- _ => apply get_project_spec in H as (-> & Hp & Ht & Hid) end.
  destruct (is_nil updates); svc_inv H1; [done|]. unfold foreign. cbn.
  destruct (apply_project_updates_cols updates a) as [Hi Htn]. rewrite (foreign_put _ _ _ a); try done; [apply Hw|congruence].
Qed.

Lemma leaves_delete_project enforced id w u w' :
  delete_project enforced tenant id w = Ok (u, w') →
  (∀ d p, d ∈ datasets w → p ∈ projects w → d_project_id d = p_project_id p → d_tenant_id d = p_tenant_id p) →
  leaves w → leaves w'.
Proof.
  intros H Hown Hw. eapply leaves_sound; [exact Hw|eapply (keep_delete_project false); [exact H|done|apply Hw]|].
  unfold delete_project in H. svc_inv H.
  match goal with H : get_project _ _ _ = _ |- _ => apply get_project_spec in H as (-> & Hp & Ht & Hid) end. rename a into p.
  pose proof Hw as [[Hc _] _].
  assert (∀ x, x ∈ projects w → bool_decide (p_project_id x = p_project_id p) = true → p_tenant_id x = tenant) as Hps.
  { intros x Hx Hxp%bool_decide_eq_true. rewrite <-Ht. f_equal. apply (key_inj p_project_id (projects w)); [apply Hc|done..]. }
  assert (∀ d, d ∈ datasets w → d_project_id d = p_project_id p → d_tenant_id d = tenant) as Hds.
  { intros d Hd Hdp. rewrite <-Ht. by apply Hown. }
  unfold foreign, cascade. destruct enforced; cbn -[select delete_where]; rewrite (foreign_delete p_tenant_id) by done; [|done].
  rewrite (foreign_delete d_tenant_id) by (intros d Hd Hdp%bool_decide_eq_true; auto).
  rewrite (foreign_delete i_tenant_id); [done|]. intros i Hi Hin%bool_decide_eq_true.
  apply list_elem_of_fmap in Hin as (d & Hid' & [Hdp%bool_decide_eq_true Hd]%elem_of_select).
  destruct (images_well_placed _ _ Hc i Hi) as ((d' & _ & Hd' & He & <- & _) & _).
  assert (d' = d) as -> by (apply (key_inj dataset_id (datasets w)); [apply Hc|done..|congruence]). auto.
Qed.

Lemma leaves_post_dataset sid did project source name cam intr sph rig exif w d w' :
  post_dataset sid did tenant project source name cam intr sph rig exif w = Ok (d, w') → leaves w → leaves w'.
Proof.
  intros H Hw. eapply leaves_sound; [exact Hw|eapply keep_post_dataset; [exact H|apply Hw]|].
  unfold post_dataset in H. svc_inv H.
  match goal with H : get_project _ _ _ = _ |- _ => apply get_project_spec in H as (-> & _) end.
  match goal with H : create_image_source _ _ _ _ = Ok (?s, ?w1) |- _ => assert (foreign tenant w1 = foreign tenant w) as Hs end.
  { unfold create_image_source in H. svc_inv H.
    match goal with H : add_row _ _ _ _ _ _ = _ |- _ => apply add_row_spec in H as [_ ->] end.
    destruct source as [|?|? ? []]; match goal with H : _ = Ok (a0, _) |- _ => svc_inv H end;
      unfold foreign; cbn; by rewrite foreign_insert. }
  match goal with H : create_dataset _ _ _ _ _ _ _ _ _ _ _ = _ |- _ => unfold create_dataset in H; svc_inv H end.
  match goal with H : add_row datasets _ _ _ _ _ = _ |- _ => apply add_row_spec in H as [_ ->] end.
  rewrite <-Hs. unfold foreign. cbn. by rewrite foreign_insert.
Qed.

Lemma leaves_patch_dataset id updates w d w' :
  patch_dataset tenant id updates w = Ok (d, w') → leaves w → leaves w'.
Proof.
  intros H Hw. eapply leaves_sound; [exact Hw|eapply keep_patch_dataset; [exact H|apply Hw]|].
  unfold patch_dataset in H. svc_inv H.
  match goal with H : get_dataset _ _ _ _ = _ |- _ => apply get_dataset_spec in H as (-> & Hd & Ht & Hid & _) end.
  destruct (is_nil updates); svc_inv H1; [done|]. unfold foreign. cbn.
  destruct (apply_updates_cols updates a) as (Hi & Htn & _). rewrite (foreign_put _ _ _ a); try done; [apply Hw|congruence].
Qed.

Lemma leaves_delete_dataset id w u w' : delete_dataset tenant id w = Ok (u, w') → leaves w → leaves w'.
Proof.
  intros H Hw. eapply leaves_sound; [exact Hw|eapply keep_delete_dataset; [exact H|apply Hw]|].
  unfold delete_dataset in H. svc_inv H.
  match goal with H : get_dataset _ _ _ _ = _ |- _ => apply get_dataset_spec in H as (-> & Hd & Ht & _) end. rename a into d.
  pose proof Hw as [[Hc _] _].
  assert (∀ d', d' ∈ datasets w → dataset_id d' = dataset_id d → d' = d) as Hone
    by (intros; apply (key_inj dataset_id (datasets w)); [apply Hc|done..]).
  unfold foreign. cbn -[select delete_where]. rewrite (foreign_delete d_tenant_id) by (intros x Hx Hxd%bool_decide_eq_true; by rewrite (Hone x)).
  rewrite (foreign_delete i_tenant_id); [done|]. intros i Hi Hin%bool_decide_eq_true.
  destruct (images_well_placed _ _ Hc i Hi) as ((d' & _ & Hd' & He & <- & _) & _). by rewrite (Hone d') by congruence.
Qed.

Lemma leaves_register d ib w i w' :
  d_tenant_id d = tenant → register_image tenant d ib w = Ok (i, w') → leaves w ∧ still_there d w → leaves w' ∧ still_there d w'.
Proof.
  intros Ht H [Hw Hd]. destruct (keep_register false tenant d ib w i w' Ht H) as [Hs' Hd']; [by split; [apply Hw|]|].
  split; [|done]. eapply leaves_sound; [exact Hw|done|]. destruct Hd as (d1 & Hd1 & Hi1 & Ht1 & Hsrc1).
  unfold register_image in H. apply svc_bind_Ok in H as (ks & w1 & [Hk%resolve_kind_cases <-]%lift_Ok & Hadd).
  rewrite (add_image_any _ _ d d1) in Hadd by done. pose proof Hw as [[Hc _] _].
  apply add_image_spec in Hadd as (-> & Hdi & _ & _ & _ & _ & _ & _ & Hp); [|done..|congruence].
  rewrite foreign_refreshed by (first [apply Hc|done|congruence]).
  destruct Hp as ((d2 & _ & Hd2 & He2 & Ht2 & _) & _).
  assert (d2 = d1) as -> by (apply (key_inj dataset_id (datasets w)); [apply Hc|done..|congruence]).
  unfold foreign. cbn. rewrite foreign_insert; [done|]. congruence.
Qed.

Lemma leaves_delete_row i w u w' :
  i ∈ images w → i_tenant_id i = tenant → _delete_image_row i w = Ok (u, w') → leaves w → leaves w'.
Proof.
  intros Hi Ht H Hw. eapply leaves_sound; [exact Hw|eapply keep_delete_row; [exact Hi|exact H|apply Hw]|].
  unfold _delete_image_row in H. svc_inv H. pose proof Hw as [[Hc _] _].
  match goal with H : recompute_manifest_hash _ _ = _ |- _ => apply recompute_spec in H as -> end.
  destruct (images_well_placed _ _ Hc i Hi) as ((d & _ & Hd & He & Hdt & _) & _).
  rewrite <-He. rewrite foreign_refreshed by (first [apply Hc|done|congruence]).
  unfold foreign. cbn -[select delete_where]. rewrite foreign_delete; [done|]. intros x Hx Hid%bool_decide_eq_true.
  assert (x = i) as -> by (apply (key_inj image_id (images w)); [apply Hc|done..]). done.
Qed.

Lemma leaves_prior id prior w i w' : set_pose_prior tenant id prior w = Ok (i, w') → leaves w → leaves w'.
Proof.
  intros H Hw. eapply leaves_sound; [exact Hw|eapply keep_prior; [exact H|apply Hw]|].
  unfold set_pose_prior in H. svc_inv H.
  match goal with H : get_image _ _ _ = _ |- _ => apply get_image_spec in H as (-> & Hi & Ht & _) end.
  unfold foreign. cbn. rewrite (foreign_put _ _ _ a); try done. apply Hw.
Qed.

Lemma leaves_bulk_priors dataset body w n w' :
  bulk_set_pose_priors tenant dataset body w = Ok (n, w') → leaves w → leaves w'.
Proof.
  intros H Hw. unfold bulk_set_pose_priors in H. svc_inv H.
  match goal with H : each _ _ _ = _ |- _ => rename H into Heach end.
  eapply (preserves_each leaves); [|exact Hw|exact Heach].
  intros ip _ w0 [] w1 Hw0 H1. svc_inv H1. by eapply leaves_prior.
Qed.
End isolation.

(** The tenant of a request; finishing an upload only touches the shared blob rows. *)
Definition op_tenant (o : data_op) : option string :=
  match o with
  | OpCreateProject _ t _ _ | OpPatchProject t _ _ | OpDeleteProject _ t _ | OpCreateDataset _ _ t _ _ _ _ _ _ _ _
  | OpPatchDataset t _ _ _ | OpDeleteDataset t _ _ | OpCreateImage t _ _ | OpBatchCreate t _ _ | OpDeleteImage t _ _
  | OpDeleteImageById t _ | OpSetPosePrior t _ _ | OpBulkPosePriors t _ _ => Some t
  | OpBlobFinalized _ _ _ => None
  end.

Definition op_tenant_is (tenant : string) (o : data_op) : Prop := op_tenant o = Some tenant ∨ op_tenant o = None.

(** Datasets and projects that share an id share their tenant. *)
Definition projects_owned (w : Data) : Prop :=
  ∀ d p, d ∈ datasets w → p ∈ projects w → d_project_id d = p_project_id p → d_tenant_id d = p_tenant_id p.

Lemma leaves_op tenant F o w u w' :
  op_tenant_is tenant o → projects_owned w → run_data_op o w = Ok (u, w') → leaves tenant F w → leaves tenant F w'.
Proof.
  intros Ht Hown H Hw. assert (op_tenant o = Some tenant ∨ ∃ sha size mime, o = OpBlobFinalized sha size mime) as Ho
    by (destruct Ht; [by left|]; destruct o; try done; right; by eexists _, _, _).
  destruct Ho as [Ho|(sha & size & mime & ->)].
  2: { eapply leaves_sound; [exact Hw|eapply keep_blob; [exact H|apply Hw]|]. cbn in H. unfold blob_finalized in H. svc_inv H.
       by destruct (blobs w !! sha). }
  destruct o; cbn [op_tenant] in Ho; simplify_eq; cbn [run_data_op] in H.
  - unfold ignore in H. svc_inv H. by eapply leaves_create_project.
  - unfold ignore in H. svc_inv H. by eapply leaves_patch_project.
  - by eapply leaves_delete_project.
  - unfold ignore in H. svc_inv H. by eapply leaves_post_dataset.
  - unfold ignore, update_dataset in H. svc_inv H.
    match goal with H : get_dataset _ _ _ _ = _ |- _ => apply get_dataset_spec in H as (-> & _) end. by eapply leaves_patch_dataset.
  - unfold remove_dataset in H. svc_inv H.
    match goal with H : get_dataset _ _ _ _ = _ |- _ => apply get_dataset_spec in H as (-> & _) end. by eapply leaves_delete_dataset.
  - unfold ignore, create_image in H. svc_inv H.
    match goal with H : get_dataset _ _ _ _ = _ |- _ => apply get_dataset_spec in H as (-> & Hd & Hdt & _) end.
    eapply leaves_register; [exact Hdt|done|]. split; [done|by eexists].
  - unfold ignore, batch_create in H. svc_inv H.
    match goal with H : get_dataset _ _ _ _ = _ |- _ => apply get_dataset_spec in H as (-> & Hd & Hdt & _) end.
    match goal with H : map_each _ _ _ = _ |- _ => rename H into Hmap end.
    match goal with H : ?d ∈ datasets w |- _ => eapply (preserves_map_each (λ w, leaves tenant F w ∧ still_there d w)) end; [|split; [exact Hw|by eexists]|exact Hmap].
    intros ib _ w0 i w1 Hw0 H1. by eapply leaves_register.
  - unfold delete_image in H. svc_inv H.
    match goal with H : head _ = Some _ |- _ => apply head_Some_elem_of, elem_of_select in H as [Hp ?] end.
    unfold of_dataset in Hp. rewrite !andb_true_iff, !bool_decide_eq_true in Hp. eapply leaves_delete_row; [done|apply Hp|done..].
  - unfold delete_image_by_id in H. svc_inv H.
    match goal with H : get_image _ _ _ = _ |- _ => apply get_image_spec in H as (-> & Hi & Hit & _) end. by eapply leaves_delete_row.
  - unfold ignore in H. svc_inv H. by eapply leaves_prior.
  - unfold ignore in H. svc_inv H. by eapply leaves_bulk_priors.
Qed.

(** C32: a request changes no row of another tenant: after any requests on a server
    whose project ids are not shared between tenants, serving one more request of a
    tenant, or finishing an upload, leaves the projects, sources, datasets and images
    of all other tenants as they were, also when it deletes a project with everything
    below it. *)
Theorem requests_isolated (ops : list data_op) (o : data_op) (tenant : string)
    (Ho : op_tenant_is tenant o) (Hown : projects_owned (served ops)) :
  foreign tenant (serve o (served ops)) = foreign tenant (served ops).
Proof.
  unfold serve. destruct (run_data_op o (served ops)) as [[u w']|e] eqn:H; [|done].
  eapply leaves_op in H; [|done..|split; [by apply served_sound|reflexivity]]. apply H.
Qed.

(** Another tenant works on the same server. *)
Definition demo_ops3 : list data_op := demo_ops1 ++ [OpCreateProject "q" "u" "Q" None].

Lemma requests_isolated_witness :
  foreign "u" (serve (OpPatchProject "u" "q" [SetProjectName "R"]) (served demo_ops3)) = foreign "u" (served demo_ops3).
Proof.
  apply (requests_isolated demo_ops3 (OpPatchProject "u" "q" [SetProjectName "R"]) "u").
  - left. reflexivity.
  - assert (Forall (λ d, d_project_id d = "p" ∧ d_tenant_id d = "t") (datasets (served demo_ops3))) as Hd
      by (vm_compute; repeat constructor).
    assert (Forall (λ p, p_project_id p = "p" → p_tenant_id p = "t") (projects (served demo_ops3))) as Hp
      by (vm_compute; repeat constructor; discriminate).
    rewrite Forall_forall in Hd. rewrite Forall_forall in Hp.
    intros d p Hin Hip Hs. destruct (Hd d Hin) as [Hdp Hdt]. rewrite Hdt. symmetry. apply (Hp p Hip). congruence.
Defined.

(** C11: the tables are consistent after any sequence of requests: ids and the names
    within a project, a tenant or a dataset are unique, every image belongs to a
    dataset of its own tenant whose source has its kind, its names are safe relative
    paths, an uploaded image's blob has a row, every manifest hash is that of the
    current images, and no blob's reference count is below the number of images that
    use it. As long as no project was deleted with a cascade, every reference count is
    exactly that number. *)
Theorem requests_keep_tables (ops : list data_op) :
  consistent (served ops) ∧ (existsb cascades ops = false → counted (served ops)).
Proof.
  split; [apply served_consistent|]. intros He.
  apply (served_sound true ops); [by rewrite He|done].
Qed.
