(* ===== verification/Capabilities.v ===== *)
(** [sceneapi/server/core/capabilities.py]: the vocabulary of capabilities, what a
    deployment supports, and the gate of the routes that need one. *)
From S2P Require Import Prelude PyValue Errors Attributes Processors.
From stdpp Require Import options.
From Stdlib Require Import Btauto.
Import Errors Processors.

Module Capabilities.

(** ** The vocabulary *)

Definition CORE_CAPABILITIES : list string :=
  ["projects.crud"; "datasets.crud"; "images.crud"; "uploads.chunked"; "jobs.read"; "events.sse"; "spec.read"].

Definition OPTIONAL_CAPABILITIES : list string :=
  ["features.extract.sift"; "features.extract.superpoint"; "features.extract.aliked"; "features.extract.disk";
   "features.extract.r2d2"; "features.extract.d2net"; "features.extract.sosnet"; "pairs.exhaustive";
   "pairs.sequential"; "pairs.spatial"; "pairs.vocabtree"; "pairs.retrieval"; "pairs.from_poses";
   "pairs.explicit"; "matchers.nn-mutual"; "matchers.nn-ratio"; "matchers.superglue"; "matchers.lightglue";
   "matchers.loftr"; "matchers.mast3r"; "match.detector_free"; "keypoints.persistent"; "matches.verify";
   "geometry.two_view"; "map.incremental"; "map.global"; "map.hierarchical"; "map.spherical";
   "map.feed_forward"; "ba.standard"; "ba.two_stage"; "ba.featuremetric"; "ba.rig"; "triangulate.retri";
   "relocalize.images"; "pgo.optimize"; "recon.merge"; "localize.batch"; "localize.sequence"; "export.ply";
   "export.nvm"; "export.colmap_text"; "export.colmap_bin"; "export.nerfstudio"; "export.gaussian_splatting";
   "export.instant_ngp"; "export.kapture"; "similarity.dhash"; "similarity.vlad"; "index.vocab_tree";
   "images.thumbnail"; "localize.from_memory"; "georegister.sim3"; "georegister.gps"; "image.undistort";
   "projection.equirectangular_to_cubemap"; "projection.cubemap_to_equirectangular";
   "projection.equirectangular_to_perspective"; "projection.cubemap_rig"; "spherical.to_cubemap";
   "spherical.render_cubemap"; "rigs.configure"; "pose_priors.read_write"; "pose_priors.mapping"; "inputs.imu";
   "inputs.timestamps"; "video.frame_extract"; "import.kapture"; "import.archive"; "observations.by_image";
   "observations.by_point"; "radiance.train"; "radiance.evaluate"; "radiance.metrics.psnr";
   "radiance.metrics.ssim"; "radiance.metrics.lpips"; "backend.actions"; "backend.action_schema";
   "backend.action_validate"; "backend.action_jobs"; "backend.config_schemas"; "backend.artifact_contracts";
   "pipelines.custom_execution"; "compute.in_memory"; "segment.sam"].

Definition ALL_KNOWN : list string := CORE_CAPABILITIES ++ OPTIONAL_CAPABILITIES.

Definition INFRASTRUCTURE_CAPABILITY_FAMILIES : dict string :=
  [("projects", "project resource CRUD");
   ("datasets", "dataset resource CRUD");
   ("images", "image resource CRUD + helpers");
   ("uploads", "chunked upload sessions");
   ("jobs", "job lifecycle reads");
   ("events", "SSE event stream");
   ("spec", "served OpenAPI spec");
   ("video", "frame extraction ingest");
   ("import", "archive / kapture ingest");
   ("pose_priors", "pose-prior accept/store/forward");
   ("inputs", "IMU / timestamp side inputs");
   ("observations", "snapshot visibility sidecars");
   ("similarity", "image similarity hashing");
   ("index", "reusable retrieval indexes");
   ("localize", "query-image localization");
   ("export", "reconstruction export formats");
   ("radiance", "radiance-field (3DGS) resources");
   ("backend", "backend extension meta surfaces");
   ("pipelines", "generic typed-processor pipeline execution");
   ("compute", "execution-mode advisories");
   ("segment", "image segmentation");
   ("rigs", "multi-camera rig configuration")].

(** [capability.split(".", 1)[0]] *)
Definition capability_family (capability : string) : string :=
  match partition_on "." capability with Some (family, _) => family | None => capability end.

Definition is_infrastructure_capability (capability : string) : bool :=
  dict_mem (capability_family capability) INFRASTRUCTURE_CAPABILITY_FAMILIES.

(** ** What a deployment supports *)

Record BackendInfo : Type := mkBackendInfo {
  name : string;
  version : string;
  vendor : string
}.

Record Capabilities : Type := mkCapabilities {
  backend : BackendInfo;
  features : dict bool
}.

Definition supports (c : Capabilities) (capability : string) : bool := default false (dict_get capability (features c)).

Definition as_dict (c : Capabilities) : value :=
  VDict [("schema_version", VInt 1);
         ("backend", VDict [("name", VStr (name (backend c))); ("version", VStr (version (backend c)));
                            ("vendor", VStr (vendor (backend c)))]);
         ("features", VDict (prod_map id VBool <$> features c))].

Definition empty_capabilities (b : BackendInfo) : Capabilities :=
  mkCapabilities b
    (foldl (λ feats x, dict_set x false feats)
       (foldl (λ feats x, dict_set x true feats) [] CORE_CAPABILITIES) OPTIONAL_CAPABILITIES).

(** What the probes of a deployment answer: the registered backend, and the optional
    parts of the server. [d_actions] are the action ids, when there are any and listing
    them does not raise; a probe that raises counts as a negative answer. *)
Record Deployment : Type := mkDeployment {
  d_name : string;
  d_version : string;
  d_vendor : string;
  d_pycolmap_version : option string;
  d_advertised : list string;
  d_actions : option (list string);
  d_has_config_schemas : bool;
  d_has_artifact_contracts : bool;
  d_has_pillow : bool;
  d_has_projection_engine : bool;
  d_has_ffmpeg : bool;
  d_sam_available : bool
}.

(** [caps.features[name] = True] *)
Definition set_on (x : string) (feats : dict bool) : dict bool := dict_set x true feats.
Definition set_on_if (b : bool) (xs : list string) (feats : dict bool) : dict bool :=
  if b then foldl (λ feats x, set_on x feats) feats xs else feats.
Definition get_on (x : string) (feats : dict bool) : bool := default false (dict_get x feats).

(** [versions.get("pycolmap_version") or backend_impl.version] *)
Definition backend_info (d : Deployment) : BackendInfo :=
  mkBackendInfo (d_name d)
    (match d_pycolmap_version d with Some v => if decide (v = "") then d_version d else v | None => d_version d end)
    (d_vendor d).

Definition ACTION_CAPABILITIES : list string :=
  ["backend.actions"; "backend.action_schema"; "backend.action_validate"; "backend.action_jobs"].
Definition SERVER_CAPABILITIES : list string :=
  ["pose_priors.read_write"; "observations.by_image"; "observations.by_point"; "inputs.imu"; "inputs.timestamps";
   "import.kapture"; "import.archive"].
Definition STUB_CAPABILITIES : list string :=
  ["radiance.train"; "radiance.evaluate"; "radiance.metrics.psnr"; "radiance.metrics.ssim"; "radiance.metrics.lpips"].

Definition has_actions (d : Deployment) : bool := match d_actions d with Some _ => true | None => false end.

(** [detect_capabilities], without its cache. *)
Definition detect_capabilities (d : Deployment) : Capabilities :=
  let caps := empty_capabilities (backend_info d) in
  let feats := foldl (λ feats x, if dict_mem x feats then set_on x feats else feats) (features caps)
                 (remove_dups (d_advertised d)) in
  let feats := set_on_if (get_on "spherical.render_cubemap" feats) ["projection.equirectangular_to_cubemap"] feats in
  let feats := set_on_if (get_on "spherical.to_cubemap" feats) ["projection.cubemap_rig"] feats in
  let feats := set_on_if (has_actions d) ACTION_CAPABILITIES feats in
  let feats := set_on_if (d_has_config_schemas d) ["backend.config_schemas"] feats in
  let feats := set_on_if (d_has_artifact_contracts d) ["backend.artifact_contracts"] feats in
  let feats := set_on_if (d_has_pillow d) ["similarity.dhash"; "images.thumbnail"] feats in
  let feats := set_on_if (d_has_projection_engine d) ["projection.equirectangular_to_cubemap"] feats in
  let feats := set_on_if true SERVER_CAPABILITIES feats in
  let feats := set_on_if (bool_decide (d_name d = "stub")) STUB_CAPABILITIES feats in
  let feats := set_on_if (d_has_ffmpeg d) ["video.frame_extract"] feats in
  let feats := set_on_if (d_sam_available d) ["segment.sam"] feats in
  mkCapabilities (backend caps) feats.

(** The advertised names a warning reports as dropped. *)
Definition unknown_capabilities (d : Deployment) : list string :=
  let unknown := filter (λ x, dict_mem x (features (detect_capabilities d)) = false) (d_advertised d) in
  match d_actions d with
  | Some (a :: ids) =>
      py_sorted_set (filter (λ x, existsb (λ i, bool_decide (x = i) || starts_with (i +:+ ".") x) (a :: ids) = false) unknown)
  | _ => py_sorted_set unknown
  end.

Definition unavailable (capability reason : string) : api_error :=
  api_error_init CapabilityUnavailableError
    (if decide (reason = "") then "capability " +:+ str_repr capability +:+ " not supported by the current backend" else reason)
    [("capability", VStr capability)].

Definition require (d : Deployment) (capability : string) : res api_error unit :=
  raise_if (negb (supports (detect_capabilities d) capability)) (unavailable capability "").

End Capabilities.

Import Capabilities.

(** ** The vocabulary *)

Lemma ALL_KNOWN_NoDup : NoDup ALL_KNOWN.
Proof. apply (bool_decide_eq_true_1 _). vm_compute. reflexivity. Qed.

(** Every capability is an operation's or infrastructure, and none is both. *)
Definition classified (c : string) : bool :=
  xorb (match processor_for_capability c with Some _ => true | None => false end) (is_infrastructure_capability c).

Lemma capabilities_partitioned : forallb classified ALL_KNOWN = true.
Proof. vm_compute. reflexivity. Qed.

(** Every family of an operation names a capability. *)
Lemma families_known :
  forallb (λ p, forallb (λ f, existsb (λ c, bool_decide (c = f) || starts_with (f +:+ ".") c) ALL_KNOWN) (capabilities p))
    CORE_PROCESSORS = true.
Proof. vm_compute. reflexivity. Qed.

(** ** Switching flags on *)

Lemma get_set_on x y feats : get_on x (set_on y feats) = bool_decide (x = y) || get_on x feats.
Proof.
  unfold get_on, set_on. destruct (decide (x = y)) as [->|Hne].
  - by rewrite dict_get_set_eq, bool_decide_true.
  - by rewrite dict_get_set_ne, bool_decide_false.
Qed.

Lemma get_all_on x ys feats : get_on x (foldl (λ feats y, set_on y feats) feats ys) = bool_decide (x ∈ ys) || get_on x feats.
Proof.
  revert feats. induction ys as [|y ys IH]; intros feats; [done|]. cbn [foldl]. rewrite IH, get_set_on.
  destruct (get_on x feats); [by rewrite !orb_true_r|]. rewrite !orb_false_r, <-bool_decide_or. apply bool_decide_ext.
  rewrite elem_of_cons. tauto.
Qed.

Lemma get_set_on_if x b ys feats : get_on x (set_on_if b ys feats) = (b && bool_decide (x ∈ ys)) || get_on x feats.
Proof. destruct b; [apply get_all_on|done]. Qed.

Lemma keys_set_on x feats : x ∈ dict_keys feats → dict_keys (set_on x feats) = dict_keys feats.
Proof.
  unfold set_on. induction feats as [|[k v] feats IH]; cbn; intros Hx; [by apply elem_of_nil in Hx|].
  case_decide as Hk; cbn; [by rewrite Hk|]. f_equal. apply IH. by apply elem_of_cons in Hx as [->|?].
Qed.

Lemma keys_all_on xs feats : xs ⊆ dict_keys feats → dict_keys (foldl (λ feats y, set_on y feats) feats xs) = dict_keys feats.
Proof.
  revert feats. induction xs as [|x xs IH]; intros feats Hx; [done|]. cbn [foldl].
  assert (dict_keys (set_on x feats) = dict_keys feats) as Hk by (apply keys_set_on, Hx; list_in).
  rewrite IH; [done|]. rewrite Hk. intros y Hy. apply Hx. by constructor.
Qed.

Lemma keys_set_on_if b xs feats : xs ⊆ dict_keys feats → dict_keys (set_on_if b xs feats) = dict_keys feats.
Proof. intros Hx. destruct b; [by apply keys_all_on|done]. Qed.

(** *** The advertised flags *)

Definition advertise (feats : dict bool) (xs : list string) : dict bool :=
  foldl (λ feats x, if dict_mem x feats then set_on x feats else feats) feats xs.

Lemma advertise_cons feats x xs :
  advertise feats (x :: xs) = advertise (if dict_mem x feats then set_on x feats else feats) xs.
Proof. done. Qed.

Lemma keys_advertise feats xs : dict_keys (advertise feats xs) = dict_keys feats.
Proof.
  revert feats. induction xs as [|x xs IH]; intros feats; [done|]. rewrite advertise_cons, IH.
  destruct (dict_mem x feats) eqn:E; [|done]. apply keys_set_on. by apply dict_mem_true.
Qed.

Lemma get_advertise x feats xs :
  get_on x (advertise feats xs) = (bool_decide (x ∈ xs) && dict_mem x feats) || get_on x feats.
Proof.
  revert feats. induction xs as [|y xs IH]; intros feats; [done|]. rewrite advertise_cons, IH.
  assert (dict_mem x (if dict_mem y feats then set_on y feats else feats) = dict_mem x feats) as ->.
  { destruct (dict_mem y feats) eqn:E; [|done]. unfold dict_mem. rewrite keys_set_on; [done|]. by apply dict_mem_true. }
  destruct (decide (x = y)) as [->|Hne].
  - destruct (dict_mem y feats); [|by rewrite !andb_false_r].
    rewrite get_set_on, (bool_decide_true (y = y)), (bool_decide_true (y ∈ y :: xs)) by (done || list_in). by rewrite orb_true_r.
  - rewrite (bool_decide_ext (x ∈ y :: xs) (x ∈ xs)) by (rewrite elem_of_cons; tauto).
    destruct (dict_mem y feats); [|done]. by rewrite get_set_on, (bool_decide_false (x = y)).
Qed.

(** ** The report *)

Lemma empty_features b : features (empty_capabilities b) = ((λ x, (x, true)) <$> CORE_CAPABILITIES) ++ ((λ x, (x, false)) <$> OPTIONAL_CAPABILITIES).
Proof. vm_compute. reflexivity. Qed.

(** The capabilities the server provides whatever the backend advertises. *)
Definition provided_by_server (d : Deployment) (c : string) : bool :=
  (has_actions d && bool_decide (c ∈ ACTION_CAPABILITIES)) ||
  (d_has_config_schemas d && bool_decide (c = "backend.config_schemas")) ||
  (d_has_artifact_contracts d && bool_decide (c = "backend.artifact_contracts")) ||
  (d_has_pillow d && bool_decide (c ∈ ["similarity.dhash"; "images.thumbnail"])) ||
  (d_has_projection_engine d && bool_decide (c = "projection.equirectangular_to_cubemap")) ||
  bool_decide (c ∈ SERVER_CAPABILITIES) ||
  (bool_decide (d_name d = "stub") && bool_decide (c ∈ STUB_CAPABILITIES)) ||
  (d_has_ffmpeg d && bool_decide (c = "video.frame_extract")) ||
  (d_sam_available d && bool_decide (c = "segment.sam")).

(** The older names that stand for a projection. *)
Definition implied_by (c : string) : option string :=
  if decide (c = "projection.equirectangular_to_cubemap") then Some "spherical.render_cubemap"
  else if decide (c = "projection.cubemap_rig") then Some "spherical.to_cubemap"
  else None.

Definition advertised (d : Deployment) (c : string) : bool :=
  bool_decide (c ∈ d_advertised d) ||
  match implied_by c with Some c' => bool_decide (c' ∈ d_advertised d) | None => false end.

Lemma keys_empty b : dict_keys (features (empty_capabilities b)) = ALL_KNOWN.
Proof. vm_compute. reflexivity. Qed.

Lemma get_empty b c : get_on c (features (empty_capabilities b)) = bool_decide (c ∈ CORE_CAPABILITIES).
Proof.
  destruct (decide (c ∈ ALL_KNOWN)) as [Hc|Hc].
  - revert c Hc. apply (proj1 (Forall_forall _ _)). apply (bool_decide_eq_true_1 _). vm_compute. reflexivity.
  - rewrite bool_decide_false by (intros H; apply Hc; unfold ALL_KNOWN; apply elem_of_app; by left).
    unfold get_on. rewrite (proj2 (dict_get_None c _)); [done|]. by rewrite keys_empty.
Qed.

Lemma set_on_if_single b x : set_on_if b [x] = λ feats, if b then set_on x feats else feats.
Proof. by destruct b. Qed.

Lemma detect_features d :
  features (detect_capabilities d) =
  set_on_if (d_sam_available d) ["segment.sam"]
    (set_on_if (d_has_ffmpeg d) ["video.frame_extract"]
      (set_on_if (bool_decide (d_name d = "stub")) STUB_CAPABILITIES
        (set_on_if true SERVER_CAPABILITIES
          (set_on_if (d_has_projection_engine d) ["projection.equirectangular_to_cubemap"]
            (set_on_if (d_has_pillow d) ["similarity.dhash"; "images.thumbnail"]
              (set_on_if (d_has_artifact_contracts d) ["backend.artifact_contracts"]
                (set_on_if (d_has_config_schemas d) ["backend.config_schemas"]
                  (set_on_if (has_actions d) ACTION_CAPABILITIES
                    (let feats := advertise (features (empty_capabilities (backend_info d))) (remove_dups (d_advertised d)) in
                     let feats := set_on_if (get_on "spherical.render_cubemap" feats)
                                    ["projection.equirectangular_to_cubemap"] feats in
                     set_on_if (get_on "spherical.to_cubemap" feats) ["projection.cubemap_rig"] feats))))))))).
Proof. done. Qed.

Definition known (x : string) : bool := bool_decide (x ∈ ALL_KNOWN).

Lemma keys_known b xs feats :
  dict_keys feats = ALL_KNOWN → forallb known xs = true → dict_keys (set_on_if b xs feats) = ALL_KNOWN.
Proof.
  intros Hf Hx. rewrite keys_set_on_if; [done|]. rewrite Hf. intros x Hin. rewrite forallb_forall in Hx.
  apply (bool_decide_eq_true_1 (x ∈ ALL_KNOWN)), Hx. by apply list_elem_of_In.
Qed.

Lemma detect_keys d : dict_keys (features (detect_capabilities d)) = ALL_KNOWN.
Proof.
  rewrite detect_features. cbv zeta. repeat (apply keys_known; [|vm_compute; reflexivity]).
  by rewrite keys_advertise, keys_empty.
Qed.

Lemma known_mem b x : dict_mem x (features (empty_capabilities b)) = known x.
Proof. unfold dict_mem. by rewrite keys_empty. Qed.

Lemma decide_single (x y : string) : bool_decide (x ∈ [y]) = bool_decide (x = y).
Proof. apply bool_decide_ext, list_elem_of_singleton. Qed.

Lemma decide_remove_dups (x : string) l : bool_decide (x ∈ remove_dups l) = bool_decide (x ∈ l).
Proof. apply bool_decide_ext, elem_of_remove_dups. Qed.

Lemma advertised_cases d c :
  advertised d c = bool_decide (c ∈ d_advertised d) ||
    (bool_decide (c = "projection.equirectangular_to_cubemap") && bool_decide ("spherical.render_cubemap" ∈ d_advertised d)) ||
    (bool_decide (c = "projection.cubemap_rig") && bool_decide ("spherical.to_cubemap" ∈ d_advertised d)).
Proof.
  unfold advertised, implied_by.
  destruct (decide (c = "projection.equirectangular_to_cubemap")) as [->|H1].
  { rewrite (bool_decide_true (_ = _)), (bool_decide_false (_ = "projection.cubemap_rig")) by done. by rewrite orb_false_r. }
  rewrite (bool_decide_false (c = "projection.equirectangular_to_cubemap")) by done. rewrite orb_false_r.
  by destruct (decide (c = "projection.cubemap_rig")) as [->|H2]; [rewrite (bool_decide_true (_ = _))|rewrite (bool_decide_false (c = _))].
Qed.

(** A report lists exactly the vocabulary, in its order, and a capability is supported
    exactly when it is core, or known and advertised, or provided by the server. *)
Lemma detect_supports d c :
  supports (detect_capabilities d) c =
  known c && (bool_decide (c ∈ CORE_CAPABILITIES) || advertised d c || provided_by_server d c).
Proof.
  destruct (known c) eqn:Hk; cbn [andb].
  2: { unfold supports. rewrite (proj2 (dict_get_None c _)); [done|]. rewrite detect_keys. by apply bool_decide_eq_false in Hk. }
  change (supports (detect_capabilities d) c) with (get_on c (features (detect_capabilities d))).
  rewrite detect_features. cbv zeta. rewrite !get_set_on_if, !get_advertise, !get_empty, !known_mem.
  change (known "spherical.render_cubemap") with true. change (known "spherical.to_cubemap") with true. rewrite Hk.
  rewrite !decide_remove_dups, advertised_cases, !decide_single. unfold provided_by_server.
  change (bool_decide ("spherical.render_cubemap" ∈ CORE_CAPABILITIES)) with false.
  change (bool_decide ("spherical.to_cubemap" ∈ CORE_CAPABILITIES)) with false.
  change (bool_decide ("spherical.to_cubemap" = "projection.equirectangular_to_cubemap")) with false.
  btauto.
Qed.
