(* ===== verification/Backends.v ===== *)
(** Backends: the registry of factories ([adapters/registry.py]), the descriptor core
    ([adapters/_descriptor_registry.py]) and the option schemas
    ([adapters/backend_config.py]) that check what a client sends to a backend. *)
From S2P Require Import Prelude PyValue Errors Attributes Processors Capabilities HubManifest Conversion HubState HubRouting.
From stdpp Require Import options.
Import Errors.

#[local] Open Scope Z_scope.
#[local] Arguments String.append !_ _ / : simpl nomatch.

Module Backends.

(** A plugin's backend object: its name, what its [list_backend_config_schemas] returns
    ([None] where it has none), and its capabilities ([None] where asking fails). *)
Record Backend : Type := mkBackend {
  b_name : string;
  b_config_rows : option (res exn (list (dict value)));
  b_capabilities : option (list string)
}.

Definition invalid (detail : string) : exn := exn_of_api_error (api_error_init ValidationError detail []).

(** ** The registry *)

Section registry.
(** Factories, compared by identity, with the name they are reported under. *)
Context {Factory : Type} `{EqDecision Factory} (qualname : Factory → string) (call : Factory → Backend).

Record Registry : Type := mkRegistry { _REGISTRY : dict Factory; _PROVIDER_REGISTRY : dict Factory }.

(** The message of the [ValueError]. *)
Definition register_backend_provider (provider_id : string) (factory : Factory) (r : Registry) : res string Registry :=
  match dict_get provider_id (_PROVIDER_REGISTRY r) with
  | Some existing =>
      if decide (existing = factory) then Ok (mkRegistry (_REGISTRY r) (dict_set provider_id factory (_PROVIDER_REGISTRY r)))
      else Err ("provider id " +:+ str_repr provider_id +:+ " is already registered to " +:+ qualname existing +:+
                "; refusing to replace it with " +:+ qualname factory)
  | None => Ok (mkRegistry (_REGISTRY r) (dict_set provider_id factory (_PROVIDER_REGISTRY r)))
  end.

(** The registry afterwards, with the error that cut it short: the backend is registered
    before its providers are. *)
Fixpoint register_providers (providers : list string) (factory : Factory) (r : Registry) : Registry * option string :=
  match providers with
  | [] => (r, None)
  | p :: providers =>
      match register_backend_provider p factory r with
      | Ok r => register_providers providers factory r
      | Err e => (r, Some e)
      end
  end.

Definition register_backend (name : string) (factory : Factory) (providers : list string) (r : Registry) :
    Registry * option string :=
  register_providers providers factory (mkRegistry (dict_set name factory (_REGISTRY r)) (_PROVIDER_REGISTRY r)).

Definition list_backends (r : Registry) : list string := py_sorted (dict_keys (_REGISTRY r)).
Definition list_backend_providers (r : Registry) : list string := py_sorted (dict_keys (_PROVIDER_REGISTRY r)).

Definition texts_repr (l : list string) : string := Conversion.py_repr (VStrs l).

Definition unknown_provider (r : Registry) (provider : string) : string :=
  "unknown sceneapi provider " +:+ str_repr provider +:+ "; registered providers: " +:+ texts_repr (list_backend_providers r) +:+
  "; registered backends: " +:+ texts_repr (list_backends r) +:+
  ". Install, enable, and load a backend plugin that declares this provider.".

Definition _bare_provider_selector (provider : string) : string :=
  match partition_on "@" provider with Some (p, _) => p | None => provider end.

(** [a or b or c] on optional texts *)
Definition or_text (a b : option string) : option string :=
  match a with Some s => if decide (s = "") then b else a | None => b end.

(** [get_backend(name, provider=provider)]; [env] and [legacy_env] are the two variables.
    Errors are messages of [KeyError]s. *)
Definition get_backend (env legacy_env : option string) (r : Registry) (name provider : option string) : res string Backend :=
  match or_text provider None with
  | Some p =>
      match dict_get p (_PROVIDER_REGISTRY r) with
      | Some f => Ok (call f)
      | None =>
          if str_mem "@" p then Err (unknown_provider r p)
          else match dict_get (_bare_provider_selector p) (_PROVIDER_REGISTRY r) with
               | Some f => Ok (call f)
               | None => Err (unknown_provider r p)
               end
      end
  | None =>
      match or_text name (or_text env (or_text legacy_env None)) with
      | None => Err ("no sceneapi backend selected: set SCENEAPI_BACKEND or pass `name=` explicitly. Registered backends: " +:+
                     texts_repr (list_backends r) +:+ "; registered providers: " +:+ texts_repr (list_backend_providers r))
      | Some chosen =>
          match dict_get chosen (_REGISTRY r) with
          | Some f => Ok (call f)
          | None => Err ("unknown sceneapi backend " +:+ str_repr chosen +:+ "; registered: " +:+ texts_repr (list_backends r) +:+
                         ". Install + register a backend implementation in app startup.")
          end
      end
  end.
End registry.

(** ** Ids ([core/ids.py]) *)

Definition str_rev (s : string) : string := String.string_of_list_ascii (rev (String.list_ascii_of_string s)).
Definition newline : string := String (ascii_of_nat 10) "".

(** [re.compile("^X$").match(s)]: [$] also matches before a final newline. *)
Definition dollar (p : string → bool) (s : string) : bool :=
  p s || (starts_with newline (str_rev s) && p (str_rev (remove_prefix newline (str_rev s)))).

Definition id_word (s : string) : bool :=
  Manifest.word_of Conversion.alnum (λ a, Conversion.alnum a || Manifest.one_of ["_"; "-"]%char a) s.

Definition is_namespaced_id : string → bool :=
  dollar (λ s, (2 <=? length (split_on "." s))%nat && forallb id_word (split_on "." s)).

Definition is_provider_id : string → bool :=
  dollar (Manifest.word_of Conversion.alnum (λ a, Conversion.alnum a || Manifest.one_of ["_"; "."; "-"]%char a)).

(** ** Descriptors *)

(** The white space [str.strip()] removes, in UTF-8. *)
Definition byte (n : nat) : ascii := ascii_of_nat n.
Definition three (a b c : nat) : string := String (byte a) (String (byte b) (String (byte c) "")).
Definition spaces : list string :=
  ((λ n, String (byte n) "") <$> [9; 10; 11; 12; 13; 28; 29; 30; 31; 32])%nat ++
  ((λ n, String (byte 194) (String (byte n) "")) <$> [133; 160])%nat ++
  [three 225 154 128; three 226 128 168; three 226 128 169; three 226 128 175; three 226 129 159; three 227 128 128]%nat ++
  ((λ n, three 226 128 (128 + n)) <$> seq 0 11)%nat.

(** Drop leading members of [ws], at most [fuel] of them. *)
Fixpoint lstrip (ws : list string) (fuel : nat) (s : string) : string :=
  match fuel with
  | O => s
  | S fuel => match head (filter (λ w, starts_with w s = true) ws) with
              | Some w => lstrip ws fuel (remove_prefix w s)
              | None => s
              end
  end.

Definition py_strip (s : string) : string :=
  let s := lstrip spaces (String.length s) s in
  str_rev (lstrip (str_rev <$> spaces) (String.length s) (str_rev s)).

(** [urllib.parse.quote(s, safe="")] *)
Definition upper_hex (n : nat) : ascii := match String.get n "0123456789ABCDEF" with Some c => c | None => "0"%char end.
Definition quote_byte (a : ascii) : string :=
  if Conversion.alnum a || Manifest.one_of ["_"; "."; "-"; "~"]%char a then String a ""
  else String "%" (String (upper_hex (nat_of_ascii a / 16)) (String (upper_hex (nat_of_ascii a mod 16)) "")).
Fixpoint quote (s : string) : string := match s with EmptyString => "" | String a s => quote_byte a +:+ quote s end.

(** [raw.get(a) or raw.get(b) or ...] *)
Fixpoint first_truthy (raw : dict value) (keys : list string) (default : value) : value :=
  match keys with
  | [] => default
  | k :: keys => if truthy (value_get k raw) then value_get k raw else first_truthy raw keys default
  end.

Definition optional_str (v : value) : option string := match v with VNone => None | _ => Some (Conversion.py_str v) end.

Definition descriptor_display_name (raw : dict value) (default : string) : value :=
  first_truthy raw ["display_name"; "title"] (VStr default).

Definition provider_violation (label : string) (provider : option string) : option string :=
  match provider with
  | None => None
  | Some p => if is_provider_id p then None
              else Some (label +:+ ": provider must match /^[A-Za-z0-9][A-Za-z0-9_.-]*$/")
  end.

Definition capability_violation (label : string) (capability : option string) : option string :=
  match capability with
  | None => None
  | Some c => if bool_decide (c ∈ Capabilities.ALL_KNOWN) then None
              else Some (label +:+ ": capability " +:+ str_repr c +:+ " is not portable")
  end.

(** One registry of descriptors; [link_operations] and [link_collection] have their
    defaults. *)
Record DescriptorRegistry : Type := mkDescriptorRegistry {
  id_key : string;
  descriptor_noun : string;
  title : string;
  violation_heading : string;
  collection_path : string;
  index_label : string;
  list_method : string;
  stage_order : dict Z
}.

Section descriptors.
Context (g : DescriptorRegistry) {Row : Type} (row_id row_stage : Row → string).

Definition href (s : string) : value := VDict [("href", VStr s)].

Definition links (item_id : string) : value :=
  VDict [("self", href (collection_path g +:+ "/" +:+ quote item_id)); ("collection", href (collection_path g))].

Definition descriptor_id (raw : dict value) : res exn string :=
  let item_id := py_strip (Conversion.py_str (first_truthy raw [id_key g; "id"; "name"] (VStr ""))) in
  _ ← raise_if (bool_decide (item_id = "")) (invalid ("backend " +:+ descriptor_noun g +:+ " descriptor missing " +:+ id_key g));
  Ok item_id.

Definition row_weight (r : Row) : Z := default 999 (dict_get (row_stage r) (stage_order g)).

Definition row_le (a b : Row) : Prop :=
  row_weight a < row_weight b ∨ row_weight a = row_weight b ∧ String.le (row_id a) (row_id b).

#[export] Instance row_le_dec a b : Decision (row_le a b).
Proof using Type. unfold row_le. apply _. Defined.

Definition setdefault (d : dict Row) (r : Row) : dict Row :=
  match dict_get (row_id r) d with Some _ => d | None => dict_set (row_id r) r d end.

Definition dedupe (rows : list Row) : list Row := merge_sort row_le (foldl setdefault [] rows).*2.

(** [list_rows]; [raws] is what the backend's list method returns, if it has one. *)
Definition list_rows (raws : option (res exn (list (dict value)))) (normalize : dict value → res exn Row)
    (fallback : res exn (list Row)) (generic_wins : bool) : res exn (list Row) :=
  rows ← match raws with
         | None => Ok []
         | Some raws => raws ← raws; fold_res (λ out raw, r ← normalize raw; Ok (out ++ [r])) [] raws
         end;
  if generic_wins && negb (is_nil rows) then Ok (dedupe rows)
  else more ← fallback; Ok (dedupe (rows ++ more)).

Definition get_row (rows : list Row) (item_id : string) : res exn Row :=
  match head (filter (λ r, row_id r = item_id) rows) with
  | Some r => Ok r
  | None => Err (exn_of_api_error (api_error_init NotFoundError (title g +:+ " " +:+ str_repr item_id +:+ " not found") []))
  end.

Definition listing_failed (e : exn) : list string := [list_method g +:+ "() failed: " +:+ exn_text e].
Definition row_label (item_id : string) (index : nat) : string :=
  if decide (item_id = "") then index_label g +:+ "[" +:+ pretty index +:+ "]" else item_id.
Definition missing_id_violation (label : string) : string := label +:+ ": " +:+ id_key g +:+ " is required".
Definition namespaced_id_violation (label item_id : string) : option string :=
  if is_namespaced_id item_id then None else Some (label +:+ ": " +:+ id_key g +:+ " should be namespaced, e.g. vendor.stage").
Definition duplicate_violations (ids : list string) : list string :=
  (λ i, i +:+ ": duplicate " +:+ id_key g) <$> py_duplicates ids.
End descriptors.

(** ** Option schemas *)

(** [dict(v or {})] where [v] is an object; [dict()] of anything else raises. *)
Definition dict_or_empty (v : value) : res exn (dict value) :=
  match v with
  | VDict d => Ok d
  | _ => if truthy v then Err (mkExn "TypeError" "not a mapping" false) else Ok []
  end.

Definition _STAGE_ORDER : dict Z :=
  [("features", 10); ("pairs", 20); ("matcher", 30); ("verify", 40); ("mapping", 50); ("bundle_adjustment", 60);
   ("radiance", 70)].
Definition _VALID_STAGES : list string := dict_keys _STAGE_ORDER.

Definition _CONFIGS : DescriptorRegistry :=
  mkDescriptorRegistry "config_id" "config schema" "Backend config schema" "Backend config schema contract violations:"
    "/v1/backend/config-schemas" "config" "list_backend_config_schemas" _STAGE_ORDER.

Definition _infer_stage (capability : option string) : string :=
  match capability with
  | None => "other"
  | Some c =>
      if starts_with "features." c then "features"
      else if starts_with "pairs." c then "pairs"
      else if starts_with "matchers." c then "matcher"
      else if decide (c = "matches.verify") then "verify"
      else if starts_with "map." c then "mapping"
      else if starts_with "ba." c then "bundle_adjustment"
      else if starts_with "radiance." c then "radiance"
      else "other"
  end.

(** A normalized row, with its schema included. *)
Record ConfigSchema : Type := mkConfigSchema {
  config_id : string;
  cs_backend : string;
  cs_stage : string;
  cs_capability : option string;
  cs_provider : option string;
  cs_display_name : value;
  cs_description : value;
  option_schema : dict value;
  cs_defaults : dict value;
  cs_metadata : dict value;
  cs_links : value
}.

(** [raw.get("option_schema", raw.get("schema", raw.get("input_schema")))] *)
Definition raw_schema (raw : dict value) : value :=
  match dict_get "option_schema" raw with
  | Some v => v
  | None => match dict_get "schema" raw with Some v => v | None => value_get "input_schema" raw end
  end.

Definition _normalize_descriptor (b : Backend) (raw : dict value) : res exn ConfigSchema :=
  config_id ← descriptor_id _CONFIGS raw;
  let capability := optional_str (value_get "capability" raw) in
  let provider := optional_str (value_get "provider" raw) in
  let schema := raw_schema raw in
  _ ← raise_if (negb (is_none schema) && negb (is_dict schema)) (invalid (config_id +:+ ": option_schema must be an object or null"));
  schema ← dict_or_empty schema;
  defaults ← dict_or_empty (value_get "defaults" raw);
  metadata ← dict_or_empty (value_get "metadata" raw);
  Ok (mkConfigSchema config_id (Conversion.py_str (first_truthy raw ["backend"] (VStr (b_name b))))
        (Conversion.py_str (first_truthy raw ["stage"] (VStr (_infer_stage capability)))) capability provider
        (descriptor_display_name raw config_id) (value_get "description" raw) schema defaults metadata
        (links _CONFIGS config_id)).

Definition _RADIANCE_TRAIN_CONFIG_ID : string := "radiance.train".

Definition radiance_train_option_schema : dict value :=
  [("type", VStr "object"); ("additionalProperties", VBool false);
   ("properties", VDict
      [("num_gaussians", VDict [("type", VStr "integer"); ("minimum", VInt 1);
          ("description", VStr "Gaussian/primitive cap (mapped to each engine's native cap option).")]);
       ("max_resolution", VDict [("type", VStr "integer"); ("minimum", VInt 1);
          ("description", VStr "Max training image dimension in px. Engines that train full-resolution or take a scale factor (e.g. fastergs image_scale_factor) document the deviation.")]);
       ("init", VDict [("type", VStr "string"); ("enum", VStrs ["colmap"; "random"]); ("default", VStr "colmap");
          ("description", VStr "Gaussian initialization source.")]);
       ("test_every", VDict [("type", VStr "integer"); ("minimum", VInt 1); ("default", VInt 8);
          ("description", VStr "Hold out every Nth registered view as the evaluation split.")])])].

Definition radiance_aliases (rows : list (string * string)) : value := VDict (prod_map id VStr <$> rows).

Definition radiance_descriptor (b : Backend) : dict value :=
  [("config_id", VStr _RADIANCE_TRAIN_CONFIG_ID); ("backend", VStr (b_name b)); ("stage", VStr "radiance");
   ("capability", VStr "radiance.train"); ("display_name", VStr "Radiance training options");
   ("description", VStr "Canonical cross-engine radiance/3DGS training knobs accepted through `backend_options`. `max_steps` and `eval` are first-class RadianceTrainRequest fields.");
   ("option_schema", VDict radiance_train_option_schema);
   ("defaults", VDict [("init", VStr "colmap"); ("test_every", VInt 8)]);
   ("metadata", VDict [("family", VStr "radiance"); ("native_aliases", VDict
      [("num_gaussians", radiance_aliases [("gsplat", "num_gaussians"); ("brush", "max_splats"); ("lfs", "max_cap");
          ("fastergs", "max_primitives"); ("spirulae", "model.cap_max")]);
       ("max_resolution", radiance_aliases [("gsplat", "target_size"); ("brush", "max_resolution"); ("lfs", "max_width");
          ("fastergs", "image_scale_factor (scale, not max-dim)"); ("spirulae", "n/a (trains full-resolution)")])])])].

Definition _radiance_config_descriptors (b : Backend) : res exn (list ConfigSchema) :=
  match b_capabilities b with
  | None => Ok []
  | Some caps =>
      if decide ("radiance.train" ∈ caps) then r ← _normalize_descriptor b (radiance_descriptor b); Ok [r] else Ok []
  end.

Definition list_backend_config_schemas (b : Backend) : res exn (list ConfigSchema) :=
  list_rows _CONFIGS config_id cs_stage (b_config_rows b) (_normalize_descriptor b) (_radiance_config_descriptors b) true.

(** [has_backend_config_schemas]: any failure means no. *)
Definition has_backend_config_schemas (b : Backend) : bool :=
  match list_backend_config_schemas b with Ok rows => negb (is_nil rows) | Err _ => false end.

Definition get_backend_config_schema (config : string) (b : Backend) : res exn ConfigSchema :=
  rows ← list_backend_config_schemas b; get_row _CONFIGS config_id rows config.

(** *** Python equality and membership *)

Definition float_eq (a b : float_value) : bool :=
  match a, b with
  | FFinite p, FFinite q => QArith_base.Qeq_bool p q
  | FPosInf, FPosInf | FNegInf, FNegInf => true
  | _, _ => false
  end.

(** [v == w]; numbers compare by value, [True] is 1. *)
Fixpoint value_eq (v w : value) : bool :=
  match v, w with
  | VNone, VNone => true
  | VStr s, VStr t => bool_decide (s = t)
  | VList l, VList l' =>
      (fix go (l l' : list value) : bool :=
         match l, l' with [], [] => true | x :: l, y :: l' => value_eq x y && go l l' | _, _ => false end) l l'
  | VDict d, VDict d' =>
      bool_decide (length d = length d') &&
      (fix go (d : list (string * value)) : bool :=
         match d with
         | [] => true
         | (k, x) :: d => match dict_get k d' with Some y => value_eq x y | None => false end && go d
         end) d
  | _, _ => match as_number v, as_number w with Some a, Some b => float_eq a b | _, _ => false end
  end.

Fixpoint substring_of (s t : string) : bool :=
  starts_with s t || match t with EmptyString => false | String _ t => substring_of s t end.

Definition type_error (text : string) : exn := mkExn "TypeError" text false.

(** [v in choices] *)
Definition in_choices (v choices : value) : res exn bool :=
  match choices with
  | VList l => Ok (existsb (value_eq v) l)
  | VStr t => match v with VStr s => Ok (substring_of s t) | _ => Err (type_error "'in <string>' requires string as left operand") end
  | VDict d => match v with
               | VStr s => Ok (dict_mem s d)
               | VList _ | VDict _ => Err (type_error "unhashable type")
               | _ => Ok false
               end
  | _ => Err (type_error "argument is not iterable")
  end.

(** [list(choices)] of what [in] accepted *)
Definition choice_list (choices : value) : value :=
  match choices with
  | VList l => VList l
  | VStr t => VStrs ((λ a, String a "") <$> String.list_ascii_of_string t)
  | VDict d => VStrs (dict_keys d)
  | _ => VList []
  end.

(** *** Checking options *)

Definition _json_type_matches (v : value) (expected : string) : bool :=
  if decide (expected = "null") then is_none v
  else if decide (expected = "boolean") then is_bool v
  else if decide (expected = "integer") then is_int v && negb (is_bool v)
  else if decide (expected = "number") then (is_int v || is_float v) && negb (is_bool v)
  else if decide (expected = "string") then is_str v
  else if decide (expected = "array") then is_list v
  else if decide (expected = "object") then is_dict v
  else true.

(** The field and the message. *)
Definition option_error : Type := string * string.

Definition unknown_options (config : string) (properties options : dict value) : list option_error :=
  (λ k, (k, str_repr k +:+ " is not a valid option for " +:+ config)) <$>
    filter (λ k, k ∉ dict_keys properties) (py_sorted (dict_keys options)).

Definition expected_types (raw_type : value) : list string :=
  Conversion.py_str <$> match raw_type with VList l => l | v => [v] end.

(** The errors of one option. *)
Definition check_option (properties : dict value) (key : string) (v : value) : res exn (list option_error) :=
  match value_get key properties with
  | VDict schema =>
      let choices := value_get "enum" schema in
      ok ← match choices with VNone => Ok true | _ => in_choices v choices end;
      if negb ok then Ok [(key, str_repr key +:+ " must be one of " +:+ Conversion.py_repr (choice_list choices))]
      else
        match value_get "type" schema with
        | VNone => Ok []
        | raw_type =>
            let expected := expected_types raw_type in
            Ok (if existsb (_json_type_matches v) expected then []
                else [(key, str_repr key +:+ " expects JSON type " +:+ join "/" expected)])
        end
  | _ => Ok []
  end.

(** [sorted(options.items())]: keys are distinct. *)
Definition sorted_items (options : dict value) : list (string * value) :=
  omap (λ k, (λ v, (k, v)) <$> dict_get k options) (py_sorted (dict_keys options)).

(** [x is False] *)
Definition is_false (v : value) : bool := match v with VBool false => true | _ => false end.

Definition _validate_against_schema (config : string) (options schema : dict value) : res exn (list option_error) :=
  if is_nil schema then Ok []
  else
    match value_get "properties" schema with
    | VDict properties =>
        let unknown := if is_false (value_get "additionalProperties" schema)
                       then unknown_options config properties options else [] in
        fold_res (λ errors kv, more ← check_option properties kv.1 kv.2; Ok (errors ++ more)) unknown (sorted_items options)
    | _ => Ok []
    end.

Definition validate_against_schema : string → dict value → dict value → res exn (list option_error) := _validate_against_schema.

(** The rows that apply to a stage, a capability and a provider; [None] when the
    provider has none. *)
Definition applicable_rows (stage : string) (capability provider : option string) (b : Backend) (rows : list ConfigSchema) :
    option (list ConfigSchema) :=
  let stage_rows := filter (λ r, cs_stage r = stage) rows in
  let stage_rows :=
    match or_text capability None with
    | None => stage_rows
    | Some c => let exact := filter (λ r, cs_capability r = Some c) stage_rows in
                if is_nil exact then stage_rows else exact
    end in
  match or_text provider None with
  | None => Some stage_rows
  | Some p =>
      let names := [p; b_name b] in
      let provider_rows := filter (λ r, cs_provider r ∈ Some <$> names ∨ cs_backend r ∈ names) stage_rows in
      if is_nil provider_rows then None else Some provider_rows
  end.

(** The first row without errors wins; otherwise the errors of all rows. *)
Fixpoint try_rows (options : dict value) (rows : list ConfigSchema) : res exn (option (list (string * list option_error))) :=
  match rows with
  | [] => Ok (Some [])
  | r :: rows =>
      errors ← _validate_against_schema (config_id r) options (option_schema r);
      match errors with
      | [] => Ok None
      | _ => rest ← try_rows options rows; Ok (match rest with Some l => Some ((config_id r, errors) :: l) | None => None end)
      end
  end.

(** [min(candidates, key=lambda item: len(item[1]))]: the first of the shortest. *)
Fixpoint fewest (best : string * list option_error) (l : list (string * list option_error)) : string * list option_error :=
  match l with
  | [] => best
  | x :: l => fewest (if (length x.2 <? length best.2)%nat then x else best) l
  end.

Section validation.
(** [ensure_provider_enabled] and [get_backend] with their [KeyError] messages. *)
Context (ensure_enabled : string → res string unit) (backend_for : option string → res string Backend).

Definition key_error {A} (r : res string A) : res exn A :=
  match r with Ok a => Ok a | Err msg => Err (invalid (str_repr msg)) end.

Definition valid_options (options : dict value) : value :=
  VDict [("valid", VBool true); ("errors", VList []); ("normalized_options", VDict options)].

Definition validate_backend_options (stage : string) (options : dict value) (capability provider : option string) :
    res exn value :=
  if is_nil options then Ok (valid_options [])
  else
    _ ← match provider with Some p => key_error (ensure_enabled p) | None => Ok tt end;
    b ← key_error (backend_for provider);
    rows ← list_backend_config_schemas b;
    match applicable_rows stage capability provider b rows with
    | None | Some [] => Ok (valid_options options)
    | Some rows =>
        tried ← try_rows options rows;
        match tried with
        | None => Ok (valid_options options)
        | Some [] => Ok (valid_options options)
        | Some (c :: l) =>
            let '(config, errors) := fewest c l in
            let detail := join "; " errors.*2 in
            Err (invalid (if decide (detail = "") then "invalid backend_options for " +:+ config else detail))
        end
    end.
End validation.

(** *** The contract of a backend's schemas *)

Definition some_list {A} (x : option A) : list A := match x with Some a => [a] | None => [] end.

Definition schema_violations (label : string) (schema : dict value) : list string :=
  let properties := default (VDict []) (dict_get "properties" schema) in
  (match value_get "type" schema with
   | VNone => []
   | VStr t => if decide (t = "object") then [] else [label +:+ ": option_schema.type must be object"]
   | _ => [label +:+ ": option_schema.type must be object"]
   end) ++
  (if is_false (value_get "additionalProperties" schema) then []
   else [label +:+ ": option_schema.additionalProperties must be false so sfmapi can reject misspelled backend_options"]) ++
  (match properties with
   | VNone => []
   | VDict props =>
       (props ≫= λ kv, if is_dict kv.2 then []
                       else [label +:+ ": option_schema.properties." +:+ kv.1 +:+ " must be an object"]) ++
       (match default (VList []) (dict_get "required" schema) with
        | VNone => []
        | VList names =>
            (Conversion.py_str <$> names) ≫= λ n,
              if dict_mem n props then []
              else [label +:+ ": option_schema.required contains unknown property " +:+ str_repr n]
        | _ => [label +:+ ": option_schema.required must be an array"]
        end)
   | _ => [label +:+ ": option_schema.properties must be an object"]
   end).

Definition row_violations (index : nat) (r : ConfigSchema) : list string :=
  let label := row_label _CONFIGS (config_id r) index in
  if decide (config_id r = "") then [missing_id_violation _CONFIGS label]
  else
    some_list (namespaced_id_violation _CONFIGS label (config_id r)) ++
    (let stage := py_strip (cs_stage r) in
     if decide (stage = "") then [label +:+ ": stage is required"]
     else if bool_decide (stage ∈ _VALID_STAGES) then []
     else [label +:+ ": stage must be one of " +:+ Conversion.py_repr (VStrs (py_sorted _VALID_STAGES))]) ++
    some_list (provider_violation label (cs_provider r)) ++
    some_list (capability_violation label (cs_capability r)) ++
    schema_violations label (option_schema r).

Definition backend_config_contract_violations (b : Backend) : list string :=
  match list_backend_config_schemas b with
  | Err e => listing_failed _CONFIGS e
  | Ok rows =>
      mjoin (imap row_violations rows) ++
      duplicate_violations _CONFIGS (filter (λ i, i ≠ "") (config_id <$> rows))
  end.

End Backends.
