(* ===== verification/BackendGuarantees.v ===== *)
(** What checking a stage's backend options against the schemas of a backend decides. *)
From S2P Require Import Prelude PyValue Errors Capabilities Backends.
From stdpp Require Import options.
Import Errors Backends.

(** ** When a row accepts options *)

Definition option_ok (properties : dict value) (key : string) (v : value) : Prop :=
  ∀ schema, value_get key properties = VDict schema →
  (∀ choices, value_get "enum" schema = VList choices → existsb (value_eq v) choices = true) ∧
  (value_get "type" schema ≠ VNone →
   existsb (_json_type_matches v) (expected_types (value_get "type" schema)) = true).

(** Every option is declared, listed and of a declared type, if the schema declares
    properties at all. *)
Definition row_accepts (options : dict value) (r : ConfigSchema) : Prop :=
  ∀ properties, value_get "properties" (option_schema r) = VDict properties →
  ∀ key v, (key, v) ∈ options → key ∈ dict_keys properties ∧ option_ok properties key v.

(** The enums of a schema are lists. *)
Definition listed_enum (property : string * value) : bool :=
  match property.2 with
  | VDict schema => match value_get "enum" schema with VNone | VList _ => true | _ => false end
  | _ => true
  end.
Definition listed_enums (r : ConfigSchema) : bool :=
  match value_get "properties" (option_schema r) with VDict properties => forallb listed_enum properties | _ => true end.

(** ** The checks decide it *)

Lemma value_get_elem k d v : value_get k d = VDict v → (k, VDict v) ∈ d.
Proof. unfold value_get. destruct (dict_get k d) eqn:E; [|done]. intros ->. by apply dict_get_elem. Qed.

Lemma check_option_spec properties key v :
  forallb listed_enum properties = true →
  ∃ errors, check_option properties key v = Ok errors ∧ (errors = [] ↔ option_ok properties key v).
Proof.
  intros Hl. unfold check_option, option_ok. destruct (value_get key properties) as [| | | | | |schema] eqn:Hk;
    try (exists []; split; [done|]; split; [|done]; intros _ ? H; discriminate H).
  rewrite forallb_forall in Hl. specialize (Hl (key, VDict schema)). unfold listed_enum in Hl. cbn in Hl.
  specialize (Hl (proj1 (list_elem_of_In _ _) (value_get_elem _ _ _ Hk))).
  set (typed := match value_get "type" schema with VNone => _ | _ => _ end).
  assert (∃ errors, typed = Ok errors ∧ (errors = [] ↔ (value_get "type" schema ≠ VNone →
    existsb (_json_type_matches v) (expected_types (value_get "type" schema)) = true))) as (errors & Htyped & Htype).
  { subst typed. destruct (value_get "type" schema) as [|b|z|f|t|l|d]; [by exists []|..];
      (destruct (existsb (_json_type_matches v) (expected_types _)) eqn:E; eexists; (split; [reflexivity|]);
       (split; [try done|intros H]); [done|..]; try (by specialize (H ltac:(done)))). }
  destruct (value_get "enum" schema) as [| | | | |choices|] eqn:Henum; try discriminate Hl.
  - exists errors. cbn. split; [done|]. rewrite Htype. split.
    + intros H s [= <-]. rewrite Henum. by split.
    + intros H. by apply (H schema).
  - cbn. destruct (existsb (value_eq v) choices) eqn:Hin; cbn.
    + exists errors. split; [done|]. rewrite Htype. split.
      * intros H s [= <-]. rewrite Henum. split; [by intros ? [= <-]|exact H].
      * intros H. by apply (H schema).
    + eexists. split; [reflexivity|]. split; [done|]. intros H. destruct (H schema eq_refl) as [H1 _].
      rewrite (H1 choices Henum) in Hin. done.
Qed.

(** *** The errors of all options *)

Lemma fold_errors {A} (f : A → res exn (list option_error)) (ok : A → Prop) l acc :
  (∀ x, x ∈ l → ∃ errors, f x = Ok errors ∧ (errors = [] ↔ ok x)) →
  ∃ errors, fold_res (λ errors x, more ← f x; Ok (errors ++ more)) acc l = Ok errors ∧
    (errors = [] ↔ acc = [] ∧ ∀ x, x ∈ l → ok x).
Proof.
  revert acc. induction l as [|x l IH]; intros acc Hf.
  - exists acc. split; [done|]. split; [intros ->; split; [done|]; by intros ? ?%elem_of_nil|by intros [-> _]].
  - destruct (Hf x ltac:(list_in)) as (e & He & Hx). destruct (IH (acc ++ e)) as (errors & Herr & Hiff).
    { intros y Hy. apply Hf. by constructor. }
    exists errors. cbn. rewrite He. cbn. split; [exact Herr|]. rewrite Hiff, app_nil, Hx. setoid_rewrite elem_of_cons. naive_solver.
Qed.

Lemma elem_sorted_items options key v : NoDup (dict_keys options) → (key, v) ∈ sorted_items options ↔ (key, v) ∈ options.
Proof.
  intros Hd. unfold sorted_items. rewrite list_elem_of_omap. split.
  - intros (k & _ & Hk). destruct (dict_get k options) as [w|] eqn:Hw; [|done]. injection Hk as -> ->. by apply dict_get_elem.
  - intros Hin. exists key. split; [|by rewrite (dict_elem_get key v options Hd Hin)].
    apply elem_of_py_sorted. apply list_elem_of_fmap. by exists (key, v).
Qed.

Lemma validate_spec options r :
  NoDup (dict_keys options) → listed_enums r = true → is_false (value_get "additionalProperties" (option_schema r)) = true →
  ∃ errors, _validate_against_schema (config_id r) options (option_schema r) = Ok errors ∧ (errors = [] ↔ row_accepts options r).
Proof.
  intros Hd Hl Hclosed. unfold _validate_against_schema, row_accepts, listed_enums in *.
  destruct (is_nil (option_schema r)) eqn:Hnil.
  { apply is_nil_iff in Hnil. by rewrite Hnil in Hclosed. }
  destruct (value_get "properties" (option_schema r)) as [| | | | | |properties];
    try (exists []; split; [done|]; split; [|done]; intros _ ? H; discriminate H).
  rewrite Hclosed.
  edestruct (fold_errors (λ kv, check_option properties kv.1 kv.2) (λ kv, option_ok properties kv.1 kv.2)
    (sorted_items options) (unknown_options (config_id r) properties options)) as (errors & He & Hiff).
  { intros [k v] _. by apply check_option_spec. }
  exists errors. split; [exact He|]. rewrite Hiff. unfold unknown_options. rewrite fmap_nil_iff.
  split.
  - intros [Hu Ho] ? [= <-] key v Hin. split; [|by apply (Ho (key, v)), elem_sorted_items].
    destruct (decide (key ∈ dict_keys properties)) as [|Hk]; [done|]. exfalso.
    assert (key ∈ @nil string) as Hkey; [|by apply elem_of_nil in Hkey]. rewrite <-Hu. apply list_elem_of_filter. split; [done|].
    apply elem_of_py_sorted, list_elem_of_fmap. by exists (key, v).
  - intros H. split.
    + apply list_nil_elem. intros k [Hk Hin]%list_elem_of_filter. apply elem_of_py_sorted, list_elem_of_fmap in Hin as ([k' v] & -> & Hin).
      destruct (H properties eq_refl k' v Hin) as [Hd' _]. by destruct (Hk Hd').
    + intros [k v] Hin. rewrite elem_sorted_items in Hin by done. by apply (H properties eq_refl).
Qed.

Lemma try_rows_spec options rows :
  NoDup (dict_keys options) → forallb listed_enums rows = true →
  (∀ r, r ∈ rows → is_false (value_get "additionalProperties" (option_schema r)) = true) →
  ∃ tried, try_rows options rows = Ok tried ∧ (tried = None ↔ ∃ r, r ∈ rows ∧ row_accepts options r) ∧
    (tried = Some [] → rows = []).
Proof.
  intros Hd. induction rows as [|r rows IH]; intros Hl Hc.
  { exists (Some []). split; [done|]. split; [|done]. split; [done|]. by intros (r & Hr%elem_of_nil & _). }
  cbn in Hl. apply andb_true_iff in Hl as [Hr Hl]. destruct IH as (tried & Ht & Hiff & _); [done|intros r' Hr'; apply Hc; by constructor|].
  destruct (validate_spec options r Hd Hr (Hc r ltac:(list_in))) as (errors & He & Herr). cbn. rewrite He. cbn.
  setoid_rewrite elem_of_cons. destruct errors as [|e errors].
  - exists None. split; [done|]. split; [|done]. split; [|done]. intros _. exists r. split; [by left|by apply Herr].
  - rewrite Ht. cbn. eexists. split; [reflexivity|]. split; [|by destruct tried].
    assert (¬ row_accepts options r) as Hno by (intros H; by apply Herr in H).
    destruct tried as [l|].
    + split; [done|]. intros (r' & [->|Hr'] & Ha); [done|]. by assert (Some l = None) by (apply Hiff; eauto).
    + split; [|done]. intros _. destruct (proj1 Hiff eq_refl) as (r' & Hr' & Ha). exists r'. by auto.
Qed.

(** ** What the contract of a backend gives *)

Lemma mjoin_imap_nil {A B} (f : nat → A → list B) l : mjoin (imap f l) = [] → ∀ x, x ∈ l → ∃ i, f i x = [].
Proof.
  intros H x (i & Hi)%list_elem_of_lookup. exists i. apply list_nil_elem. intros y Hy.
  assert (y ∈ mjoin (imap f l)) as Hj; [|rewrite H in Hj; by apply elem_of_nil in Hj].
  apply list_elem_of_join. exists (f i x). split; [done|]. apply list_elem_of_lookup. exists i. by rewrite list_lookup_imap, Hi.
Qed.

Lemma contract_closed b rows r :
  list_backend_config_schemas b = Ok rows → backend_config_contract_violations b = [] → r ∈ rows →
  is_false (value_get "additionalProperties" (option_schema r)) = true.
Proof.
  unfold backend_config_contract_violations. intros -> [H _]%app_nil Hr.
  destruct (mjoin_imap_nil _ _ H r Hr) as [i Hi]. unfold row_violations in Hi. case_decide; [done|].
  apply app_nil in Hi as [_ [_ [_ [_ Hi]%app_nil]%app_nil]%app_nil]. unfold schema_violations in Hi.
  apply app_nil in Hi as [_ [Hi _]%app_nil]. by destruct (is_false _).
Qed.

Lemma applicable_subset stage capability provider b rows rows' :
  applicable_rows stage capability provider b rows = Some rows' → rows' ⊆ rows.
Proof.
  unfold applicable_rows. set (sr := filter _ rows).
  assert (sr ⊆ rows) as Hsr by (intros x Hx; by apply list_elem_of_filter in Hx as [_ ?]).
  set (sr' := match or_text capability None with None => sr | _ => _ end).
  assert (sr' ⊆ sr) as Hsr'.
  { subst sr'. destruct (or_text capability None); [|done]. case_match; [done|]. intros x Hx. by apply list_elem_of_filter in Hx as [_ ?]. }
  destruct (or_text provider None); [|intros [= <-]; by etrans]. case_match; [done|]. intros [= <-].
  intros x Hx. apply list_elem_of_filter in Hx as [_ ?]. auto.
Qed.

(** Some row that applies to the stage, the capability and the provider accepts the
    options, if there are such rows. *)
Definition accepted (stage : string) (capability provider : option string) (options : dict value) (b : Backend)
    (rows : list ConfigSchema) : Prop :=
  match applicable_rows stage capability provider b rows with
  | None | Some [] => True
  | Some rows => ∃ r, r ∈ rows ∧ row_accepts options r
  end.


(** A backend of two schemas, for one stage. *)
Definition demo_schema (properties : value) : dict value :=
  [("type", VStr "object"); ("additionalProperties", VBool false); ("properties", properties)].
Definition demo_backend : Backend :=
  mkBackend "demo" (Some (Ok
    [[("config_id", VStr "demo.sift"); ("capability", VStr "features.extract.sift");
      ("option_schema", VDict (demo_schema (VDict [("octaves", VDict [("type", VStr "integer")]);
                                                   ("norm", VDict [("enum", VStrs ["l1"; "l2"])])])))];
     [("config_id", VStr "demo.disk"); ("capability", VStr "features.extract.disk");
      ("option_schema", VDict (demo_schema (VDict [])))]])) None.


(** A schema without a list of properties satisfies the contract, and every misspelled
    option passes it. *)
Definition open_backend : Backend :=
  mkBackend "open" (Some (Ok [[("config_id", VStr "open.features"); ("stage", VStr "features");
    ("option_schema", VDict [("additionalProperties", VBool false)])]])) None.

Lemma schema_without_properties_accepts_all :
  backend_config_contract_violations open_backend = [] ∧
  validate_backend_options (λ _, Ok tt) (λ _, Ok open_backend) "features" [("octavse", VInt 4)] None None =
    Ok (valid_options [("octavse", VInt 4)]).
Proof. split; vm_compute; reflexivity. Qed.

(** The schema the server owns satisfies the contract. *)
Lemma radiance_schema_conforms name :
  backend_config_contract_violations (mkBackend name None (Some ["radiance.train"])) = [].
Proof. vm_compute. reflexivity. Qed.
