(* ===== verification/Stages.v ===== *)
(** The stages of a reconstruction, part one: [services/_sfm_stage_core.py],
    [services/_sfm_stage_dataset.py] and what they call: [core/paths.py],
    [services/runtime_version_service.py], [services/provider_routing_service.py] and
    [core/projections.py]. A call is one transaction on the tables of the datasets, of
    the job store, of runtime versions and of reconstructions. *)
From S2P Require Import Prelude PyValue Errors Store Hashing Service JobService Scheduler PathSafety Uploads HubState HubRouting HubManifest ArtifactVocab Conversion Artifacts Datasets Capabilities Backends.
From stdpp Require Import options.
Import Errors PathSafety Datasets.

#[local] Open Scope Z_scope.
#[local] Arguments String.append !_ _ / : simpl nomatch.

Module Stages.

(** ** Paths ([core/paths.py], on POSIX)

    A [pathlib] path: its root and its components. *)

Record Path : Type := mkPath { root : string; components : list string }.

(** Exactly two leading separators are a root of their own. *)
Definition path_root (s : string) : string :=
  if starts_with "///" s then "/" else if starts_with "//" s then "//" else if starts_with "/" s then "/" else "".

Definition path_of (s : string) : Path := mkPath (path_root s) (filter names (split_on slash s)).

(** [p / s] *)
Definition div (p : Path) (s : string) : Path :=
  if posix_absolute s then path_of s else mkPath (root p) (components p ++ components (path_of s)).

(** [str(p)] *)
Definition path_str (p : Path) : string :=
  if is_nil (components p) && bool_decide (root p = "") then "." else root p +:+ join "/" (components p).

Record Settings : Type := mkSettings {
  workspace_root : Path;
  blob_root : Path;
  s3_cache_root : Path;
  runtime_version_id : string;
  seed : Z
}.

Section paths.
Context (s : Settings).

Definition tenant_root (tenant : string) : Path := div (workspace_root s) tenant.
Definition project_root (tenant project : string) : Path := div (div (tenant_root tenant) "projects") project.
Definition dataset_root (tenant project dataset : string) : Path := div (div (project_root tenant project) "datasets") dataset.
Definition maskset_root (tenant project dataset maskset : string) : Path :=
  div (div (dataset_root tenant project dataset) "masks") maskset.
Definition reconstruction_root (tenant project recon : string) : Path :=
  div (div (project_root tenant project) "reconstructions") recon.
Definition radiance_field_root (tenant project field : string) : Path :=
  div (div (project_root tenant project) "radiance_fields") field.
Definition job_root (tenant project job : string) : Path := div (div (project_root tenant project) "jobs") job.
Definition blob_path (sha : string) : Path := div (div (blob_root s) (Artifacts.py_take 2 sha)) sha.
Definition upload_temp_path (upload : string) : Path := div (div (workspace_root s) "_uploads") upload.
Definition s3_cache_path (bucket key_hash : string) : Path := div (div (s3_cache_root s) bucket) key_hash.

(** [f"{seq:08d}"] of a natural number *)
Fixpoint pad_left (n : nat) (t : string) : string := match n with O => t | S n => "0" +:+ pad_left n t end.
Definition seq_dir (seq : nat) : string := let t := pretty seq in pad_left (8 - String.length t) t.
Definition snapshot_root (tenant project recon : string) (seq : nat) : Path :=
  div (div (reconstruction_root tenant project recon) "snapshots") (seq_dir seq).
End paths.

(** ** Tables *)

Record RuntimeVersion : Type := mkRuntimeVersion {
  rv_id : string;
  rv_runtime_version_id : string;
  rv_seed : string
}.

(** A row of [reconstruction]; the job store keeps its status column. *)
Record Reconstruction : Type := mkRecon {
  rc_id : string;
  rc_tenant_id : string;
  rc_project_id : string;
  rc_dataset_id : string;
  dataset_snapshot_hash : string;
  rc_spec_json : value;
  rc_rv_id : string
}.

(** [w_next] counts the ids drawn so far. *)
Record World : Type := mkWorld {
  w_data : Data;
  w_db : Db;
  w_rvs : list RuntimeVersion;
  w_recons : list Reconstruction;
  w_next : nat
}.

Definition set_data (x : Data) (w : World) : World := mkWorld x (w_db w) (w_rvs w) (w_recons w) (w_next w).
Definition set_db (x : Db) (w : World) : World := mkWorld (w_data w) x (w_rvs w) (w_recons w) (w_next w).
Definition set_rvs (x : list RuntimeVersion) (w : World) : World := mkWorld (w_data w) (w_db w) x (w_recons w) (w_next w).
Definition set_recons (x : list Reconstruction) (w : World) : World := mkWorld (w_data w) (w_db w) (w_rvs w) x (w_next w).
Definition set_next (x : nat) (w : World) : World := mkWorld (w_data w) (w_db w) (w_rvs w) (w_recons w) x.

Abbreviation call := (svc exn World).

Definition api {A} (r : res api_error A) : res exn A :=
  match r with Ok a => Ok a | Err e => Err (exn_of_api_error e) end.

(** A call of the dataset services. *)
Definition on_data {A} (m : Datasets.call A) : call A := on_part w_data set_data (with_error exn_of_api_error m).

(** What surrounds the services. [fresh] supplies ids; [backend_for] is [get_backend]
    with the message of its [KeyError]; the row of an artifact is read through
    [artifact_row]. *)
Record Env : Type := mkEnv {
  artifacts : ArtifactServices;
  fresh : nat → string;
  now : Z;
  settings : Settings;
  discovered : string → bool;
  hub_state : Hub.PluginState;
  manifests : list Hub.PluginManifest;
  backend_for : option string → res string Backends.Backend;
  deployment : Capabilities.Deployment;
  vocabulary : Vocab.Vocabulary;
  artifact_row : StageArtifact → Artifacts.ArtifactRow
}.

(** [x or y] *)
Definition or_value (x y : value) : value := if truthy x then x else y.
(** [str(x or default)] *)
Definition text_or (x : value) (default : string) : string := Conversion.py_str (or_value x (VStr default)).

Definition reject {A} (detail : string) : call A := raise (Backends.invalid detail).
Definition require_that (ok : bool) (detail : string) : call unit := guard ok (Backends.invalid detail).

Section env.
Context (env : Env).

Definition new_id : call string := λ w, Ok (fresh env (w_next w), set_next (S (w_next w)) w).

(** ** Runtime versions *)

Definition ensure_runtime_version : call RuntimeVersion :=
  let rv := runtime_version_id (settings env) in
  let sd := pretty (seed (settings env)) in
  rows ← gets (λ w, select (λ r, bool_decide (rv_runtime_version_id r = rv) && bool_decide (rv_seed r = sd)) (w_rvs w));
  match head rows with
  | Some r => mret r
  | None =>
      id ← new_id;
      let r := mkRuntimeVersion id rv sd in
      _ ← modify (λ w, set_rvs (w_rvs w ++ [r]) w);
      mret r
  end.

(** ** Task nodes and jobs *)

Definition _stage_node (kind : string) (inputs spec : dict value) (depends_on : list string) : call Dag.TaskNode :=
  id ← new_id;
  mret (Dag.mkTaskNode id kind (Dag.hash_inputs (VDict inputs)) (Dag.hash_params (VDict spec)) depends_on true
          [("inputs", VDict inputs); ("spec", VDict spec)]).

(** The job, its tasks and the ids enqueued. *)
Definition Accepted : Type := string * list Task * list string.

(** [submit_job_dag]: the store's operation with the id of the runtime version. *)
Definition submit_job_dag (tenant project recipe : string) (spec : dict value) (nodes : list Dag.TaskNode) : call Accepted :=
  rv ← ensure_runtime_version;
  (λ w,
    match Scheduler.submit_job_dag (artifacts env) (λ k, fresh env (w_next w + k)) (rv_id rv) (now env) tenant project recipe
            (Some (VDict spec)) nodes (w_db w) with
    | Ok (job, tasks, ids, db) => Ok ((job, tasks, ids), set_next (w_next w + S (length nodes)) (set_db db w))
    | Err e => Err e
    end) : call Accepted.

Definition _submit_single_stage (tenant project recipe kind : string) (inputs spec : dict value) : call Accepted :=
  node ← _stage_node kind inputs spec [];
  submit_job_dag tenant project recipe spec [node].

(** ** Reconstructions *)

Definition recon_matches (tenant dataset snap rv : string) (r : Reconstruction) : bool :=
  bool_decide (rc_tenant_id r = tenant) && bool_decide (rc_dataset_id r = dataset) &&
  bool_decide (dataset_snapshot_hash r = snap) && bool_decide (rc_rv_id r = rv).

(** The flush fills in the status column's default. *)
Definition add_recon (r : Reconstruction) (w : World) : World :=
  let db := w_db w in
  set_db (mkDb (db_tasks db) (db_jobs db) (db_artifacts db) (db_events db)
            (db_recons db ++ [mkReconstruction (rc_tenant_id r) (rc_id r) "running"]) (db_other db))
    (set_recons (w_recons w ++ [r]) w).

Definition ensure_reconstruction (tenant : string) (d : Dataset) (spec : dict value) : call Reconstruction :=
  rv ← ensure_runtime_version;
  let snap_hash := manifest_hash d in
  let spec_hash := hash_dict (VDict spec) in
  rows ← gets (λ w, select (recon_matches tenant (dataset_id d) snap_hash (rv_id rv)) (w_recons w));
  match head (select (λ r, bool_decide (hash_dict (rc_spec_json r) = spec_hash)) rows) with
  | Some r => mret r
  | None =>
      id ← new_id;
      let r := mkRecon id tenant (d_project_id d) (dataset_id d) snap_hash (VDict spec) (rv_id rv) in
      _ ← modify (add_recon r);
      mret r
  end.

(** [get_reconstruction] of [services/reconstruction_service.py] *)
Definition get_reconstruction (tenant id : string) : call Reconstruction :=
  rows ← gets (λ w, select (λ r, bool_decide (rc_tenant_id r = tenant) && bool_decide (rc_id r = id)) (w_recons w));
  found (head rows)
    (exn_of_api_error (api_error_init NotFoundError ("Reconstruction " +:+ id +:+ " not found") [])).

(** ** Materialization *)

(** One entry of [rel_paths]. *)
Definition rel_path_entry (out : dict value) (i : Image) : res api_error (dict value) :=
  name ← validate_safe_relative_path "image name" (i_name i);
  path ← validate_safe_relative_path "rel_path" (default (i_name i) (Conversion.nonempty (rel_path i)));
  Ok (dict_set name (VStr path) out).

Definition derive_materialization (tenant : string) (d : Dataset) : Datasets.call (dict value) :=
  src ← gets (λ w, row_get source_id (d_source_id d) (sources w));
  src ← found src (error ValidationError "dataset has no source row");
  rows ← gets (λ w, images_by_name (select (of_dataset tenant (dataset_id d)) (images w)));
  _ ← guard (negb (is_nil rows))
        (error ValidationError ("dataset has no images registered; add some with POST /v1/datasets/" +:+ dataset_id d +:+ "/images first"));
  let out := [("kind", VStr (s_kind src)); ("image_list", VStrs (i_name <$> rows))] in
  if decide (s_kind src = "upload") then
    mret (out ++ [("blob_shas", VDict (foldl (λ m i, dict_set (i_name i) (VStr (content_sha i)) m) [] rows)); ("image_root", VNone)])
  else if decide (s_kind src = "local") then
    root ← found (Conversion.nonempty (uri_or_root src)) (error ValidationError "local source missing root path");
    rel_paths ← lift (fold_res rel_path_entry [] rows);
    mret (out ++ [("image_root", VStr root); ("rel_paths", VDict rel_paths)])
  else if decide (s_kind src = "s3") then
    let uri := default "" (uri_or_root src) in
    _ ← guard (starts_with "s3://" uri) (error ValidationError "s3 source missing s3://bucket/prefix uri");
    let bucket_prefix := remove_prefix "s3://" uri in
    let '(bucket, prefix) := default (bucket_prefix, "") (partition_on slash bucket_prefix) in
    mret (out ++ [("bucket", VStr bucket); ("prefix", VStr prefix); ("image_root", VNone)])
  else raise (error ValidationError ("unsupported source kind: " +:+ s_kind src)).

Definition reconstruction_database_path (tenant project recon : string) : string :=
  path_str (div (reconstruction_root (settings env) tenant project recon) "database.db").

Definition _reconstruction_paths (tenant : string) (r : Reconstruction) : Path * Path :=
  let rec_root := reconstruction_root (settings env) tenant (rc_project_id r) (rc_id r) in
  (rec_root, div rec_root "sparse").

(** Its [spec] argument is not used. *)
Definition _resolve_database_path (tenant : string) (d : Dataset) (spec : dict value) : call (Reconstruction * string) :=
  r ← ensure_reconstruction tenant d [];
  mret (r, reconstruction_database_path tenant (d_project_id d) (rc_id r)).

(** ** Specs *)

Definition _stage_backend_options (spec : dict value) (stage : string) : res exn (dict value) :=
  match or_value (value_get "backend_options" spec) (VDict []) with
  | VDict options => Ok options
  | _ => Err (Backends.invalid (stage +:+ ".backend_options must be an object"))
  end.

Definition _merge_spec_input_artifacts (sources : list value) : res exn (dict value) :=
  fold_res (λ merged source,
    match source with
    | VNone => Ok merged
    | VDict m => Ok (dict_merge merged m)
    | _ => Err (Backends.invalid "input_artifacts must be an object")
    end) [] sources.

Definition _routing_workspace : string := path_str (workspace_root (settings env)).

(** [resolve_input_artifacts] of [services/artifact_service.py] on what a caller passes. *)
Definition resolve_input_artifacts (tenant dataset : string) (input_artifacts : value) : call (dict (dict value)) :=
  if negb (truthy input_artifacts) then mret []
  else
    match input_artifacts with
    | VDict refs =>
        rows ← gets (λ w, artifact_row env <$> db_artifacts (w_db w));
        lift (api (Artifacts.resolve_input_artifacts (vocabulary env) tenant (Some dataset) refs rows))
    | _ => reject "input_artifacts must be an object"
    end.

(** [inputs["input_artifacts"] = resolved], if there are any. *)
Definition resolved_value (resolved : dict (dict value)) : value := VDict (prod_map id VDict <$> resolved).
Definition with_artifacts (resolved : dict (dict value)) (inputs : dict value) : dict value :=
  if is_nil resolved then inputs else dict_set "input_artifacts" (resolved_value resolved) inputs.

(** *** Routing ([services/provider_routing_service.py]) *)

Definition ambiguity_text (stage : string) (candidates : list string) : string :=
  stage +:+ " has multiple candidate providers: " +:+ join ", " candidates +:+
  "; set a plugin-qualified provider selector (provider@plugin) on the request or configure one in a routing profile".

Definition routing_error (e : Routing.route_error) : api_error :=
  match e with
  | Routing.ProviderAmbiguityError stage candidates =>
      api_error_init ValidationError (ambiguity_text stage candidates)
        [("candidates", VStrs candidates);
         ("suggested_fix", VStr "set a plugin-qualified provider selector (provider@plugin) on the request or configure one in a routing profile")]
  | Routing.RouteKeyError message => api_error_init ValidationError (str_repr message) []
  end.

(** The spec afterwards, which is changed in place. *)
Definition apply_provider_resolution (spec : dict value) (stage : string) (capability project : option string) :
    res exn (dict value) :=
  match Routing.resolve_provider (discovered env) stage capability (Backends.optional_str (value_get "provider" spec)) project
          (Some _routing_workspace) (hub_state env) (manifests env) with
  | Ok provider =>
      Ok (match Routing.asked provider with Some p => dict_set "provider" (VStr p) spec | None => spec end)
  | Err e => Err (exn_of_api_error (routing_error e))
  end.

(** The provider of a resolved spec: a text, or none. *)
Definition provider_of (spec : dict value) : option string := match value_get "provider" spec with VStr p => Some p | _ => None end.

Definition ensure_enabled (p : string) : res string unit :=
  match Routing.ensure_provider_enabled (discovered env) (manifests env) p (hub_state env) with
  | Err (Routing.RouteKeyError message) => Err message
  | _ => Ok tt
  end.

(** Check the options of a resolved spec. *)
Definition check_options (spec : dict value) (stage capability : string) : res exn unit :=
  options ← _stage_backend_options spec stage;
  _ ← Backends.validate_backend_options ensure_enabled (backend_for env) stage options (Some capability) (provider_of spec);
  Ok tt.

(** Resolve the provider of a spec and check its options. *)
Definition validate_stage (spec : dict value) (stage capability : string) (project : option string) : res exn (dict value) :=
  spec ← apply_provider_resolution spec stage (Some capability) project;
  _ ← check_options spec stage capability;
  Ok spec.

(** The validators return the spec as they leave it. *)
Definition validate_features_config (spec : dict value) (project : option string) : res exn (dict value) :=
  validate_stage spec "features" ("features.extract." +:+ text_or (value_get "type" spec) "sift") project.

(** [spec.get(key, {})], which must be a dict *)
Definition sub_spec (key : string) (spec : dict value) : res exn (dict value) :=
  match default (VDict []) (dict_get key spec) with
  | VDict sub => Ok sub
  | _ => Err (Backends.invalid ("spec." +:+ key +:+ " must be a dict"))
  end.

(** The nested object changes in place, if the spec holds it. *)
Definition put_sub (key : string) (sub spec : dict value) : dict value :=
  if dict_mem key spec then dict_set key (VDict sub) spec else spec.

Definition validate_matches_config (spec : dict value) (project : option string) : res exn (dict value) :=
  pairs ← sub_spec "pairs" spec;
  matcher ← sub_spec "matcher" spec;
  let pairs_capability := "pairs." +:+ text_or (value_get "strategy" pairs) "exhaustive" in
  let matcher_capability := "matchers." +:+ text_or (value_get "type" matcher) "nn-mutual" in
  pairs ← apply_provider_resolution pairs "pairs" (Some pairs_capability) project;
  matcher ← apply_provider_resolution matcher "matcher" (Some matcher_capability) project;
  _ ← check_options pairs "pairs" pairs_capability;
  _ ← check_options matcher "matcher" matcher_capability;
  Ok (put_sub "matcher" matcher (put_sub "pairs" pairs spec)).

Definition validate_verify_config (spec : dict value) (project : option string) : res exn (dict value) :=
  validate_stage spec "verify" "matches.verify" project.

Definition validate_mapping_config (spec : dict value) (project : option string) : res exn (dict value) :=
  validate_stage spec "mapping" ("map." +:+ text_or (value_get "kind" spec) "incremental") project.

(** ** Features, matches, verification *)

(** [input_artifacts or other] for the argument of a request, [[]] when it is absent *)
Definition given_or (input_artifacts : dict value) (other : value) : value :=
  or_value (VDict input_artifacts) other.

Definition submit_features (tenant dataset : string) (spec input_artifacts : dict value) : call Accepted :=
  d ← on_data (get_dataset tenant dataset None);
  spec ← lift (validate_features_config spec (Some (d_project_id d)));
  r ← ensure_reconstruction tenant d spec;
  materialization ← on_data (derive_materialization tenant d);
  let db_path := reconstruction_database_path tenant (d_project_id d) (rc_id r) in
  let inputs := [("project_id", VStr (d_project_id d)); ("dataset_id", VStr (dataset_id d)); ("recon_id", VStr (rc_id r));
                 ("manifest_hash", VStr (manifest_hash d)); ("materialization", VDict materialization);
                 ("database_path", VStr db_path)] in
  resolved ← resolve_input_artifacts tenant (dataset_id d) (given_or input_artifacts (value_get "input_artifacts" spec));
  _submit_single_stage tenant (d_project_id d) "features" "extract" (with_artifacts resolved inputs) spec.

(** What a loop over a value visits. *)
Definition iterate (v : value) : res exn (list value) :=
  match v with
  | VList l => Ok l
  | VDict m => Ok (VStr <$> dict_keys m)
  | VStr s => Ok ((λ a, VStr (String a "")) <$> String.list_ascii_of_string s)
  | _ => Err (Backends.type_error "object is not iterable")
  end.

(** One pair: the names it misses are added. *)
Definition check_pair (known : list string) (missing : list string) (indexed : nat * value) : res exn (list string) :=
  let '(index, entry) := indexed in
  let where_ := "pairs.image_pairs[" +:+ pretty index +:+ "]" in
  match entry with
  | VDict p =>
      let image_name1 := text_or (value_get "image_name1" p) "" in
      let image_name2 := text_or (value_get "image_name2" p) "" in
      _ ← raise_if (bool_decide (image_name1 = "") || bool_decide (image_name2 = ""))
            (Backends.invalid (where_ +:+ " requires image_name1 and image_name2"));
      _ ← raise_if (bool_decide (image_name1 = image_name2))
            (Backends.invalid (where_ +:+ " must reference two different images"));
      Ok (missing ++ filter (λ n, n ∉ known) [image_name1; image_name2])
  | _ => Err (Backends.invalid (where_ +:+ " must be an object"))
  end.

Definition count_true (l : list bool) : nat := length (filter (λ b, b = true) l).

Definition _validate_explicit_pairs (tenant : string) (d : Dataset) (pairs input_artifacts : dict value) : call unit :=
  let has_pair_artifact := truthy (value_get "pairs" input_artifacts) in
  let explicit := match value_get "strategy" pairs with VStr s => bool_decide (s = "explicit") | _ => false end in
  if negb explicit then
    require_that (negb (truthy (value_get "image_pairs" pairs) || truthy (value_get "pairs_blob_sha" pairs) || has_pair_artifact))
      "pairs.image_pairs, pairs.pairs_blob_sha, and input_artifacts.pairs require pairs.strategy=explicit"
  else
    let image_pairs := or_value (value_get "image_pairs" pairs) (VList []) in
    let pairs_blob_sha := value_get "pairs_blob_sha" pairs in
    let has_inline := truthy image_pairs in
    let has_blob := truthy pairs_blob_sha in
    _ ← require_that (count_true [has_inline; has_blob; has_pair_artifact] =? 1)%nat
          "pairs.strategy=explicit requires exactly one of pairs.image_pairs or pairs.pairs_blob_sha, or input_artifacts.pairs";
    if has_pair_artifact then mret tt
    else if has_blob then
      blob ← gets (λ w, blobs (w_data w) !! Conversion.py_str pairs_blob_sha);
      _ ← found blob (Backends.invalid ("pairs.pairs_blob_sha=" +:+ Conversion.py_repr pairs_blob_sha +:+
                                        " does not reference a finalized blob"));
      mret tt
    else
      known ← gets (λ w, i_name <$> select (of_dataset tenant (dataset_id d)) (images (w_data w)));
      l ← lift (iterate image_pairs);
      missing ← lift (fold_res (check_pair known) [] (imap (λ i p, (i, p)) l));
      require_that (is_nil missing)
        ("pairs.image_pairs references unknown dataset images: " +:+ join ", " (take 5 (py_sorted_set missing))).

(** The artifacts of a matching request: those given, or those of its specs. *)
Definition matches_artifacts (spec pairs input_artifacts : dict value) : res exn (dict value) :=
  if is_nil input_artifacts then
    _merge_spec_input_artifacts
      [value_get "input_artifacts" spec; value_get "input_artifacts" pairs;
       match value_get "matcher" spec with VDict m => value_get "input_artifacts" m | _ => VNone end]
  else Ok input_artifacts.

(** The database of the stage: that of an input artifact in one of [roles], if there is one. *)
Definition database_of (resolved : dict (dict value)) (role db_path : string) : string :=
  default db_path (Conversion.nonempty (Artifacts.database_path_from_input_artifacts resolved [role])).

Definition database_inputs (d : Dataset) (r : Reconstruction) (db_path : string) : dict value :=
  [("dataset_id", VStr (dataset_id d)); ("recon_id", VStr (rc_id r)); ("manifest_hash", VStr (manifest_hash d));
   ("database_path", VStr db_path)].

Definition submit_matches (tenant dataset : string) (spec input_artifacts : dict value) : call Accepted :=
  d ← on_data (get_dataset tenant dataset None);
  spec ← lift (validate_matches_config spec (Some (d_project_id d)));
  pairs ← lift (sub_spec "pairs" spec);
  _ ← require_that
        (negb (match value_get "strategy" pairs with VStr s => bool_decide (s = "vocabtree") | _ => false end &&
               negb (truthy (value_get "vocab_tree_path" pairs))))
        "pairs.vocab_tree_path is required for pairs.strategy=vocabtree";
  raw ← lift (matches_artifacts spec pairs input_artifacts);
  _ ← _validate_explicit_pairs tenant d pairs raw;
  '(r, db_path) ← _resolve_database_path tenant d spec;
  resolved ← resolve_input_artifacts tenant (dataset_id d) (VDict raw);
  let db_path := database_of resolved "features" db_path in
  _submit_single_stage tenant (d_project_id d) "matches" "match" (with_artifacts resolved (database_inputs d r db_path)) spec.

Definition submit_verify (tenant dataset : string) (spec input_artifacts : dict value) : call Accepted :=
  d ← on_data (get_dataset tenant dataset None);
  spec ← lift (validate_verify_config spec (Some (d_project_id d)));
  '(r, db_path) ← _resolve_database_path tenant d spec;
  resolved ← resolve_input_artifacts tenant (dataset_id d) (given_or input_artifacts (value_get "input_artifacts" spec));
  let db_path := database_of resolved "matches" db_path in
  _submit_single_stage tenant (d_project_id d) "verify" "verify" (with_artifacts resolved (database_inputs d r db_path)) spec.

(** ** Utilities on a dataset

    A call that resolves a provider also returns the spec it leaves, which the route
    reads the provider from. *)

Definition require_capability (capability : string) : call unit := lift (api (Capabilities.require (deployment env) capability)).

Definition dataset_dir (tenant : string) (d : Dataset) : string :=
  path_str (dataset_root (settings env) tenant (d_project_id d) (dataset_id d)).

(** [core/projections.py] *)
Definition PROJECTION_CAPABILITIES : dict string :=
  [("equirectangular_to_cubemap", "projection.equirectangular_to_cubemap");
   ("cubemap_to_equirectangular", "projection.cubemap_to_equirectangular");
   ("equirectangular_to_perspective", "projection.equirectangular_to_perspective")].
Definition projection_capability (operation : string) : option string := dict_get operation PROJECTION_CAPABILITIES.

(** From the validated request: its operation and its fields. *)
Definition submit_project_images (tenant dataset operation : string) (request : dict value) (recipe : string) :
    call (Accepted * dict value) :=
  capability ← found (projection_capability operation) (mkExn "KeyError" (str_repr operation) false);
  _ ← require_capability capability;
  d ← on_data (get_dataset tenant dataset None);
  _ ← require_that
        (negb (bool_decide (operation ∈ ["equirectangular_to_cubemap"; "equirectangular_to_perspective"]) && negb (is_spherical d)))
        (operation +:+ " is only valid on datasets marked is_spherical=true");
  materialization ← on_data (derive_materialization tenant d);
  let inputs := [("dataset_id", VStr (dataset_id d)); ("materialization", VDict materialization);
                 ("dataset_dir", VStr (dataset_dir tenant d))] in
  spec ← lift (apply_provider_resolution request recipe (Some capability) (Some (d_project_id d)));
  job ← _submit_single_stage tenant (d_project_id d) recipe "project_images" inputs spec;
  mret (job, spec).

Definition submit_video_frames (tenant project video_path : string) (fps : value) (max_frames : Z) : call Accepted :=
  _ ← require_capability "video.frame_extract";
  _ ← on_data (get_project tenant project);
  dir ← new_id;
  let output_dir := div (div (workspace_root (settings env)) "_video_frames") dir in
  _submit_single_stage tenant project "video_frames" "video_frames"
    [("video_path", VStr video_path); ("output_dir", VStr (path_str output_dir))]
    [("fps", fps); ("max_frames", VInt max_frames)].

Definition submit_kapture_import (tenant project archive_path : string) : call Accepted :=
  _ ← require_capability "import.kapture";
  _ ← on_data (get_project tenant project);
  _submit_single_stage tenant project "kapture_import" "kapture_import" [("archive_path", VStr archive_path)] [].

Definition opt_str (x : option string) : value := match x with Some s => VStr s | None => VNone end.

Definition submit_dataset_from_archive (tenant project blob_sha : string) (name : option string)
    (camera_model intrinsics_mode : string) (is_spherical : bool) (image_prefix : option string) : call Accepted :=
  _ ← require_capability "import.archive";
  _ ← on_data (get_project tenant project);
  dir ← new_id;
  let output_dir := div (div (workspace_root (settings env)) "_archive_import") dir in
  let spec := [("name", opt_str name); ("camera_model", VStr camera_model); ("intrinsics_mode", VStr intrinsics_mode);
               ("is_spherical", VBool is_spherical)] in
  let spec := match Conversion.nonempty image_prefix with Some p => spec ++ [("image_prefix", VStr p)] | None => spec end in
  _submit_single_stage tenant project "import_archive" "import_archive"
    [("blob_sha", VStr blob_sha); ("output_dir", VStr (path_str output_dir))] spec.

Definition submit_vlad_index (tenant dataset : string) (spec : dict value) (provider : option string) : call (Accepted * dict value) :=
  _ ← require_capability "similarity.vlad";
  let spec := match provider with
              | Some p => if dict_mem "provider" spec then spec else dict_set "provider" (VStr p) spec
              | None => spec
              end in
  d ← on_data (get_dataset tenant dataset None);
  spec ← lift (apply_provider_resolution spec "vlad_index" (Some "similarity.vlad") (Some (d_project_id d)));
  materialization ← on_data (derive_materialization tenant d);
  rows ← gets (λ w, select (of_dataset tenant (dataset_id d)) (images (w_data w)));
  let image_id_by_name := foldl (λ m i, dict_set (i_name i) (VStr (image_id i)) m) [] rows in
  let inputs := [("dataset_id", VStr (dataset_id d)); ("manifest_hash", VStr (manifest_hash d));
                 ("materialization", VDict materialization); ("image_id_by_name", VDict image_id_by_name);
                 ("dataset_dir", VStr (dataset_dir tenant d))] in
  job ← _submit_single_stage tenant (d_project_id d) "vlad_index" "vlad_index" inputs spec;
  mret (job, spec).

(** *** Stages on the feature database *)

Record _StageDef : Type := mkStageDef {
  sd_kind : string;
  resolve_capability : dict value → string;
  needs_images : bool
}.

Definition _DATASET_DB_STAGES : dict _StageDef :=
  [("vocab_tree", mkStageDef "vocab_tree" (λ _, "index.vocab_tree") false);
   ("configure_rig", mkStageDef "configure_rig" (λ _, "rigs.configure") false);
   ("two_view", mkStageDef "two_view" (λ _, "geometry.two_view") false)].

Definition _submit_dataset_db_stage (tenant dataset recipe : string) (spec : dict value) : call (Accepted * dict value) :=
  stage ← found (dict_get recipe _DATASET_DB_STAGES) (mkExn "KeyError" (str_repr recipe) false);
  let capability := resolve_capability stage spec in
  _ ← require_capability capability;
  d ← on_data (get_dataset tenant dataset None);
  '(r, db_path) ← _resolve_database_path tenant d [];
  spec ← lift (apply_provider_resolution spec recipe (Some capability) (Some (d_project_id d)));
  let inputs := [("dataset_id", VStr (dataset_id d)); ("recon_id", VStr (rc_id r)); ("database_path", VStr db_path);
                 ("dataset_dir", VStr (dataset_dir tenant d))] in
  job ← _submit_single_stage tenant (d_project_id d) recipe (sd_kind stage) inputs spec;
  mret (job, spec).

Definition submit_build_vocab_tree (tenant dataset : string) (spec : dict value) : call (Accepted * dict value) :=
  _submit_dataset_db_stage tenant dataset "vocab_tree" spec.
Definition submit_configure_rig (tenant dataset : string) (spec : dict value) : call (Accepted * dict value) :=
  _submit_dataset_db_stage tenant dataset "configure_rig" spec.
Definition submit_estimate_two_view (tenant dataset : string) (spec : dict value) : call (Accepted * dict value) :=
  _submit_dataset_db_stage tenant dataset "two_view" spec.

End env.

End Stages.
