(* ===== verification/ReconStages.v ===== *)
(** The stages of a reconstruction, part two: the stages that work on a reconstruction
    ([services/_sfm_stage_recon.py]) and its sub-models
    ([services/reconstruction_service.py]). *)
From S2P Require Import Prelude PyValue Errors Store Service JobService HubManifest Conversion Datasets Capabilities Backends Stages.
From stdpp Require Import options.
Import Errors Datasets Stages.

#[local] Open Scope Z_scope.
#[local] Arguments String.append !_ _ / : simpl nomatch.

Module ReconStages.

Section env.
Context (env : Env).

Definition BA_MODE_CAPABILITIES : dict string :=
  [("standard", "ba.standard"); ("two_stage", "ba.two_stage"); ("featuremetric", "ba.featuremetric"); ("rig", "ba.rig")].

Definition _bundle_adjust_capability (spec : dict value) : string :=
  default "ba.standard" (dict_get (text_or (value_get "mode" spec) "standard") BA_MODE_CAPABILITIES).

Definition _export_capability (spec : dict value) : string := "export." +:+ text_or (value_get "format" spec) "ply".

Definition _RECON_STAGES : dict _StageDef :=
  [("bundle_adjust", mkStageDef "ba" _bundle_adjust_capability false);
   ("triangulate", mkStageDef "triangulate" (λ _, "triangulate.retri") true);
   ("pose_graph_optimize", mkStageDef "pgo" (λ _, "pgo.optimize") false);
   ("export", mkStageDef "export" _export_capability false);
   ("relocalize", mkStageDef "relocalize" (λ _, "relocalize.images") true);
   ("undistort", mkStageDef "undistort" (λ _, "image.undistort") true)].

(** The local image root of a materialization, or the error of having none. *)
Definition local_image_root (materialization : dict value) (detail : string) : call value :=
  let image_root := value_get "image_root" materialization in
  _ ← require_that (truthy image_root) detail;
  mret image_root.

Definition _recon_stage_base (tenant recon : string) (needs_images : bool) : call (Reconstruction * dict value) :=
  r ← get_reconstruction tenant recon;
  let '(rec_root, sparse_dir) := _reconstruction_paths env tenant r in
  let inputs := [("recon_id", VStr (rc_id r)); ("reconstruction_root", VStr (path_str rec_root));
                 ("model_path", VStr (path_str sparse_dir))] in
  if needs_images then
    d ← on_data (get_dataset tenant (rc_dataset_id r) None);
    materialization ← on_data (derive_materialization tenant d);
    image_root ← local_image_root materialization
      "this stage needs a local image_root; upload sources are not supported here (the worker can't materialize on demand)";
    mret (r, inputs ++ [("image_root", image_root);
                        ("database_path", VStr (reconstruction_database_path env tenant (rc_project_id r) (rc_id r)))])
  else mret (r, inputs).

(** Like every call here that resolves a provider, it also returns the spec it leaves. *)
Definition _submit_recon_stage (tenant recon recipe kind capability : string) (spec : dict value) (needs_images : bool) :
    call (Accepted * dict value) :=
  _ ← require_capability env capability;
  '(r, inputs) ← _recon_stage_base tenant recon needs_images;
  spec ← lift (apply_provider_resolution env spec recipe (Some capability) (Some (rc_project_id r)));
  job ← _submit_single_stage env tenant (rc_project_id r) recipe kind inputs spec;
  mret (job, spec).

Definition _submit_registered_recon_stage (tenant recon recipe : string) (spec : dict value) : call (Accepted * dict value) :=
  stage ← found (dict_get recipe _RECON_STAGES) (mkExn "KeyError" (str_repr recipe) false);
  _submit_recon_stage tenant recon recipe (sd_kind stage) (resolve_capability stage spec) spec (needs_images stage).

Definition submit_bundle_adjust (tenant recon : string) (spec : dict value) : call (Accepted * dict value) :=
  _submit_registered_recon_stage tenant recon "bundle_adjust" spec.
Definition submit_triangulate (tenant recon : string) (spec : dict value) : call (Accepted * dict value) :=
  _submit_registered_recon_stage tenant recon "triangulate" spec.
Definition submit_pose_graph_optimize (tenant recon : string) (spec : dict value) : call (Accepted * dict value) :=
  _submit_registered_recon_stage tenant recon "pose_graph_optimize" spec.
Definition submit_export (tenant recon : string) (spec : dict value) : call (Accepted * dict value) :=
  _submit_registered_recon_stage tenant recon "export" spec.
Definition submit_relocalize (tenant recon : string) (spec : dict value) : call (Accepted * dict value) :=
  _submit_registered_recon_stage tenant recon "relocalize" spec.
Definition submit_undistort (tenant recon : string) (spec : dict value) : call (Accepted * dict value) :=
  _submit_registered_recon_stage tenant recon "undistort" spec.

Definition submit_localize (tenant recon blob_sha : string) (spec : dict value) : call (Accepted * dict value) :=
  _ ← require_capability env "localize.from_memory";
  r ← get_reconstruction tenant recon;
  spec ← lift (apply_provider_resolution env spec "localize" (Some "localize.from_memory") (Some (rc_project_id r)));
  let '(_, sparse_dir) := _reconstruction_paths env tenant r in
  let inputs := [("recon_id", VStr (rc_id r)); ("sparse_dir", VStr (path_str sparse_dir)); ("blob_sha", VStr blob_sha)] in
  job ← _submit_single_stage env tenant (rc_project_id r) "localize" "localize" inputs spec;
  mret (job, spec).

(** [{**spec, "provider": provider}], if one is given *)
Definition with_provider (provider : option string) (spec : dict value) : dict value :=
  match provider with Some p => dict_set "provider" (VStr p) spec | None => spec end.

(** The directory of one source of a merge. *)
Definition merge_source (tenant : string) (target : Reconstruction) (source : string) : call string :=
  r ← get_reconstruction tenant source;
  _ ← require_that (bool_decide (rc_project_id r = rc_project_id target))
        ("merge: source recon " +:+ source +:+ " is in a different project than target");
  mret (path_str (div (reconstruction_root (settings env) tenant (rc_project_id r) (rc_id r)) "sparse")).

Definition submit_merge_recons (tenant target_recon : string) (source_recons : list string) (sim3_aligners : list value)
    (provider : option string) : call (Accepted * dict value) :=
  _ ← require_capability env "recon.merge";
  target ← get_reconstruction tenant target_recon;
  let target_root := reconstruction_root (settings env) tenant (rc_project_id target) (rc_id target) in
  source_dirs ← map_each (merge_source tenant target) source_recons;
  let spec := with_provider provider [("sim3_aligners", VList sim3_aligners)] in
  spec ← lift (apply_provider_resolution env spec "merge_recons" (Some "recon.merge") (Some (rc_project_id target)));
  let inputs := [("target_recon_id", VStr (rc_id target)); ("target_reconstruction_root", VStr (path_str target_root));
                 ("source_sparse_dirs", VStrs source_dirs)] in
  job ← _submit_single_stage env tenant (rc_project_id target) "merge_recons" "merge_recons" inputs spec;
  mret (job, spec).

Definition submit_to_cubemap (tenant recon : string) (provider : option string) : call (Accepted * dict value) :=
  _ ← require_capability env "projection.cubemap_rig";
  r ← get_reconstruction tenant recon;
  d ← on_data (get_dataset tenant (rc_dataset_id r) None);
  _ ← require_that (is_spherical d) "to_cubemap is only valid on datasets marked is_spherical=true";
  materialization ← on_data (derive_materialization tenant d);
  image_root ← local_image_root materialization
    "to_cubemap needs a local image_root; upload sources are not supported yet (worker can't materialize on demand here)";
  let '(rec_root, sparse_dir) := _reconstruction_paths env tenant r in
  let inputs := [("recon_id", VStr (rc_id r)); ("reconstruction_root", VStr (path_str rec_root));
                 ("sparse_dir", VStr (path_str sparse_dir)); ("image_root", image_root)] in
  spec ← lift (apply_provider_resolution env (with_provider provider []) "to_cubemap" (Some "projection.cubemap_rig")
                 (Some (rc_project_id r)));
  job ← _submit_single_stage env tenant (rc_project_id r) "to_cubemap" "to_cubemap" inputs spec;
  mret (job, spec).

Definition submit_georegister (tenant recon : string) (spec : dict value) : call (Accepted * dict value) :=
  let mode := text_or (value_get "mode" spec) "sim3" in
  let capability := if decide (mode = "gps") then "georegister.gps" else "georegister.sim3" in
  _ ← require_capability env capability;
  r ← get_reconstruction tenant recon;
  spec ← lift (apply_provider_resolution env spec "georegister" (Some capability) (Some (rc_project_id r)));
  let '(rec_root, sparse_dir) := _reconstruction_paths env tenant r in
  let inputs := [("recon_id", VStr (rc_id r)); ("reconstruction_root", VStr (path_str rec_root));
                 ("sparse_dir", VStr (path_str sparse_dir))] in
  let sim3 := value_get "sim3" spec in
  let inputs := if truthy sim3 then inputs ++ [("sim3", sim3)] else inputs in
  job ← _submit_single_stage env tenant (rc_project_id r) "georegister" "georegister" inputs spec;
  mret (job, spec).

End env.

(** ** Sub-models

    A row of [submodel], by the columns these statements set, and the two tables they
    work on: the sub-models and, in the job store, the reconstructions' status. *)

Record SubModel : Type := mkSubModel {
  sm_id : string;
  sm_tenant_id : string;
  sm_recon_id : string;
  sm_idx : Z;
  summary_json : dict value;
  snapshot_seq : option Z;
  sealed_path : option string
}.

Record Models : Type := mkModels { m_submodels : list SubModel; m_recons : list Store.Reconstruction }.

(** [int(s)] on ASCII text: white space around, a sign, digits with single underscores
    between them. *)
Fixpoint digits_value (acc : Z) (after_digit : bool) (s : string) : option Z :=
  match s with
  | EmptyString => if after_digit then Some acc else None
  | String a s =>
      if Manifest.char_between "0" "9" a then digits_value (10 * acc + (Z.of_nat (nat_of_ascii a) - 48)) true s
      else if bool_decide (a = "_"%char) && after_digit then digits_value acc false s
      else None
  end.

Definition int_of_text (s : string) : option Z :=
  match Backends.py_strip s with
  | String "-" s => Z.opp <$> digits_value 0 false s
  | String "+" s => digits_value 0 false s
  | s => digits_value 0 false s
  end.

Definition _coerce_model_idx (v : value) (fallback : Z) : Z :=
  match v with
  | VInt z => z
  | VBool b => Z.b2z b
  | VStr s => default fallback (int_of_text s)
  | _ => fallback
  end.

Definition _submodel_sealed_path (snapshot_path : option string) (idx : Z) (model_count : nat) : option string :=
  match Conversion.nonempty snapshot_path with
  | None => None
  | Some p =>
      let base := path_of p in
      Some (if (1 <? model_count)%nat then path_str (div base (pretty idx)) else path_str base)
  end.

Definition recon_key (tenant recon : string) (r : Store.Reconstruction) : bool :=
  bool_decide (r_tenant_id r = tenant) && bool_decide (recon_id r = recon).

Definition set_status (status : string) (r : Store.Reconstruction) : Store.Reconstruction :=
  mkReconstruction (r_tenant_id r) (recon_id r) status.

Definition mark_reconstruction_status (tenant recon status : string) : svc exn Models unit :=
  modify (λ w, mkModels (m_submodels w) (update_where (recon_key tenant recon) (set_status status) (m_recons w))).

Definition of_recon (tenant recon : string) (m : SubModel) : bool :=
  bool_decide (sm_tenant_id m = tenant) && bool_decide (sm_recon_id m = recon).

Definition submodel_row (new_id : nat → string) (tenant recon : string) (model_count : nat) (seq : option Z) (path : option string)
    (position : nat) (summary : dict value) : SubModel :=
  let idx := _coerce_model_idx (value_get "idx" summary) (Z.of_nat position) in
  mkSubModel (new_id position) tenant recon idx summary seq (_submodel_sealed_path path idx model_count).

(** The i-th fresh id is [new_id i]. *)
Definition record_mapping_result (new_id : nat → string) (tenant recon : string) (models : list (dict value)) (seq : option Z)
    (path : option string) : svc exn Models unit :=
  rows ← gets (λ w, select (recon_key tenant recon) (m_recons w));
  _ ← found (head rows)
        (exn_of_api_error (api_error_init NotFoundError ("Reconstruction " +:+ recon +:+ " not found") []));
  _ ← modify (λ w, mkModels (delete_where (of_recon tenant recon) (m_submodels w)) (m_recons w));
  _ ← modify (λ w, mkModels (m_submodels w ++ imap (submodel_row new_id tenant recon (length models) seq path) models) (m_recons w));
  mark_reconstruction_status tenant recon "succeeded".

Definition get_submodel (tenant id : string) : svc exn Models SubModel :=
  rows ← gets (λ w, select (λ m, bool_decide (sm_tenant_id m = tenant) && bool_decide (sm_id m = id)) (m_submodels w));
  found (head rows) (exn_of_api_error (api_error_init NotFoundError ("SubModel " +:+ id +:+ " not found") [])).

End ReconStages.
