(* ===== verification/Recipes.v ===== *)
(** Recipes: [services/_sfm_stage_recipes.py] and the routes of [api/v1/pipelines.py] that
    submit them. A request carries its specs as the validation library dumps them. *)
From S2P Require Import Prelude PyValue Errors Store Service JobService Conversion Artifacts Datasets Backends Stages.
From stdpp Require Import options.
Import Errors Datasets Stages.

#[local] Open Scope Z_scope.
#[local] Arguments String.append !_ _ / : simpl nomatch.

Module Recipes.

Section env.
Context (env : Env).

(** ** The stages of a recipe *)

Record Correspondence : Type := mkCorrespondence {
  features_spec : dict value;
  matches_spec : dict value;
  verify_spec : dict value
}.

(** The validators return the specs as they leave them. *)
Definition validate_recipe_stage_configs (c : Correspondence) (pipeline_spec : dict value) (project : option string) :
    res exn (Correspondence * dict value) :=
  f ← validate_features_config env (features_spec c) project;
  m ← validate_matches_config env (matches_spec c) project;
  v ← validate_verify_config env (verify_spec c) project;
  p ← validate_mapping_config env pipeline_spec project;
  Ok (mkCorrespondence f m v, p).

Definition validate_feed_forward_stage_configs (pipeline_spec : dict value) (project : option string) : res exn (dict value) :=
  validate_mapping_config env pipeline_spec project.

Definition collect_pose_priors_by_name (tenant dataset : string) : call (dict value) :=
  rows ← gets (λ w, select (λ i, of_dataset tenant dataset i && has_prior i) (images (w_data w)));
  mret (foldl (λ m i, if truthy (prior_of i) then dict_set (i_name i) (prior_of i) m else m) [] rows).

(** [inputs["pose_priors"] = pose_priors], if there are any. *)
Definition with_pose_priors (priors : dict value) (inputs : dict value) : dict value :=
  if is_nil priors then inputs else dict_set "pose_priors" (VDict priors) inputs.

(** The spec of the matching node: the matcher's provider becomes the node's. *)
Definition match_node_spec (matches_spec : dict value) : dict value :=
  match value_get "matcher" matches_spec with
  | VDict m => match value_get "provider" m with
               | VStr p => dict_set "provider" (VStr p) matches_spec
               | _ => matches_spec
               end
  | _ => matches_spec
  end.

Definition map_inputs (project dataset recon database_path : string) (materialization priors : dict value)
    (artifacts : dict (dict value)) : dict value :=
  with_artifacts artifacts (with_pose_priors priors
    [("project_id", VStr project); ("recon_id", VStr recon); ("dataset_id", VStr dataset);
     ("database_path", VStr database_path); ("materialization", VDict materialization)]).

Definition build_recipe_dag (project dataset recon : string) (materialization : dict value) (database_path : string)
    (c : Correspondence) (pipeline_spec priors : dict value) (artifacts : dict (dict value)) : call (list Dag.TaskNode) :=
  let extract_inputs := with_artifacts artifacts
    [("project_id", VStr project); ("dataset_id", VStr dataset); ("recon_id", VStr recon);
     ("materialization", VDict materialization); ("database_path", VStr database_path)] in
  extract ← _stage_node env "extract" extract_inputs (features_spec c) [];
  let stage_inputs db := with_artifacts artifacts
    [("recon_id", VStr recon); ("dataset_id", VStr dataset); ("database_path", VStr db)] in
  match_ ← _stage_node env "match" (stage_inputs (database_of artifacts "features" database_path))
             (match_node_spec (matches_spec c)) [Dag.n_task_id extract];
  verify ← _stage_node env "verify" (stage_inputs (database_of artifacts "matches" database_path))
             (verify_spec c) [Dag.n_task_id match_];
  map_ ← _stage_node env "map"
             (map_inputs project dataset recon (database_of artifacts "verified_matches" database_path) materialization priors artifacts)
             pipeline_spec [Dag.n_task_id verify];
  mret [extract; match_; verify; map_].

Definition build_feed_forward_dag (project dataset recon : string) (materialization : dict value) (database_path : string)
    (pipeline_spec priors : dict value) (artifacts : dict (dict value)) : call (list Dag.TaskNode) :=
  map_ ← _stage_node env "map" (map_inputs project dataset recon database_path materialization priors artifacts) pipeline_spec [];
  mret [map_].

(** ** Submitting a recipe ([api/v1/pipelines.py])

    Once the specs are validated: [None] is the feed-forward recipe, which has no
    correspondence stages. *)
Definition submit_recipe (tenant project recipe : string) (d : Dataset) (c : option Correspondence) (pipeline_spec : dict value)
    (input_artifacts : dict value) : call (Accepted * Reconstruction) :=
  resolved ← resolve_input_artifacts env tenant (dataset_id d) (VDict input_artifacts);
  materialization ← on_data (derive_materialization tenant d);
  r ← ensure_reconstruction env tenant d pipeline_spec;
  let db_path := reconstruction_database_path env tenant project (rc_id r) in
  priors ← collect_pose_priors_by_name tenant (dataset_id d);
  nodes ← match c with
          | None => build_feed_forward_dag project (dataset_id d) (rc_id r) materialization db_path pipeline_spec priors resolved
          | Some c => build_recipe_dag project (dataset_id d) (rc_id r) materialization db_path c pipeline_spec priors resolved
          end;
  let job_spec :=
    match c with
    | None => [("spec", VDict pipeline_spec)]
    | Some c => [("features", VDict (features_spec c)); ("matches", VDict (matches_spec c)); ("verify", VDict (verify_spec c));
                 ("spec", VDict pipeline_spec)]
    end in
  job ← submit_job_dag env tenant project recipe (with_artifacts resolved job_spec) nodes;
  mret (job, r).

Record PipelineRequest : Type := mkPipelineRequest {
  pr_dataset_id : string;
  pr_features : dict value;
  pr_pairs : dict value;
  pr_matcher : dict value;
  pr_verify : dict value;
  pr_spec : dict value;
  pr_input_artifacts : dict value
}.

(** The [input_artifacts] of a dumped spec. *)
Definition artifacts_of (spec : dict value) : dict value := match value_get "input_artifacts" spec with VDict d => d | _ => [] end.

Definition merge_all (l : list (dict value)) : dict value := foldl dict_merge [] l.

Definition run_recipe (tenant project recipe : string) (body : PipelineRequest) : call (Accepted * Reconstruction) :=
  let kind := Conversion.py_str (value_get "kind" (pr_spec body)) in
  _ ← require_that (bool_decide (kind = recipe)) ("spec.kind=" +:+ kind +:+ " does not match recipe=" +:+ recipe);
  d ← on_data (get_dataset tenant (pr_dataset_id body) (Some project));
  if decide (recipe = "feed_forward") then
    spec ← lift (validate_feed_forward_stage_configs (pr_spec body) (Some project));
    submit_recipe tenant project recipe d None spec (merge_all [artifacts_of (pr_spec body); pr_input_artifacts body])
  else
    '(c, spec) ← lift (validate_recipe_stage_configs
                         (mkCorrespondence (pr_features body)
                            [("pairs", VDict (pr_pairs body)); ("matcher", VDict (pr_matcher body))] (pr_verify body))
                         (pr_spec body) (Some project));
    submit_recipe tenant project recipe d (Some c) spec
      (merge_all [artifacts_of (pr_features body); artifacts_of (pr_pairs body); artifacts_of (pr_matcher body);
                  artifacts_of (pr_verify body); artifacts_of (pr_spec body); pr_input_artifacts body]).

(** The executable part of [run_pipeline]: the steps of a legacy list are its specs. *)
Definition run_legacy_sfm (tenant project : string) (d : Dataset) (features pairs matcher verify spec : dict value) :
    call (Accepted * Reconstruction) :=
  '(c, spec) ← lift (validate_recipe_stage_configs
                       (mkCorrespondence features [("pairs", VDict pairs); ("matcher", VDict matcher)] verify) spec (Some project));
  submit_recipe tenant project (text_or (value_get "kind" spec) "incremental") d (Some c) spec
    (merge_all [artifacts_of features; artifacts_of pairs; artifacts_of matcher; artifacts_of verify; artifacts_of spec]).

Definition run_legacy_feed_forward (tenant project : string) (d : Dataset) (spec : dict value) : call (Accepted * Reconstruction) :=
  spec ← lift (validate_feed_forward_stage_configs spec (Some project));
  submit_recipe tenant project "feed_forward" d None spec (artifacts_of spec).

End env.

End Recipes.
