(* ===== verification/StageFacts.v ===== *)
(** What a call of the stage services does to the tables: some preparatory writes, each
    of one kind, then one submission of nodes with fresh ids. *)
From S2P Require Import Prelude PyValue Errors Store Hashing Service JobService Scheduler Submission Datasets Capabilities Backends Stages ReconStages Recipes.
From stdpp Require Import options.
Import Errors Datasets Stages ReconStages Recipes.

#[local] Opaque hash_dict Dag.hash_inputs Dag.hash_params.

Section facts.
Context (env : Env).

(** ** Preparatory writes *)

Definition this_version (r : RuntimeVersion) : Prop :=
  rv_runtime_version_id r = runtime_version_id (settings env) ∧ rv_seed r = pretty (seed (settings env)).

Definition new_version (w : World) : RuntimeVersion :=
  mkRuntimeVersion (fresh env (w_next w)) (runtime_version_id (settings env)) (pretty (seed (settings env))).

(** The key [ensure_reconstruction] looks for. *)
Definition recon_key_of (r : Reconstruction) : string * string * string * string * string :=
  (rc_tenant_id r, rc_dataset_id r, dataset_snapshot_hash r, rc_rv_id r, hash_dict (rc_spec_json r)).

Inductive prep1 (tenant : string) (w : World) : World → Prop :=
  | prep_draw : prep1 tenant w (set_next (S (w_next w)) w)
  | prep_version :
      (∀ r, r ∈ w_rvs w → ¬ this_version r) →
      prep1 tenant w (set_rvs (w_rvs w ++ [new_version w]) (set_next (S (w_next w)) w))
  | prep_recon r :
      rc_id r = fresh env (w_next w) → rc_tenant_id r = tenant → recon_key_of r ∉ recon_key_of <$> w_recons w →
      prep1 tenant w (add_recon r (set_next (S (w_next w)) w)).

Definition prep (tenant : string) : World → World → Prop := rtc (prep1 tenant).

(** What they leave alone. *)
Lemma prep_keeps tenant w w' :
  prep tenant w w' →
  w_data w' = w_data w ∧ db_tasks (w_db w') = db_tasks (w_db w) ∧ db_jobs (w_db w') = db_jobs (w_db w) ∧
  db_artifacts (w_db w') = db_artifacts (w_db w) ∧ w_next w ≤ w_next w' ∧ w_rvs w `prefix_of` w_rvs w' ∧
  w_recons w `prefix_of` w_recons w'.
Proof.
  induction 1 as [w|w w1 w2 Hs _ (H1 & H2 & H3 & H4 & H5 & H6 & H7)]; [by split_and!|].
  destruct Hs; cbn in *; split_and!; try done; try lia; by (etrans; [apply prefix_app_r|]).
Qed.

(** *** Calls made of preparatory writes *)

Definition preparatory {A} (tenant : string) (m : call A) : Prop := ∀ w a w', m w = Ok (a, w') → prep tenant w w'.

Lemma preparatory_ret {A} tenant (a : A) : preparatory tenant (mret a : call A).
Proof. intros w b w' [_ <-]%svc_ret_Ok. constructor. Qed.

Lemma preparatory_bind {A B} tenant (m : call A) (f : A → call B) :
  preparatory tenant m → (∀ a, preparatory tenant (f a)) → preparatory tenant (m ≫= f).
Proof. intros Hm Hf w b w' (a & w1 & H1 & H2)%svc_bind_Ok. etrans; [by eapply Hm|by eapply Hf]. Qed.

(** A call that only reads. *)
Definition reads {W A} (m : svc exn W A) : Prop := ∀ w a w', m w = Ok (a, w') → w' = w.

Lemma preparatory_reads {A} tenant (m : call A) : reads m → preparatory tenant m.
Proof. intros Hm w a w' ->%Hm. constructor. Qed.

Lemma reads_gets {W A} (f : W → A) : reads (gets f).
Proof. by intros w a w' [_ <-]%gets_Ok. Qed.
Lemma reads_lift {W A} (r : res exn A) : reads (lift r : svc exn W A).
Proof. by intros w a w' [_ <-]%lift_Ok. Qed.
Lemma reads_found {W A} (x : option A) e : reads (found x e : svc exn W A).
Proof. by intros w a w' [_ <-]%found_Ok. Qed.
Lemma reads_guard {W} b e : reads (guard b e : svc exn W unit).
Proof. by intros w a w' [_ <-]%guard_Ok. Qed.
Lemma reads_bind {W A B} (m : svc exn W A) (f : A → svc exn W B) : reads m → (∀ a, reads (f a)) → reads (m ≫= f).
Proof. intros Hm Hf w b w' (a & w1 & ->%Hm & H2)%svc_bind_Ok. by eapply Hf. Qed.

(** The reading calls of the dataset services. *)
Lemma get_project_same tenant id w p w' : get_project tenant id w = Ok (p, w') → w' = w.
Proof. unfold get_project. intros H. by svc_inv H. Qed.

Lemma get_dataset_same tenant id project w d w' : get_dataset tenant id project w = Ok (d, w') → w' = w.
Proof. unfold get_dataset. intros H. destruct project; by svc_inv H. Qed.

Lemma derive_materialization_same tenant d w m w' : derive_materialization tenant d w = Ok (m, w') → w' = w.
Proof.
  unfold derive_materialization. intros (src & w1 & [_ <-]%gets_Ok & H)%svc_bind_Ok.
  apply svc_bind_Ok in H as (src' & w1 & [_ <-]%found_Ok & H). apply svc_bind_Ok in H as (rows & w1 & [_ <-]%gets_Ok & H).
  apply svc_bind_Ok in H as (? & w1 & [_ <-]%guard_Ok & H).
  repeat case_decide; [by svc_inv H|by svc_inv H| |by svc_inv H].
  apply svc_bind_Ok in H as (? & w1 & [_ <-]%guard_Ok & H). destruct (default _ _). by svc_inv H.
Qed.

Lemma set_data_same w : set_data (w_data w) w = w.
Proof. by destruct w. Qed.

Lemma reads_on_data {A} (m : Datasets.call A) : (∀ w a w', m w = Ok (a, w') → w' = w) → reads (on_data m).
Proof.
  intros Hm w a w' (v & H & ->)%on_part_Ok. apply with_error_Ok in H. apply Hm in H as ->. apply set_data_same.
Qed.

Lemma reads_get_project tenant id : reads (on_data (get_project tenant id)).
Proof. apply reads_on_data. intros w a w'. apply get_project_same. Qed.
Lemma reads_get_dataset tenant id project : reads (on_data (get_dataset tenant id project)).
Proof. apply reads_on_data. intros w a w'. apply get_dataset_same. Qed.
Lemma reads_derive tenant d : reads (on_data (derive_materialization tenant d)).
Proof. apply reads_on_data. intros w a w'. apply derive_materialization_same. Qed.

Lemma reads_resolve tenant dataset input : reads (resolve_input_artifacts env tenant dataset input).
Proof.
  unfold resolve_input_artifacts. destruct (negb _); [by intros w a w' [_ <-]%svc_ret_Ok|].
  destruct input; try (by intros w a w' []%raise_Ok). apply reads_bind; [apply reads_gets|intros; apply reads_lift].
Qed.

Lemma reads_explicit_pairs tenant d pairs input : reads (_validate_explicit_pairs tenant d pairs input).
Proof.
  unfold _validate_explicit_pairs. destruct (negb _); [apply reads_guard|].
  apply reads_bind; [apply reads_guard|]. intros _. destruct (truthy _); [by intros w a w' [_ <-]%svc_ret_Ok|].
  destruct (truthy _).
  - apply reads_bind; [apply reads_gets|]. intros blob. apply reads_bind; [apply reads_found|]. intros b.
    by intros w a w' [_ <-]%svc_ret_Ok.
  - apply reads_bind; [apply reads_gets|]. intros known. apply reads_bind; [apply reads_lift|]. intros l.
    apply reads_bind; [apply reads_lift|]. intros missing. apply reads_guard.
Qed.

Lemma reads_get_reconstruction tenant id : reads (get_reconstruction tenant id).
Proof. unfold get_reconstruction. apply reads_bind; [apply reads_gets|]. intros. apply reads_found. Qed.

Lemma reads_pose_priors tenant dataset : reads (collect_pose_priors_by_name tenant dataset).
Proof. unfold collect_pose_priors_by_name. apply reads_bind; [apply reads_gets|]. by intros rows w a w' [_ <-]%svc_ret_Ok. Qed.

Lemma reads_local_image_root m detail : reads (local_image_root m detail).
Proof. unfold local_image_root. apply reads_bind; [apply reads_guard|]. by intros _ w a w' [_ <-]%svc_ret_Ok. Qed.

Lemma reads_merge_source tenant target source : reads (merge_source env tenant target source).
Proof.
  unfold merge_source. apply reads_bind; [apply reads_get_reconstruction|]. intros r. apply reads_bind; [apply reads_guard|].
  by intros _ w a w' [_ <-]%svc_ret_Ok.
Qed.

Lemma reads_map_each {A B} (f : A → call B) l : (∀ x, reads (f x)) → reads (map_each f l).
Proof.
  intros Hf. induction l as [|x l IH]; cbn; [by intros w a w' [_ <-]%svc_ret_Ok|].
  apply reads_bind; [apply Hf|]. intros y. apply reads_bind; [apply IH|]. by intros ys w a w' [_ <-]%svc_ret_Ok.
Qed.

(** *** The writing ones *)

Lemma preparatory_new_id tenant : preparatory tenant (new_id env).
Proof. intros w a w' [= <- <-]. apply rtc_once, prep_draw. Qed.

Lemma select_head_None {A} (p : A → bool) l : head (select p l) = None → ∀ x, x ∈ l → p x = false.
Proof.
  intros H x Hx. destruct (select p l) eqn:E; [|done]. destruct (p x) eqn:Hp; [|done].
  assert (x ∈ select p l) as Hin by (apply elem_of_select; by rewrite Hp). rewrite E in Hin. by apply elem_of_nil in Hin.
Qed.

Lemma ensure_version_spec w rv w' tenant :
  ensure_runtime_version env w = Ok (rv, w') → prep tenant w w' ∧ rv ∈ w_rvs w' ∧ this_version rv.
Proof.
  unfold ensure_runtime_version. intros (rows & w1 & [<- <-]%gets_Ok & H)%svc_bind_Ok.
  destruct (head _) as [r|] eqn:Hr.
  - apply svc_ret_Ok in H as [<- <-]. split; [constructor|]. apply head_Some_elem_of, elem_of_select in Hr as [Hp Hin].
    split; [done|]. apply andb_true_iff in Hp as [H1%bool_decide_eq_true H2%bool_decide_eq_true]. by split.
  - unfold new_id in H. apply svc_bind_Ok in H as (id & w1 & [= <- <-] & H). svc_inv H. split.
    + apply rtc_once, (prep_version tenant w). intros r Hin [Hv Hs].
      apply (select_head_None _ _ Hr) in Hin. by rewrite !bool_decide_true in Hin.
    + cbn. split; [apply elem_of_app; right; list_in|done].
Qed.

Lemma preparatory_version tenant : preparatory tenant (ensure_runtime_version env).
Proof. intros w a w' H. by eapply ensure_version_spec in H as [? _]. Qed.

Lemma recon_matches_spec tenant dataset snap rv r :
  recon_matches tenant dataset snap rv r = true ↔
  rc_tenant_id r = tenant ∧ rc_dataset_id r = dataset ∧ dataset_snapshot_hash r = snap ∧ rc_rv_id r = rv.
Proof. unfold recon_matches. rewrite !andb_true_iff, !bool_decide_eq_true. tauto. Qed.

(** The row of a dataset's reconstruction. *)
Definition recon_of (tenant : string) (d : Dataset) (spec : dict value) (rv : string) (r : Reconstruction) : Prop :=
  rc_tenant_id r = tenant ∧ rc_dataset_id r = dataset_id d ∧ dataset_snapshot_hash r = manifest_hash d ∧ rc_rv_id r = rv ∧
  hash_dict (rc_spec_json r) = hash_dict (VDict spec).

Lemma recon_of_key tenant d spec rv r :
  recon_of tenant d spec rv r ↔ recon_key_of r = (tenant, dataset_id d, manifest_hash d, rv, hash_dict (VDict spec)).
Proof.
  unfold recon_of, recon_key_of. split; [intros (-> & -> & -> & -> & ->); done|]. intros H. injection H as H1 H2 H3 H4 H5. by split_and!.
Qed.

Lemma ensure_reconstruction_spec tenant d spec w r w' :
  ensure_reconstruction env tenant d spec w = Ok (r, w') →
  prep tenant w w' ∧ r ∈ w_recons w' ∧ ∃ rv, rv ∈ w_rvs w' ∧ this_version rv ∧ recon_of tenant d spec (rv_id rv) r.
Proof.
  unfold ensure_reconstruction. intros (rv & w1 & H1 & H)%svc_bind_Ok.
  apply (ensure_version_spec _ _ _ tenant) in H1 as (Hp & Hrv & Hthis).
  apply svc_bind_Ok in H as (rows & w2 & [<- <-]%gets_Ok & H). rewrite select_select in H.
  destruct (head _) as [r0|] eqn:Hr.
  - apply svc_ret_Ok in H as [<- <-]. split; [done|]. apply head_Some_elem_of, elem_of_select in Hr as [Hm Hin].
    split; [done|]. exists rv. split; [done|]. split; [done|].
    apply andb_true_iff in Hm as [(?&?&?&?)%recon_matches_spec Hh%bool_decide_eq_true]. by split_and!.
  - unfold new_id in H. apply svc_bind_Ok in H as (id & w2 & [= <- <-] & H). svc_inv H. split.
    + eapply rtc_r; [exact Hp|]. apply (prep_recon tenant w1 (mkRecon (fresh env (w_next w1)) tenant (d_project_id d) (dataset_id d) (manifest_hash d) (VDict spec) (rv_id rv))); [done..|].
      intros (r0 & Hk & Hin)%list_elem_of_fmap.
      apply (select_head_None _ _ Hr) in Hin. symmetry in Hk. apply (recon_of_key tenant d spec (rv_id rv)) in Hk.
      destruct Hk as (? & ? & ? & ? & Hh). rewrite bool_decide_true, andb_true_r in Hin by done.
      by rewrite (proj2 (recon_matches_spec _ _ _ _ _)) in Hin.
    + cbn. split; [apply elem_of_app; right; list_in|]. by exists rv.
Qed.

Lemma preparatory_recon tenant d spec : preparatory tenant (ensure_reconstruction env tenant d spec).
Proof. intros w a w' H. by apply ensure_reconstruction_spec in H as [? _]. Qed.

Lemma preparatory_database_path tenant d spec : preparatory tenant (_resolve_database_path env tenant d spec).
Proof. apply preparatory_bind; [apply preparatory_recon|]. intros r. apply preparatory_ret. Qed.

Lemma reads_recon_base tenant recon needs : reads (_recon_stage_base env tenant recon needs).
Proof.
  unfold _recon_stage_base. apply reads_bind; [apply reads_get_reconstruction|]. intros r.
  destruct (_reconstruction_paths _ _ _) as [root sparse]. destruct needs; [|by intros w a w' [_ <-]%svc_ret_Ok].
  apply reads_bind; [apply reads_get_dataset|]. intros d. apply reads_bind; [apply reads_derive|]. intros m.
  apply reads_bind; [apply reads_local_image_root|]. by intros v w a w' [_ <-]%svc_ret_Ok.
Qed.

Lemma svc_bind_assoc {A B C} (m : call A) (f : A → call B) (g : B → call C) w :
  ((m ≫= f) ≫= g) w = (m ≫= λ a, f a ≫= g) w.
Proof. unfold mbind, svc_bind. by destruct (m w) as [[a w1]|]. Qed.

(** ** Submissions *)

(** Nodes whose ids were drawn between two worlds, with dependencies drawn before them. *)
Definition drawn (w w1 : World) (nodes : list Dag.TaskNode) : Prop :=
  ∃ ks, Dag.n_task_id <$> nodes = fresh env <$> ks ∧ NoDup ks ∧ (∀ k, k ∈ ks → w_next w ≤ k < w_next w1) ∧
    ∀ n dep, n ∈ nodes → dep ∈ Dag.n_depends_on n →
      ∃ j k, dep = fresh env j ∧ Dag.n_task_id n = fresh env k ∧ w_next w ≤ j < k ∧ k < w_next w1.

(** Nodes drawn one after the other, each depending on the one before it at most. *)
Lemma drawn_chain w w1 nodes :
  (∀ i n, nodes !! i = Some n →
     Dag.n_task_id n = fresh env (w_next w + i) ∧
     (Dag.n_depends_on n = [] ∨ ∃ j, i = S j ∧ Dag.n_depends_on n = [fresh env (w_next w + j)])) →
  w_next w + length nodes ≤ w_next w1 → drawn w w1 nodes.
Proof.
  intros Hn Hlen. exists (seq (w_next w) (length nodes)). split_and!.
  - apply list_eq. intros i. rewrite !list_lookup_fmap. destruct (nodes !! i) as [n|] eqn:Hi.
    + rewrite lookup_seq_lt by by eapply lookup_lt_Some. cbn. by destruct (Hn i n Hi) as [-> _].
    + apply lookup_ge_None in Hi. by rewrite lookup_seq_ge.
  - apply NoDup_seq.
  - intros k [? ?]%elem_of_seq. lia.
  - intros n dep [i Hi]%list_elem_of_lookup Hdep. destruct (Hn i n Hi) as [Hid [Hd|(j & -> & Hd)]]; rewrite Hd in Hdep.
    { by apply elem_of_nil in Hdep. }
    apply list_elem_of_singleton in Hdep as ->. apply lookup_lt_Some in Hi. exists (w_next w + j), (w_next w + S j).
    split_and!; [done|done|lia..].
Qed.

Definition submission (tenant : string) (w w' : World) : Prop :=
  ∃ w1 rv project recipe spec nodes r db,
    prep tenant w w1 ∧ drawn w w1 nodes ∧ rv ∈ w_rvs w1 ∧
    Scheduler.submit_job_dag (artifacts env) (λ k, fresh env (w_next w1 + k)) (rv_id rv) (now env) tenant project recipe
      (Some (VDict spec)) nodes (w_db w1) = Ok (r, db) ∧
    w' = set_next (w_next w1 + S (length nodes)) (set_db db w1).

Definition submits {A} (tenant : string) (m : call A) : Prop := ∀ w a w', m w = Ok (a, w') → submission tenant w w'.

Lemma drawn_prep tenant w0 w w1 nodes : prep tenant w0 w → drawn w w1 nodes → drawn w0 w1 nodes.
Proof.
  intros (_ & _ & _ & _ & Hn & _)%prep_keeps (ks & Hks & Hd & Hb & Hdeps). exists ks. split_and!; [done..| |].
  - intros k Hk%Hb. lia.
  - intros n dep Hin Hdep. destruct (Hdeps n dep Hin Hdep) as (j & k & ? & ? & ? & ?). exists j, k. split_and!; [done|done|lia..].
Qed.

Lemma drawn_later tenant w w1 w2 nodes : prep tenant w1 w2 → drawn w w1 nodes → drawn w w2 nodes.
Proof.
  intros (_ & _ & _ & _ & Hn & _)%prep_keeps (ks & Hks & Hd & Hb & Hdeps). exists ks. split_and!; [done..| |].
  - intros k Hk%Hb. lia.
  - intros n dep Hin Hdep. destruct (Hdeps n dep Hin Hdep) as (j & k & ? & ? & ? & ?). exists j, k. split_and!; [done|done|lia..].
Qed.

Lemma submits_bind {A B} tenant (m : call A) (f : A → call B) :
  preparatory tenant m → (∀ a, submits tenant (f a)) → submits tenant (m ≫= f).
Proof.
  intros Hm Hf w b w' (a & w1 & H1%Hm & H2%Hf)%svc_bind_Ok.
  destruct H2 as (w2 & rv & project & recipe & spec & nodes & r & db & Hp & Hd & Hrv & Hs & ->).
  exists w2, rv, project, recipe, spec, nodes, r, db. split_and!; [by etrans|by eapply drawn_prep|done..].
Qed.

Lemma submits_fmap {A B} tenant (m : call A) (f : A → B) : submits tenant m → submits tenant (m ≫= λ a, mret (f a)).
Proof. intros Hm w b w' (a & w1 & H1 & [_ <-]%svc_ret_Ok)%svc_bind_Ok. by eapply Hm. Qed.

(** A submission of nodes that were drawn before. *)
Lemma submit_after tenant project recipe spec nodes w w1 acc w' :
  prep tenant w w1 → drawn w w1 nodes → submit_job_dag env tenant project recipe spec nodes w1 = Ok (acc, w') → submission tenant w w'.
Proof.
  intros Hp Hd H. unfold submit_job_dag in H.
  apply svc_bind_Ok in H as (rv & w2 & Hrv & H). apply (ensure_version_spec _ _ _ tenant) in Hrv as (Hp2 & Hin & _).
  destruct (Scheduler.submit_job_dag _ _ _ _ _ _ _ _ _ _) as [[[[job tasks] ids] db]|] eqn:Hs; [|done].
  injection H as _ <-. exists w2, rv, project, recipe, spec, nodes, (job, tasks, ids), db.
  split_and!; [by etrans|by eapply drawn_later|done..].
Qed.

Lemma submits_nodes tenant project recipe spec (m : call (list Dag.TaskNode)) :
  (∀ w nodes w', m w = Ok (nodes, w') → prep tenant w w' ∧ drawn w w' nodes) →
  submits tenant (nodes ← m; submit_job_dag env tenant project recipe spec nodes).
Proof. intros Hm w acc w' (nodes & w1 & [Hp Hd]%Hm & H)%svc_bind_Ok. by eapply submit_after. Qed.

Lemma stage_node_spec kind inputs spec deps w n w' tenant :
  _stage_node env kind inputs spec deps w = Ok (n, w') →
  prep tenant w w' ∧ w' = set_next (S (w_next w)) w ∧
  n = Dag.mkTaskNode (fresh env (w_next w)) kind (Dag.hash_inputs (VDict inputs)) (Dag.hash_params (VDict spec)) deps true
        [("inputs", VDict inputs); ("spec", VDict spec)].
Proof.
  unfold _stage_node, new_id. intros (id & w1 & [= <- <-] & [<- <-]%svc_ret_Ok)%svc_bind_Ok.
  split_and!; [apply rtc_once, prep_draw|done..].
Qed.

Lemma submits_single tenant project recipe kind inputs spec :
  submits tenant (_submit_single_stage env tenant project recipe kind inputs spec).
Proof.
  intros w acc w' H. unfold _submit_single_stage in H. apply svc_bind_Ok in H as (n & w1 & Hn & H).
  eapply (submits_nodes tenant project recipe spec (_stage_node env kind inputs spec [] ≫= λ n, mret [n]));
    [|apply svc_bind_Ok; exists [n], w1; split; [apply svc_bind_Ok; by exists n, w1|exact H]].
  clear. intros w nodes w' (n & w1 & Hn & [<- <-]%svc_ret_Ok)%svc_bind_Ok.
  apply (stage_node_spec _ _ _ _ _ _ _ tenant) in Hn as (Hp & -> & ->). split; [done|].
  apply drawn_chain; [|cbn; lia]. intros [|i] n [= <-]. split; [cbn; by rewrite Nat.add_0_r|by left].
Qed.

End facts.

Create HintDb stages.
#[export] Hint Resolve submits_single preparatory_ret preparatory_new_id preparatory_recon preparatory_database_path
  preparatory_reads reads_gets reads_lift reads_found reads_guard reads_get_project reads_get_dataset reads_derive
  reads_resolve reads_explicit_pairs reads_get_reconstruction reads_pose_priors reads_local_image_root reads_merge_source
  reads_map_each reads_recon_base : stages.

(** A call that prepares and then submits. *)
Ltac stage_submits :=
  repeat first
    [ solve [eauto with stages]
    | progress unfold require_capability, require_that
    | progress cbv zeta
    | apply submits_bind; [solve [eauto with stages]|intros ?]
    | apply submits_fmap
    | match goal with |- submits _ _ (match ?x with (a, b) => _ end) => destruct x as [a b] end
    | case_match ].
