(* ===== verification/Server.v ===== *)
(** The server as one transition system: the requests of the dataset routes, the stage and
    recipe submissions, and the work of workers, janitor and job API act on one set of
    tables, each transaction atomic, in any order. *)
From S2P Require Import Prelude PyValue Errors Store Service JobService Dispatcher Uploads Datasets DatasetInvariant System Stages ReconStages Recipes.
From stdpp Require Import options.
Import Errors Datasets Stages ReconStages Recipes.

#[local] Open Scope Z_scope.

Module Server.

(** ** Requests of the stage routes *)

Inductive stage_op : Type :=
  | OpFeatures (dataset : string) (spec input_artifacts : dict value)
  | OpMatches (dataset : string) (spec input_artifacts : dict value)
  | OpVerify (dataset : string) (spec input_artifacts : dict value)
  | OpProjectImages (dataset operation : string) (request : dict value) (recipe : string)
  | OpVideoFrames (project video_path : string) (fps : value) (max_frames : Z)
  | OpKaptureImport (project archive_path : string)
  | OpArchiveImport (project blob_sha : string) (name : option string) (camera intrinsics : string) (spherical : bool)
      (prefix : option string)
  | OpVladIndex (dataset : string) (spec : dict value) (provider : option string)
  | OpDatasetDb (dataset recipe : string) (spec : dict value)
  | OpReconStage (recon recipe : string) (spec : dict value)
  | OpLocalize (recon blob_sha : string) (spec : dict value)
  | OpMerge (target : string) (sources : list string) (aligners : list value) (provider : option string)
  | OpToCubemap (recon : string) (provider : option string)
  | OpGeoregister (recon : string) (spec : dict value)
  | OpRecipe (project recipe : string) (body : PipelineRequest).

Section ops.
Context (env : Stages.Env).

(** The job of a call that also returns something else. *)
Definition accepted {A} (m : call (Accepted * A)) : call Accepted := x ← m; mret x.1.

Definition run_stage_op (tenant : string) (o : stage_op) : call Accepted :=
  match o with
  | OpFeatures dataset spec input => submit_features env tenant dataset spec input
  | OpMatches dataset spec input => submit_matches env tenant dataset spec input
  | OpVerify dataset spec input => submit_verify env tenant dataset spec input
  | OpProjectImages dataset operation request recipe =>
      accepted (submit_project_images env tenant dataset operation request recipe)
  | OpVideoFrames project path fps n => submit_video_frames env tenant project path fps n
  | OpKaptureImport project path => submit_kapture_import env tenant project path
  | OpArchiveImport project sha name camera intrinsics spherical prefix =>
      submit_dataset_from_archive env tenant project sha name camera intrinsics spherical prefix
  | OpVladIndex dataset spec provider => accepted (submit_vlad_index env tenant dataset spec provider)
  | OpDatasetDb dataset recipe spec => accepted (_submit_dataset_db_stage env tenant dataset recipe spec)
  | OpReconStage recon recipe spec => accepted (_submit_registered_recon_stage env tenant recon recipe spec)
  | OpLocalize recon sha spec => accepted (submit_localize env tenant recon sha spec)
  | OpMerge target sources aligners provider => accepted (submit_merge_recons env tenant target sources aligners provider)
  | OpToCubemap recon provider => accepted (submit_to_cubemap env tenant recon provider)
  | OpGeoregister recon spec => accepted (submit_georegister env tenant recon spec)
  | OpRecipe project recipe body => accepted (run_recipe env tenant project recipe body)
  end.
End ops.

(** ** States and steps *)

(** The tables, the clock and the handlers in progress. *)
Record State : Type := mkState {
  world : World;
  clock : Z;
  runs : list (string * Task)
}.

(** What a deployment fixes; [enforced] says whether the database engine enforces
    foreign keys. *)
Record Deployment : Type := mkDeployment {
  stage_env : Stages.Env;
  registry : Registry.Registry;
  sanitize : exn → string;
  lease_ttl : Z;
  retention : option Z;
  enforced : bool
}.

Definition at_time (t : Z) (e : Stages.Env) : Stages.Env :=
  Stages.mkEnv (artifacts e) (fresh e) t (settings e) (discovered e) (hub_state e) (manifests e) (backend_for e)
    (deployment e) (vocabulary e) (artifact_row e).

Section server.
Context (dep : Deployment).

Definition sys_env : System.Env :=
  System.mkEnv (registry dep) (artifacts (stage_env dep)) (sanitize dep) (lease_ttl dep) (retention dep).

(** The orchestrator's part of a state. *)
Definition sys_of (s : State) : System.Sys := System.mkSys (w_db (world s)) (clock s) (runs s).

(** Foreign keys that cascade: jobs and reconstructions go with their project,
    reconstructions also with their dataset. *)
Definition project_gone (d : Data) (id : string) : bool := negb (id_taken p_project_id id (projects d)).
Definition dataset_gone (d : Data) (id : string) : bool := negb (id_taken dataset_id id (datasets d)).
Definition job_gone (d : Data) (db : Db) (id : string) : bool :=
  existsb (λ j, bool_decide (job_id j = id) && project_gone d (project_id j)) (db_jobs db).

Definition with_data (d : Data) (w : World) : World :=
  let w := set_data d w in
  if enforced dep then
    set_recons (delete_where (λ r, project_gone d (rc_project_id r) || dataset_gone d (rc_dataset_id r)) (w_recons w))
      (set_db (System.drop_jobs (job_gone d (w_db w)) (w_db w)) w)
  else w.

Inductive server_step (s : State) : State → Prop :=
  | server_work s' :
      System.work sys_env (sys_of s) s' →
      server_step s (mkState (set_db (System.s_db s') (world s)) (System.s_now s') (System.s_runs s'))
  | server_data o :
      server_step s (mkState (with_data (serve o (w_data (world s))) (world s)) (clock s) (runs s))
  | server_stage tenant o acc w :
      run_stage_op (at_time (clock s) (stage_env dep)) tenant o (world s) = Ok (acc, w) →
      server_step s (mkState w (clock s) (runs s)).

(** Empty tables. *)
Definition no_rows : Db := mkDb [] [] [] [] [] ∅.
Definition start (t : Z) : State := mkState (mkWorld no_data no_rows [] [] 0%nat) t [].

Inductive reachable : State → Prop :=
  | reach_start t : reachable (start t)
  | reach_step s s' : reachable s → server_step s s' → reachable s'.
End server.
End Server.
