(* ===== verification/ServerInvariant.v ===== *)
(** Why the server's transition system refines the orchestrator's: work never adds a row or
    mentions a new id, and every stage request ends in one submission with fresh ids. Then
    the invariant of every reachable state of the server: its orchestrator part is reachable
    in the orchestrator's own system, ids not yet drawn are unused, dependencies were drawn
    before their dependents, and runtime versions and reconstructions are unique by key. *)
From S2P Require Import Prelude PyValue Errors Readiness Store Sweep Hashing Service JobService Dispatcher Janitor Scheduler TaskRows SweepFacts Lifecycle Execution Propagation Submission Datasets DatasetInvariant System Stages ReconStages Recipes StageFacts Server DatasetFacts.
From stdpp Require Import options.
Import Readiness Errors Dispatcher Datasets Stages ReconStages Recipes Server.

#[local] Opaque hash_dict Dag.hash_inputs Dag.hash_params.

(** ** Work keeps the job ids *)

Definition job_keys (db : Db) : list string := job_id <$> db_jobs db.

Lemma job_keys_put j db : job_keys (put_job j db) = job_keys db.
Proof. exact (put_row_keys job_id j (db_jobs db)). Qed.

Lemma job_keys_finalize now job db : job_keys (JobService.finalize_job_if_ready now job db).2 = job_keys db.
Proof. unfold JobService.finalize_job_if_ready. repeat (case_match; try done); apply job_keys_put. Qed.

Lemma job_keys_advance now job db : job_keys (_advance_job_after_terminal now job db).2 = job_keys db.
Proof.
  unfold _advance_job_after_terminal. destruct (_mark_dependency_failures_and_ready now job db) as [ready db1] eqn:H.
  pose proof (job_keys_finalize now job db1) as Hf. destruct (JobService.finalize_job_if_ready now job db1) as [j db2]. cbn in *.
  rewrite Hf. unfold _mark_dependency_failures_and_ready in H. destruct (mark_loop _ _ _ _) as [[rows m] b]. by injection H as _ <-.
Qed.

Lemma job_keys_post now job db : job_keys (_post_terminal now job db).2 = job_keys db.
Proof.
  unfold _post_terminal. rewrite job_keys_advance. unfold _maybe_finalize_job. repeat (case_match; try done).
  all: apply job_keys_put.
Qed.

Section dispatcher.
Context (reg : Registry.Registry) (svc : ArtifactServices) (sanitize : exn → string) (worker : string) (ttl : Z).

Lemma job_keys_finalize_task now t status ec em db db' :
  _finalize_task reg now t status ec em db = Ok db' → job_keys db' = job_keys db.
Proof. intros [_ H]%finalize_task_tables. unfold job_keys. by rewrite H. Qed.

Lemma job_keys_start now t db : job_keys (start_task reg now t db).1.2 = job_keys db.
Proof.
  unfold start_task. destruct (_run_status_hook _ _ _ _) as [db1|] eqn:H; [|done]. apply run_status_hook_tables in H as [_ H].
  cbn. unfold job_keys. by rewrite H.
Qed.

Lemma job_keys_cancel_before now t j db : job_keys (cancel_before_start reg now t j db).1.2 = job_keys db.
Proof.
  unfold cancel_before_start. destruct (_finalize_task _ _ _ _ _ _ _) as [db1|] eqn:H; [|done].
  apply job_keys_finalize_task in H. pose proof (job_keys_post now (t_job_id t) db1) as Hp.
  destruct (_post_terminal _ _ _). cbn in *. congruence.
Qed.

Lemma job_keys_pickup now tid db : job_keys (pickup reg worker ttl now tid db).1.2 = job_keys db.
Proof.
  unfold pickup. destruct (get_task tid db) as [t|]; [|done]. case_decide; [done|]. case_decide; [done|].
  case_decide as Hf.
  { pose proof (job_keys_advance now (t_job_id t) (put_task (dependency_failed now "upstream dependency failed" t) db)) as Ha.
    by destruct (_advance_job_after_terminal _ _ _). }
  case_decide as Hc.
  { pose proof (job_keys_advance now (t_job_id t) (put_task (dependency_cancelled now (_task_dependency_state db t) t) db)) as Ha.
    by destruct (_advance_job_after_terminal _ _ _). }
  unfold acquire_and_start. destruct (Lease.try_acquire_lease _ _ _ _ _ _) as [acq rows]. destruct acq; [|done]. cbn [negb].
  set (db1 := with_tasks rows db). destruct (get_task tid db1) as [t1|]; [|done].
  pose proof (job_keys_start now t1 db1) as Hs.
  destruct (get_job (t_job_id t1) db1) as [j|]; [destruct (cancel_requested j)|].
  1: pose proof (job_keys_cancel_before now t1 j db1) as Hb; destruct (cancel_before_start _ _ _ _ _) as [[r db2] q]; by destruct r.
  all: destruct (start_task _ _ _ _) as [[r db2] q]; by destruct r.
Qed.

Lemma job_keys_owned now tid db k r :
  (∀ t r, k t = Ok r → job_keys r.1.2 = job_keys db) → if_still_owned worker now tid db k = Ok r → job_keys r.1.2 = job_keys db.
Proof.
  intros Hk. unfold if_still_owned. destruct (get_task tid db) as [t|]; [|by intros [= <-]].
  destruct (_owns_live_running_lease _ _ _); [apply Hk|by intros [= <-]].
Qed.

Lemma job_keys_failure now tid cls msg error db r :
  commit_failure reg worker now tid cls msg error db = Ok r → job_keys r.1.2 = job_keys db.
Proof.
  apply job_keys_owned. intros t r1 (db1 & H & Hr)%bind_Ok. apply job_keys_finalize_task in H.
  pose proof (job_keys_post now (t_job_id t) db1) as Hp. destruct (_post_terminal _ _ _). injection Hr as <-. cbn in *. congruence.
Qed.

Lemma job_keys_success now tid outputs db r :
  commit_success reg svc worker now tid outputs db = Ok r → job_keys r.1.2 = job_keys db.
Proof.
  apply job_keys_owned. intros t r1. destruct (job_cancel_requested t db).
  - intros (db1 & H & Hr)%bind_Ok. apply job_keys_finalize_task in H.
    pose proof (job_keys_post now (t_job_id t) db1) as Hp. destruct (_post_terminal _ _ _). injection Hr as <-. cbn in *. congruence.
  - intros ([o other] & _ & ([o2 arts] & _ & (db1 & [_ H]%run_success_hook_tables & Hr)%bind_Ok)%bind_Ok)%bind_Ok.
    pose proof (job_keys_post now (t_job_id t) db1) as Hp. cbn in Hr.
    unfold job_keys in *. destruct (_post_terminal _ _ _). injection Hr as <-. cbn in *. by rewrite Hp, H.
Qed.

Lemma job_keys_complete now tid outcome db r :
  complete reg svc sanitize worker now tid outcome db = Ok r → job_keys r.1.2 = job_keys db.
Proof.
  assert (∀ e, handle_exception reg sanitize worker now tid e db = Ok r → job_keys r.1.2 = job_keys db) as He.
  { intros e. unfold handle_exception. destruct (exn_backend_unavailable e); apply job_keys_failure. }
  destruct outcome as [o|e]; cbn; [|apply He]. destruct (commit_success _ _ _ _ _ _ _) as [r1|e1] eqn:H; [|apply He].
  intros [= <-]. by eapply job_keys_success.
Qed.
End dispatcher.

Lemma job_keys_propagate now db : job_keys (Janitor.propagate_terminal_dependencies now db).2 = job_keys db.
Proof.
  unfold Janitor.propagate_terminal_dependencies. repeat (case_match; try done). cbn [snd].
  enough (∀ ids db, job_keys (Janitor.finalize_jobs now ids db) = job_keys db) as -> by done. clear.
  unfold Janitor.finalize_jobs. induction ids as [|id ids IH]; intros db; [done|]. cbn. by rewrite IH, job_keys_finalize.
Qed.

(** ** Work mentions no new id *)

Section work.
Context (env : System.Env).

Lemma job_keys_work s s' : System.work env s s' → ∀ id, id ∈ job_keys (System.s_db s') → id ∈ job_keys (System.s_db s).
Proof.
  intros Hw. destruct Hw as
    [now Hn|w tid r db q H|w t e l1 l2 H|w t H|run l1 l2 H| | | |tenant job force j db H|tenant job j ready db H|doomed|arts events recons other];
    cbn [System.s_db]; try done.
  - intros id. pose proof (job_keys_pickup (System.env_registry env) w (System.env_lease_ttl env) (System.s_now s) tid (System.s_db s)) as Hk.
    rewrite H in Hk. cbn in Hk. by rewrite Hk.
  - intros id. unfold System.finish.
    destruct (match e with System.Handled _ => _ | System.NoHandler => _ end) as [[[r db'] q]|ex] eqn:Hf; [|done].
    assert (job_keys db' = job_keys (System.s_db s)) as ->; [|done].
    destruct e; [apply (job_keys_complete _ _ _ _ _ _ _ _ _ Hf)|apply (job_keys_failure _ _ _ _ _ _ _ _ _ Hf)].
  - intros id. unfold job_keys. destruct (reclaim_update (System.s_now s) (System.s_db s)) as (_ & -> & _). done.
  - intros id. by rewrite job_keys_propagate.
  - intros id. unfold job_keys, Janitor.gc_expired_job_records. repeat (case_match; try done). cbn.
    intros (j1 & -> & [_ Hj]%elem_of_delete_where)%list_elem_of_fmap. by apply list_elem_of_fmap_2.
  - intros id. apply bind_Ok in H as (j0 & _ & [= <- <-]). by rewrite job_keys_put.
  - intros id. apply bind_Ok in H as (j0 & _ & ([] & _ & ([] & _ & [= _ _ <-])%bind_Ok)%bind_Ok). by rewrite job_keys_put.
  - intros id (j1 & -> & [_ Hj]%elem_of_delete_where)%list_elem_of_fmap. by apply list_elem_of_fmap_2.
Qed.

(** Ids the rows of a store mention. *)
Definition row_mentions (db : Db) (id : string) : Prop := ∃ t, t ∈ db_tasks db ∧ (task_id t = id ∨ id ∈ task_deps t).

Lemma moved_mentions db db' from id : moved db db' from → row_mentions db' id → row_mentions db id.
Proof.
  intros [Hrel _ _] (t' & Ht' & Hid). apply list_elem_of_lookup in Ht' as [i Hi].
  destruct (Forall2_lookup_r _ _ _ _ _ Hrel Hi) as (t & Ht & Hstep). exists t. split; [by eapply list_elem_of_lookup_2|].
  rewrite <-(row_step_id _ _ Hstep), <-(same_task_deps t t'); [done|]. by destruct Hstep.
Qed.

Lemma shrunk_mentions db db' id :
  keys_unique db' → (∀ id t, get_task id db' = Some t → get_task id db = Some t) → row_mentions db' id → row_mentions db id.
Proof. intros Hk Hg (t & Ht & Hid). apply System.elem_get_task, Hg, get_task_elem in Ht as [Ht _]; [|done]. by exists t. Qed.

Lemma moved_mentioned s db runs now from id :
  moved (System.s_db s) db from → (∀ w t, (w, t) ∈ runs → (w, t) ∈ System.s_runs s ∨ t ∈ db_tasks db) →
  System.mentioned (System.mkSys db now runs) id → System.mentioned s id.
Proof.
  intros Hm Hr [H|(w & t & Hrun & Hid)]; [left; by eapply moved_mentions|].
  destruct (Hr w t Hrun) as [?|Ht]; [right; by exists w, t|left]. eapply moved_mentions; [exact Hm|]. exists t. auto.
Qed.

Lemma shrunk_mentioned s db now id :
  keys_unique db → (∀ id t, get_task id db = Some t → get_task id (System.s_db s) = Some t) →
  System.mentioned (System.mkSys db now (System.s_runs s)) id → System.mentioned s id.
Proof. intros Hk Hg [H|?]; [left; by eapply shrunk_mentions|by right]. Qed.

Lemma mentioned_work s s' id : System.sys_ok s → System.work env s s' → System.mentioned s' id → System.mentioned s id.
Proof.
  intros Hok Hw. pose proof (System.sys_keys _ Hok) as Hk. destruct Hw as
    [now Hn|w tid r db q H|w t e l1 l2 H|w t H|run l1 l2 H| | | |tenant job force j db H|tenant job j ready db H|doomed|arts events recons other].
  - done.
  - destruct (pickup_spec _ _ _ _ _ _ _ _ _ Hk H) as [Hp _]. destruct r as [r|t|e]; cbn in Hp.
    + eapply moved_mentioned; [exact Hp|]. by left.
    + destruct Hp as (Hm & Hg & _). eapply moved_mentioned; [exact Hm|].
      intros w' t' [[= -> ->]|?]%elem_of_cons; [right|by left]. by apply get_task_elem in Hg as [? _].
    + subst. done.
  - eapply moved_mentioned; [by apply System.finish_moved|]. intros w' t'. rewrite H. set_solver.
  - eapply moved_mentioned; [by eapply heartbeat_moved; [|apply surjective_pairing]|]. by left.
  - eapply moved_mentioned; [by apply (moved_refl (System.s_db s) (λ _ _, False))|]. intros w' t'. rewrite H. set_solver.
  - eapply moved_mentioned; [by apply reclaim_moved|]. by left.
  - eapply moved_mentioned; [by eapply propagate_moved; [|apply surjective_pairing]|]. by left.
  - by apply shrunk_mentioned; apply gc_tables.
  - eapply moved_mentioned; [by eapply cancel_moved|]. by left.
  - eapply moved_mentioned; [by eapply resume_moved|]. by left.
  - by apply shrunk_mentioned; apply System.drop_jobs_tables.
  - done.
Qed.

End work.

(** ** Every stage request is a submission *)

Section stages.
Context (env : Stages.Env).

Lemma dag_nodes tenant project dataset recon m db c spec priors artifacts w nodes w' :
  build_recipe_dag env project dataset recon m db c spec priors artifacts w = Ok (nodes, w') →
  prep env tenant w w' ∧ drawn env w w' nodes.
Proof.
  unfold build_recipe_dag. intros (n1 & w1 & H1 & H)%svc_bind_Ok. cbv zeta in H.
  apply svc_bind_Ok in H as (n2 & w2 & H2 & H). apply svc_bind_Ok in H as (n3 & w3 & H3 & H).
  apply svc_bind_Ok in H as (n4 & w4 & H4 & [<- <-]%svc_ret_Ok).
  apply (stage_node_spec env _ _ _ _ _ _ _ tenant) in H1 as (P1 & -> & ->), H2 as (P2 & -> & ->), H3 as (P3 & -> & ->), H4 as (P4 & -> & ->).
  split; [do 3 (etrans; [eassumption|]); exact P4|]. apply drawn_chain; [|cbn; lia].
  intros [|[|[|[|i]]]] n [= <-]; cbn; (split; [f_equal; lia|]); [by left|right..].
  all: eexists; (split; [reflexivity|]); do 2 f_equal; lia.
Qed.

Lemma feed_forward_nodes tenant project dataset recon m db spec priors artifacts w nodes w' :
  build_feed_forward_dag env project dataset recon m db spec priors artifacts w = Ok (nodes, w') →
  prep env tenant w w' ∧ drawn env w w' nodes.
Proof.
  unfold build_feed_forward_dag. intros (n & w1 & H & [<- <-]%svc_ret_Ok)%svc_bind_Ok.
  apply (stage_node_spec env _ _ _ _ _ _ _ tenant) in H as (P & -> & ->). split; [exact P|].
  apply drawn_chain; [|cbn; lia]. intros [|i] n [= <-]. split; [cbn; by rewrite Nat.add_0_r|by left].
Qed.

Lemma submits_recipe tenant project recipe d c spec input :
  submits env tenant (submit_recipe env tenant project recipe d c spec input).
Proof.
  unfold submit_recipe. do 4 (apply submits_bind; [eauto with stages|intros ?]). cbv zeta.
  eassert (∀ m1 : call (list Dag.TaskNode), _ → submits env tenant (m1 ≫= _)) as Hgoal; [|apply Hgoal].
  - intros m1 Hm w b w' (nodes & w1 & Hn & (job & w2 & Hj & [_ <-]%svc_ret_Ok)%svc_bind_Ok)%svc_bind_Ok.
    eapply (submits_nodes env tenant _ _ _ m1 Hm). apply svc_bind_Ok. by eexists nodes, w1.
  - intros w nodes w' Hn. destruct c; [by eapply dag_nodes|by eapply feed_forward_nodes].
Qed.

Lemma submits_stage_op tenant o : submits env tenant (run_stage_op env tenant o).
Proof.
  destruct o; cbn [run_stage_op]; try apply submits_fmap.
  - unfold submit_features. stage_submits.
  - unfold submit_matches. stage_submits.
  - unfold submit_verify. stage_submits.
  - unfold submit_project_images. stage_submits.
  - unfold submit_video_frames. stage_submits.
  - unfold submit_kapture_import. stage_submits.
  - unfold submit_dataset_from_archive. stage_submits.
  - unfold submit_vlad_index. stage_submits.
  - unfold _submit_dataset_db_stage. stage_submits.
  - unfold _submit_registered_recon_stage, _submit_recon_stage. stage_submits.
  - unfold submit_localize. stage_submits.
  - unfold submit_merge_recons. stage_submits.
  - unfold submit_to_cubemap. stage_submits.
  - unfold submit_georegister. stage_submits.
  - unfold run_recipe. cbv zeta. apply submits_bind; [unfold require_that; eauto with stages|intros _].
    apply submits_bind; [eauto with stages|intros d]. case_decide.
    + apply submits_bind; [eauto with stages|intros spec]. apply submits_recipe.
    + apply submits_bind; [eauto with stages|intros [c spec]]. apply submits_recipe.
Qed.
End stages.


(** ** A submission adds one job and its nodes' rows *)

Lemma assign_given new_id i nodes :
  (∀ n, n ∈ nodes → Dag.n_task_id n ≠ "") → Scheduler.assign_ids new_id i nodes = nodes.
Proof.
  revert i. induction nodes as [|n nodes IH]; intros i Hn; [done|]. cbn. rewrite decide_False by (apply Hn; by left).
  rewrite IH; [done|]. intros m Hm. apply Hn. by right.
Qed.

Lemma submit_job_keys svc new_id rv now tenant project recipe spec nodes db r db' :
  NoDup ((task_id <$> db_tasks db) ++ (Dag.n_task_id <$> Scheduler.assign_ids new_id 1 nodes)) →
  Scheduler.submit_job_dag svc new_id rv now tenant project recipe spec nodes db = Ok (r, db') →
  job_keys db' = job_keys db ++ [new_id 0].
Proof.
  intros Hd. unfold Scheduler.submit_job_dag. cbn [JobService.create_job]. set (db0 := with_jobs _ db).
  intros ([tasks1 db1] & Hm & H)%bind_Ok. apply materialize_dag_spec in Hm as (_ & Hj & _); [|exact Hd].
  assert (job_keys db1 = job_keys db ++ [new_id 0]) as Hk1.
  { unfold job_keys. rewrite Hj. subst db0. cbn. by rewrite fmap_app. }
  destruct (select _ tasks1).
  - pose proof (job_keys_finalize now (job_id (mkJob (new_id 0) tenant project recipe spec "pending" false false false now None None None None)) db1) as Hf.
    destruct (JobService.finalize_job_if_ready _ _ db1) as [o db2]. injection H as _ <-. cbn in Hf. congruence.
  - by injection H as _ <-.
Qed.

Section invariant.
Context (dep : Server.Deployment).

Abbreviation id := (fresh (stage_env dep)).

(** Ids from [n] on are in use nowhere. *)
Definition unused (s : State) : Prop :=
  ∀ k, w_next (world s) ≤ k → (¬ System.mentioned (sys_of s) (id k)) ∧ (id k ∉ job_keys (w_db (world s))) ∧
    (id k ∉ rc_id <$> w_recons (world s)) ∧ (id k ∉ rv_id <$> w_rvs (world s)).

(** Dependencies were drawn before their dependents. *)
Definition ordered (db : Db) : Prop :=
  ∀ t d, t ∈ db_tasks db → d ∈ task_deps t → ∃ j k, d = id j ∧ task_id t = id k ∧ j < k.

Definition version_key (r : RuntimeVersion) : string * string := (rv_runtime_version_id r, rv_seed r).

Record server_ok (s : State) : Prop := {
  ok_sys : System.reachable (sys_env dep) (sys_of s);
  ok_unused : unused s;
  ok_ordered : ordered (w_db (world s));
  ok_versions : NoDup (version_key <$> w_rvs (world s)) ∧ NoDup (rv_id <$> w_rvs (world s));
  ok_recons : NoDup (recon_key_of <$> w_recons (world s)) ∧ NoDup (rc_id <$> w_recons (world s))
}.

(** *** Work *)

Lemma ordered_moved db db' from : moved db db' from → ordered db → ordered db'.
Proof.
  intros [Hrel _ _] Ho t' d Ht' Hd. apply list_elem_of_lookup in Ht' as [i Hi].
  destruct (Forall2_lookup_r _ _ _ _ _ Hrel Hi) as (t & Ht & Hstep). apply list_elem_of_lookup_2 in Ht.
  rewrite (row_step_id _ _ Hstep). apply (Ho t d); [done|]. rewrite <-(same_task_deps t t'); [done|]. by destruct Hstep.
Qed.

Lemma ordered_shrunk db db' :
  keys_unique db' → (∀ i t, get_task i db' = Some t → get_task i db = Some t) → ordered db → ordered db'.
Proof. intros Hk Hg Ho t d Ht. apply System.elem_get_task, Hg, get_task_elem in Ht as [Ht _]; [|done]. by apply Ho. Qed.

Lemma ordered_work s s' : System.sys_ok s → System.work (sys_env dep) s s' → ordered (System.s_db s) → ordered (System.s_db s').
Proof.
  intros Hok Hw Ho. destruct (System.step_effect _ _ _ Hok (System.step_work _ _ _ Hw)) as [Hm|[Hg|(rows & Ht & Hnew)]].
  - by eapply ordered_moved.
  - eapply ordered_shrunk; [|exact Hg|done]. by eapply System.sys_keys, System.sys_ok_step; [|apply System.step_work].
  - intros t d Hin Hd. rewrite Ht in Hin. apply elem_of_app in Hin as [Hin|Hin]; [by apply (Ho t d)|].
    destruct (Hnew t Hin). eapply mentioned_work; [done|done|]. left. exists t. split; [|by left]. rewrite Ht. set_solver.
Qed.

Lemma server_ok_work s s' :
  server_ok s → System.work (sys_env dep) (sys_of s) s' →
  server_ok (mkState (set_db (System.s_db s') (world s)) (System.s_now s') (System.s_runs s')).
Proof.
  intros [Hsys Hun Hord Hv Hr] Hw. pose proof (System.reachable_ok _ _ Hsys) as Hok.
  assert (System.mkSys (System.s_db s') (System.s_now s') (System.s_runs s') = s') as Hs' by by destruct s'.
  split; cbn; [|  |by apply (ordered_work (sys_of s))|done|done].
  - unfold sys_of. cbn. rewrite Hs'. eapply System.reach_step; [exact Hsys|by apply System.step_work].
  - intros k Hk. cbn in *. destruct (Hun k Hk) as (Hm & Hj & Hrec). unfold sys_of. cbn. rewrite Hs'. split_and!; [|intros H|apply Hrec..].
    + intros H. apply Hm. by eapply mentioned_work.
    + apply Hj. by eapply (job_keys_work (sys_env dep) (sys_of s)).
Qed.

(** *** Requests of the dataset routes *)

Lemma delete_where_subset {A} (p : A → bool) l : delete_where p l ⊆ l.
Proof. by intros x [_ ?]%elem_of_delete_where. Qed.

Lemma server_ok_data s d : server_ok s → server_ok (mkState (with_data dep d (world s)) (clock s) (runs s)).
Proof.
  intros Hs. unfold with_data. destruct (enforced dep); [|by destruct Hs].
  pose proof (server_ok_work s _ Hs (System.work_drop _ _ (job_gone d (w_db (world s))))) as [H1 H2 H3 H4 H5]. cbn in *.
  split; cbn; [done| |done|done|].
  - intros k Hk. destruct (H2 k Hk) as (? & ? & Hrec & ?). split_and!; [done..| |done]. cbn.
    intros (r & Heq & Hr%delete_where_subset)%list_elem_of_fmap. apply Hrec. rewrite Heq. by apply list_elem_of_fmap_2.
  - split; apply fmap_delete_NoDup; apply H5.
Qed.

(** *** Stage requests

    Ids are never drawn twice, and never empty. *)

Context (Hinj : ∀ j k, fresh (stage_env dep) j = fresh (stage_env dep) k → j = k).
Context (Hnonempty : ∀ k, fresh (stage_env dep) k ≠ "").

Lemma unused_next s n : w_next (world s) ≤ n → unused s → unused (mkState (set_next n (world s)) (clock s) (runs s)).
Proof. intros Hn Hu k Hk. apply Hu. cbn in Hk. lia. Qed.

Lemma NoDup_snoc {A} (l : list A) x : NoDup l → x ∉ l → NoDup (l ++ [x]).
Proof. intros H Hx. apply NoDup_app. split_and!; [done| |apply NoDup_singleton]. by intros y Hy ->%list_elem_of_singleton. Qed.

Lemma server_ok_prep1 t tenant s w :
  server_ok s → prep1 (at_time t (stage_env dep)) tenant (world s) w → server_ok (mkState w (clock s) (runs s)).
Proof using Hinj.
  intros [Hsys Hun Hord [Hv Hvi] [Hr Hri]] Hp. destruct Hp as [|Hnone|r Hid Htenant Hkey].
  - split; [exact Hsys|by apply unused_next; [lia|]|exact Hord|done|done].
  - split; cbn; [exact Hsys| |exact Hord| |done].
    + intros k Hk. cbn in Hk. destruct (Hun k ltac:(lia)) as (? & ? & ? & Hrv). split_and!; [done..|]. cbn.
      rewrite fmap_app, elem_of_app. intros [?|Heq%list_elem_of_singleton]; [done|]. apply Hinj in Heq. lia.
    + rewrite !fmap_app. split; apply NoDup_snoc; [done| |done|].
      * intros (r & Heq & Hin)%list_elem_of_fmap. apply (Hnone r Hin). unfold version_key in Heq. cbn in Heq. injection Heq as H1 H2. by split.
      * apply (Hun (w_next (world s))). lia.
  - split; cbn.
    + eapply System.reach_step; [exact Hsys|]. exact (System.step_work _ _ _ (System.work_other _ (sys_of s) _ _ _ _)).
    + intros k Hk. cbn in Hk. destruct (Hun k ltac:(lia)) as (? & ? & Hrc & ?). split_and!; [done|done| |done]. cbn.
      rewrite fmap_app, elem_of_app. intros [?|Heq%list_elem_of_singleton]; [done|]. rewrite Hid in Heq. apply Hinj in Heq. lia.
    + exact Hord.
    + done.
    + rewrite !fmap_app. split; apply NoDup_snoc; [done|done|done|]. rewrite Hid. apply (Hun (w_next (world s))). lia.
Qed.

Lemma server_ok_prep t tenant s w :
  server_ok s → prep (at_time t (stage_env dep)) tenant (world s) w → server_ok (mkState w (clock s) (runs s)).
Proof using Hinj.
  intros Hs Hp. destruct s as [w0 c r]. cbn in *. revert Hs. induction Hp as [w|w w1 w2 H1 _ IH]; [done|].
  intros Hs. apply IH. by apply (server_ok_prep1 t tenant (mkState w c r)).
Qed.

(** What makes the ids of a submission good ones. *)
Lemma fresh_submission s w0 nodes :
  server_ok s → (∀ k, w_next w0 ≤ k → ¬ System.mentioned (sys_of s) (id k)) →
  drawn (stage_env dep) w0 (world s) nodes →
  let new_id := λ k, id (w_next (world s) + k) in
  Scheduler.assign_ids new_id 1 nodes = nodes ∧ get_job (new_id 0) (w_db (world s)) = None ∧
  NoDup (Dag.n_task_id <$> nodes) ∧ (∀ i, i ∈ Dag.n_task_id <$> nodes → ¬ System.mentioned (sys_of s) i) ∧
  NoDup ((task_id <$> db_tasks (w_db (world s))) ++ (Dag.n_task_id <$> nodes)) ∧
  ∀ n, n ∈ nodes → ∃ k, Dag.n_task_id n = id k ∧ w_next w0 ≤ k < w_next (world s).
Proof using Hinj Hnonempty.
  intros [Hsys Hun Hord Hv Hr] Hearly (ks & Hks & Hnd & Hb & _) new_id.
  pose proof (System.sys_keys _ (System.reachable_ok _ _ Hsys)) as Hk.
  assert (∀ n, n ∈ nodes → ∃ k, Dag.n_task_id n = id k ∧ w_next w0 ≤ k < w_next (world s)) as Hnode.
  { intros n Hn. assert (Dag.n_task_id n ∈ id <$> ks) as (k & Heq & Hin)%list_elem_of_fmap
      by (rewrite <-Hks; by apply list_elem_of_fmap_2). exists k. split; [done|by apply Hb]. }
  assert (∀ i, i ∈ Dag.n_task_id <$> nodes → ¬ System.mentioned (sys_of s) i) as Hnew.
  { intros i (n & -> & (k & -> & Hk1 & _)%Hnode)%list_elem_of_fmap. by apply (Hearly k Hk1). }
  assert (NoDup (Dag.n_task_id <$> nodes)) as Hids.
  { rewrite Hks. apply NoDup_fmap_2; [intros ??; apply Hinj|done]. }
  split_and!; [| |done|done| |done].
  - apply assign_given. intros n (k & -> & _)%Hnode. apply Hnonempty.
  - apply row_get_None. intros j Hj Heq. destruct (Hun (w_next (world s) + 0) ltac:(lia)) as (_ & Hnj & _).
    apply Hnj. change (id (w_next (world s) + 0)) with (new_id 0). rewrite <-Heq. by apply list_elem_of_fmap_2.
  - apply NoDup_app. split_and!; [apply Hk| |done]. intros i (t & -> & Ht)%list_elem_of_fmap Hin.
    apply (Hnew _ Hin). left. exists t. split; [done|by left].
Qed.

(** The submission itself. *)
Lemma server_ok_submit s w0 rv tenant project recipe spec nodes r db :
  server_ok s → (∀ k, w_next w0 ≤ k → ¬ System.mentioned (sys_of s) (id k)) →
  drawn (stage_env dep) w0 (world s) nodes →
  Scheduler.submit_job_dag (artifacts (stage_env dep)) (λ k, id (w_next (world s) + k)) rv (clock s) tenant project recipe spec
    nodes (w_db (world s)) = Ok (r, db) →
  server_ok (mkState (set_next (w_next (world s) + S (length nodes)) (set_db db (world s))) (clock s) (runs s)).
Proof using Hinj Hnonempty.
  intros Hs Hearly Hd H. destruct (fresh_submission s w0 nodes Hs Hearly Hd) as (Hassign & Hj & Hids & Hnew & Hall & Hnode).
  destruct Hs as [Hsys Hun Hord Hv Hr], Hd as (ks & Hks & Hnd & Hb & Hdeps). set (new_id := λ k, id (w_next (world s) + k)) in *.
  pose proof (System.sys_keys _ (System.reachable_ok _ _ Hsys)) as Hk. rewrite <-Hassign in Hall.
  destruct r as [[jid tasks] queued].
  pose proof (submit_job_keys _ _ _ _ _ _ _ _ _ _ _ _ Hall H) as Hjk.
  pose proof (submit_spec _ _ _ _ _ _ _ _ _ _ _ _ _ _ Hk Hj Hall H) as (_ & _ & Htasks & Hrows & _).
  rewrite Hassign in Hrows.
  assert (∀ t, t ∈ tasks → ∃ n, n ∈ nodes ∧ task_id t = Dag.n_task_id n ∧ task_deps t = Dag.n_depends_on n) as Hrow.
  { intros t [i Hi]%list_elem_of_lookup. destruct (Forall2_lookup_r _ _ _ _ _ Hrows Hi) as (n & Hn & []).
    exists n. split_and!; [by eapply list_elem_of_lookup_2|done..]. }
  split; cbn; [| | |done|done].
  - eapply System.reach_step; [exact Hsys|].
    eapply (System.step_submit _ (sys_of s) rv new_id tenant project recipe spec nodes); [exact Hj|by rewrite Hassign|by rewrite Hassign|exact H].
  - intros k Hk1. cbn in Hk1. destruct (Hun k ltac:(lia)) as (Hm & Hjob & ? & ?). split_and!; [| |done|done]; cbn.
    + intros [(t & Ht & Hid)|?]; [|by apply Hm; right]. cbn in Ht. rewrite Htasks in Ht. apply elem_of_app in Ht as [Ht|Ht].
      { apply Hm. left. by exists t. }
      destruct (Hrow t Ht) as (n & Hn & Hidn & Hdn). rewrite Hidn, Hdn in Hid. destruct Hid as [Hid|Hid].
      * destruct (Hnode n Hn) as (k' & Hk' & Hlt). rewrite Hk' in Hid. apply Hinj in Hid. lia.
      * destruct (Hdeps n _ Hn Hid) as (j & k' & Hj' & _ & Hlt & Hlt'). apply Hinj in Hj'. lia.
    + rewrite Hjk, elem_of_app. intros [?|Heq%list_elem_of_singleton]; [done|]. apply Hinj in Heq. lia.
  - intros t d. rewrite Htasks. intros [Ht|Ht]%elem_of_app Hd; [by apply (Hord t d)|].
    destruct (Hrow t Ht) as (n & Hn & -> & Hdn). rewrite Hdn in Hd.
    destruct (Hdeps n d Hn Hd) as (j & k & -> & -> & Hlt & _). exists j, k. split_and!; [done|done|lia].
Qed.

Lemma server_ok_submission s tenant w :
  server_ok s → submission (at_time (clock s) (stage_env dep)) tenant (world s) w → server_ok (mkState w (clock s) (runs s)).
Proof using Hinj Hnonempty.
  intros Hs (w1 & rv & project & recipe & spec & nodes & r & db & Hp & Hd & Hrv & Hsub & ->).
  pose proof (server_ok_prep _ _ _ _ Hs Hp) as Hs1. destruct (prep_keeps _ _ _ _ Hp) as (_ & Ht & Hj & _ & Hn & _ & _).
  eapply (server_ok_submit (mkState w1 (clock s) (runs s)) (world s)); [exact Hs1| |exact Hd|exact Hsub].
  intros k Hk. pose proof (proj1 (ok_unused _ Hs k Hk)) as Hm. unfold System.mentioned in *. cbn in *. by rewrite Ht.
Qed.

Lemma server_ok_stage s tenant o acc w :
  server_ok s → run_stage_op (at_time (clock s) (stage_env dep)) tenant o (world s) = Ok (acc, w) →
  server_ok (mkState w (clock s) (runs s)).
Proof using Hinj Hnonempty. intros Hs H. eapply server_ok_submission; [done|]. by eapply submits_stage_op. Qed.

Lemma reachable_server_ok s : Server.reachable dep s → server_ok s.
Proof using Hinj Hnonempty.
  induction 1 as [t|s s' _ IH Hstep].
  - split; cbn; [apply System.reach_initial; split_and!; [done|constructor|done]| | |by split; constructor|by split; constructor].
    + intros k _. split_and!; try by intros ?%elem_of_nil. intros [(t0 & Hin & _)|(w & t0 & Hin & _)]; by apply elem_of_nil in Hin.
    + by intros t0 d ?%elem_of_nil.
  - destruct Hstep as [s' Hw|o|tenant o acc w H]; [by apply server_ok_work|by apply server_ok_data|by eapply server_ok_stage].
Qed.
End invariant.
