(* ===== verification/Recurrence.v ===== *)
(** Why a repeated stage request short-circuits: on tables that only grew, its preparatory
    calls answer as before, so its nodes have the keys they had. *)
From S2P Require Import Prelude PyValue Errors Store Hashing Service JobService Scheduler Submission HubManifest ArtifactVocab Conversion Artifacts Datasets DatasetFacts Backends Stages ReconStages Recipes StageFacts Server ServerInvariant.
From stdpp Require Import options.
Import Errors Datasets Stages ReconStages Recipes Server.

#[local] Opaque hash_dict Dag.hash_inputs Dag.hash_params sha256_hex.
#[local] Arguments Scheduler.submit_job_dag : simpl never.

(** ** Tables that only grew *)

(** The same datasets, and at least the runtime versions, reconstructions and artifacts. *)
Record later (w w' : World) : Prop := {
  later_data : w_data w' = w_data w;
  later_rvs : w_rvs w `prefix_of` w_rvs w';
  later_recons : w_recons w `prefix_of` w_recons w';
  later_artifacts : db_artifacts (w_db w) `prefix_of` db_artifacts (w_db w')
}.

Lemma prep_later env tenant w w1 w2 : prep env tenant w w1 → later w1 w2 → later w w2.
Proof.
  intros (H1 & _ & _ & H4 & _ & H6 & H7)%prep_keeps [L1 L2 L3 L4]. split; [by rewrite L1|by etrans..|by rewrite <-H4].
Qed.

Lemma prep_is_later env tenant w w1 : prep env tenant w w1 → later w w1.
Proof. intros (H1 & _ & _ & H4 & _ & H6 & H7)%prep_keeps. split; [done..|by rewrite H4]. Qed.

Lemma head_prefix {A} (l l' : list A) x : l `prefix_of` l' → head l = Some x → head l' = Some x.
Proof. intros [k ->]. by destruct l. Qed.

Lemma select_prefix {A} (p : A → bool) l l' : l `prefix_of` l' → select p l `prefix_of` select p l'.
Proof. intros [k ->]. rewrite select_app. by apply prefix_app_r. Qed.

Lemma fmap_prefix {A B} (f : A → B) l l' : l `prefix_of` l' → f <$> l `prefix_of` f <$> l'.
Proof. intros [k ->]. rewrite fmap_app. by apply prefix_app_r. Qed.

(** ** Calls that answer again what they answered *)

Lemma reads_ret {A} (a : A) : reads (mret a : call A).
Proof. by intros w b w' [_ <-]%svc_ret_Ok. Qed.

Section recurrence.
Context (e : Stages.Env) (t1 t2 : Z) (tenant : string).

(** The same service at two times. *)
Abbreviation e1 := (at_time t1 e).
Abbreviation e2 := (at_time t2 e).

Definition repeats {A} (m1 m2 : call A) : Prop := ∀ w a w1 w2, m1 w = Ok (a, w1) → later w1 w2 → m2 w2 = Ok (a, w2).

Lemma repeats_gets {A} (f : Data → A) : repeats (gets (λ w, f (w_data w))) (gets (λ w, f (w_data w))).
Proof. intros w a w1 w2 [<- <-]%gets_Ok Hl. unfold gets. by rewrite (later_data _ _ Hl). Qed.

Lemma repeats_lift {A} (r : res exn A) : repeats (lift r) (lift r).
Proof. intros w a w1 w2 [-> <-]%lift_Ok Hl. done. Qed.

Lemma repeats_found {A} (x : option A) er : repeats (found x er) (found x er).
Proof. intros w a w1 w2 [-> <-]%found_Ok Hl. done. Qed.

Lemma repeats_guard b er : repeats (guard b er) (guard b er).
Proof. intros w [] w1 w2 [-> <-]%guard_Ok Hl. done. Qed.

Lemma repeats_ret {A} (a : A) : repeats (mret a) (mret a).
Proof. by intros w b w1 w2 [<- <-]%svc_ret_Ok Hl. Qed.

Lemma repeats_bind {A B} (m1 m2 : call A) (f1 f2 : A → call B) :
  repeats m1 m2 → (∀ a, preparatory e1 tenant (f1 a)) → (∀ a, repeats (f1 a) (f2 a)) → repeats (m1 ≫= f1) (m2 ≫= f2).
Proof.
  intros Hm Hp Hf w b w1 w2 (a & w' & H1 & H2)%svc_bind_Ok Hl. unfold mbind, svc_bind.
  rewrite (Hm w a w' w2 H1) by (eapply prep_later; [by eapply Hp|done]). by apply (Hf a w' b w1).
Qed.

Lemma repeats_on_data {A} (m : Datasets.call A) :
  (∀ w a w', m w = Ok (a, w') → w' = w) → repeats (on_data m) (on_data m).
Proof.
  intros Hm w a w1 w2 H Hl. pose proof (reads_on_data m Hm _ _ _ H) as ->. unfold on_data, on_part, with_error in *.
  rewrite (later_data _ _ Hl). destruct (m (w_data w)) as [[b d]|] eqn:Hd; [|done]. injection H as <- _.
  pose proof (Hm _ _ _ Hd) as ->. by rewrite <-(later_data _ _ Hl), set_data_same.
Qed.

Lemma repeats_get_project id : repeats (on_data (get_project tenant id)) (on_data (get_project tenant id)).
Proof. apply repeats_on_data. intros w a w'. apply get_project_same. Qed.
Lemma repeats_get_dataset id project : repeats (on_data (get_dataset tenant id project)) (on_data (get_dataset tenant id project)).
Proof. apply repeats_on_data. intros w a w'. apply get_dataset_same. Qed.
Lemma repeats_derive d : repeats (on_data (derive_materialization tenant d)) (on_data (derive_materialization tenant d)).
Proof. apply repeats_on_data. intros w a w'. apply derive_materialization_same. Qed.

(** *** Input artifacts *)

Lemma get_artifact_prefix ten id rows rows' r :
  rows `prefix_of` rows' → Artifacts.get_artifact ten id rows = Ok r → Artifacts.get_artifact ten id rows' = Ok r.
Proof.
  unfold Artifacts.get_artifact. intros [k ->]. rewrite filter_app. destruct (filter _ rows) as [|r0 l]; [done|]. done.
Qed.

Lemma resolve_one_prefix ds rows rows' role x r :
  rows `prefix_of` rows' → Artifacts.resolve_one tenant ds rows role x = Ok r → Artifacts.resolve_one tenant ds rows' role x = Ok r.
Proof.
  intros Hp. unfold Artifacts.resolve_one. destruct (raise_if _ _); [|done]. cbn.
  destruct (Artifacts._artifact_ref_dict role x) as [ref|]; [|done]. cbn.
  destruct (Artifacts.get_artifact tenant ref.1 rows) as [r0|] eqn:Hg; [|done].
  by rewrite (get_artifact_prefix _ _ _ _ _ Hp Hg).
Qed.

Lemma resolve_prefix v ds refs rows rows' out :
  rows `prefix_of` rows' → Artifacts.resolve_input_artifacts v tenant ds refs rows = Ok out →
  Artifacts.resolve_input_artifacts v tenant ds refs rows' = Ok out.
Proof.
  intros Hp. unfold Artifacts.resolve_input_artifacts. generalize (@nil (string * dict value)) as acc.
  induction refs as [|[role x] refs IH]; intros acc; [done|]. cbn.
  destruct (Artifacts.resolve_one tenant ds rows role x) as [r|] eqn:Hr; [|done].
  rewrite (resolve_one_prefix _ _ _ _ _ _ Hp Hr). cbn. apply IH.
Qed.

Lemma repeats_resolve ds input : repeats (resolve_input_artifacts e1 tenant ds input) (resolve_input_artifacts e2 tenant ds input).
Proof.
  unfold resolve_input_artifacts. destruct (negb (truthy input)); [apply repeats_ret|].
  destruct input; try by intros w a w1 w2 []%raise_Ok.
  intros w a w1 w2 (rows & w' & [<- <-]%gets_Ok & H)%svc_bind_Ok Hl. unfold mbind, svc_bind, gets. cbn.
  apply lift_Ok in H as [H <-].
  match type of H with api ?r = _ => destruct r as [out|] eqn:Hr; [|done] end. injection H as <-.
  erewrite resolve_prefix; [|apply (fmap_prefix (artifact_row e)), Hl|exact Hr]. done.
Qed.

(** *** Runtime versions and reconstructions *)

Lemma repeats_version : repeats (ensure_runtime_version e1) (ensure_runtime_version e2).
Proof.
  intros w rv w1 w2 H Hl. unfold ensure_runtime_version. unfold mbind, svc_bind, gets.
  set (p := λ r, _) . assert (head (select p (w_rvs w1)) = Some rv) as Hh.
  { unfold ensure_runtime_version in H. apply svc_bind_Ok in H as (rows & w' & [<- <-]%gets_Ok & H). 
    destruct (head _) as [r|] eqn:Hr; [by apply svc_ret_Ok in H as [<- <-]|].
    change (head (select p (w_rvs w)) = None) in Hr.
    unfold new_id in H. apply svc_bind_Ok in H as (id & w' & [= <- <-] & H). svc_inv H. cbn.
    rewrite select_app. destruct (select p (w_rvs w)); [|done]. subst p. unfold select. cbn. by rewrite !bool_decide_true. }
  by rewrite (head_prefix _ _ _ (select_prefix p _ _ (later_rvs _ _ Hl)) Hh).
Qed.

Lemma repeats_recon d spec : repeats (ensure_reconstruction e1 tenant d spec) (ensure_reconstruction e2 tenant d spec).
Proof.
  intros w r w1 w2 H Hl. unfold ensure_reconstruction in *. apply svc_bind_Ok in H as (rv & w' & H1 & H).
  apply svc_bind_Ok in H as (rows & w'' & [<- <-]%gets_Ok & H). rewrite select_select in H.
  set (p := λ r, _) in H.
  assert (prep e1 tenant w' w1 ∧ head (select p (w_recons w1)) = Some r) as [Hp Hh].
  { destruct (head (select p (w_recons w'))) as [r0|] eqn:Hr; [apply svc_ret_Ok in H as [<- <-]; split; [constructor|done]|].
    unfold new_id in H. apply svc_bind_Ok in H as (id & w3 & [= <- <-] & H). svc_inv H. split.
    - apply rtc_once. apply (prep_recon e1 tenant w' (mkRecon (fresh e (w_next w')) tenant (d_project_id d) (dataset_id d) (manifest_hash d) (VDict spec) (rv_id rv)));
        [done..|]. intros (r0 & Hk & Hin)%list_elem_of_fmap. apply (select_head_None _ _ Hr) in Hin. symmetry in Hk.
      apply (recon_of_key tenant d spec (rv_id rv)) in Hk. destruct Hk as (? & ? & ? & ? & Hh). subst p. cbn in Hin.
      rewrite bool_decide_true, andb_true_r in Hin by done. by rewrite (proj2 (recon_matches_spec _ _ _ _ _)) in Hin.
    - cbn. rewrite select_app. destruct (select p (w_recons w')); [|done]. subst p. unfold select, recon_matches. cbn.
      by rewrite !bool_decide_true. }
  unfold mbind at 1, svc_bind at 1. rewrite (repeats_version _ _ _ w2 H1) by by eapply prep_later.
  unfold mbind at 1, svc_bind at 1, gets. rewrite select_select. fold p.
  by rewrite (head_prefix _ _ _ (select_prefix p _ _ (later_recons _ _ Hl)) Hh).
Qed.

Lemma repeats_get_reconstruction id : repeats (get_reconstruction tenant id) (get_reconstruction tenant id).
Proof.
  intros w r w1 w2 (rows & w' & [<- <-]%gets_Ok & [H <-]%found_Ok)%svc_bind_Ok Hl.
  unfold get_reconstruction, mbind, svc_bind, gets. by rewrite (head_prefix _ _ _ (select_prefix _ _ _ (later_recons _ _ Hl)) H).
Qed.

Lemma repeats_database_path d spec : repeats (_resolve_database_path e1 tenant d spec) (_resolve_database_path e2 tenant d spec).
Proof. apply repeats_bind; [apply repeats_recon|intros; apply preparatory_ret|intros; apply repeats_ret]. Qed.

Lemma repeats_reads_bind {A B} (m1 m2 : call A) (f1 f2 : A → call B) :
  repeats m1 m2 → (∀ a, reads (f1 a)) → (∀ a, repeats (f1 a) (f2 a)) → repeats (m1 ≫= f1) (m2 ≫= f2).
Proof.
  intros Hm Hp Hf w b w1 w2 (a & w' & H1 & H2)%svc_bind_Ok Hl. unfold mbind, svc_bind.
  pose proof (Hp a _ _ _ H2) as ->. rewrite (Hm w a w' w2 H1) by done. by apply (Hf a w' b w').
Qed.

Lemma repeats_explicit_pairs d pairs input :
  repeats (_validate_explicit_pairs tenant d pairs input) (_validate_explicit_pairs tenant d pairs input).
Proof.
  unfold _validate_explicit_pairs. destruct (negb _); [apply repeats_guard|].
  apply repeats_reads_bind; [apply repeats_guard| |]; intros _; (destruct (truthy (value_get "pairs" input)); [apply reads_ret || apply repeats_ret|]).
  - destruct (truthy _); (apply reads_bind; [apply reads_gets|]); intros x; (apply reads_bind; [apply reads_found || apply reads_lift|]); intros y;
      [apply reads_ret|apply reads_bind; [apply reads_lift|]; intros; apply reads_guard].
  - destruct (truthy _).
    + apply repeats_reads_bind; [apply (repeats_gets (λ d, blobs d !! _))|intros b..].
      * apply reads_bind; [apply reads_found|]. intros; apply reads_ret.
      * apply repeats_reads_bind; [apply repeats_found|intros; apply reads_ret|intros; apply repeats_ret].
    + apply repeats_reads_bind; [apply (repeats_gets (λ w, i_name <$> select (of_dataset tenant (dataset_id d)) (images w)))|intros known..].
      * apply reads_bind; [apply reads_lift|]. intros l. apply reads_bind; [apply reads_lift|]. intros; apply reads_guard.
      * apply repeats_reads_bind; [apply repeats_lift|intros l..].
        -- apply reads_bind; [apply reads_lift|]. intros; apply reads_guard.
        -- apply repeats_reads_bind; [apply repeats_lift|intros; apply reads_guard|intros; apply repeats_guard].
Qed.

Lemma repeats_pose_priors ds : repeats (collect_pose_priors_by_name tenant ds) (collect_pose_priors_by_name tenant ds).
Proof.
  apply repeats_reads_bind; [apply (repeats_gets (λ w, select (λ i, of_dataset tenant ds i && has_prior i) (images w)))|intros; apply reads_ret|].
  intros; apply repeats_ret.
Qed.

Lemma repeats_local_image_root m detail : repeats (local_image_root m detail) (local_image_root m detail).
Proof. apply repeats_reads_bind; [apply repeats_guard|intros; apply reads_ret|intros; apply repeats_ret]. Qed.

Lemma repeats_merge_source target source : repeats (merge_source e1 tenant target source) (merge_source e2 tenant target source).
Proof.
  apply repeats_reads_bind; [apply repeats_get_reconstruction|intros r..].
  - apply reads_bind; [apply reads_guard|intros; apply reads_ret].
  - apply repeats_reads_bind; [apply repeats_guard|intros; apply reads_ret|intros; apply repeats_ret].
Qed.

Lemma repeats_merge_sources target l : repeats (map_each (merge_source e1 tenant target) l) (map_each (merge_source e2 tenant target) l).
Proof.
  induction l as [|x l IH]; cbn; [apply repeats_ret|].
  apply repeats_reads_bind; [apply repeats_merge_source|intros y..].
  - apply reads_bind; [apply reads_map_each, reads_merge_source|intros; apply reads_ret].
  - apply repeats_reads_bind; [apply IH|intros; apply reads_ret|intros; apply repeats_ret].
Qed.

Lemma repeats_recon_base recon needs : repeats (_recon_stage_base e1 tenant recon needs) (_recon_stage_base e2 tenant recon needs).
Proof.
  unfold _recon_stage_base. apply repeats_reads_bind; [apply repeats_get_reconstruction|intros r..].
  - destruct (_reconstruction_paths _ _ _), needs; [|apply reads_ret].
    apply reads_bind; [apply reads_get_dataset|intros d]. apply reads_bind; [apply reads_derive|intros m].
    apply reads_bind; [apply reads_local_image_root|intros; apply reads_ret].
  - change (_reconstruction_paths e2 tenant r) with (_reconstruction_paths e1 tenant r).
    destruct (_reconstruction_paths _ _ _), needs; [|apply repeats_ret].
    apply repeats_reads_bind; [apply repeats_get_dataset|intros d..].
    { apply reads_bind; [apply reads_derive|intros m]. apply reads_bind; [apply reads_local_image_root|intros; apply reads_ret]. }
    apply repeats_reads_bind; [apply repeats_derive|intros m..].
    { apply reads_bind; [apply reads_local_image_root|intros; apply reads_ret]. }
    apply repeats_reads_bind; [apply repeats_local_image_root|intros; apply reads_ret|intros; apply repeats_ret].
Qed.

Lemma repeats_require c : repeats (require_capability e1 c) (require_capability e2 c).
Proof. apply repeats_lift. Qed.

(** ** Requests that submit the same nodes again *)

(** Equal but for ids and dependencies: the cache key is the same. *)
Definition keyed (n n' : Dag.TaskNode) : Prop :=
  Dag.n_kind n = Dag.n_kind n' ∧ Dag.n_inputs_hash n = Dag.n_inputs_hash n' ∧ Dag.n_params_hash n = Dag.n_params_hash n'.

Definition submit_at (t : Z) (rv project recipe : string) (spec : dict value) (nodes : list Dag.TaskNode) (w : World) :
    res exn (Accepted * World) :=
  match Scheduler.submit_job_dag (artifacts e) (λ k, fresh e (w_next w + k)) rv t tenant project recipe (Some (VDict spec)) nodes (w_db w) with
  | Ok (acc, db) => Ok (acc, set_next (w_next w + S (length nodes)) (set_db db w))
  | Err x => Err x
  end.

Definition recurs {A} (job_of : A → Accepted) (m1 m2 : call A) : Prop :=
  ∀ w a w', m1 w = Ok (a, w') →
  ∃ w1 rv project recipe spec nodes wrap,
    prep e1 tenant w w1 ∧ drawn e w w1 nodes ∧ (∀ x, job_of (wrap x) = x) ∧
    submit_at t1 rv project recipe spec nodes w1 = Ok (job_of a, w') ∧
    ∀ w2, later w1 w2 → ∃ w3 nodes',
      prep e2 tenant w2 w3 ∧ drawn e w2 w3 nodes' ∧ Forall2 keyed nodes nodes' ∧
      m2 w2 = match submit_at t2 rv project recipe spec nodes' w3 with Ok (x, w4) => Ok (wrap x, w4) | Err y => Err y end.

Lemma recurs_bind {A B} job_of (m1 m2 : call A) (f1 f2 : A → call B) :
  repeats m1 m2 → preparatory e1 tenant m1 → (∀ a, recurs job_of (f1 a) (f2 a)) → recurs job_of (m1 ≫= f1) (m2 ≫= f2).
Proof.
  intros Hm Hp Hf w b w' (a & w0 & H1 & H2)%svc_bind_Ok.
  destruct (Hf a w0 b w' H2) as (w1 & rv & project & recipe & spec & nodes & wrap & P & D & W & S & N).
  exists w1, rv, project, recipe, spec, nodes, wrap. pose proof (Hp _ _ _ H1) as P0.
  split_and!; [by etrans|by eapply (drawn_prep e1)|done|done|]. intros w2 Hl.
  destruct (N w2 Hl) as (w3 & nodes' & P3 & D3 & K & H). exists w3, nodes'. split_and!; [done..|].
  unfold mbind, svc_bind. rewrite (Hm w a w0 w2 H1); [exact H|]. by eapply prep_later.
Qed.

Lemma recurs_fmap {A B} (job_of : A → Accepted) (job_of' : B → Accepted) (m1 m2 : call A) (f : A → B) :
  (∀ a, job_of' (f a) = job_of a) → recurs job_of m1 m2 → recurs job_of' (m1 ≫= λ a, mret (f a)) (m2 ≫= λ a, mret (f a)).
Proof.
  intros Hj Hm w b w' (a & w0 & H1 & [<- <-]%svc_ret_Ok)%svc_bind_Ok.
  destruct (Hm w a w0 H1) as (w1 & rv & project & recipe & spec & nodes & wrap & P & D & W & S & N).
  exists w1, rv, project, recipe, spec, nodes, (λ x, f (wrap x)). split_and!; [done|done|intros x; by rewrite Hj, W|by rewrite Hj|].
  intros w2 Hl. destruct (N w2 Hl) as (w3 & nodes' & P3 & D3 & K & H). exists w3, nodes'. split_and!; [done..|].
  unfold mbind at 1, svc_bind at 1. rewrite H. destruct (submit_at t2 rv project recipe spec nodes' w3) as [[x w4]|]; reflexivity.
Qed.

Definition same_nodes (m1 m2 : call (list Dag.TaskNode)) : Prop :=
  ∀ w nodes w', m1 w = Ok (nodes, w') →
  prep e1 tenant w w' ∧ drawn e w w' nodes ∧
  ∀ w2, ∃ nodes' w3, m2 w2 = Ok (nodes', w3) ∧ prep e2 tenant w2 w3 ∧ drawn e w2 w3 nodes' ∧ Forall2 keyed nodes nodes'.

Lemma recurs_nodes project recipe spec m1 m2 :
  same_nodes m1 m2 →
  recurs (λ x, x) (nodes ← m1; submit_job_dag e1 tenant project recipe spec nodes)
    (nodes ← m2; submit_job_dag e2 tenant project recipe spec nodes).
Proof.
  intros Hm w acc w' (nodes & w0 & (P & D & N)%Hm & H)%svc_bind_Ok. unfold submit_job_dag in H.
  apply svc_bind_Ok in H as (rv & w1 & Hrv & H). pose proof (preparatory_version e1 tenant _ _ _ Hrv) as P1.
  exists w1, (rv_id rv), project, recipe, spec, nodes, (λ x, x).
  split_and!; [by etrans|by eapply (drawn_later e1)|done| |].
  { unfold submit_at. cbn in H |- *. destruct (Scheduler.submit_job_dag _ _ _ _ _ _ _ _ _ _) as [[[[j ts] ids] db]|]; [|done]. by injection H as <- <-. }
  intros w2 Hl. destruct (N w2) as (nodes' & w3 & H2 & P2 & D2 & K). exists w3, nodes'. split_and!; [done..|].
  unfold mbind at 1, svc_bind at 1. rewrite H2. unfold submit_job_dag. unfold mbind at 1, svc_bind at 1.
  rewrite (repeats_version w0 rv w1 w3 Hrv).
  - unfold submit_at. change (artifacts e2) with (artifacts e). change (now e2) with t2. change (fresh e2) with (fresh e).
    destruct (Scheduler.submit_job_dag (artifacts e) (λ k, fresh e (w_next w3 + k)) (rv_id rv) t2 tenant project recipe
      (Some (VDict spec)) nodes' (w_db w3)) as [[[[j ts] ids] db]|]; reflexivity.
  - destruct Hl as [L1 L2 L3 L4], (prep_is_later _ _ _ _ P2) as [K1 K2 K3 K4]. split; [by rewrite K1|by etrans..].
Qed.

Lemma same_nodes_single kind inputs spec :
  same_nodes (n ← _stage_node e1 kind inputs spec []; mret [n]) (n ← _stage_node e2 kind inputs spec []; mret [n]).
Proof.
  intros w nodes w' (n & w1 & H & [<- <-]%svc_ret_Ok)%svc_bind_Ok.
  assert (∀ w, drawn e w (set_next (S (w_next w)) w) [Dag.mkTaskNode (fresh e (w_next w)) kind (Dag.hash_inputs (VDict inputs))
    (Dag.hash_params (VDict spec)) [] true [("inputs", VDict inputs); ("spec", VDict spec)]]) as Hdrawn.
  { intros w0. apply drawn_chain; [|cbn; lia]. intros [|i] m [= <-]. split; [cbn; by rewrite Nat.add_0_r|by left]. }
  apply (stage_node_spec e1 _ _ _ _ _ _ _ tenant) in H as (P & -> & ->). split_and!; [exact P|apply Hdrawn|].
  intros w2. eexists _, _. split_and!; [reflexivity|apply rtc_once, prep_draw|apply Hdrawn|]. by repeat constructor.
Qed.

Lemma recurs_ext {A} job_of (m1 m1' m2 m2' : call A) :
  (∀ w, m1 w = m1' w) → (∀ w, m2 w = m2' w) → recurs job_of m1' m2' → recurs job_of m1 m2.
Proof. intros H1 H2 Hr w a w'. rewrite H1. intros H. destruct (Hr _ _ _ H) as (w1 & rv & pr & rc & sp & ns & wr & H').
  exists w1, rv, pr, rc, sp, ns, wr. destruct H' as (?&?&?&?&N). split_and!; [done..|]. intros w2 Hl. rewrite H2. by apply N. Qed.

Lemma recurs_single project recipe kind inputs spec :
  recurs (λ x, x) (_submit_single_stage e1 tenant project recipe kind inputs spec)
    (_submit_single_stage e2 tenant project recipe kind inputs spec).
Proof.
  eapply recurs_ext; [..|apply (recurs_nodes project recipe spec _ _ (same_nodes_single kind inputs spec))]; intros w;
    unfold _submit_single_stage, mbind, svc_bind; by destruct (_stage_node _ _ _ _ _ _) as [[n w1]|].
Qed.

Lemma same_nodes_recipe project dataset recon m db c spec priors arts :
  same_nodes (build_recipe_dag e1 project dataset recon m db c spec priors arts)
    (build_recipe_dag e2 project dataset recon m db c spec priors arts).
Proof.
  intros w nodes w' H. destruct (dag_nodes e1 tenant _ _ _ _ _ _ _ _ _ _ _ _ H) as [P D]. split_and!; [exact P|exact D|].
  intros w2. destruct (build_recipe_dag e2 project dataset recon m db c spec priors arts w2) as [[nodes' w3]|] eqn:H2; [|done].
  exists nodes', w3. destruct (dag_nodes e2 tenant _ _ _ _ _ _ _ _ _ _ _ _ H2) as [P2 D2]. split_and!; [done..|].
  injection H as <- _. injection H2 as <- _. by repeat constructor.
Qed.

Lemma same_nodes_feed_forward project dataset recon m db spec priors arts :
  same_nodes (build_feed_forward_dag e1 project dataset recon m db spec priors arts)
    (build_feed_forward_dag e2 project dataset recon m db spec priors arts).
Proof.
  intros w nodes w' H. destruct (feed_forward_nodes e1 tenant _ _ _ _ _ _ _ _ _ _ _ H) as [P D]. split_and!; [exact P|exact D|].
  intros w2. destruct (build_feed_forward_dag e2 project dataset recon m db spec priors arts w2) as [[nodes' w3]|] eqn:H2; [|done].
  exists nodes', w3. destruct (feed_forward_nodes e2 tenant _ _ _ _ _ _ _ _ _ _ _ H2) as [P2 D2]. split_and!; [done..|].
  injection H as <- _. injection H2 as <- _. by repeat constructor.
Qed.

End recurrence.

#[export] Hint Resolve repeats_lift repeats_found repeats_guard repeats_ret repeats_get_project repeats_get_dataset repeats_derive
  repeats_resolve repeats_recon repeats_get_reconstruction repeats_database_path repeats_explicit_pairs repeats_pose_priors
  repeats_local_image_root repeats_merge_source repeats_merge_sources repeats_recon_base repeats_require : stages.

(** Requests whose inputs name no directory of their own. *)
Definition cacheable (o : stage_op) : bool := match o with OpVideoFrames _ _ _ _ | OpArchiveImport _ _ _ _ _ _ _ => false | _ => true end.

Section ops.
Context (e : Stages.Env) (t1 t2 : Z) (tenant : string).

Abbreviation e1 := (at_time t1 e).
Abbreviation e2 := (at_time t2 e).
Abbreviation recurring := (recurs e t1 t2 tenant).

Lemma repeats_data_bind {A B} job_of (f : Data → A) (f1 f2 : A → call B) :
  (∀ a, recurring job_of (f1 a) (f2 a)) → recurring job_of (gets (λ w, f (w_data w)) ≫= f1) (gets (λ w, f (w_data w)) ≫= f2).
Proof. intros Hf. apply recurs_bind; [apply repeats_gets|apply preparatory_reads, reads_gets|done]. Qed.

(** Return the spec with the job. *)
Lemma recurs_with {B} (m1 m2 : call Accepted) (b : B) :
  recurring (λ x, x) m1 m2 → recurring fst (m1 ≫= λ job, mret (job, b)) (m2 ≫= λ job, mret (job, b)).
Proof. by apply (recurs_fmap e t1 t2 tenant (λ x, x) fst m1 m2 (λ job, (job, b))). Qed.

Lemma recurs_accepted {B} (m1 m2 : call (Accepted * B)) :
  recurring fst m1 m2 → recurring (λ x, x) (accepted m1) (accepted m2).
Proof. by apply recurs_fmap. Qed.

Ltac recur1 := apply recurs_bind; [solve [eauto with stages]|unfold require_capability; solve [eauto with stages]|intros ?].
Ltac recur :=
  repeat first
    [ apply recurs_single
    | apply recurs_with, recurs_single
    | progress unfold require_that
    | progress cbv beta match zeta
    | match goal with |- recurs _ _ _ _ _ (match ?x with (a, b) => _ end) _ => destruct x as [a b] end
    | recur1 ].

Lemma recurs_submit_recipe project recipe d c spec input :
  recurring fst (submit_recipe e1 tenant project recipe d c spec input) (submit_recipe e2 tenant project recipe d c spec input).
Proof.
  unfold submit_recipe. recur. change (reconstruction_database_path e2) with (reconstruction_database_path e1).
  eapply recurs_ext; [..|apply recurs_with, recurs_nodes]; [intros w; by rewrite svc_bind_assoc..|].
  destruct c; [apply same_nodes_recipe|apply same_nodes_feed_forward].
Qed.

Lemma recurs_stage_op o :
  cacheable o = true → recurring (λ x, x) (run_stage_op e1 tenant o) (run_stage_op e2 tenant o).
Proof.
  intros Ho. destruct o; try discriminate Ho; cbn [run_stage_op]; try apply recurs_accepted.
  - unfold submit_features. recur.
  - unfold submit_matches. recur.
  - unfold submit_verify. recur.
  - unfold submit_project_images. recur.
  - unfold submit_kapture_import. recur.
  - unfold submit_vlad_index. recur1. cbv zeta. do 3 recur1.
    apply (repeats_data_bind _ (λ d, select (of_dataset tenant _) (images d))). intros rows. recur.
  - unfold _submit_dataset_db_stage. recur.
  - unfold _submit_registered_recon_stage, _submit_recon_stage. recur.
  - unfold submit_localize, _reconstruction_paths. recur.
  - unfold submit_merge_recons. recur.
  - unfold submit_to_cubemap, _reconstruction_paths. recur.
  - unfold submit_georegister, _reconstruction_paths. recur.
  - unfold run_recipe, require_that. cbv zeta. do 2 recur1. case_decide; recur1; [apply recurs_submit_recipe|].
    match goal with |- recurs _ _ _ _ _ (match ?x with (c, s) => _ end) _ => destruct x end. apply recurs_submit_recipe.
Qed.

End ops.
