(* ===== verification/StageGuarantees.v ===== *)
(** What the stage routes guarantee: the server's orchestrator part behaves as the
    orchestrator's own system, reconstructions are shared by key, and a request asked again
    after its tasks succeeded runs nothing. *)
From S2P Require Import Prelude PyValue Errors Store Hashing Service JobService Dispatcher Scheduler TaskRows Submission Datasets DatasetInvariant System Guarantees HubState ArtifactVocab Artifacts Capabilities Backends Stages ReconStages Recipes StageFacts Server ServerInvariant Recurrence DatasetGuarantees.
From stdpp Require Import options.
Import Errors Datasets Stages ReconStages Recipes Server.

#[local] Opaque hash_dict Dag.hash_inputs Dag.hash_params sha256_hex.
#[local] Arguments Scheduler.submit_job_dag : simpl never.

(** ** A run of the server *)

Fixpoint ticks (n : nat) : string := match n with O => "i" | S n => String "i" (ticks n) end.

Lemma ticks_inj j k : ticks j = ticks k → j = k.
Proof. revert k. induction j as [|j IH]; intros [|k]; cbn; [done|..]; [by destruct k|by destruct j|]. intros [= H]. f_equal. by apply IH. Qed.
Lemma ticks_nonempty k : ticks k ≠ "".
Proof. by destruct k. Qed.

Definition stage_settings : Stages.Settings :=
  mkSettings (path_of "/w") (path_of "/w/blobs") (path_of "/w/s3") "rt-1" 0.

Definition stage_demo_env : Stages.Env :=
  Stages.mkEnv plain_services ticks 0 stage_settings (λ _, true) Hub.empty_state []
    (λ _, Ok (Backends.mkBackend "stub" None None))
    (Capabilities.mkDeployment "stub" "1" "v" None [] None false false false false false false)
    (Vocab.mkVocabulary [] [] [])
    (λ a, Artifacts.Artifacts.mkRow "" (sa_tenant_id a) "" "" None None "" None None None None None).

Definition echo_handlers : Registry.Registry :=
  Registry.mkRegistry ((λ k, (k, λ t, Ok (VDict [("id", VStr (task_id t))]))) <$> ["extract"; "match"; "verify"; "map"]) [] [].

Definition demo_deployment : Server.Deployment :=
  Server.mkDeployment stage_demo_env echo_handlers Errors.exn_text 90 (Some 30%Z) true.

Definition do_data (s : State) (o : data_op) : State :=
  mkState (with_data demo_deployment (serve o (w_data (world s))) (world s)) (clock s) (runs s).

(** A project with a dataset of two images. *)
Definition stocked : State := foldl do_data (start 5) demo_ops1.

Definition demo_recipe : stage_op :=
  OpRecipe "p" "incremental"
    (mkPipelineRequest "d" [("type", VStr "sift")] [("strategy", VStr "exhaustive")] [("type", VStr "nn-mutual")] []
       [("kind", VStr "incremental")] []).

Definition ask (t : Z) (o : stage_op) (w : World) : res exn (Accepted * World) :=
  run_stage_op (at_time t (stage_env demo_deployment)) "t" o w.

Definition do_ask (o : stage_op) (s : State) : State :=
  match ask (clock s) o (world s) with Ok (_, w) => mkState w (clock s) (runs s) | Err _ => s end.

Definition asked : State := do_ask demo_recipe stocked.

Lemma reachable_stocked : reachable demo_deployment stocked.
Proof.
  unfold stocked. generalize demo_ops1. intros ops. assert (reachable demo_deployment (start 5)) as H by constructor.
  revert H. generalize (start 5). induction ops as [|o ops IH]; intros s H; [done|]. cbn. apply IH.
  eapply reach_step; [exact H|apply server_data].
Qed.

Lemma reachable_ask o s : reachable demo_deployment s → reachable demo_deployment (do_ask o s).
Proof.
  intros Hs. unfold do_ask. destruct (ask (clock s) o (world s)) as [[acc w]|] eqn:H; [|done].
  eapply reach_step; [exact Hs|]. by eapply server_stage.
Qed.

(** A worker takes a task, and its handler returns. *)
Definition do_pickup (tid : string) (s : State) : State :=
  let '(r, db, _) := Dispatcher.pickup echo_handlers "w" 90 (clock s) tid (w_db (world s)) in
  mkState (set_db db (world s)) (clock s) (match r with Dispatcher.Started t => ("w", t) :: runs s | _ => runs s end).

Definition do_finish (s : State) : State :=
  match runs s with
  | (w, t) :: rest =>
      mkState (set_db (System.finish (sys_env demo_deployment) w t (System.Handled (Ok VNone)) (clock s) (w_db (world s))) (world s))
        (clock s) rest
  | [] => s
  end.

Lemma deployed_pickup tid s : reachable demo_deployment s → reachable demo_deployment (do_pickup tid s).
Proof.
  intros Hs. unfold do_pickup. destruct (Dispatcher.pickup _ _ _ _ _ _) as [[r db] q] eqn:H.
  eapply reach_step; [exact Hs|]. apply (server_work demo_deployment s (System.mkSys _ _ _)). by eapply System.work_pickup.
Qed.

Lemma deployed_finish s : reachable demo_deployment s → reachable demo_deployment (do_finish s).
Proof.
  intros Hs. unfold do_finish. destruct (runs s) as [|[w t] rest] eqn:Hr; [done|].
  eapply reach_step; [exact Hs|]. apply (server_work demo_deployment s (System.mkSys _ _ _)).
  by apply (System.work_finish (sys_env demo_deployment) (sys_of s) w t (System.Handled (Ok VNone)) [] rest).
Qed.

Definition run_all (ids : list string) (s : State) : State := foldl (λ s i, do_finish (do_pickup i s)) s ids.

Lemma reachable_run ids s : reachable demo_deployment s → reachable demo_deployment (run_all ids s).
Proof. revert s. induction ids as [|i ids IH]; intros s Hs; [done|]. by apply IH, deployed_finish, deployed_pickup. Qed.

(** The four tasks of the recipe have run. *)
Definition recipe_done : State := run_all ["iii"; "iiii"; "iiiii"; "iiiiii"] asked.

(** ** Ranks *)

Section rank.
Context (id : nat → string) (Hinj : ∀ j k, id j = id k → j = k).

(** When an id was drawn. *)
Definition drawn_at (n : nat) (i : string) : nat := default n (fst <$> list_find (λ k, id k = i) (seq 0 n)).

Lemma drawn_at_id n k : k < n → drawn_at n (id k) = k.
Proof using Hinj.
  intros Hk. unfold drawn_at. destruct (list_find _ _) as [[i x]|] eqn:H; cbn.
  - apply list_find_Some in H as (Hi & Hx & _). apply Hinj in Hx as ->. by apply lookup_seq in Hi as [-> _].
  - eapply list_find_None in H. rewrite Forall_forall in H. exfalso. apply (H k); [|done]. apply elem_of_seq. lia.
Qed.
End rank.

Section server.
Context (dep : Server.Deployment).
Abbreviation fresh_id := (fresh (stage_env dep)).
Context (Hinj : ∀ j k, fresh_id j = fresh_id k → j = k).

Lemma ordered_acyclic s : unused dep s → ordered dep (w_db (world s)) → acyclic (w_db (world s)).
Proof using Hinj.
  intros Hun Hord. exists (drawn_at fresh_id (w_next (world s))). intros t d Ht Hd.
  destruct (Hord t d Ht Hd) as (j & k & -> & Hk & Hlt).
  assert (k < w_next (world s)).
  { destruct (decide (k < w_next (world s))) as [|Hn]; [done|]. destruct (Hun k ltac:(lia)) as [Hm _]. destruct Hm.
    left. exists t. split; [done|by left]. }
  rewrite Hk, !drawn_at_id by (done || lia). done.
Qed.

End server.

(** ** The orchestrator inside the server *)

(** C12: the orchestrator's part of every reachable state of the server is a reachable
    state of the orchestrator's own system, so what holds there holds while dataset,
    image and stage requests interleave with workers and janitor; tasks form a DAG, as
    the janitor's progress needs; and an id still to be drawn names no task, job,
    reconstruction or runtime version. Ids are unique and not empty. *)
Theorem server_refines_orchestrator (dep : Server.Deployment)
    (Hinj : ∀ j k, fresh (stage_env dep) j = fresh (stage_env dep) k → j = k)
    (Hnonempty : ∀ k, fresh (stage_env dep) k ≠ "") (s : State) (Hs : reachable dep s) :
  System.reachable (sys_env dep) (sys_of s) ∧ acyclic (w_db (world s)) ∧
  ∀ k, w_next (world s) ≤ k →
    get_task (fresh (stage_env dep) k) (w_db (world s)) = None ∧ get_job (fresh (stage_env dep) k) (w_db (world s)) = None ∧
    (∀ r, r ∈ w_recons (world s) → rc_id r ≠ fresh (stage_env dep) k) ∧
    (∀ r, r ∈ w_rvs (world s) → rv_id r ≠ fresh (stage_env dep) k).
Proof.
  destruct (reachable_server_ok dep Hinj Hnonempty s Hs) as [Hsys Hun Hord _ _]. split_and!; [done|by eapply ordered_acyclic|].
  intros k Hk. destruct (Hun k Hk) as (Hm & Hj & Hr & Hv). split_and!.
  - apply row_get_None. intros t Ht Hid. apply Hm. left. exists t. split; [done|]. rewrite <-Hid. by left.
  - apply row_get_None. intros j Hin Hid. apply Hj. rewrite <-Hid. by apply list_elem_of_fmap_2.
  - intros r Hin Hid. apply Hr. rewrite <-Hid. by apply list_elem_of_fmap_2.
  - intros r Hin Hid. apply Hv. rewrite <-Hid. by apply list_elem_of_fmap_2.
Qed.

(** Four tasks of a recipe, still pending, ordered by their dependencies. *)
Lemma server_refines_orchestrator_witness :
  acyclic (w_db (world asked)) ∧ task_deps <$> db_tasks (w_db (world asked)) = [[]; ["iii"]; ["iiii"]; ["iiiii"]].
Proof.
  split; [|vm_compute; reflexivity].
  exact (proj1 (proj2 (server_refines_orchestrator demo_deployment ticks_inj ticks_nonempty asked
    (reachable_ask demo_recipe stocked reachable_stocked)))).
Defined.

(** ** Reconstructions *)

Definition keeps_tables (w w' : World) : Prop :=
  w_data w' = w_data w ∧ db_tasks (w_db w') = db_tasks (w_db w) ∧ db_jobs (w_db w') = db_jobs (w_db w) ∧
  db_artifacts (w_db w') = db_artifacts (w_db w).

Lemma ensure_reconstruction_total env tenant d spec w : ∃ r w', ensure_reconstruction env tenant d spec w = Ok (r, w').
Proof.
  unfold ensure_reconstruction, ensure_runtime_version, new_id, mbind, svc_bind, gets.
  destruct (head (select _ (w_rvs w))) as [rv|]; cbn; match goal with |- context [head ?l] => destruct (head l) end; cbn; eauto.
Qed.

Lemma same_key {A B} (key : A → B) l x y : NoDup (key <$> l) → x ∈ l → y ∈ l → key x = key y → x = y.
Proof.
  intros Hd [i Hi]%list_elem_of_lookup [j Hj]%list_elem_of_lookup He.
  assert (i = j) as -> by (eapply NoDup_lookup; [exact Hd|by rewrite list_lookup_fmap, Hi|by rewrite list_lookup_fmap, Hj, He]).
  congruence.
Qed.

(** C26: reconstructions are found or made. In every reachable state a reconstruction is
    determined by its tenant, dataset, snapshot of the manifest, runtime version and
    digest of its spec, and a runtime version by its name and seed. Asked for the
    reconstruction of a dataset and a spec, the service always returns the row of that
    key, adds no other row than those two, and whatever rows are added later returns the
    same row again without a change. *)
Theorem reconstructions_unique (dep : Server.Deployment)
    (Hinj : ∀ j k, fresh (stage_env dep) j = fresh (stage_env dep) k → j = k)
    (Hnonempty : ∀ k, fresh (stage_env dep) k ≠ "") (s : State) (Hs : reachable dep s)
    (tenant : string) (d : Dataset) (spec : dict value) :
  NoDup (recon_key_of <$> w_recons (world s)) ∧ NoDup (version_key <$> w_rvs (world s)) ∧
  ∃ r w rv, ensure_reconstruction (at_time (clock s) (stage_env dep)) tenant d spec (world s) = Ok (r, w) ∧
    r ∈ w_recons w ∧ rv ∈ w_rvs w ∧ this_version (stage_env dep) rv ∧ recon_of tenant d spec (rv_id rv) r ∧
    (∀ r', r' ∈ w_recons (world s) → recon_of tenant d spec (rv_id rv) r' → r = r') ∧
    NoDup (recon_key_of <$> w_recons w) ∧ keeps_tables (world s) w ∧ later (world s) w ∧
    ∀ t w', later w w' → ensure_reconstruction (at_time t (stage_env dep)) tenant d spec w' = Ok (r, w').
Proof.
  pose proof (reachable_server_ok dep Hinj Hnonempty s Hs) as Hok. split; [apply Hok|]. split; [apply Hok|].
  destruct (ensure_reconstruction_total (at_time (clock s) (stage_env dep)) tenant d spec (world s)) as (r & w & H).
  destruct (ensure_reconstruction_spec _ _ _ _ _ _ _ H) as (Hp & Hin & rv & Hrv & Hthis & Hof). exists r, w, rv.
  pose proof (ok_recons _ _ (server_ok_prep dep Hinj _ _ _ _ Hok Hp)) as [Hd _]. cbn in Hd.
  pose proof (prep_is_later _ _ _ _ Hp) as Hlater. split_and!; [done..| |done| |done|].
  - intros r' Hr' Hof'. apply (same_key recon_key_of (w_recons w) r r'); [exact Hd|exact Hin|by eapply elem_of_prefix, Hlater|].
    apply recon_of_key in Hof, Hof'. congruence.
  - destruct (prep_keeps _ _ _ _ Hp) as (? & ? & ? & ? & _). by split_and!.
  - intros t w' Hl. by eapply (repeats_recon (stage_env dep) (clock s) t).
Qed.

Lemma later_refl w : later w w.
Proof. by split. Qed.

Lemma reconstructions_unique_witness :
  length (w_recons (world asked)) = 1 ∧
  ∃ r w, ensure_reconstruction (at_time (clock asked) (stage_env demo_deployment)) "t" (first_dataset (w_data (world asked))) []
      (world asked) = Ok (r, w) ∧
    ensure_reconstruction (at_time 9 (stage_env demo_deployment)) "t" (first_dataset (w_data (world asked))) [] w = Ok (r, w).
Proof.
  split; [vm_compute; reflexivity|].
  destruct (reconstructions_unique demo_deployment ticks_inj ticks_nonempty asked (reachable_ask demo_recipe stocked reachable_stocked)
    "t" (first_dataset (w_data (world asked))) []) as (_ & _ & r & w & rv & H & _ & _ & _ & _ & _ & _ & _ & _ & Hagain).
  exists r, w. split; [exact H|]. apply Hagain, later_refl.
Defined.

(** ** Cached submissions *)

Section cached.
Context (svc : ArtifactServices).

(** Outputs the artifact services accept again. *)
Definition reusable (outputs : option value) : Prop :=
  ∀ t, ∃ o, normalize_task_outputs svc t (default (VDict []) outputs) = Ok o ∧
    ∀ t' arts, ∃ o' arts', record_task_artifacts svc t' o arts = Ok (o', arts').

Definition has_succeeded (tenant key : string) (db : Db) : Prop :=
  ∃ c, c ∈ db_tasks db ∧ t_tenant_id c = tenant ∧ Store.cache_key c = key ∧ t_status c = "succeeded".

Definition outputs_reusable (tenant : string) (db : Db) : Prop :=
  ∀ c, c ∈ db_tasks db → t_tenant_id c = tenant → t_status c = "succeeded" → reusable (outputs_ref_json c).

Lemma latest_finished_elem best rows c : JobService.latest_finished best rows = Some c → best = Some c ∨ c ∈ rows.
Proof.
  revert best. induction rows as [|t rows IH]; intros best; cbn; [by left|]. intros [H|?]%IH; [|right; by right].
  destruct best as [b|]; [destruct (JobService.finished_before b t)|]; injection H as ->; (by left) || (right; by left).
Qed.

Lemma materialize_hit tenant job rv now db n :
  has_succeeded tenant (Dag.cache_key n rv) db → outputs_reusable tenant db →
  ∃ t, JobService.materialize_node tenant job rv now db n = (t, true) ∧ t_status t = "succeeded" ∧ reusable (outputs_ref_json t).
Proof.
  intros (c & Hc)%lookup_cached_Some Hr. unfold JobService.materialize_node. rewrite Hc. eexists. split_and!; [done..|]. cbn.
  apply latest_finished_elem in Hc as [?|[Hp Hin]%elem_of_select]; [done|]. rewrite !andb_true_iff, !bool_decide_eq_true in Hp.
  destruct Hp as [[Ht _] Hs]. by apply Hr.
Qed.

Lemma materialize_all_hits tenant job rv now nodes db :
  (∀ n, n ∈ nodes → has_succeeded tenant (Dag.cache_key n rv) db) → outputs_reusable tenant db →
  ∃ out db', JobService.materialize_nodes tenant job rv now db nodes = (out, db') ∧ length out = length nodes ∧
    Forall (λ th, th.2 = true ∧ t_status th.1 = "succeeded" ∧ reusable (outputs_ref_json th.1)) out.
Proof.
  revert db. induction nodes as [|n nodes IH]; intros db Hn Hr; cbn [JobService.materialize_nodes].
  { by exists [], db. }
  destruct (materialize_hit tenant job rv now db n) as (t & -> & Hs & Ho); [apply Hn; by left|done|].
  destruct (IH (with_tasks (db_tasks db ++ [t]) db)) as (out & db' & -> & Hl & Hf).
  - intros m Hm. destruct (Hn m) as (c & ? & ?); [by right|]. exists c. split; [|done]. cbn. apply elem_of_app. by left.
  - intros c [Hc| ->%list_elem_of_singleton]%elem_of_app Ht Hst; [by apply Hr|done].
  - exists ((t, true) :: out), db'. split_and!; [done|cbn; by rewrite Hl|by constructor].
Qed.

Lemma record_all_hits ts db :
  Forall (λ th, th.2 = true ∧ t_status th.1 = "succeeded" ∧ reusable (outputs_ref_json th.1)) ts →
  ∃ ts' db', JobService.record_all_cached svc ts db = Ok (ts', db') ∧ length ts' = length ts ∧ Forall (λ t, t_status t = "succeeded") ts'.
Proof.
  intros H. revert db. induction H as [|[t hit] ts (Hh & Hs & Hr) _ IH]; intros db; cbn in *; [by exists [], db|].
  subst hit. unfold JobService.record_cached. destruct (Hr t) as (o & -> & Hrec). cbn.
  destruct (Hrec (set_outputs_ref_json t (Some o)) (db_artifacts db)) as (o' & arts & ->). cbn.
  match goal with |- context [JobService.record_all_cached svc ts ?d] => destruct (IH d) as (ts' & db' & -> & Hl & Hf) end. cbn.
  exists (set_outputs_ref_json t (Some o') :: ts'), db'. split_and!; [done|cbn; by rewrite Hl|by constructor].
Qed.

(** A submission whose every node is cached enqueues nothing. *)
Lemma submit_all_cached new_id rv now tenant project recipe spec nodes db :
  Scheduler.assign_ids new_id 1 nodes = nodes →
  (∀ n, n ∈ nodes → has_succeeded tenant (Dag.cache_key n rv) db) → outputs_reusable tenant db →
  ∃ tasks db', Scheduler.submit_job_dag svc new_id rv now tenant project recipe spec nodes db = Ok (new_id 0, tasks, [], db') ∧
    length tasks = length nodes ∧ Forall (λ t, t_status t = "succeeded") tasks.
Proof.
  intros Ha Hn Hr. unfold Scheduler.submit_job_dag. cbn [JobService.create_job]. rewrite Ha. unfold JobService.materialize_dag.
  set (db0 := with_jobs _ db).
  destruct (materialize_all_hits tenant (new_id 0) rv now nodes db0 Hn Hr) as (out & db1 & Hm & Hl & Hf). cbn [job_id]. rewrite Hm.
  destruct (record_all_hits out db1 Hf) as (ts & db2 & -> & Hl2 & Hs). cbn.
  assert (select (λ t, negb (bool_decide (t_status t = "succeeded"))) ts = []) as ->.
  { apply elem_of_nil_inv. intros t [Hp Hin]%elem_of_select. rewrite Forall_forall in Hs. by rewrite (Hs t Hin) in Hp. }
  destruct (JobService.finalize_job_if_ready now (new_id 0) db2) as [o db3]. exists ts, db3. split_and!; [done|lia|done].
Qed.
End cached.

Lemma keyed_cache_key n n' rv : keyed n n' → Dag.cache_key n rv = Dag.cache_key n' rv.
Proof. intros (Hk & Hi & Hp). unfold Dag.cache_key. by rewrite Hk, Hi, Hp. Qed.

(** The rows of a submission of the server, one per node. *)
Lemma submitted_rows dep (Hinj : ∀ j k, fresh (stage_env dep) j = fresh (stage_env dep) k → j = k)
    (Hnonempty : ∀ k, fresh (stage_env dep) k ≠ "") s t tenant w0 rv project recipe spec nodes job tasks ids w1 :
  server_ok dep s → prep (at_time t (stage_env dep)) tenant (world s) w0 → drawn (stage_env dep) (world s) w0 nodes →
  submit_at (stage_env dep) tenant (clock s) rv project recipe spec nodes w0 = Ok (job, tasks, ids, w1) →
  Forall2 (node_row tenant job rv (clock s)) nodes tasks ∧ w_rvs w1 = w_rvs w0 ∧ w_recons w1 = w_recons w0.
Proof.
  intros Hok Hp Hd H. pose proof (server_ok_prep dep Hinj _ _ _ _ Hok Hp) as Hok0.
  destruct (prep_keeps _ _ _ _ Hp) as (_ & Ht0 & _).
  destruct (fresh_submission dep Hinj Hnonempty (mkState w0 (clock s) (runs s)) (world s) nodes Hok0) as (Ha & Hj & _ & _ & Hn & _); [|exact Hd|].
  { intros k Hk. pose proof (proj1 (ok_unused _ _ Hok k Hk)) as Hm. unfold System.mentioned in *. cbn in *. by rewrite Ht0. }
  cbn [world] in *. unfold submit_at in H.
  destruct (Scheduler.submit_job_dag _ _ _ _ _ _ _ _ _ _) as [[[[job0 tasks0] ids0] db]|] eqn:Hs; [|done]. injection H as <- <- <- <-.
  pose proof (System.sys_keys _ (System.reachable_ok _ _ (ok_sys _ _ Hok0))) as Hk.
  rewrite <-Ha in Hn. destruct (submit_spec _ _ _ _ _ _ _ _ _ _ _ _ _ _ Hk Hj Hn Hs) as (_ & _ & _ & Hrows & _). by rewrite Ha in Hrows.
Qed.


Lemma reachable_done : reachable demo_deployment recipe_done.
Proof. exact (reachable_run _ _ (reachable_ask demo_recipe stocked reachable_stocked)). Qed.

Lemma plain_reusable outputs : reusable plain_services outputs.
Proof. intros t. eexists. split; [reflexivity|]. intros t' arts. by eexists _, _. Qed.

Lemma succeeded_check tenant db tasks :
  forallb (λ t, bool_decide (is_Some (JobService.lookup_cached_task tenant (Store.cache_key t) db))) tasks = true →
  ∀ t, t ∈ tasks → has_succeeded tenant (Store.cache_key t) db.
Proof.
  intros H t Ht. rewrite forallb_forall in H. apply list_elem_of_In, H, bool_decide_eq_true, lookup_cached_Some in Ht. exact Ht.
Qed.

Definition answer (r : res exn (Accepted * World)) (w : World) : Accepted * World :=
  match r with Ok a => a | Err _ => ("", [], [], w) end.
Definition first_answer : Accepted * World := answer (ask 5 demo_recipe (world stocked)) (world stocked).

Lemma first_answered :
  run_stage_op (at_time (clock stocked) (stage_env demo_deployment)) "t" demo_recipe (world stocked) =
    Ok (first_answer.1.1.1, first_answer.1.1.2, first_answer.1.2, first_answer.2).
Proof. vm_compute. reflexivity. Qed.


(** ** Hashes

    The hashes [tests/unit/test_stage_dag.py] pins. *)

Definition stage_hashes (r : res exn (list Dag.TaskNode * World)) : dict (string * string) :=
  match r with Ok (nodes, _) => (λ n, (Dag.n_kind n, (Dag.n_inputs_hash n, Dag.n_params_hash n))) <$> nodes | Err _ => [] end.

Example pinned_hashes :
  stage_hashes (build_recipe_dag stage_demo_env "project-a" "dataset-a" "recon-a"
    [("images", VList [VStr "a.jpg"]); ("image_root", VStr "C:/images")] "C:/work/database.db"
    (mkCorrespondence [("type", VStr "sift")]
       [("pairs", VDict [("strategy", VStr "exhaustive")]); ("matcher", VDict [("type", VStr "nn-mutual")])] [])
    [("kind", VStr "incremental")] [] [] (world (start 0))) =
  [("extract", ("09d4925fba8c69f19e3c3795c34febded143cdaf863813866b4eb92e1789712c",
                "d689562d3c87bec1c398a27cc8094422eacb79439a96bcc7630e9d797d66c50e"));
   ("match", ("f0c425b14acd043a4dd1aa9de3b70a2d0ab04afb059fc880fe7e882d6f010edf",
              "6e6066aa2ae8fa388e51d8896ad7f09a5372a2aeb3d4a421f772398c7b4650d9"));
   ("verify", ("f0c425b14acd043a4dd1aa9de3b70a2d0ab04afb059fc880fe7e882d6f010edf",
               "44136fa355b3678a1146ad16f7e8649e94fb4fc21fe77e8310c060f61caaff8a"));
   ("map", ("09d4925fba8c69f19e3c3795c34febded143cdaf863813866b4eb92e1789712c",
            "25f383725a2a13a108ae10456d9178d78341d19ee709d70020afb4438d806dec"))].
Proof. vm_compute. reflexivity. Qed.

(** The features of a dataset, extracted by a recipe and then asked for alone: another
    cache key, so the stage runs again. *)
Definition rows_of_kind (k : string) (w : World) : list Task := select (λ t, bool_decide (kind t = k)) (db_tasks (w_db w)).

Example single_stage_not_shared :
  let s := do_ask (OpFeatures "d" [("type", VStr "sift")] []) recipe_done in
  (λ t, (t_status t, params_hash t)) <$> rows_of_kind "extract" (world s) =
    [("succeeded", "d689562d3c87bec1c398a27cc8094422eacb79439a96bcc7630e9d797d66c50e");
     ("pending", "d689562d3c87bec1c398a27cc8094422eacb79439a96bcc7630e9d797d66c50e")].
Proof. vm_compute. reflexivity. Qed.
