(* ===== verification/Dataflow.v ===== *)
(** [services/dataflow_registry_service.py]: the registry of data types, processors and
    pipelines in effect, assembled from the core and the declarations of the active
    plugins. A [ValueError] is its text. *)
From S2P Require Import Prelude PyValue JsonFacts Attributes Processors Pipelines HubState HubManifest HubGraph.
From stdpp Require Import options.
Import Attributes Processors Pipelines Manifest Graph.

#[local] Arguments String.append !_ _ / : simpl nomatch.

Module Dataflow.

(** A data type of the contract package. *)
Record DataType : Type := mkDataType {
  type_id : string;
  dt_title : string;
  dt_kind : string;
  dt_description : string
}.

(** A pipeline of a plugin, as the registry lists it. *)
Record PluginPipeline : Type := mkPluginPipeline {
  pipeline_id : string;
  pl_title : string;
  pl_aliases : list string;
  initial_inputs : list string;
  pl_steps : list PipelineStep;
  pl_description : string
}.

Record EffectiveDataflowRegistry : Type := mkRegistry {
  data_types : list DataType;
  processors : list Processor;
  pipelines : list PluginPipeline;
  data_type_aliases : dict string;
  processor_aliases : dict string;
  pipeline_aliases : dict string
}.

(** The later of two entries of one key wins. *)
Definition index {A} (key : A → string) (l : list A) : dict A := foldl (λ d x, dict_set (key x) x d) [] l.

Section lookups.
Context (r : EffectiveDataflowRegistry).

Definition canonical_datatype (id : string) : string := default id (dict_get id (data_type_aliases r)).
Definition has_datatype (id : string) : bool := dict_mem (canonical_datatype id) (index type_id (data_types r)).
Definition processor_for (id : string) : option Processor :=
  dict_get (default id (dict_get id (processor_aliases r))) (index processor_id (processors r)).

(** A plugin's pipeline, or the steps of a canonical one. *)
Definition pipeline_for (id : string) : option (PluginPipeline + list string) :=
  let canonical := default id (dict_get id (pipeline_aliases r)) in
  match dict_get canonical (index pipeline_id (pipelines r)) with
  | Some p => Some (inl p)
  | None => inr <$> dict_get canonical CANONICAL_PIPELINES
  end.
End lookups.

(** ** Active plugins: a manifest's id and declarations *)

Section active.
(** [discovered_plugin_ids()] *)
Context (discovered : string → bool).

Definition enabled (s : Hub.PluginState) (plugin : string) : bool :=
  match Hub.installed s !! plugin with Some row => Hub.i_enabled row | None => discovered plugin end.

Definition active_manifests (s : Hub.PluginState) (manifests : dict declarations) : dict declarations :=
  foldr insert_key [] (filter (λ m, enabled s m.1 = true) manifests).
End active.

Definition _plugin_owned_id (plugin local_id : string) (core_ids : list string) : res string string :=
  let prefix := plugin +:+ "." in
  if decide (local_id ∈ core_ids) then Ok local_id
  else if starts_with prefix local_id then Ok local_id
  else if str_mem "."%char local_id then
    Err ("plugin-owned id " +:+ str_repr local_id +:+ " must be local or use the owning plugin prefix " +:+ str_repr prefix)
  else Ok (prefix +:+ local_id).

(** [candidates.setdefault(alias, set()).add(target)] *)
Definition add_target (alias target : string) (c : dict (list string)) : dict (list string) :=
  let targets := default [] (dict_get alias c) in
  dict_set alias (if decide (target ∈ targets) then targets else targets ++ [target]) c.

(** The aliases of a table: a candidate with one target that [taken] does not hold. *)
Definition resolve_aliases (taken : string → bool) (candidates : dict (list string)) : dict string :=
  omap (λ '(alias, targets),
    match targets with [target] => if taken alias then None else Some (alias, target) | _ => None end)
    (foldr insert_key [] candidates).

(** ** Declarations as core objects *)

Definition kind_name (k : datatype_kind) : string := match k with scene_input => "scene_input" | artifact => "artifact" end.

Definition _datatype_from_manifest (d : PluginDataTypeManifest) (id : string) : DataType :=
  mkDataType id (Manifest.dt_title d) (kind_name (Manifest.dt_kind d)) (Manifest.dt_description d).

(** [map.get(id, id)] *)
Definition mapped (m : dict string) (id : string) : string := default id (dict_get id m).

Definition _port_from_manifest (m : dict string) (p : PluginPortSpecManifest) : PortSpec :=
  mkPortSpec (mapped m (datatype p)) (required p) (multiple p) (port_description p).

(** [{role: _port_from_manifest(port) for role, port in ports.items()}] *)
Definition ports_from (m : dict string) (ports : dict PluginPortSpecManifest) : dict PortSpec :=
  prod_map id (_port_from_manifest m) <$> ports.

Section with_core.
(** The vocabulary of the contract package, by those names. *)
Context (CORE_DATA_TYPES : list DataType) (CORE_DATA_TYPES_BY_ID : dict DataType) (is_data_type : string → bool).

Definition core_datatype_ids : list string := dict_keys CORE_DATA_TYPES_BY_ID.

(** The constructor checks the attribute. *)
Definition _attribute_from_manifest (lookup : string → bool) (m : dict string) (a : PluginAttributeManifest) : res string Attribute :=
  let default_ := default VNone (pa_default a) in
  let default_ := match default_ with
                  | VStr s => if decide (pa_type a = "datatype-ref") then VStr (mapped m s) else VStr s
                  | v => v
                  end in
  let attr := mkAttribute (pa_name a) (pa_type a) (pa_required a) default_ (present (pa_default a)) (pa_enum a) (pa_min a)
                (pa_max a) (pa_description a) (Some lookup) in
  _ ← post_init is_data_type attr;
  Ok attr.

Fixpoint map_res {E A B} (f : A → res E B) (l : list A) : res E (list B) :=
  match l with
  | [] => Ok []
  | x :: l => y ← f x; ys ← map_res f l; Ok (y :: ys)
  end.

(** ** Data types *)

(** The data types so far, the plugins' own, the alias candidates and the id map of each
    plugin. *)
Record TypeTables : Type := mkTypeTables {
  tt_by_id : dict DataType;
  tt_plugin : list DataType;
  tt_candidates : dict (list string);
  tt_maps : dict (dict string)
}.

Definition add_datatype (plugin : string) (acc : TypeTables * dict string) (row : PluginDataTypeManifest) :
    res string (TypeTables * dict string) :=
  let '(t, m) := acc in
  let local_id := Manifest.type_id row in
  id ← _plugin_owned_id plugin local_id core_datatype_ids;
  _ ← raise_if (dict_mem id (tt_by_id t))
        ("duplicate active DataType " +:+ str_repr id +:+ " from plugin " +:+ str_repr plugin);
  let data_type := _datatype_from_manifest row id in
  let candidates := if decide (local_id ≠ id ∧ local_id ∉ core_datatype_ids) then add_target local_id id (tt_candidates t)
                    else tt_candidates t in
  Ok (mkTypeTables (dict_set id data_type (tt_by_id t)) (tt_plugin t ++ [data_type]) candidates (tt_maps t),
      dict_set id id (dict_set local_id id m)).

Definition identity_map (ids : list string) : dict string := (λ i, (i, i)) <$> ids.

Definition add_plugin_datatypes (t : TypeTables) (m : string * declarations) : res string TypeTables :=
  '(t, map) ← fold_res (add_datatype m.1) (t, identity_map core_datatype_ids) (d_datatypes m.2);
  Ok (mkTypeTables (tt_by_id t) (tt_plugin t) (tt_candidates t) (dict_set m.1 map (tt_maps t))).

Definition collect_datatypes (active : dict declarations) : res string TypeTables :=
  fold_res add_plugin_datatypes (mkTypeTables CORE_DATA_TYPES_BY_ID [] [] []) active.

Definition type_aliases (t : TypeTables) : dict string := resolve_aliases (λ a, dict_mem a (tt_by_id t)) (tt_candidates t).

(** The lookup that attributes of plugins are built with. *)
Definition known_datatype (t : TypeTables) (id : string) : bool := dict_mem (mapped (type_aliases t) id) (tt_by_id t).

Definition type_map (t : TypeTables) (plugin : string) : dict string := default [] (dict_get plugin (tt_maps t)).

(** ** Processors *)

Definition core_ids : list string := processor_id <$> CORE_PROCESSORS.

Record ProcTables : Type := mkProcTables {
  pt_by_id : dict Processor;
  pt_plugin : list string;
  pt_candidates : dict (list string);
  pt_maps : dict (dict string)
}.

Definition processor_from (lookup : string → bool) (types : dict string) (id : string) (row : PluginProcessorManifest) :
    res string Processor :=
  attrs ← map_res (_attribute_from_manifest lookup types) (pp_attributes row);
  Ok (mkProcessor id (pp_title row) (ports_from types (pp_consumer row)) (ports_from types (pp_supplier row)) attrs
        (pp_description row) (pp_capabilities row) None [] [] []).

Definition add_processor (lookup : string → bool) (types : dict string) (plugin : string) (acc : ProcTables * dict string)
    (row : PluginProcessorManifest) : res string (ProcTables * dict string) :=
  let '(t, m) := acc in
  let local_id := pp_id row in
  id ← _plugin_owned_id plugin local_id core_ids;
  _ ← raise_if (dict_mem id (pt_by_id t))
        ("duplicate active Processor " +:+ str_repr id +:+ " from plugin " +:+ str_repr plugin);
  processor ← processor_from lookup types id row;
  let candidates := if decide (local_id ≠ id ∧ local_id ∉ core_ids) then add_target local_id id (pt_candidates t)
                    else pt_candidates t in
  Ok (mkProcTables (dict_set id processor (pt_by_id t)) (pt_plugin t ++ [id]) candidates (pt_maps t),
      dict_set id id (dict_set local_id id m)).

Definition add_plugin_processors (types : TypeTables) (t : ProcTables) (m : string * declarations) : res string ProcTables :=
  '(t, map) ← fold_res (add_processor (known_datatype types) (type_map types m.1) m.1)
                (t, dict_merge (identity_map core_ids) PROCESSOR_ALIASES) (d_processors m.2);
  Ok (mkProcTables (pt_by_id t) (pt_plugin t) (pt_candidates t) (dict_set m.1 map (pt_maps t))).

Definition collect_processors (types : TypeTables) (active : dict declarations) : res string ProcTables :=
  fold_res (add_plugin_processors types) (mkProcTables PROCESSORS_BY_ID [] [] []) active.

(** A core alias is in the table of aliases already. *)
Definition plugin_processor_aliases (t : ProcTables) : dict string :=
  resolve_aliases (λ a, dict_mem a (pt_by_id t) || dict_mem a PROCESSOR_ALIASES) (pt_candidates t).

Definition add_alias (alias : string) (p : Processor) : Processor :=
  mkProcessor (processor_id p) (p_title p) (consumer p) (supplier p) (attributes p) (p_description p) (capabilities p)
    (config_stage p) (py_sorted_set (aliases p ++ [alias])) (special_inputs p) (special_attributes p).

(** The target of an alias is in the table. *)
Definition name_alias (by_id : dict Processor) (at_ : string * string) : dict Processor :=
  match dict_get at_.2 by_id with Some p => dict_set at_.2 (add_alias at_.1 p) by_id | None => by_id end.

Definition proc_map (t : ProcTables) (plugin : string) : dict string := default [] (dict_get plugin (pt_maps t)).

(** ** Extensions *)

Definition extension_of (plugin : string) (rest : string) : string :=
  "processor extension from plugin " +:+ str_repr plugin +:+ " " +:+ rest.

Definition add_special_input (plugin : string) (types : dict string) (extended : string) (consumer : dict PortSpec)
    (inputs : dict PortSpec) (rp : string * PluginPortSpecManifest) : res string (dict PortSpec) :=
  _ ← raise_if (dict_mem rp.1 consumer || dict_mem rp.1 inputs)
        (extension_of plugin ("duplicates input role " +:+ str_repr rp.1 +:+ " on " +:+ str_repr extended));
  Ok (dict_set rp.1 (_port_from_manifest types rp.2) inputs).

(** The names so far and the special attributes so far. *)
Definition add_special_attribute (plugin : string) (lookup : string → bool) (types : dict string) (extended : string)
    (acc : list string * AttributeSet) (a : PluginAttributeManifest) : res string (list string * AttributeSet) :=
  _ ← raise_if (bool_decide (pa_name a ∈ acc.1))
        (extension_of plugin ("duplicates attribute " +:+ str_repr (pa_name a) +:+ " on " +:+ str_repr extended));
  attr ← _attribute_from_manifest lookup types a;
  Ok (acc.1 ++ [pa_name a], acc.2 ++ [attr]).

Definition extend (p : Processor) (inputs : dict PortSpec) (attrs : AttributeSet) : Processor :=
  mkProcessor (processor_id p) (p_title p) (consumer p) (supplier p) (attributes p) (p_description p) (capabilities p)
    (config_stage p) (aliases p) inputs attrs.

Definition add_extension (lookup : string → bool) (types procs : dict string) (plugin : string) (by_id : dict Processor)
    (e : PluginProcessorExtensionManifest) : res string (dict Processor) :=
  let id := mapped procs (pe_id e) in
  match dict_get id by_id with
  | None => Err (extension_of plugin ("references unknown Processor " +:+ str_repr (pe_id e)))
  | Some p =>
      inputs ← fold_res (add_special_input plugin types (pe_id e) (consumer p)) (special_inputs p) (pe_inputs e);
      '(_, attrs) ← fold_res (add_special_attribute plugin lookup types id)
                      (a_name <$> (attributes p ++ special_attributes p), special_attributes p) (pe_attributes e);
      Ok (dict_set id (extend p inputs attrs) by_id)
  end.

Definition add_plugin_extensions (types : TypeTables) (procs : ProcTables) (by_id : dict Processor) (m : string * declarations) :
    res string (dict Processor) :=
  fold_res (add_extension (known_datatype types) (type_map types m.1) (proc_map procs m.1) m.1) by_id (d_extensions m.2).

Definition extend_processors (types : TypeTables) (procs : ProcTables) (active : dict declarations) : res string (dict Processor) :=
  fold_res (add_plugin_extensions types procs) (foldl name_alias (pt_by_id procs) (plugin_processor_aliases procs)) active.

(** ** Pipelines *)

Section pipeline.
Context (types procs : dict string) (by_id : dict Processor).

Definition canonical_text (s : string) : string :=
  if starts_with "inputs." s then "inputs." +:+ mapped types (remove_prefix "inputs." s) else s.

Definition canonical_wire (w : wire) : value :=
  match w with
  | Many ws => VList (VStr ∘ canonical_text <$> ws)
  | One s => VStr (canonical_text s)
  end.

(** The last attribute of a name in the processor's table. *)
Definition schema_of (p : Processor) (name : string) : option Attribute :=
  dict_get name (index a_name (attributes p ++ special_attributes p)).

Definition canonical_attribute (p : option Processor) (nv : string * value) : string * value :=
  match p ≫= (λ p, schema_of p nv.1), nv.2 with
  | Some schema, VStr s => if decide (a_type schema = "datatype-ref") then (nv.1, VStr (mapped types s)) else nv
  | _, _ => nv
  end.

Definition canonical_step_wire (p : option Processor) (rw : string * wire) : string * value :=
  let canonical := canonical_wire rw.2 in
  match p ≫= (λ p, dict_get rw.1 (_processor_consumer p)) with
  | Some port => (rw.1, if multiple port && negb (is_list canonical) then VList [canonical] else canonical)
  | None => (rw.1, canonical)
  end.

Definition canonical_step (s : PluginPipelineStepManifest) : PipelineStep :=
  let id := mapped procs (ps_processor s) in
  let p := dict_get id by_id in
  mkStep (ps_ref s) id (canonical_attribute p <$> ps_attributes s) (canonical_step_wire p <$> ps_wires s).

Definition _pipeline_from_manifest (p : PluginPipelineManifest) (id : string) : PluginPipeline :=
  mkPluginPipeline id (Manifest.pl_title p) [] (mapped types <$> pl_inputs p) (canonical_step <$> Manifest.pl_steps p)
    (Manifest.pl_description p).
End pipeline.

Record PipeTables : Type := mkPipeTables {
  pp_known : list string;
  pp_plugin : list PluginPipeline;
  pp_candidates : dict (list string)
}.

Definition core_pipeline_ids : list string := dict_keys CANONICAL_PIPELINES.

Definition add_pipeline (types procs : dict string) (by_id : dict Processor) (plugin : string) (t : PipeTables)
    (row : PluginPipelineManifest) : res string PipeTables :=
  let local_id := pl_id row in
  id ← _plugin_owned_id plugin local_id core_pipeline_ids;
  _ ← raise_if (bool_decide (id ∈ pp_known t))
        ("duplicate active Pipeline " +:+ str_repr id +:+ " from plugin " +:+ str_repr plugin);
  let pipeline := _pipeline_from_manifest types procs by_id row id in
  let errors := validate_pipeline is_data_type (λ i, dict_get i by_id) (inr (pl_steps pipeline)) (initial_inputs pipeline) in
  _ ← raise_if (negb (is_nil errors))
        ("plugin pipeline " +:+ str_repr id +:+ " is invalid after canonicalization: " +:+ join "; " (ce_message <$> errors));
  let candidates := if decide (local_id ≠ id ∧ local_id ∉ core_pipeline_ids) then add_target local_id id (pp_candidates t)
                    else pp_candidates t in
  Ok (mkPipeTables (pp_known t ++ [id]) (pp_plugin t ++ [pipeline]) candidates).

Definition add_plugin_pipelines (types : TypeTables) (procs : ProcTables) (by_id : dict Processor) (t : PipeTables)
    (m : string * declarations) : res string PipeTables :=
  fold_res (add_pipeline (type_map types m.1) (proc_map procs m.1) by_id m.1) t (d_pipelines m.2).

Definition collect_pipelines (types : TypeTables) (procs : ProcTables) (by_id : dict Processor) (active : dict declarations) :
    res string PipeTables :=
  fold_res (add_plugin_pipelines types procs by_id) (mkPipeTables core_pipeline_ids [] []) active.

Definition plugin_pipeline_aliases (t : PipeTables) : dict string :=
  resolve_aliases (λ a, bool_decide (a ∈ pp_known t)) (pp_candidates t).

Definition with_aliases (als : dict string) (p : PluginPipeline) : PluginPipeline :=
  mkPluginPipeline (pipeline_id p) (pl_title p)
    (py_sorted (fst <$> filter (λ at_, at_.2 = pipeline_id p) als)) (initial_inputs p) (pl_steps p) (pl_description p).

(** [sorted(rows, key=...)] *)
Definition sort_by {A} (key : A → string) (rows : list A) : list A := snd <$> foldr insert_key [] ((λ x, (key x, x)) <$> rows).

(** ** The registry *)

Definition effective_of (active : dict declarations) : res string EffectiveDataflowRegistry :=
  let duplicates := py_duplicates (dict_keys active) in
  _ ← raise_if (negb (is_nil duplicates)) ("duplicate active plugin id(s): " +:+ join ", " duplicates);
  types ← collect_datatypes active;
  procs ← collect_processors types active;
  by_id ← extend_processors types procs active;
  pipes ← collect_pipelines types procs by_id active;
  let als := plugin_pipeline_aliases pipes in
  Ok (mkRegistry
        (CORE_DATA_TYPES ++ sort_by type_id (tt_plugin types))
        (omap (λ id, dict_get id by_id) (core_ids ++ py_sorted (pt_plugin procs)))
        (sort_by pipeline_id (with_aliases als <$> pp_plugin pipes))
        (type_aliases types)
        (PROCESSOR_ALIASES ++ plugin_processor_aliases procs)
        als).

Definition effective_registry (discovered : string → bool) (s : Hub.PluginState) (manifests : dict declarations) :
    res string EffectiveDataflowRegistry :=
  effective_of (active_manifests discovered s manifests).
End with_core.
End Dataflow.
