(* ===== verification/DataflowFacts.v ===== *)
(** Facts on the assembly of the dataflow registry: what each table holds, which entries
    grow, and why the order of the manifests does not matter. *)
From S2P Require Import Prelude PyValue JsonFacts Attributes Processors Pipelines PipelineFacts HubState HubManifest HubGraph Dataflow.
From stdpp Require Import options.
Import Attributes Processors Pipelines Manifest Graph Dataflow.

(** ** Sorting by key *)

Lemma insert_key_keys {A} (kv : string * A) l : (insert_key kv l).*1 ≡ₚ kv.1 :: l.*1.
Proof. by rewrite insert_key_perm. Qed.

Lemma sort_keys_perm {A} (l : list (string * A)) : foldr insert_key [] l ≡ₚ l.
Proof. induction l as [|kv l IH]; cbn; [done|]. by rewrite insert_key_perm, IH. Qed.

Definition key_le {A} (a b : string * A) : Prop := String.le a.1 b.1.

Lemma insert_key_sorted {A} (kv : string * A) l : StronglySorted key_le l → StronglySorted key_le (insert_key kv l).
Proof.
  induction 1 as [|x l Hl IH Hx]; cbn; [repeat constructor|]. case_decide as Hle.
  - constructor; [by constructor|]. constructor; [done|]. eapply Forall_impl; [exact Hx|]. intros y Hy. unfold key_le in *. by etrans.
  - constructor; [done|]. apply Forall_forall. intros y Hy. rewrite insert_key_perm in Hy. apply elem_of_cons in Hy as [->|Hy].
    + unfold key_le. by destruct (total String.le kv.1 x.1).
    + rewrite Forall_forall in Hx. by apply Hx.
Qed.

Lemma sort_keys_sorted {A} (l : list (string * A)) : StronglySorted key_le (foldr insert_key [] l).
Proof. induction l; cbn; [constructor|by apply insert_key_sorted]. Qed.

(** Sorted lists with distinct keys are determined by their elements. *)
Lemma sorted_unique {A} (l1 l2 : list (string * A)) :
  NoDup l1.*1 → StronglySorted key_le l1 → StronglySorted key_le l2 → l1 ≡ₚ l2 → l1 = l2.
Proof.
  revert l2. induction l1 as [|x l1 IH]; intros l2 Hd H1 H2 Hp; [by apply Permutation_nil_l in Hp|].
  destruct l2 as [|y l2]; [by apply Permutation_nil_r in Hp|].
  inversion H1 as [|? ? H1' Hx]; inversion H2 as [|? ? H2' Hy]; subst. cbn in Hd. apply NoDup_cons in Hd as [Hn Hd].
  assert (x = y) as ->.
  { destruct (proj1 (elem_of_cons l2 x y)) as [->|Hxy]; [rewrite <-Hp; by left|done|].
    destruct (proj1 (elem_of_cons l1 y x)) as [->|Hyx]; [rewrite Hp; by left|done|].
    rewrite Forall_forall in Hx, Hy. pose proof (anti_symm String.le _ _ (Hx y Hyx) (Hy x Hxy)) as Hk.
    destruct Hn. rewrite Hk. by apply list_elem_of_fmap_2. }
  f_equal. apply IH; try done. by apply (inj (cons y)).
Qed.

Lemma sort_keys_perm_eq {A} (l1 l2 : list (string * A)) :
  NoDup l1.*1 → l1 ≡ₚ l2 → foldr insert_key [] l1 = foldr insert_key [] l2.
Proof.
  intros Hd Hp. apply sorted_unique; [by rewrite sort_keys_perm|apply sort_keys_sorted..|]. by rewrite !sort_keys_perm.
Qed.

Lemma sort_by_perm {A} (key : A → string) l : sort_by key l ≡ₚ l.
Proof. unfold sort_by. rewrite sort_keys_perm, <-list_fmap_compose. by rewrite list_fmap_id. Qed.

(** ** The order of the manifests *)

Lemma py_duplicates_perm l1 l2 : l1 ≡ₚ l2 → py_duplicates l1 = py_duplicates l2.
Proof.
  intros Hp. unfold py_duplicates. apply py_sorted_set_ext. intros x. rewrite !list_elem_of_filter.
  assert (occurrences x l1 = occurrences x l2) as -> by (unfold occurrences; by rewrite Hp). by rewrite Hp.
Qed.

Section core.
Context (core : list DataType) (by_id : dict DataType) (is_type : string → bool).

Lemma effective_of_duplicates active :
  py_duplicates (dict_keys active) ≠ [] →
  effective_of core by_id is_type active = Err ("duplicate active plugin id(s): " +:+ (join ", " (py_duplicates (dict_keys active)))).
Proof. intros H. unfold effective_of. by destruct (py_duplicates _). Qed.

Lemma effective_registry_perm discovered s ms1 ms2 :
  ms1 ≡ₚ ms2 → effective_registry core by_id is_type discovered s ms1 = effective_registry core by_id is_type discovered s ms2.
Proof.
  intros Hp. unfold effective_registry, active_manifests.
  set (a1 := filter _ ms1). set (a2 := filter _ ms2). assert (a1 ≡ₚ a2) as Ha by (unfold a1, a2; by rewrite Hp).
  assert (dict_keys (foldr insert_key [] a1) ≡ₚ dict_keys (foldr insert_key [] a2)) as Hk by (by rewrite !sort_keys_perm, Ha).
  destruct (decide (py_duplicates (dict_keys (foldr insert_key [] a1)) = [])) as [Hd|Hd].
  - f_equal. apply sort_keys_perm_eq; [|done]. apply py_duplicates_nil in Hd. by rewrite sort_keys_perm in Hd.
  - rewrite !effective_of_duplicates; [|by rewrite <-(py_duplicates_perm _ _ Hk)|done]. by rewrite (py_duplicates_perm _ _ Hk).
Qed.

End core.

(** ** Owned ids *)

Definition owned (plugins : list string) (id : string) : Prop := ∃ p r, p ∈ plugins ∧ id = ((p +:+ ".") +:+ r).

Lemma plugin_owned_Ok plugin local core_ids id :
  _plugin_owned_id plugin local core_ids = Ok id →
  (id = local ∧ local ∈ core_ids) ∨ ((local ∉ core_ids) ∧ ∃ r, id = ((plugin +:+ ".") +:+ r)).
Proof.
  unfold _plugin_owned_id. case_decide; [intros [= <-]; by left|]. destruct (starts_with _ _) eqn:Hs.
  - intros [= <-]. right. split; [done|]. by apply starts_with_spec.
  - destruct (str_mem _ _); [done|]. intros [= <-]. right. split; [done|]. by exists local.
Qed.

(** ** Alias candidates *)

Lemma add_target_elem alias target c a t :
  NoDup (dict_keys c) → t ∈ default [] (dict_get a (add_target alias target c)) →
  t ∈ default [] (dict_get a c) ∨ (a = alias ∧ t = target).
Proof.
  intros Hd. unfold add_target. destruct (decide (a = alias)) as [->|Hne].
  - rewrite dict_get_set_eq. cbn. case_decide; [by left|]. rewrite elem_of_app, list_elem_of_singleton. tauto.
  - rewrite dict_get_set_ne by done. by left.
Qed.

Lemma add_target_NoDup alias target c : NoDup (dict_keys c) → NoDup (dict_keys (add_target alias target c)).
Proof. intros Hd. unfold add_target. by apply dict_set_NoDup. Qed.

Lemma resolve_aliases_elem taken c a t :
  NoDup (dict_keys c) → (a, t) ∈ resolve_aliases taken c → taken a = false ∧ dict_get a c = Some [t].
Proof.
  intros Hd (ats & Hin & H)%list_elem_of_omap. destruct ats as [alias targets]. rewrite sort_keys_perm in Hin.
  destruct targets as [|t' [|]]; [done| |done]. destruct (taken alias) eqn:Ht; [done|]. injection H as -> ->.
  split; [done|]. by apply dict_elem_get.
Qed.

Lemma resolve_aliases_NoDup taken c : NoDup (dict_keys c) → NoDup (dict_keys (resolve_aliases taken c)).
Proof.
  intros Hd. unfold resolve_aliases. assert (NoDup (foldr insert_key [] c).*1) as Hs by (by rewrite sort_keys_perm).
  revert Hs. generalize (foldr insert_key [] c). intros l. induction l as [|[a ts] l IH]; cbn; [constructor|].
  intros [Hn Hl]%NoDup_cons. destruct ts as [|t [|]]; [by apply IH| |by apply IH]. destruct (taken a); [by apply IH|]. cbn.
  apply NoDup_cons. split; [|by apply IH]. intros ([a' t'] & -> & (x & Hx & H)%list_elem_of_omap)%list_elem_of_fmap.
  destruct x as [b tb]. destruct tb as [|y [|]]; [done| |done]. destruct (taken b); [done|]. injection H as -> _.
  apply Hn. by apply (list_elem_of_fmap_2 fst) in Hx.
Qed.

(** ** The tables *)

Section tables.
Context (CORE_DATA_TYPES_BY_ID : dict DataType) (is_data_type : string → bool).
Context (plugins : list string).

Definition targets_in (c : dict (list string)) (ids : list string) : Prop :=
  NoDup (dict_keys c) ∧ ∀ a x, x ∈ default [] (dict_get a c) → x ∈ ids.

Lemma targets_in_add (b : bool) alias target c ids :
  targets_in c ids → targets_in (if b then add_target alias target c else c) (ids ++ [target]).
Proof using Type.
  intros [Hd Hc]. destruct b; split; [by apply add_target_NoDup| |done|].
  - intros a x [Hx|[_ ->]]%add_target_elem; [|apply elem_of_app; right; list_in|done]. apply elem_of_app. left. by eapply Hc.
  - intros a x Hx. apply elem_of_app. left. by eapply Hc.
Qed.

Lemma alias_target taken c ids a x :
  targets_in c ids → (a, x) ∈ resolve_aliases taken c → taken a = false ∧ x ∈ ids.
Proof using Type.
  intros [Hd Hc] [Ht Hx]%resolve_aliases_elem; [|done]. split; [done|]. apply (Hc a). rewrite Hx. list_in.
Qed.

(** *** Data types *)

Record types_ok (t : TypeTables) : Prop := {
  types_entries : tt_by_id t = CORE_DATA_TYPES_BY_ID ++ ((λ d, (type_id d, d)) <$> tt_plugin t);
  types_distinct : NoDup (dict_keys CORE_DATA_TYPES_BY_ID) → NoDup (dict_keys (tt_by_id t));
  types_owned : ∀ d, d ∈ tt_plugin t → owned plugins (type_id d);
  types_targets : targets_in (tt_candidates t) (type_id <$> tt_plugin t)
}.

Lemma add_datatype_ok plugin t m row t' m' :
  plugin ∈ plugins → types_ok t → add_datatype CORE_DATA_TYPES_BY_ID plugin (t, m) row = Ok (t', m') → types_ok t'.
Proof using Type.
  intros Hp [He Hd Ho Hc] (id & Hid & ([] & Hf%raise_if_Ok & [= <- <-])%bind_Ok)%bind_Ok. apply dict_mem_false in Hf. split; cbn.
  - by rewrite dict_set_fresh, fmap_app, He, <-app_assoc.
  - intros H. rewrite dict_set_fresh, fmap_app by done. cbn. apply NoDup_app. split_and!; [by apply Hd| |apply NoDup_singleton].
    by intros x Hx ->%list_elem_of_singleton.
  - intros d [Hx| ->%list_elem_of_singleton]%elem_of_app; [by apply Ho|]. cbn.
    apply plugin_owned_Ok in Hid as [[-> Hcore]|[_ [r ->]]]; [|by exists plugin, r].
    destruct Hf. rewrite He, fmap_app. apply elem_of_app. by left.
  - rewrite fmap_app. cbn. case_decide as Hcase; [exact (targets_in_add true _ _ _ _ Hc)|exact (targets_in_add false "" _ _ _ Hc)].
Qed.

Lemma collect_datatypes_ok active t :
  dict_keys active ⊆ plugins → collect_datatypes CORE_DATA_TYPES_BY_ID active = Ok t → types_ok t.
Proof using Type.
  intros Hsub. apply fold_res_ind.
  - split; cbn; [by rewrite app_nil_r|done|by intros ? ?%elem_of_nil|]. split; [constructor|]. by intros a x ?%elem_of_nil.
  - intros t0 m t1 Hm Ht ([t2 map] & Hfold & [= <-])%bind_Ok.
    assert (types_ok (t2, map).1) as [H1 H2 H3 H4].
    { revert Hfold. apply (fold_res_ind _ (λ acc, types_ok acc.1)); [done|]. intros [a ma] row [b mb] _ Ha Hstep. cbn in *.
      eapply add_datatype_ok; [|exact Ha|exact Hstep]. apply Hsub. by apply list_elem_of_fmap_2. }
    by split.
Qed.

(** *** Processors *)

(** A processor that only gained aliases and special ports and attributes. *)
Record grown (p q : Processor) : Prop := {
  grown_id : processor_id q = processor_id p;
  grown_core : p_title q = p_title p ∧ consumer q = consumer p ∧ supplier q = supplier p ∧ attributes q = attributes p ∧
    p_description q = p_description p ∧ capabilities q = capabilities p ∧ config_stage q = config_stage p;
  grown_inputs : special_inputs p `prefix_of` special_inputs q;
  grown_attributes : special_attributes p `prefix_of` special_attributes q
}.

#[export] Instance grown_preorder : PreOrder grown.
Proof using Type.
  split; [by split|]. intros p q r [Hid (?&?&?&?&?&?&?) Hin Hat] [Kid (?&?&?&?&?&?&?) Kin Kat].
  split; [congruence|split_and!; congruence|by etrans..].
Qed.

Definition evolved (d d' : dict Processor) : Prop := Forall2 (λ a b, a.1 = b.1 ∧ grown a.2 b.2) d d'.

#[export] Instance evolved_preorder : PreOrder evolved.
Proof using Type.
  split.
  - intros d. induction d; constructor; [by split|done].
  - intros d1 d2 d3 H12 H23. revert d3 H23. induction H12 as [|a b d1 d2 [Hab Hg] _ IH]; intros d3 H23; inversion H23 as [|? c ? ? [Hbc Hg'] Hr]; subst; constructor.
    + split; [congruence|by etrans].
    + by apply IH.
Qed.

Lemma evolved_keys d d' : evolved d d' → dict_keys d' = dict_keys d.
Proof using Type. induction 1 as [|a b d d' [Hk _] _ IH]; cbn; [done|]. by rewrite IH, Hk. Qed.

Lemma evolved_set k p q d : dict_get k d = Some p → grown p q → evolved d (dict_set k q d).
Proof using Type.
  induction d as [|[k0 p0] d IH]; cbn; [done|]. case_decide as Hk.
  - intros [= <-] Hg. subst. constructor; [done|]. reflexivity.
  - intros Hg Hq. constructor; [by split|]. by apply IH.
Qed.

Lemma evolved_get d d' k p : evolved d d' → dict_get k d = Some p → ∃ q, dict_get k d' = Some q ∧ grown p q.
Proof using Type.
  induction 1 as [|[k1 p1] [k2 p2] d d' [Hk Hg] _ IH]; cbn in *; [done|]. subst. case_decide; [|done].
  intros [= <-]. by exists p2.
Qed.

Record procs_ok (t : ProcTables) : Prop := {
  procs_keys : dict_keys (pt_by_id t) = core_ids ++ pt_plugin t;
  procs_core : PROCESSORS_BY_ID `prefix_of` pt_by_id t;
  procs_ids : ∀ kp, kp ∈ pt_by_id t → processor_id kp.2 = kp.1;
  procs_distinct : NoDup (dict_keys (pt_by_id t));
  procs_owned : ∀ id, id ∈ pt_plugin t → owned plugins id;
  procs_targets : targets_in (pt_candidates t) (pt_plugin t)
}.

Lemma add_processor_ok lookup types plugin t m row t' m' :
  plugin ∈ plugins → procs_ok t → add_processor is_data_type lookup types plugin (t, m) row = Ok (t', m') → procs_ok t'.
Proof using Type.
  intros Hp [Hk Hcore Hids Hd Ho Hc] (id & Hid & ([] & Hf%raise_if_Ok & (p & Hpr & [= <- <-])%bind_Ok)%bind_Ok)%bind_Ok.
  apply dict_mem_false in Hf. rewrite dict_set_fresh by done. split; cbn.
  - by rewrite fmap_app, Hk, <-app_assoc.
  - by apply prefix_app_r.
  - intros kp [Hkp| ->%list_elem_of_singleton]%elem_of_app; [by apply Hids|]. cbn. by apply bind_Ok in Hpr as (attrs & _ & [= <-]).
  - rewrite fmap_app. apply NoDup_app. split_and!; [done| |apply NoDup_singleton]. by intros x Hx ->%list_elem_of_singleton.
  - intros x [Hx| ->%list_elem_of_singleton]%elem_of_app; [by apply Ho|].
    apply plugin_owned_Ok in Hid as [[-> Hin]|[_ [r ->]]]; [|by exists plugin, r]. destruct Hf. rewrite Hk. apply elem_of_app. by left.
  - case_decide as Hcase; [exact (targets_in_add true _ _ _ _ Hc)|exact (targets_in_add false "" _ _ _ Hc)].
Qed.

Lemma collect_processors_ok types active t :
  dict_keys active ⊆ plugins → collect_processors is_data_type types active = Ok t → procs_ok t.
Proof using Type.
  intros Hsub. apply fold_res_ind.
  - split; cbn; [by vm_compute|done| |not_listed|by intros ? ?%elem_of_nil|].
    + apply (Forall_forall (λ kp, processor_id kp.2 = kp.1)). repeat constructor.
    + split; [constructor|]. by intros a x ?%elem_of_nil.
  - intros t0 m t1 Hm Ht ([t2 map] & Hfold & [= <-])%bind_Ok.
    assert (procs_ok (t2, map).1) as [H1 H2 H3 H4 H5 H6].
    { revert Hfold. apply (fold_res_ind _ (λ acc, procs_ok acc.1)); [done|]. intros [a ma] row [b mb] _ Ha Hstep. cbn in *.
      eapply add_processor_ok; [|exact Ha|exact Hstep]. apply Hsub. by apply list_elem_of_fmap_2. }
    by split.
Qed.
End tables.

(** ** Aliases and extensions only add *)

Lemma grown_alias a p : grown p (add_alias a p).
Proof. by split. Qed.

Lemma name_alias_evolved d l : evolved d (foldl name_alias d l).
Proof.
  revert d. induction l as [|at_ l IH]; intros d; cbn; [reflexivity|]. etrans; [|apply IH]. unfold name_alias.
  destruct (dict_get at_.2 d) eqn:Hg; [|reflexivity]. eapply evolved_set; [done|apply grown_alias].
Qed.

Lemma special_inputs_prefix plugin types extended c inputs rows inputs' :
  fold_res (add_special_input plugin types extended c) inputs rows = Ok inputs' → inputs `prefix_of` inputs'.
Proof.
  apply (fold_res_ind _ (λ i, inputs `prefix_of` i)); [done|]. intros i rp i' _ Hi ([] & Hf%raise_if_Ok & [= <-])%bind_Ok.
  apply orb_false_iff in Hf as [_ Hf%dict_mem_false]. rewrite dict_set_fresh by done. by apply prefix_app_r.
Qed.

Section extensions.
Context (is_data_type : string → bool).

Lemma special_attributes_prefix plugin lookup types extended acc rows acc' :
  fold_res (add_special_attribute is_data_type plugin lookup types extended) acc rows = Ok acc' → acc.2 `prefix_of` acc'.2.
Proof using Type.
  apply (fold_res_ind _ (λ a, acc.2 `prefix_of` a.2)); [done|].
  intros a row a' _ Ha ([] & _ & (attr & _ & [= <-])%bind_Ok)%bind_Ok. by apply prefix_app_r.
Qed.

Lemma add_extension_evolved lookup types procs plugin d e d' :
  add_extension is_data_type lookup types procs plugin d e = Ok d' → evolved d d'.
Proof using Type.
  unfold add_extension. cbv zeta. destruct (dict_get _ d) as [p|] eqn:Hg; [|done].
  intros (inputs & Hi%special_inputs_prefix & ([names attrs] & Ha%special_attributes_prefix & [= <-])%bind_Ok)%bind_Ok.
  by eapply evolved_set.
Qed.

Lemma extend_processors_evolved types procs active d :
  extend_processors is_data_type types procs active = Ok d → evolved (pt_by_id procs) d.
Proof using Type.
  apply fold_res_ind; [apply name_alias_evolved|]. intros d1 m d2 _ H1 Hm. etrans; [done|]. revert Hm.
  apply fold_res_ind; [reflexivity|]. intros d3 e d4 _ H3 He%add_extension_evolved. by etrans.
Qed.
End extensions.

(** *** Pipelines *)

Section pipelines.
Context (is_data_type : string → bool) (plugins : list string) (by_id : dict Processor).

Record pipes_ok (t : PipeTables) : Prop := {
  pipes_known : pp_known t = core_pipeline_ids ++ (pipeline_id <$> pp_plugin t);
  pipes_distinct : NoDup (pp_known t);
  pipes_owned : ∀ p, p ∈ pp_plugin t → owned plugins (pipeline_id p);
  pipes_valid : ∀ p, p ∈ pp_plugin t →
    validate_pipeline is_data_type (λ i, dict_get i by_id) (inr (pl_steps p)) (initial_inputs p) = [];
  pipes_targets : targets_in (pp_candidates t) (pipeline_id <$> pp_plugin t)
}.

Lemma add_pipeline_ok types procs plugin t row t' :
  plugin ∈ plugins → pipes_ok t → add_pipeline is_data_type types procs by_id plugin t row = Ok t' → pipes_ok t'.
Proof using Type.
  intros Hp [Hk Hd Ho Hv Hc] (id & Hid & ([] & Hf%raise_if_Ok & ([] & He%raise_if_Ok & [= <-])%bind_Ok)%bind_Ok)%bind_Ok.
  apply bool_decide_eq_false in Hf. apply negb_false_iff, is_nil_iff in He. split; cbn.
  - by rewrite fmap_app, Hk, <-app_assoc.
  - apply NoDup_app. split_and!; [done| |apply NoDup_singleton]. by intros x Hx ->%list_elem_of_singleton.
  - intros x [Hx| ->%list_elem_of_singleton]%elem_of_app; [by apply Ho|].
    apply plugin_owned_Ok in Hid as [[-> Hin]|[_ [r ->]]]; [|by exists plugin, r]. destruct Hf. rewrite Hk. apply elem_of_app. by left.
  - intros x [Hx| ->%list_elem_of_singleton]%elem_of_app; [by apply Hv|done].
  - rewrite fmap_app. cbn. case_decide as Hcase; [exact (targets_in_add true _ _ _ _ Hc)|exact (targets_in_add false "" _ _ _ Hc)].
Qed.

Lemma collect_pipelines_ok types procs active t :
  dict_keys active ⊆ plugins → collect_pipelines is_data_type types procs by_id active = Ok t → pipes_ok t.
Proof using Type.
  intros Hsub. apply fold_res_ind.
  - split; cbn; [done|apply (bool_decide_unpack _); by vm_compute|by intros ? ?%elem_of_nil..|]. split; [constructor|]. by intros a x ?%elem_of_nil.
  - intros t0 m t1 Hm Ht. apply fold_res_ind; [done|]. intros t2 row t3 _ H2 H3.
    eapply add_pipeline_ok; [|exact H2|exact H3]. apply Hsub. by apply list_elem_of_fmap_2.
Qed.
End pipelines.

(** ** Validation and lookups *)

(** A pipeline stays valid under a lookup that knows at least as much. *)
Lemma typed_steps_mono is_type (l1 l2 : string → option Processor) sc steps :
  (∀ id p, l1 id = Some p → l2 id = Some p) → typed_steps is_type l1 sc steps → typed_steps is_type l2 sc steps.
Proof. intros Hl. induction 1; [constructor|]. eapply typed_cons; eauto. Qed.

Lemma validate_mono is_type l1 l2 steps inputs :
  (∀ id p, l1 id = Some p → l2 id = Some p) →
  validate_pipeline is_type l1 (inr steps) inputs = [] → validate_pipeline is_type l2 (inr steps) inputs = [].
Proof.
  intros Hl. destruct steps as [|s steps]; [done|]. cbn [validate_pipeline]. unfold _strict_validate_pipeline.
  rewrite !app_nil, !strict_steps_ok. intros [? ?]. split; [done|]. by eapply typed_steps_mono.
Qed.

(** ** Indexing *)

Lemma index_get_fresh {A} (key : A → string) l d k :
  k ∉ key <$> l → dict_get k (foldl (λ d x, dict_set (key x) x d) d l) = dict_get k d.
Proof.
  revert d. induction l as [|x l IH]; intros d Hk; cbn in *; [done|]. apply not_elem_of_cons in Hk as [? ?].
  rewrite IH by done. by apply dict_get_set_ne.
Qed.

Lemma index_get {A} (key : A → string) l x : NoDup (key <$> l) → x ∈ l → dict_get (key x) (index key l) = Some x.
Proof.
  unfold index. generalize (@nil (string * A)). induction l as [|y l IH]; intros d Hd Hx; cbn in *; [by apply elem_of_nil in Hx|].
  apply NoDup_cons in Hd as [Hn Hd]. apply elem_of_cons in Hx as [<-|Hx]; [|by apply IH].
  rewrite index_get_fresh by done. apply dict_get_set_eq.
Qed.
