(* ===== verification/DataflowGuarantees.v ===== *)
(** What a registry assembled from the active plugins promises. *)
From S2P Require Import Prelude PyValue JsonFacts Attributes Processors Pipelines PipelineFacts HubState HubManifest HubGraph GraphGuarantees Dataflow DataflowFacts.
From stdpp Require Import options.
Import Attributes Processors Pipelines Manifest Graph Dataflow.

(** ** The processors of the registry *)

Section processors.
Context (plugins : list string) (t : ProcTables) (d : dict Processor).
Context (Ht : procs_ok plugins t) (Hd : evolved (pt_by_id t) d).

Definition listed_processors : list Processor := omap (λ id, dict_get id d) (core_ids ++ py_sorted (pt_plugin t)).

Lemma evolved_id id p : dict_get id d = Some p → processor_id p = id.
Proof using Ht Hd.
  intros Hg. assert (id ∈ dict_keys (pt_by_id t)) as [q Hq]%dict_get_is_Some.
  { rewrite <-(evolved_keys _ _ Hd). by eapply dict_get_Some_key. }
  destruct (evolved_get _ _ _ _ Hd Hq) as (p' & Hp' & Hg'). rewrite Hg in Hp'. injection Hp' as <-.
  rewrite (grown_id _ _ Hg'). by apply (procs_ids _ _ Ht (id, q)), dict_get_elem.
Qed.

Lemma evolved_known id : id ∈ core_ids ++ pt_plugin t → ∃ p, dict_get id d = Some p.
Proof using Ht Hd. rewrite <-(procs_keys _ _ Ht), <-(evolved_keys _ _ Hd). apply dict_get_is_Some. Qed.

Lemma listed_ids (ids : list string) : (∀ id, id ∈ ids → id ∈ core_ids ++ pt_plugin t) → processor_id <$> omap (λ id, dict_get id d) ids = ids.
Proof using Ht Hd.
  induction ids as [|id ids IH]; intros Hin; cbn; [done|]. destruct (evolved_known id (Hin id ltac:(list_in))) as [p Hp].
  rewrite Hp. cbn. rewrite IH; [by rewrite (evolved_id _ _ Hp)|]. intros x Hx. apply Hin. by right.
Qed.

Lemma listed_all_ids : processor_id <$> listed_processors = core_ids ++ py_sorted (pt_plugin t).
Proof using Ht Hd. apply listed_ids. intros id. by rewrite !elem_of_app, py_sorted_perm. Qed.

Lemma listed_ids_distinct : NoDup (processor_id <$> listed_processors).
Proof using Ht Hd. rewrite listed_all_ids, py_sorted_perm, <-(procs_keys _ _ Ht). apply (procs_distinct _ _ Ht). Qed.

Lemma listed_get id p : dict_get id d = Some p → dict_get id (index processor_id listed_processors) = Some p.
Proof using Ht Hd.
  intros Hg. rewrite <-(evolved_id _ _ Hg) at 1. apply index_get; [apply listed_ids_distinct|].
  unfold listed_processors. apply list_elem_of_omap. exists id. split; [|done].
  rewrite py_sorted_perm, <-(procs_keys _ _ Ht), <-(evolved_keys _ _ Hd). by eapply dict_get_Some_key.
Qed.

Lemma listed_core : Forall2 grown CORE_PROCESSORS (omap (λ id, dict_get id d) core_ids).
Proof using Ht Hd.
  assert (∀ p, p ∈ CORE_PROCESSORS → dict_get (processor_id p) (pt_by_id t) = Some p) as Hcore.
  { intros p Hp. destruct (procs_core _ _ Ht) as [rest Heq]. rewrite Heq, dict_get_app.
    assert (dict_get (processor_id p) PROCESSORS_BY_ID = Some p) as ->; [|done].
    revert p Hp. apply (Forall_forall (λ p, dict_get (processor_id p) PROCESSORS_BY_ID = Some p)). repeat constructor. }
  unfold core_ids. revert Hcore. generalize CORE_PROCESSORS. intros l Hcore.
  induction l as [|p l IH]; cbn; [constructor|]. destruct (evolved_get _ _ _ _ Hd (Hcore p ltac:(list_in))) as (q & -> & Hq).
  constructor; [done|]. apply IH. intros x Hx. apply Hcore. by right.
Qed.
End processors.

Section registry.
(** The vocabulary of the contract package and its index. *)
Context (CORE_DATA_TYPES : list DataType) (is_data_type : string → bool).
Context (core_distinct : NoDup (type_id <$> CORE_DATA_TYPES)).

Definition CORE_DATA_TYPES_BY_ID : dict DataType := (λ d, (type_id d, d)) <$> CORE_DATA_TYPES.

Definition registry_of (active : dict declarations) : res string EffectiveDataflowRegistry :=
  effective_of CORE_DATA_TYPES CORE_DATA_TYPES_BY_ID is_data_type active.

(** A table of aliases: distinct names that are not ids, each for an id. *)
Record aliases_ok (als : dict string) (ids : list string) : Prop := {
  aliases_distinct : NoDup (dict_keys als);
  aliases_free : ∀ a x, (a, x) ∈ als → (a ∉ ids) ∧ x ∈ ids
}.

(** A well-formed registry of the plugins' declarations over the core's. *)
Record registry_ok (plugins : list string) (r : EffectiveDataflowRegistry) : Prop := {
  registry_types : ∃ own, data_types r = CORE_DATA_TYPES ++ own ∧ ∀ d, d ∈ own → owned plugins (type_id d);
  registry_types_distinct : NoDup (type_id <$> data_types r);
  registry_processors : ∃ core own, processors r = core ++ own ∧ Forall2 grown CORE_PROCESSORS core ∧
    ∀ p, p ∈ own → owned plugins (processor_id p);
  registry_processors_distinct : NoDup (processor_id <$> processors r);
  registry_pipelines : ∀ p, p ∈ pipelines r → owned plugins (pipeline_id p) ∧
    validate_pipeline is_data_type (Dataflow.processor_for r) (inr (pl_steps p)) (initial_inputs p) = [];
  registry_pipelines_distinct : NoDup (core_pipeline_ids ++ (pipeline_id <$> pipelines r));
  registry_type_aliases : aliases_ok (data_type_aliases r) (type_id <$> data_types r);
  registry_processor_aliases : aliases_ok (processor_aliases r) (processor_id <$> processors r);
  registry_pipeline_aliases : aliases_ok (pipeline_aliases r) (core_pipeline_ids ++ (pipeline_id <$> pipelines r))
}.

Lemma keys_by_id : dict_keys CORE_DATA_TYPES_BY_ID = type_id <$> CORE_DATA_TYPES.
Proof using Type. unfold CORE_DATA_TYPES_BY_ID, dict_keys. by rewrite <-list_fmap_compose. Qed.

(** *** Aliases *)

Lemma owned_dotted plugins id : owned plugins id → str_mem "."%char id = true.
Proof using Type. intros (p & r & _ & ->). rewrite !str_mem_app. cbn. by rewrite orb_true_r. Qed.

Lemma core_aliases_facts a x : (a, x) ∈ PROCESSOR_ALIASES → (a ∉ core_ids) ∧ x ∈ core_ids ∧ str_mem "."%char a = false.
Proof using Type.
  assert (Forall (λ ax, bool_decide ((ax.1 ∉ core_ids) ∧ ax.2 ∈ core_ids ∧ str_mem "."%char ax.1 = false)) PROCESSOR_ALIASES) as Hall.
  { apply (bool_decide_unpack _). by vm_compute. }
  intros H. rewrite Forall_forall in Hall. by apply Hall, bool_decide_unpack in H.
Qed.

(** The aliases a table resolves are free of its ids and name them. *)
Lemma resolved_aliases_ok taken candidates own ids :
  targets_in candidates own → (∀ a, a ∈ ids → taken a = true) → own ⊆ ids → aliases_ok (resolve_aliases taken candidates) ids.
Proof using Type.
  intros Hc Ht Hsub. split; [apply resolve_aliases_NoDup, Hc|]. intros a x [Hf Hx]%(alias_target _ _ _ _ _ Hc).
  split; [|by apply Hsub]. intros Ha%Ht. congruence.
Qed.

Lemma processor_aliases_ok plugins t :
  procs_ok plugins t → aliases_ok (PROCESSOR_ALIASES ++ plugin_processor_aliases t) (core_ids ++ pt_plugin t).
Proof using Type.
  intros Ht. unfold plugin_processor_aliases. set (taken := λ a, _).
  assert (∀ a x, (a, x) ∈ resolve_aliases taken (pt_candidates t) → (a ∉ core_ids ++ pt_plugin t) ∧ (a ∉ dict_keys PROCESSOR_ALIASES) ∧ x ∈ pt_plugin t) as Hr.
  { intros a x [Hf Hx]%(alias_target _ _ _ _ _ (procs_targets _ _ Ht)). apply orb_false_iff in Hf as [H1%dict_mem_false H2%dict_mem_false].
    by rewrite <-(procs_keys _ _ Ht). }
  split.
  - unfold dict_keys. rewrite fmap_app. apply NoDup_app. split_and!.
    + apply (bool_decide_unpack _). by vm_compute.
    + intros a Ha ([a' x] & -> & Hx)%list_elem_of_fmap. by apply Hr in Hx as (_ & ? & _).
    + apply resolve_aliases_NoDup. apply (procs_targets _ _ Ht).
  - intros a x [H|H]%elem_of_app.
    + apply core_aliases_facts in H as (Hn & Hx & Hdot). split; [|apply elem_of_app; by left].
      intros [?|Ho%(procs_owned _ _ Ht)%owned_dotted]%elem_of_app; [done|congruence].
    + apply Hr in H as (? & _ & ?). split; [done|]. apply elem_of_app. by right.
Qed.
(** *** The whole registry *)

Lemma type_table_ids plugins t :
  types_ok CORE_DATA_TYPES_BY_ID plugins t → dict_keys (tt_by_id t) = type_id <$> (CORE_DATA_TYPES ++ tt_plugin t).
Proof using Type.
  intros Ht. rewrite (types_entries _ _ _ Ht). unfold dict_keys. rewrite !fmap_app. f_equal; [apply keys_by_id|].
  by rewrite <-list_fmap_compose.
Qed.

Lemma type_aliases_ok plugins t :
  types_ok CORE_DATA_TYPES_BY_ID plugins t → aliases_ok (type_aliases t) (type_id <$> (CORE_DATA_TYPES ++ sort_by type_id (tt_plugin t))).
Proof using Type.
  intros Ht. unfold type_aliases. eapply resolved_aliases_ok; [apply (types_targets _ _ _ Ht)| |].
  - intros a Ha. apply dict_mem_true. rewrite (type_table_ids _ _ Ht). by rewrite sort_by_perm in Ha.
  - intros a Ha. rewrite sort_by_perm, fmap_app. apply elem_of_app. by right.
Qed.

Lemma listed_pipelines als pipes :
  pipeline_id <$> sort_by pipeline_id (with_aliases als <$> pipes) ≡ₚ pipeline_id <$> pipes.
Proof using Type. by rewrite sort_by_perm, <-list_fmap_compose. Qed.

Lemma effective_of_ok active r : registry_of active = Ok r → registry_ok (dict_keys active) r.
Proof using core_distinct.
  unfold registry_of, effective_of. cbv zeta.
  intros ([] & _ & (types & Ht & (procs & Hp & (d & Hd & (pipes & Hpi & [= <-])%bind_Ok)%bind_Ok)%bind_Ok)%bind_Ok)%bind_Ok.
  apply (collect_datatypes_ok _ (dict_keys active)) in Ht; [|done]. apply (collect_processors_ok _ (dict_keys active)) in Hp; [|done].
  apply extend_processors_evolved in Hd. apply (collect_pipelines_ok _ (dict_keys active)) in Hpi; [|done].
  assert (processor_id <$> listed_processors procs d ≡ₚ core_ids ++ pt_plugin procs) as Hids.
  { rewrite (listed_all_ids _ _ _ Hp Hd). by rewrite py_sorted_perm. }
  split; cbn [data_types processors pipelines data_type_aliases processor_aliases pipeline_aliases].
  - exists (sort_by type_id (tt_plugin types)). split; [done|]. intros x Hx. rewrite sort_by_perm in Hx. by apply (types_owned _ _ _ Ht).
  - rewrite sort_by_perm, <-(type_table_ids _ _ Ht). apply (types_distinct _ _ _ Ht). by rewrite keys_by_id.
  - exists (omap (λ id, dict_get id d) core_ids), (omap (λ id, dict_get id d) (py_sorted (pt_plugin procs))).
    split; [apply (omap_app (λ id, dict_get id d) core_ids)|]. split; [by apply (listed_core _ _ _ Hp Hd)|].
    intros p Hpin. apply (procs_owned _ _ Hp). rewrite <-py_sorted_perm, <-(listed_ids _ _ _ Hp Hd (py_sorted (pt_plugin procs))).
    + by apply list_elem_of_fmap_2.
    + intros id. rewrite py_sorted_perm, elem_of_app. by right.
  - exact (listed_ids_distinct _ _ _ Hp Hd).
  - intros p Hpin. rewrite sort_by_perm in Hpin. apply list_elem_of_fmap in Hpin as (p' & -> & Hpin). cbn.
    split; [by apply (pipes_owned _ _ _ _ Hpi)|]. apply (pipes_valid _ _ _ _ Hpi) in Hpin. revert Hpin. apply validate_mono.
    intros id q Hq. change (dict_get (default id (dict_get id (PROCESSOR_ALIASES ++ plugin_processor_aliases procs)))
      (index processor_id (listed_processors procs d)) = Some q).
    assert (dict_get id (PROCESSOR_ALIASES ++ plugin_processor_aliases procs) = None) as ->; [|by apply (listed_get _ _ _ Hp Hd)].
    apply dict_get_None. intros ([a x] & -> & Hax)%list_elem_of_fmap. apply (aliases_free _ _ (processor_aliases_ok _ _ Hp)) in Hax as [[] _].
    rewrite <-(procs_keys _ _ Hp), <-(evolved_keys _ _ Hd). by eapply dict_get_Some_key.
  - rewrite listed_pipelines, <-(pipes_known _ _ _ _ Hpi). apply (pipes_distinct _ _ _ _ Hpi).
  - by eapply type_aliases_ok.
  - destruct (processor_aliases_ok _ _ Hp) as [H1 H2]. split; [done|]. intros a x Hax. apply H2 in Hax. by rewrite Hids.
  - eapply resolved_aliases_ok; [apply (pipes_targets _ _ _ _ Hpi)| |].
    + intros a Ha. apply bool_decide_eq_true. rewrite (pipes_known _ _ _ _ Hpi). by rewrite listed_pipelines in Ha.
    + intros a Ha. rewrite elem_of_app, listed_pipelines. by right.
Qed.
End registry.

(** ** The registry in effect *)

(** The plugins whose manifests count: enabled in the state file, or found
    among the installed ones when the file says nothing. *)
Definition active_plugins (discovered : string → bool) (s : Hub.PluginState) (manifests : dict declarations) : list string :=
  dict_keys (active_manifests discovered s manifests).

(** C6: the registry of the active plugins, when it is built, is well-formed and does
    not depend on the order the manifests are discovered in: the core's data types are
    its first and each core processor keeps its ports and attributes and gains only
    aliases and special ones; every other entry carries the id of an active plugin;
    ids are unique; every alias names one id and is none; and every pipeline of a
    plugin passes the strict validator with the registry's own processors. *)
Theorem effective_registry_sound (core : list DataType) (is_data_type discovered : string → bool) (s : Hub.PluginState)
    (manifests : dict declarations) (r : EffectiveDataflowRegistry) :
  NoDup (type_id <$> core) →
  effective_registry core (CORE_DATA_TYPES_BY_ID core) is_data_type discovered s manifests = Ok r →
  registry_ok core is_data_type (active_plugins discovered s manifests) r ∧
  (∀ p, p ∈ active_plugins discovered s manifests → p ∈ dict_keys manifests ∧ enabled discovered s p = true) ∧
  ∀ shuffled, shuffled ≡ₚ manifests →
    effective_registry core (CORE_DATA_TYPES_BY_ID core) is_data_type discovered s shuffled = Ok r.
Proof.
  intros Hd Hr. split_and!.
  - by apply effective_of_ok.
  - intros p. unfold active_plugins, active_manifests. unfold dict_keys at 1. rewrite sort_keys_perm.
    intros (m & -> & [He Hm]%list_elem_of_filter)%list_elem_of_fmap. split; [|done]. by apply list_elem_of_fmap_2.
  - intros ms ->%(effective_registry_perm core (CORE_DATA_TYPES_BY_ID core) is_data_type discovered s). done.
Qed.

(** *** A demonstration: two plugins *)

Definition demo_types : list DataType := (λ i, mkDataType i i "artifact" "") <$> port_vocabulary.

(** A second plugin extends the mapping stage under names of its own. *)
Definition zenith : declarations :=
  mkDeclarations [] [] [] [mkExtension "map" [("zenith.prior", mkPortSpec "sparse_model" false false "")] []].

Definition demo_manifests : dict declarations := [("zenith", zenith); ("acme", acme)].

Definition all_installed (p : string) : bool := bool_decide (p ∈ ["acme"; "zenith"]).

Definition is_demo_type (i : string) : bool := bool_decide (i ∈ port_vocabulary).

Definition demo_registry : res string EffectiveDataflowRegistry :=
  effective_registry demo_types (CORE_DATA_TYPES_BY_ID demo_types) is_demo_type all_installed Hub.empty_state demo_manifests.

Definition built (r : res string EffectiveDataflowRegistry) : EffectiveDataflowRegistry :=
  match r with Ok r => r | Err _ => mkRegistry [] [] [] [] [] [] end.

Example demo_pipelines : pipeline_aliases (built demo_registry) = [("sfm_mesh", "acme.sfm_mesh")].
Proof. by vm_compute. Qed.

(** Both plugins' special inputs end on the core stage. *)
Example demo_map_inputs :
  (λ p, dict_keys (special_inputs p)) <$> Dataflow.processor_for (built demo_registry) "map" = Some ["acme.prior"; "zenith.prior"].
Proof. by vm_compute. Qed.

(** A role that two plugins claim is refused. *)
Example contested_role :
  effective_registry demo_types (CORE_DATA_TYPES_BY_ID demo_types) is_demo_type (λ _, true) Hub.empty_state
    [("acme", acme); ("squatter", mkDeclarations [] [] [] [map_extension])] =
  Err "processor extension from plugin 'squatter' duplicates input role 'acme.prior' on 'map'".
Proof. by vm_compute. Qed.

Lemma effective_registry_sound_witness :
  registry_ok demo_types is_demo_type ["acme"; "zenith"] (built demo_registry) ∧
  effective_registry demo_types (CORE_DATA_TYPES_BY_ID demo_types) is_demo_type all_installed
    Hub.empty_state (reverse demo_manifests) = Ok (built demo_registry).
Proof.
  destruct (effective_registry_sound demo_types is_demo_type all_installed Hub.empty_state demo_manifests
    (built demo_registry)) as (H1 & _ & H3).
  - apply (bool_decide_unpack _). by vm_compute.
  - by vm_compute.
  - split; [exact H1|]. apply H3. apply reverse_Permutation.
Defined.
