(* ===== verification/Snapshots.v ===== *)
(** [storage/snapshots.py]: sealed snapshots of a reconstruction, published by renaming
    a finished directory. The store's directory maps names to files and directories; an
    operation is the list of its file-system actions, so that it can stop after any of
    them. *)
From S2P Require Import Prelude PyValue Attributes Backends Stages ReconStages.
From stdpp Require Import options.
Import Attributes Stages ReconStages.

#[local] Arguments String.append !_ _ / : simpl nomatch.

Module Snapshots.

(** The files of a directory tree, by relative path. *)
Abbreviation tree := (gmap string string).

Inductive node : Type :=
  | File (text : string)
  | Dir (files : tree).

#[export] Instance node_eq_dec : EqDecision node.
Proof. solve_decision. Defined.

(** The [snapshots] directory. *)
Abbreviation directory := (gmap string node).

(** ** Actions *)

Inductive action : Type :=
  | Unlink (name file : string)
  | Rmdir (name : string)
  | Mkdir (name : string)
  | Put (name file text : string)
  | WriteText (name text : string)
  | Replace (old new : string).

Definition files_of (d : directory) (name : string) : option tree :=
  match d !! name with Some (Dir files) => Some files | _ => None end.

Definition apply (d : directory) (a : action) : directory :=
  match a with
  | Unlink name file => match files_of d name with Some files => <[name := Dir (delete file files)]> d | None => d end
  | Rmdir name => delete name d
  | Mkdir name => <[name := Dir ∅]> d
  | Put name file text => match files_of d name with Some files => <[name := Dir (<[file := text]> files)]> d | None => d end
  | WriteText name text => <[name := File text]> d
  | Replace old new => match d !! old with Some n => <[new := n]> (delete old d) | None => d end
  end.

Definition run (actions : list action) (d : directory) : directory := foldl apply d actions.

(** ** Names *)

(** [f"{seq:08d}"] *)
Definition seq_name (seq : Z) : string :=
  let t := pretty (Z.abs seq) in
  if (seq <? 0)%Z then "-" +:+ Stages.pad_left (7 - String.length t) t else Stages.pad_left (8 - String.length t) t.

Definition tmp_name (seq : Z) : string := ".tmp_" +:+ seq_name seq.

(** ** Readers *)

Definition sealed_seq (nn : string * node) : option Z :=
  match nn.2 with
  | Dir files =>
      if negb (starts_with ".tmp_" nn.1) && present (files !! ".complete") then int_of_text nn.1 else None
  | File _ => None
  end.

Definition list_sealed (d : directory) : list Z := merge_sort Z.le (omap sealed_seq (map_to_list d)).

Definition latest (d : directory) : option Z :=
  match d !! "latest" with
  | Some (File text) => int_of_text text
  | _ => last (list_sealed d)
  end.

Definition path_for (seq : Z) : string := seq_name seq.

(** [(snapshots.latest() or 0) + 1], the number a task seals its result under. *)
Definition next_seq (d : directory) : Z := (default 0 (latest d) + 1)%Z.

(** ** Writers *)

Section writers.
(** The order in which a directory is walked. *)
Context (listing : tree → list string).

Definition remove_tree (name : string) (files : tree) : list action := (Unlink name <$> listing files) ++ [Rmdir name].

Definition copy_tree (name : string) (files : tree) : list action :=
  Mkdir name :: ((λ f, Put name f (default "" (files !! f))) <$> listing files).

Definition _set_latest (seq : Z) : list action :=
  [WriteText ".latest.tmp" (pretty seq); Replace ".latest.tmp" "latest"].

(** [source] is the live directory, if it is one; [summary] the text of the summary. *)
Definition seal (seq : Z) (source : option tree) (summary : option string) (d : directory) : res string (list action) :=
  let target := seq_name seq in
  let tmp := tmp_name seq in
  _ ← raise_if (present (d !! target)) ("Snapshot seq " +:+ pretty seq +:+ " already sealed");
  cleared ← match d !! tmp with
            | Some (Dir files) => Ok (remove_tree tmp files)
            | Some (File _) => Err ("Not a directory: " +:+ str_repr tmp)
            | None => Ok []
            end;
  Ok (cleared ++
      match source with Some files => copy_tree tmp files | None => [Mkdir tmp] end ++
      match summary with Some text => [Put tmp "summary.json" text] | None => [] end ++
      [Put tmp ".complete" (pretty seq); Replace tmp target] ++
      _set_latest seq).

(** What a task does with its finished output. *)
Definition seal_next (source : tree) (summary : string) (d : directory) : res string (list action) :=
  seal (next_seq d) (Some source) (Some summary) d.

(** [seqs[:-keep_last]] *)
Definition all_but_last {A} (keep_last : Z) (l : list A) : list A :=
  let stop := (- keep_last)%Z in
  take (Z.to_nat (if (stop <? 0)%Z then Z.of_nat (length l) + stop else stop)) l.

Definition gc_drops (keep_last : Z) (d : directory) : list Z :=
  let seqs := list_sealed d in
  if (Z.of_nat (length seqs) <=? keep_last)%Z then [] else all_but_last keep_last seqs.

Definition gc_actions (keep_last : Z) (d : directory) : list action :=
  gc_drops keep_last d ≫= λ s,
    match files_of d (path_for s) with Some files => remove_tree (path_for s) files | None => [] end.
End writers.

(** The tree a snapshot is sealed with. *)
Definition sealed_tree (seq : Z) (source : option tree) (summary : option string) : tree :=
  let files := default ∅ source in
  let files := match summary with Some text => <["summary.json" := text]> files | None => files end in
  <[".complete" := pretty seq]> files.

(** A directory walk that visits each file once. *)
Definition walks (listing : tree → list string) : Prop := ∀ files, listing files ≡ₚ (map_to_list files).*1.

Definition name_order (files : tree) : list string := (map_to_list files).*1.

(** ** Examples *)

Definition demo_source : tree := {[ "points.bin" := "p"; "cameras.bin" := "c" ]}.

Definition sealed (r : res string (list action)) (d : directory) : directory :=
  match r with Ok l => run l d | Err _ => d end.

Definition seal_all (seqs : list Z) : directory :=
  foldl (λ d s, sealed (seal name_order s (Some demo_source) None d) d) ∅ seqs.

Example seal_lists : list_sealed (seal_all [1%Z; 2%Z; 3%Z]) = [1%Z; 2%Z; 3%Z].
Proof. by vm_compute. Qed.

Example gc_keeps_last :
  let d := seal_all [1%Z; 2%Z; 3%Z; 4%Z; 5%Z] in
  gc_drops 3 d = [1%Z; 2%Z] ∧ list_sealed (run (gc_actions name_order 3 d) d) = [3%Z; 4%Z; 5%Z].
Proof. by vm_compute. Qed.

(** Nothing is kept of [keep_last=0]: the slice is empty. *)
Example gc_keeps_all : gc_drops 0 (seal_all [1%Z; 2%Z]) = [].
Proof. by vm_compute. Qed.

End Snapshots.
