(* ===== verification/SnapshotGuarantees.v ===== *)
(** What the sealing protocol promises, wherever it stops: readers see finished
    snapshots only, and what they saw does not change. *)
From S2P Require Import Prelude PyValue JsonFacts Attributes HubManifest Backends Stages ReconStages Snapshots.
From stdpp Require Import options.
Import Attributes Backends Stages ReconStages Snapshots.

#[local] Arguments String.append !_ _ / : simpl nomatch.

(** ** Numbers of directory names *)

(** A text of digits. *)
Definition numeral (s : string) : bool := Manifest.all_chars (Manifest.char_between "0" "9") s.

Definition digit_of (a : ascii) : Z := (Z.of_nat (nat_of_ascii a) - 48)%Z.

Lemma digits_value_cons acc b a s :
  Manifest.char_between "0" "9" a = true → digits_value acc b (String a s) = digits_value (10 * acc + digit_of a) true s.
Proof. intros H. cbn [digits_value]. by rewrite H. Qed.

Lemma pretty_N_char_digit x : (x < 10)%N → Manifest.char_between "0" "9" (pretty_N_char x) = true ∧ digit_of (pretty_N_char x) = Z.of_N x.
Proof.
  intros Hx. assert (x ∈ N.of_nat <$> seq 0 10) as Hin.
  { apply list_elem_of_fmap. exists (N.to_nat x). split; [lia|]. apply elem_of_seq. lia. }
  clear Hx. revert x Hin. apply (Forall_forall (λ x, Manifest.char_between "0" "9" (pretty_N_char x) = true ∧ digit_of (pretty_N_char x) = Z.of_N x)).
  repeat constructor.
Qed.

Lemma digits_value_go x s : (0 < x)%N → ∀ b, digits_value 0 b (pretty_N_go x s) = digits_value (Z.of_N x) true s.
Proof.
  revert s. induction (N.lt_wf_0 x) as [x _ IH]; intros s Hx b. rewrite pretty_N_go_step by done.
  destruct (pretty_N_char_digit (x `mod` 10)%N) as [Hc Hd]; [by apply N.mod_lt|].
  destruct (decide (0 < x `div` 10)%N) as [Hq|Hq].
  - rewrite IH by (done || by apply N.div_lt). rewrite digits_value_cons, Hd by done. f_equal.
    rewrite <-(N2Z.inj_mul 10), <-N2Z.inj_add. f_equal. symmetry. apply N.div_mod. done.
  - assert (x `div` 10 = 0)%N as Hz by (by apply N.le_0_r, N.nlt_ge). rewrite Hz. change (pretty_N_go 0 ?s) with s. rewrite digits_value_cons, Hd by done. f_equal.
    rewrite (N.div_mod x 10) at 2 by done. rewrite Hz. lia.
Qed.

Lemma digits_value_pretty (z : Z) b : (0 ≤ z)%Z → digits_value 0 b (pretty z) = Some z.
Proof.
  intros Hz. destruct z as [|p|p]; [done| |lia]. unfold pretty, pretty_Z. change (pretty p) with (pretty (N.pos p)).
  unfold pretty, pretty_N. rewrite decide_False by done. by rewrite digits_value_go.
Qed.

Lemma digits_value_pad n s b : s ≠ "" → (∀ b, digits_value 0 b s = digits_value 0 true s) → digits_value 0 b (pad_left n s) = digits_value 0 true s.
Proof. intros Hs H. revert b. induction n as [|n IH]; intros b; cbn; [by apply H|]. by rewrite IH. Qed.

Lemma digits_value_name n (z : Z) b : (0 ≤ z)%Z → digits_value 0 b (pad_left n (pretty z)) = Some z.
Proof.
  intros Hz. rewrite digits_value_pad; [by apply digits_value_pretty| |].
  - destruct (pretty_Z_ne z) as (a & s & -> & _). done.
  - intros b'. by rewrite !digits_value_pretty.
Qed.

(** Texts of visible ASCII characters, which white space never starts or ends. *)
Definition visible (a : ascii) : bool := Manifest.char_between "!" "~" a.

Lemma lstrip_visible ws fuel s :
  forallb (λ w, match w with String a _ => negb (visible a) | EmptyString => false end) ws = true →
  (∀ a r, s = String a r → visible a = true) → lstrip ws fuel s = s.
Proof.
  intros Hws Hs. destruct fuel as [|fuel]; [done|]. cbn [lstrip].
  assert (filter (λ w, starts_with w s = true) ws = []) as ->; [|done]. rewrite forallb_forall in Hws.
  apply list_nil_elem. intros w. rewrite list_elem_of_filter. intros [Hw Hin%list_elem_of_In%Hws].
  destruct w as [|b w]; [done|]. destruct s as [|a s]; [done|]. cbn in Hw. case_decide as E; [|done]. subst b. by rewrite (Hs a s) in Hin.
Qed.

Lemma py_strip_visible s : Manifest.all_chars visible s = true → py_strip s = s.
Proof.
  intros Hs. assert (∀ a, a ∈ String.list_ascii_of_string s → visible a = true) as Hall.
  { clear -Hs. induction s as [|b s IH]; intros a Ha; cbn in *; [by apply elem_of_nil in Ha|]. apply andb_true_iff in Hs as [? ?].
    apply elem_of_cons in Ha as [->|Ha]; [done|by apply IH]. }
  unfold py_strip. cbv zeta. rewrite (lstrip_visible spaces _ s); [|by vm_compute|].
  - rewrite lstrip_visible; [|by vm_compute|].
    + unfold str_rev. by rewrite String.list_ascii_of_string_of_list_ascii, rev_involutive, String.string_of_list_ascii_of_string.
    + intros a r Hr. apply Hall, list_elem_of_In, in_rev, list_elem_of_In.
      unfold str_rev in Hr. apply (f_equal String.list_ascii_of_string) in Hr.
      rewrite String.list_ascii_of_string_of_list_ascii in Hr. rewrite Hr. by left.
  - intros a r ->. apply Hall. list_in.
Qed.

Lemma visible_app s t : Manifest.all_chars visible (s +:+ t) = Manifest.all_chars visible s && Manifest.all_chars visible t.
Proof. induction s as [|a s IH]; cbn; [done|]. by rewrite IH, andb_assoc. Qed.

Lemma visible_pad n s : Manifest.all_chars visible s = true → Manifest.all_chars visible (pad_left n s) = true.
Proof. intros Hs. induction n as [|n IH]; [done|]. cbn. by rewrite IH. Qed.

Lemma visible_pretty (z : Z) : Manifest.all_chars visible (pretty z) = true.
Proof.
  pose proof (pretty_Z_num z) as H. induction (pretty z) as [|a s IH]; [done|]. cbn in *. apply andb_true_iff in H as [Ha Hs].
  rewrite IH, andb_true_r by done. revert Ha. unfold num_char, visible. destruct a as [[] [] [] [] [] [] [] []]; done.
Qed.

Lemma signed_parses n m (z : Z) :
  int_of_text (if (z <? 0)%Z then "-" +:+ pad_left n (pretty (Z.abs z)) else pad_left m (pretty (Z.abs z))) = Some z.
Proof.
  unfold int_of_text. destruct (z <? 0)%Z eqn:Hs.
  - rewrite py_strip_visible by (rewrite visible_app; by rewrite visible_pad by apply visible_pretty).
    change (Z.opp <$> digits_value 0 false (pad_left n (pretty (Z.abs z))) = Some z).
    rewrite digits_value_name by lia. cbn. f_equal. lia.
  - rewrite py_strip_visible by (by rewrite visible_pad by apply visible_pretty).
    pose proof (digits_value_name m (Z.abs z) false ltac:(lia)) as Hd.
    replace (Z.abs z) with z in Hd at 2 by lia. revert Hd. generalize (pad_left m (pretty (Z.abs z))).
    intros t Hd. destruct t as [|a t]; [done|]. destruct (decide (a = "-"%char)) as [->|Hm]; [done|].
    destruct (decide (a = "+"%char)) as [->|Hp]; [done|]. rewrite <-Hd. clear Hd. destruct a as [[] [] [] [] [] [] [] []]; done.
Qed.

(** The name of a snapshot reads back as its number. *)
Lemma seq_name_parses seq : int_of_text (seq_name seq) = Some seq.
Proof. apply signed_parses. Qed.

Lemma int_of_pretty (z : Z) : int_of_text (pretty z) = Some z.
Proof. rewrite <-(signed_parses 0 0 z). f_equal. by destruct z. Qed.

Lemma visible_name s : Manifest.all_chars visible (seq_name s) = true.
Proof.
  unfold seq_name. cbv zeta. destruct (s <? 0)%Z; [rewrite visible_app|]; by rewrite visible_pad by apply visible_pretty.
Qed.

Lemma seq_name_inj s1 s2 : seq_name s1 = seq_name s2 → s1 = s2.
Proof. intros H. pose proof (seq_name_parses s1) as H1. rewrite H, seq_name_parses in H1. congruence. Qed.

(** ** Actions and the names they touch *)

Definition touched (a : action) : list string :=
  match a with
  | Unlink n _ | Rmdir n | Mkdir n | Put n _ _ | WriteText n _ => [n]
  | Replace old new => [old; new]
  end.

Lemma apply_other d a name : name ∉ touched a → apply d a !! name = d !! name.
Proof.
  destruct a; cbn; rewrite ?not_elem_of_cons; intros Hn; try (destruct (files_of _ _)); try done;
    rewrite ?lookup_insert_ne, ?lookup_delete_ne by naive_solver; try done.
  destruct (d !! old); [|done]. by rewrite lookup_insert_ne, lookup_delete_ne by naive_solver.
Qed.

Lemma run_other actions d name : (∀ a, a ∈ actions → name ∉ touched a) → run actions d !! name = d !! name.
Proof.
  unfold run. revert d. induction actions as [|a l IH]; intros d H; cbn; [done|].
  rewrite IH by (intros b Hb; apply H; by right). apply apply_other, H. list_in.
Qed.

Lemma run_app l1 l2 d : run (l1 ++ l2) d = run l2 (run l1 d).
Proof. apply foldl_app. Qed.

Lemma take_elem {A} (x : A) k l : x ∈ take k l → x ∈ l.
Proof. intros H. rewrite <-(take_drop k l). apply elem_of_app. by left. Qed.

(** Actions on the directory of one name. *)
Definition on_dir (name : string) (a : action) : Prop :=
  match a with Unlink n _ | Rmdir n | Mkdir n | Put n _ _ => n = name | _ => False end.

Definition within (name : string) (actions : list action) : Prop := ∀ a, a ∈ actions → on_dir name a.

Lemma within_app name l1 l2 : within name l1 → within name l2 → within name (l1 ++ l2).
Proof. intros H1 H2 a [?|?]%elem_of_app; [by apply H1|by apply H2]. Qed.

Lemma run_within name actions d other : within name actions → other ≠ name → run actions d !! other = d !! other.
Proof. intros H Hne. apply run_other. intros a Ha. specialize (H a Ha).
  destruct a; cbn in *; try done; subst; by intros ?%list_elem_of_singleton.
Qed.

Lemma within_remove listing name files : within name (remove_tree listing name files).
Proof. intros a [(f & -> & _)%list_elem_of_fmap| ->%list_elem_of_singleton]%elem_of_app; done. Qed.

Lemma within_copy listing name files : within name (copy_tree listing name files).
Proof. intros a [->|(f & -> & _)%list_elem_of_fmap]%elem_of_cons; done. Qed.

Lemma run_remove listing name files d : run (remove_tree listing name files) d = delete name d.
Proof.
  unfold remove_tree. rewrite run_app. cbn. generalize (listing files). intros l. revert d.
  induction l as [|f l IH]; intros d; [done|]. unfold run in *. cbn [fmap list_fmap foldl]. rewrite IH. unfold apply.
  destruct (files_of d name); [|done]. by rewrite delete_insert_eq.
Qed.

Section copying.
Context (listing : tree → list string) (Hl : walks listing).

Lemma run_puts (source : tree) name l d files :
  d !! name = Some (Dir files) →
  run ((λ f, Put name f (default "" (source !! f))) <$> l) d !! name =
    Some (Dir (foldl (λ t f, <[f := default "" (source !! f)]> t) files l)).
Proof using Type.
  unfold run. revert d files. induction l as [|f l IH]; intros d files Hd; cbn; [done|]. apply IH.
  unfold files_of. rewrite Hd. by rewrite lookup_insert_eq.
Qed.

Lemma put_all (source : tree) l : (∀ f, f ∈ l ↔ f ∈ (map_to_list source).*1) → foldl (λ t f, <[f := default "" (source !! f)]> t) (∅ : tree) l = source.
Proof using Type.
  intros H. assert (∀ t : tree, ∀ f, foldl (λ t f, <[f := default "" (source !! f)]> t) t l !! f = if decide (f ∈ l) then Some (default "" (source !! f)) else t !! f) as Hf.
  { clear H. induction l as [|g l IH]; intros t f; cbn; [done|]. rewrite IH. destruct (decide (f ∈ l)) as [Hin|Hn].
    - rewrite decide_True by (by right). done.
    - destruct (decide (f = g)) as [->|Hne].
      + rewrite lookup_insert_eq, decide_True by list_in. done.
      + rewrite lookup_insert_ne by done. rewrite decide_False; [done|]. by intros [?|?]%elem_of_cons. }
  apply map_eq. intros f. rewrite Hf. assert (f ∈ (map_to_list source).*1 ↔ is_Some (source !! f)) as Hk.
  { rewrite list_elem_of_fmap. split.
    - intros ([k v] & -> & Hkv%elem_of_map_to_list). by exists v.
    - intros [v Hv]. exists (f, v). split; [done|]. by apply elem_of_map_to_list. }
  case_decide as Hin.
  - apply H, Hk in Hin as [v ->]. done.
  - rewrite lookup_empty. destruct (source !! f) eqn:E; [|done]. destruct Hin. by apply H, Hk.
Qed.

Lemma run_copy name files d : run (copy_tree listing name files) d !! name = Some (Dir files).
Proof using Hl.
  unfold copy_tree, run. cbn [foldl]. change (foldl apply ?x ?y) with (run y x).
  rewrite (run_puts _ _ _ _ ∅) by (cbn; by rewrite lookup_insert_eq). f_equal. f_equal. apply put_all. intros f. by rewrite (Hl files).
Qed.
End copying.

(** ** Sealing *)

Lemma within_put name file text : within name [Put name file text].
Proof. by intros a ->%list_elem_of_singleton. Qed.

Lemma within_nil name : within name [].
Proof. by intros a ?%elem_of_nil. Qed.

Lemma run_put name file text d files :
  d !! name = Some (Dir files) → run [Put name file text] d !! name = Some (Dir (<[file := text]> files)).
Proof. intros H. cbn. unfold files_of. rewrite H. by rewrite lookup_insert_eq. Qed.

Lemma names_distinct seq s : seq_name s ≠ tmp_name seq.
Proof.
  intros H. pose proof (seq_name_parses s) as Hp. rewrite H in Hp. revert Hp. unfold int_of_text.
  rewrite py_strip_visible; [done|]. unfold tmp_name. rewrite visible_app. by rewrite visible_name.
Qed.

Lemma pointer_distinct name s : name ∈ ["latest"; ".latest.tmp"] → seq_name s ≠ name ∧ tmp_name s ≠ name.
Proof.
  intros Hn. split.
  - intros <-. pose proof (seq_name_parses s) as Hp. revert Hp. apply elem_of_cons in Hn as [-> | ->%list_elem_of_singleton]; by vm_compute.
  - intros <-. unfold tmp_name in Hn. apply elem_of_cons in Hn as [H|H%list_elem_of_singleton]; done.
Qed.

Lemma run_set_latest seq d name :
  run (_set_latest seq) d !! name =
    if decide (name = "latest") then Some (File (pretty seq)) else if decide (name = ".latest.tmp") then None else d !! name.
Proof.
  cbn. rewrite lookup_insert_eq. destruct (decide (name = "latest")) as [->|Hne]; [by rewrite lookup_insert_eq|].
  rewrite lookup_insert_ne by done. destruct (decide (name = ".latest.tmp")) as [->|Hne']; [by rewrite lookup_delete_eq|].
  by rewrite lookup_delete_ne, lookup_insert_ne by done.
Qed.

Lemma run_replace old new d files : d !! old = Some files → run [Replace old new] d = <[new := files]> (delete old d).
Proof. intros H. cbn. by rewrite H. Qed.

(** Before the rename only the temporary directory differs, and it stays a directory;
    after it the snapshot is whole and only the pointer is still to move. *)
Record unpublished (seq : Z) (d d' : directory) : Prop := {
  unpublished_same : ∀ name, name ≠ tmp_name seq → d' !! name = d !! name;
  unpublished_tmp : ∀ text, d' !! tmp_name seq ≠ Some (File text)
}.

Record published (seq : Z) (files : tree) (d d' : directory) : Prop := {
  published_whole : d' !! seq_name seq = Some (Dir files);
  published_tmp : d' !! tmp_name seq = None;
  published_same : ∀ name, name ∉ [tmp_name seq; seq_name seq; "latest"; ".latest.tmp"] → d' !! name = d !! name;
  published_pointer : ∀ name, name ∈ ["latest"; ".latest.tmp"] → d' !! name ∈ [d !! name; None; Some (File (pretty seq))];
  published_latest : d' !! "latest" = d !! "latest" ∨ d' !! "latest" = Some (File (pretty seq))
}.

Lemma within_no_file name actions d :
  within name actions → (∀ text, d !! name ≠ Some (File text)) → ∀ text, run actions d !! name ≠ Some (File text).
Proof.
  unfold run. revert d. induction actions as [|a l IH]; intros d Hw Hd text; cbn; [done|]. apply IH.
  - intros b Hb. apply Hw. by right.
  - intros t. pose proof (Hw a ltac:(list_in)) as Ha. destruct a; cbn in *; try done; subst; unfold files_of;
      rewrite ?lookup_insert_eq, ?lookup_delete_eq; try done;
      destruct (d !! name) as [[|]|] eqn:E; rewrite ?E, ?lookup_insert_eq; by try apply Hd.
Qed.

Lemma within_take name k actions : within name actions → within name (take k actions).
Proof. intros H a Ha%take_elem. by apply H. Qed.

Lemma tmp_not_pointer seq : tmp_name seq ∉ ["latest"; ".latest.tmp"].
Proof. intros H. by destruct (pointer_distinct _ seq H) as [_ ?]. Qed.

Lemma seq_not_pointer seq : seq_name seq ∉ ["latest"; ".latest.tmp"].
Proof. intros H. by destruct (pointer_distinct _ seq H) as [? _]. Qed.

(** The pointer's two actions, stopped anywhere. *)
Lemma pointer_other seq j d name : name ∉ ["latest"; ".latest.tmp"] → run (take j (_set_latest seq)) d !! name = d !! name.
Proof.
  intros Hn. apply run_other. intros a Ha%take_elem. apply elem_of_cons in Ha as [->|Ha%list_elem_of_singleton]; [|subst a]; cbn; set_solver.
Qed.

Lemma pointer_moves seq j d name :
  name ∈ ["latest"; ".latest.tmp"] → run (take j (_set_latest seq)) d !! name ∈ [d !! name; None; Some (File (pretty seq))].
Proof.
  intros Hn. destruct j as [|[|j]]; [cbn; list_in|..].
  - cbn. destruct (decide (name = ".latest.tmp")) as [->|Hne]; [rewrite lookup_insert_eq; list_in|rewrite lookup_insert_ne by done; list_in].
  - replace (take (S (S j)) (_set_latest seq)) with (_set_latest seq) by (by destruct j). rewrite run_set_latest.
    repeat case_decide; list_in.
Qed.

Lemma pointer_latest seq j d :
  run (take j (_set_latest seq)) d !! "latest" = d !! "latest" ∨ run (take j (_set_latest seq)) d !! "latest" = Some (File (pretty seq)).
Proof.
  destruct j as [|[|j]]; [by left|left; cbn; by rewrite lookup_insert_ne|right].
  replace (take (S (S j)) (_set_latest seq)) with (_set_latest seq) by (by destruct j). by rewrite run_set_latest.
Qed.

Section sealing.
Context (listing : tree → list string) (Hl : walks listing).

(** Sealing fills a temporary directory, renames it and moves the pointer. *)
Lemma seal_shape seq source summary d acts :
  seal listing seq source summary d = Ok acts →
  ∃ prep, acts = prep ++ Replace (tmp_name seq) (seq_name seq) :: _set_latest seq ∧ within (tmp_name seq) prep ∧
    run prep d !! tmp_name seq = Some (Dir (sealed_tree seq source summary)) ∧ d !! seq_name seq = None.
Proof using Hl.
  unfold seal. cbv zeta. intros ([] & Hfree%raise_if_Ok & (cleared & Hc & [= <-])%bind_Ok)%bind_Ok.
  set (copied := match source with Some files => copy_tree listing (tmp_name seq) files | None => [Mkdir (tmp_name seq)] end).
  set (extra := match summary with Some text => [Put (tmp_name seq) "summary.json" text] | None => [] end).
  exists (cleared ++ copied ++ extra ++ [Put (tmp_name seq) ".complete" (pretty seq)]). split_and!.
  - by rewrite <-!app_assoc.
  - repeat apply within_app.
    + destruct (d !! tmp_name seq) as [[|files]|]; [done| |]; injection Hc as <-; [apply within_remove|apply within_nil].
    + unfold copied. destruct source; [apply within_copy|]. by intros a ->%list_elem_of_singleton.
    + unfold extra. destruct summary; [apply within_put|apply within_nil].
    + apply within_put.
  - rewrite !run_app. apply run_put. set (d1 := run cleared d).
    assert (run copied d1 !! tmp_name seq = Some (Dir (default ∅ source))) as Hcopy.
    { unfold copied. destruct source as [files|]; [by apply run_copy|]. cbn. by rewrite lookup_insert_eq. }
    unfold extra. destruct summary; [|done]. by apply run_put.
  - unfold present in Hfree. by destruct (d !! seq_name seq).
Qed.

Lemma seal_tmp seq source summary d acts :
  seal listing seq source summary d = Ok acts → ∀ text, d !! tmp_name seq ≠ Some (File text).
Proof using Type.
  unfold seal. cbv zeta. intros ([] & _ & (cleared & Hc & _)%bind_Ok)%bind_Ok text Ht. by rewrite Ht in Hc.
Qed.

Lemma seal_stopped seq source summary d acts k :
  seal listing seq source summary d = Ok acts →
  unpublished seq d (run (take k acts) d) ∨
  published seq (sealed_tree seq source summary) d (run (take k acts) d) ∧
  (length acts ≤ k → run (take k acts) d !! "latest" = Some (File (pretty seq))).
Proof using Hl.
  intros Hs. pose proof (seal_tmp _ _ _ _ _ Hs) as Htmp. destruct (seal_shape _ _ _ _ _ Hs) as (prep & -> & Hw & Hfull & Hfree).
  rewrite take_app, run_app. destruct (decide (k ≤ length prep)) as [Hk|Hk].
  - left. replace (k - length prep) with 0 by lia. split.
    + intros name Hne. cbn. apply (run_within (tmp_name seq)); [by apply within_take|done].
    + cbn. by apply within_no_file; [apply within_take|].
  - right. rewrite (take_ge prep) by lia. destruct (k - length prep) as [|j] eqn:Hj; [lia|]. cbn [take].
    change (Replace ?a ?b :: ?l) with ([Replace a b] ++ l). rewrite run_app, (run_replace _ _ _ _ Hfull).
    set (d1 := <[seq_name seq := _]> _).
    assert (∀ name, name ∉ [tmp_name seq; seq_name seq] → d1 !! name = d !! name) as Hd1.
    { intros name Hn. unfold d1. rewrite lookup_insert_ne, lookup_delete_ne by set_solver. apply (run_within (tmp_name seq)); [done|set_solver]. }
    split; [split|].
    + rewrite pointer_other by apply seq_not_pointer. apply lookup_insert_eq.
    + rewrite pointer_other by apply tmp_not_pointer. unfold d1. rewrite lookup_insert_ne by apply names_distinct. apply lookup_delete_eq.
    + intros name Hn. rewrite pointer_other by set_solver. apply Hd1. set_solver.
    + intros name Hn. rewrite <-(Hd1 name); [by apply pointer_moves|].
      intros [-> | ->%list_elem_of_singleton]%elem_of_cons; [by apply (tmp_not_pointer seq)|by apply (seq_not_pointer seq)].
    + rewrite <-(Hd1 "latest"); [apply pointer_latest|].
      intros [H|H%list_elem_of_singleton]%elem_of_cons; [apply (tmp_not_pointer seq)|apply (seq_not_pointer seq)]; rewrite <-H; list_in.
    + rewrite !length_app. change (length [_]) with 1. change (length (_set_latest seq)) with 2. intros Hlen. replace j with (S (S (j - 2))) by lia.
      replace (take (S (S (j - 2))) (_set_latest seq)) with (_set_latest seq) by (by destruct (j - 2)). by rewrite run_set_latest.
Qed.

Lemma seal_completes seq source summary d acts :
  seal listing seq source summary d = Ok acts → (∀ name, name ≠ tmp_name seq → run (take (length acts) acts) d !! name = d !! name) → False.
Proof using Hl.
  intros Hs Hsame. destruct (seal_shape _ _ _ _ _ Hs) as (prep & -> & _ & Hfull & Hfree). specialize (Hsame (seq_name seq) (names_distinct _ _)).
  rewrite firstn_all, Hfree, run_app in Hsame. change (Replace ?a ?b :: ?l) with ([Replace a b] ++ l) in Hsame.
  rewrite run_app, (run_replace _ _ _ _ Hfull), <-(firstn_all (_set_latest seq)), pointer_other in Hsame by apply seq_not_pointer.
  by rewrite lookup_insert_eq in Hsame.
Qed.
End sealing.

(** ** Collecting *)

Section collecting.
Context (listing : tree → list string).

Definition remove_at (d0 : directory) (s : Z) : list action :=
  match files_of d0 (path_for s) with Some files => remove_tree listing (path_for s) files | None => [] end.

Lemma run_removals d0 seqs d name :
  run (seqs ≫= remove_at d0) d !! name =
    if decide (name ∈ path_for <$> seqs ∧ is_Some (files_of d0 name)) then None else d !! name.
Proof using Type.
  revert d. induction seqs as [|s seqs IH]; intros d; cbn [mbind list_bind].
  - rewrite decide_False; [done|]. by intros [?%elem_of_nil _].
  - rewrite run_app, IH. unfold remove_at. cbn [fmap list_fmap]. destruct (decide (name ∈ path_for <$> seqs ∧ is_Some (files_of d0 name))) as [[? ?]|Hn].
    { rewrite decide_True; [done|]. split; [by right|done]. }
    destruct (files_of d0 (path_for s)) as [files|] eqn:Hf.
    + rewrite run_remove. destruct (decide (name = path_for s)) as [->|Hne].
      * rewrite lookup_delete_eq, decide_True; [done|]. rewrite Hf. split; [list_in|done].
      * rewrite lookup_delete_ne by done. rewrite decide_False; [done|]. intros [[->|?]%elem_of_cons ?]; [done|]. by apply Hn.
    + rewrite decide_False; [done|]. intros [[->|?]%elem_of_cons Hi]; [|by apply Hn]. rewrite Hf in Hi. by destruct Hi.
Qed.
End collecting.

(** ** Sorted listings *)

Lemma NoDup_omap_fst {A B} (f : string * A → option B) (l : list (string * A)) :
  NoDup l.*1 → (∀ x y b, x ∈ l → y ∈ l → f x = Some b → f y = Some b → x.1 = y.1) → NoDup (omap f l).
Proof.
  induction l as [|x l IH]; intros Hd Hf; cbn; [constructor|]. cbn in Hd. apply NoDup_cons in Hd as [Hn Hd].
  assert (NoDup (omap f l)) as Hl by (apply IH; [done|]; intros y z b Hy Hz; apply Hf; by right).
  destruct (f x) as [b|] eqn:Hx; [|done]. apply NoDup_cons. split; [|done].
  intros (y & Hy & Hb)%list_elem_of_omap. apply Hn. rewrite (Hf x y b); [by apply list_elem_of_fmap_2|list_in|by right|done|done].
Qed.

Lemma sorted_increasing (l : list Z) : StronglySorted Z.le l → NoDup l → StronglySorted Z.lt l.
Proof.
  induction 1 as [|x l Hl IH Hx]; intros Hd; [constructor|]. apply NoDup_cons in Hd as [Hn Hd]. constructor; [by apply IH|].
  rewrite Forall_forall in *. intros y Hy. specialize (Hx y Hy). assert (x ≠ y) by (by intros ->). lia.
Qed.

Lemma elem_of_sealed d s : s ∈ list_sealed d ↔ ∃ name files, d !! name = Some (Dir files) ∧ sealed_seq (name, Dir files) = Some s.
Proof.
  unfold list_sealed. rewrite merge_sort_Permutation, list_elem_of_omap. split.
  - intros ([name [text|files]] & Hin%elem_of_map_to_list & Hs); [done|]. by exists name, files.
  - intros (name & files & Hd & Hs). exists (name, Dir files). split; [|done]. by apply elem_of_map_to_list.
Qed.

Lemma list_sealed_sorted d : StronglySorted Z.le (list_sealed d).
Proof. apply StronglySorted_merge_sort; apply _. Qed.

(** ** Histories *)

(** What was sealed under a number, and collections. *)
Inductive event : Type :=
  | Sealing (seq : Z) (files : tree)
  | Collecting (keep_last : Z).

Section history.
Context (listing : tree → list string) (Hl : walks listing).

(** Sealing may stop after any of its actions. *)
Inductive step (d : directory) : event → directory → Prop :=
  | step_seal seq source summary acts k :
      seal listing seq source summary d = Ok acts → step d (Sealing seq (sealed_tree seq source summary)) (run (take k acts) d)
  | step_gc keep_last : step d (Collecting keep_last) (run (gc_actions listing keep_last d) d).

Inductive reachable : list event → directory → Prop :=
  | reachable_empty : reachable [] ∅
  | reachable_step h d e d' : reachable h d → step d e d' → reachable (h ++ [e]) d'.

(** The three kinds of entry of a store. *)
Inductive entry_ok (h : list event) : string → node → Prop :=
  | entry_sealed s t : Sealing s t ∈ h → t !! ".complete" = Some (pretty s) → entry_ok h (seq_name s) (Dir t)
  | entry_tmp s t : entry_ok h (tmp_name s) (Dir t)
  | entry_pointer name (s : Z) : name ∈ ["latest"; ".latest.tmp"] → entry_ok h name (File (pretty s)).

Definition store_ok (h : list event) (d : directory) : Prop := ∀ name n, d !! name = Some n → entry_ok h name n.

Lemma entry_later h e name n : entry_ok h name n → entry_ok (h ++ [e]) name n.
Proof using Type.
  intros H. destruct H; [apply entry_sealed|apply entry_tmp|by apply entry_pointer]; [apply elem_of_app; by left|done].
Qed.

Lemma sealed_tree_complete seq source summary : sealed_tree seq source summary !! ".complete" = Some (pretty seq).
Proof using Type. apply lookup_insert_eq. Qed.

Lemma seal_keeps h d seq source summary acts k :
  store_ok h d → seal listing seq source summary d = Ok acts →
  store_ok (h ++ [Sealing seq (sealed_tree seq source summary)]) (run (take k acts) d).
Proof using Hl.
  intros Hd Hs name n Hn. destruct (seal_stopped _ Hl _ _ _ _ _ k Hs) as [[Hsame Htmp]|[[Hw Ht Ho Hp _] _]].
  - destruct (decide (name = tmp_name seq)) as [->|Hne].
    + destruct n as [text|t]; [by apply Htmp in Hn|apply entry_tmp].
    + rewrite Hsame in Hn by done. by apply entry_later, Hd.
  - destruct (decide (name = tmp_name seq)) as [->|Hne]; [congruence|].
    destruct (decide (name = seq_name seq)) as [->|Hns].
    { rewrite Hw in Hn. injection Hn as <-. apply entry_sealed; [apply elem_of_app; right; list_in|apply sealed_tree_complete]. }
    destruct (decide (name ∈ ["latest"; ".latest.tmp"])) as [Hin|Hin].
    + specialize (Hp name Hin). rewrite Hn in Hp. apply elem_of_cons in Hp as [Hp|Hp]; [by apply entry_later, Hd|].
      apply elem_of_cons in Hp as [Hp|[= ->]%list_elem_of_singleton]; [done|by apply entry_pointer].
    + rewrite Ho in Hn by set_solver. by apply entry_later, Hd.
Qed.

Lemma gc_run keep_last d name :
  run (gc_actions listing keep_last d) d !! name =
    if decide (name ∈ path_for <$> gc_drops keep_last d ∧ is_Some (files_of d name)) then None else d !! name.
Proof using Type. apply (run_removals listing d). Qed.

Lemma history_ok h d : reachable h d → store_ok h d.
Proof using Hl.
  induction 1 as [|h d e d' _ IH Hs]; [intros name n Hn; by rewrite lookup_empty in Hn|].
  destruct Hs as [seq source summary acts k Hs|keep_last]; [by apply seal_keeps|].
  intros name n Hn. rewrite gc_run in Hn. case_decide; [done|]. by apply entry_later, IH.
Qed.

Lemma store_sealed h d s : store_ok h d → s ∈ list_sealed d ↔ ∃ t, d !! seq_name s = Some (Dir t).
Proof using Type.
  intros Hd. rewrite elem_of_sealed. split.
  - intros (name & t & Hn & Hs). pose proof (Hd _ _ Hn) as He. unfold sealed_seq in Hs. cbn [fst snd] in Hs.
    inversion He as [s' t' _ _ Hname| |]; subst.
    + destruct (_ && _); [|done]. rewrite seq_name_parses in Hs. injection Hs as <-. by exists t.
    + unfold tmp_name in Hs. by rewrite starts_with_app in Hs.
  - intros [t Ht]. exists (seq_name s), t. split; [done|]. pose proof (Hd _ _ Ht) as He. unfold sealed_seq. cbn [fst snd].
    assert (is_Some (t !! ".complete")) as [c Hc].
    { inversion He as [s' t' _ Hc Hname|s' t' Hname|]; [by rewrite Hc|]. by destruct (names_distinct s' s). }
    rewrite Hc. cbn [present]. rewrite andb_true_r, seq_name_parses. destruct (starts_with ".tmp_" (seq_name s)) eqn:Hst; [|done].
    apply starts_with_spec in Hst as [r Hr]. exfalso. pose proof (seq_name_parses s) as Hp. rewrite Hr in Hp.
    unfold int_of_text in Hp. rewrite py_strip_visible in Hp; [done|]. rewrite <-Hr. apply visible_name.
Qed.

Lemma list_sealed_NoDup h d : store_ok h d → NoDup (list_sealed d).
Proof using Type.
  intros Hd. unfold list_sealed. rewrite merge_sort_Permutation. apply NoDup_omap_fst; [apply NoDup_fst_map_to_list|].
  assert (∀ x b, x ∈ map_to_list d → sealed_seq x = Some b → x.1 = seq_name b) as Hname.
  { intros [name n] b Hx%elem_of_map_to_list Hb. pose proof (Hd _ _ Hx) as He. unfold sealed_seq in Hb. cbn [fst snd] in *.
    inversion He as [s t _ _| |]; subst; [|unfold tmp_name in Hb; by rewrite starts_with_app in Hb|done].
    destruct (_ && _); [|done]. rewrite seq_name_parses in Hb. by injection Hb as <-. }
  intros x y b Hx Hy Hbx Hby. by rewrite (Hname x b Hx Hbx), (Hname y b Hy Hby).
Qed.

Lemma sealed_increasing h d : store_ok h d → StronglySorted Z.lt (list_sealed d).
Proof using Type. intros Hd. apply sorted_increasing; [apply list_sealed_sorted|by eapply list_sealed_NoDup]. Qed.

(** A step leaves a listed snapshot alone or collects it. *)
Lemma step_keeps h d e d' s :
  store_ok h d → step d e d' → s ∈ list_sealed d →
  d' !! path_for s = d !! path_for s ∨ ∃ keep_last, e = Collecting keep_last ∧ s ∈ gc_drops keep_last d ∧ d' !! path_for s = None.
Proof using Hl.
  intros Hd Hs Hin. destruct Hs as [seq source summary acts k Hs|keep_last].
  - left. apply (store_sealed h) in Hin as [t Ht]; [|done]. unfold path_for.
    destruct (seal_shape _ Hl _ _ _ _ _ Hs) as (_ & _ & _ & _ & Hfree).
    assert (seq_name s ≠ seq_name seq) as Hne by (intros Heq; rewrite Heq, Hfree in Ht; done).
    destruct (seal_stopped _ Hl _ _ _ _ _ k Hs) as [[Hsame _]|[[_ _ Ho _ _] _]].
    + apply Hsame, names_distinct.
    + apply Ho. intros [?|[?|Hp]%elem_of_cons]%elem_of_cons; [by eapply names_distinct|done|by eapply seq_not_pointer].
  - rewrite gc_run. case_decide as Hc; [|by left]. right. exists keep_last. split_and!; [done| |done].
    destruct Hc as [(s' & Heq & Hs')%list_elem_of_fmap _]. apply seq_name_inj in Heq. by subst.
Qed.

Lemma step_lists h d e d' s :
  store_ok h d → store_ok (h ++ [e]) d' → step d e d' → s ∈ list_sealed d' → s ∈ list_sealed d ∨ ∃ t, e = Sealing s t.
Proof using Hl.
  intros Hd Hd' Hs. rewrite (store_sealed (h ++ [e]) d') by done. rewrite (store_sealed h d) by done. intros [t Ht].
  destruct Hs as [seq source summary acts k Hs|keep_last].
  - destruct (decide (s = seq)) as [->|Hne]; [right; by eexists|left].
    assert (seq_name s ≠ seq_name seq) as Hn by (by intros ?%seq_name_inj). exists t. rewrite <-Ht. symmetry.
    destruct (seal_stopped _ Hl _ _ _ _ _ k Hs) as [[Hsame _]|[[_ _ Ho _ _] _]]; [apply Hsame, names_distinct|].
    apply Ho. intros [?|[?|Hp]%elem_of_cons]%elem_of_cons; [by eapply names_distinct|done|by eapply seq_not_pointer].
  - left. rewrite gc_run in Ht. case_decide; [done|]. by exists t.
Qed.

Lemma gc_drops_prefix keep_last d : gc_drops keep_last d `prefix_of` list_sealed d.
Proof using Type.
  unfold gc_drops, all_but_last. cbv zeta. destruct (_ <=? _)%Z; [apply prefix_nil|]. eexists. symmetry. apply take_drop.
Qed.

(** Collection leaves exactly the snapshots after the dropped ones. *)
Lemma gc_leaves h d keep_last :
  store_ok h d → list_sealed d = gc_drops keep_last d ++ list_sealed (run (gc_actions listing keep_last d) d).
Proof using Type.
  intros Hd. set (d' := run _ d). assert (store_ok h d') as Hd'.
  { intros name n Hn. unfold d' in Hn. rewrite gc_run in Hn. case_decide; [done|by apply Hd]. }
  destruct (gc_drops_prefix keep_last d) as [rest Hrest]. rewrite Hrest at 1. f_equal.
  pose proof (list_sealed_NoDup _ _ Hd) as Hnd. pose proof (list_sealed_sorted d) as Hso. rewrite Hrest in Hnd, Hso.
  apply NoDup_app in Hnd as (_ & Hdis & Hnd). apply StronglySorted_app_1_r in Hso.
  apply (StronglySorted_unique Z.le); [done|apply list_sealed_sorted|].
  apply NoDup_Permutation; [done|by eapply list_sealed_NoDup|]. intros s.
  assert (s ∈ list_sealed d ↔ s ∈ gc_drops keep_last d ∨ s ∈ rest) as Hin by (rewrite Hrest at 1; apply elem_of_app).
  rewrite (store_sealed h d') by done. rewrite (store_sealed h d) in Hin by done. unfold d'. rewrite gc_run. split.
  - intros Hs. destruct (proj2 Hin (or_intror Hs)) as [t Ht]. exists t. rewrite decide_False; [done|].
    intros [(s' & Heq & Hs')%list_elem_of_fmap _]. apply seq_name_inj in Heq. subst s'. by apply (Hdis s).
  - intros [t Ht]. case_decide as Hc; [done|]. destruct (proj1 Hin (ex_intro _ t Ht)) as [Hs|Hs]; [|done].
    destruct Hc. split; [by apply list_elem_of_fmap_2|]. unfold files_of. rewrite Ht. by eexists.
Qed.
End history.

(** ** The protocol *)


(** *** A store in use *)

Lemma name_order_walks : walks name_order.
Proof. by intros files. Qed.

Lemma reachable_seal h d seq source summary acts :
  reachable name_order h d → seal name_order seq source summary d = Ok acts →
  reachable name_order (h ++ [Sealing seq (sealed_tree seq source summary)]) (run acts d).
Proof.
  intros Hr Hs. eapply reachable_step; [exact Hr|]. rewrite <-(firstn_all acts) at 1. by apply step_seal.
Qed.

Definition actions_of (r : res string (list action)) : list action := match r with Ok l => l | Err _ => [] end.

Definition sealing (seq : Z) (d : directory) : list action := actions_of (seal name_order seq (Some demo_source) None d).

Definition demo_store (count : nat) : directory := seal_all (Z.of_nat <$> seq 1 count).

(** The second sealing stopped between the rename and the pointer. *)
Definition torn_store : directory :=
  let d := demo_store 1 in let acts := sealing 2 d in run (take (length acts - 2) acts) d.

Definition demo_event (seq : Z) : event := Sealing seq (sealed_tree seq (Some demo_source) None).

Lemma torn_reachable : reachable name_order [demo_event 1; demo_event 2] torn_store.
Proof.
  apply (reachable_step _ [demo_event 1] (demo_store 1)).
  - assert (demo_store 1 = run (sealing 1 ∅) ∅) as -> by (by vm_compute).
    apply (reachable_seal [] ∅ 1 (Some demo_source) None); [constructor|by vm_compute].
  - unfold torn_store. cbv zeta. apply step_seal. by vm_compute.
Qed.


(** Tasks number a snapshot after the pointer. A sealing cut short before the pointer
    moved leaves a store in which every later task fails: its number is taken. *)
Theorem torn_pointer_blocks (source : tree) (summary : string) :
  (∃ h, reachable name_order h torn_store) ∧
  seal_next name_order source summary torn_store = Err "Snapshot seq 2 already sealed".
Proof. split; [by eexists; apply torn_reachable|]. by vm_compute. Qed.

(** Collection removes a snapshot file by file, so one cut short leaves a listed
    snapshot with files missing. *)
Theorem torn_collection_shows_partial :
  let d := demo_store 2 in
  let d' := run (take 1 (gc_actions name_order 1 d)) d in
  list_sealed d' = [1%Z; 2%Z] ∧ d' !! path_for 1 ≠ d !! path_for 1 ∧ is_Some (files_of d' (path_for 1)).
Proof. cbv zeta. split_and!; [by vm_compute| |vm_compute; by eexists]. apply (bool_decide_unpack _). by vm_compute. Qed.

(** The pointer follows the last sealing, not the greatest number, and collection does
    not look at it. *)
Theorem collected_pointer_dangles :
  let d := seal_all [5%Z; 3%Z] in
  let d' := run (gc_actions name_order 1 d) d in
  latest d' = Some 3%Z ∧ list_sealed d' = [5%Z].
Proof. by vm_compute. Qed.
