(* ===== verification/PublicOutputs.v ===== *)
(** [core/public_outputs.py]: what task outputs, errors and artifacts may show to
    clients. Texts are ASCII. Every [ValueError] of [urllib.parse] is [Invalid IPv6 URL],
    the one the program can meet. Before it, Python's [re] as far as the program uses it:
    a backtracking matcher over the syntax of its patterns, with [search], [fullmatch],
    [sub], [findall] and [split]. *)
From S2P Require Import Prelude PyValue HubManifest ArtifactVocab Conversion Artifacts.
From stdpp Require Import options.
Import Artifacts.

Module Regex.

(** ** Patterns *)

Inductive re : Type :=
  | Eps
  | Set_ (p : ascii → bool)
  | Seq (r1 r2 : re)
  | Alt (r1 r2 : re)
  | Star (r : re)
  | WordB
  | Bol
  | Eol
  | NotBehind (p : ascii → bool)
  | NotAhead (r : re).

(** Where a matcher stands: the character before, and the text from here on. *)
Abbreviation position := (option ascii * string)%type.

Definition between (lo hi a : ascii) : bool := (nat_of_ascii lo <=? nat_of_ascii a) && (nat_of_ascii a <=? nat_of_ascii hi).
Definition is_lower (a : ascii) : bool := between "a" "z" a.
Definition is_upper (a : ascii) : bool := between "A" "Z" a.
Definition is_letter (a : ascii) : bool := is_lower a || is_upper a.
Definition is_digit (a : ascii) : bool := between "0" "9" a.
Definition is_word (a : ascii) : bool := is_letter a || is_digit a || bool_decide (a = "_"%char).
Definition is_space (a : ascii) : bool := between "009" "013" a || between "028" " " a.
Definition among (l : list ascii) (a : ascii) : bool := bool_decide (a ∈ l).

Definition lower (a : ascii) : ascii := if is_upper a then ascii_of_nat (nat_of_ascii a + 32) else a.

Definition word_at (p : option ascii) : bool := match p with Some a => is_word a | None => false end.
Definition first_char (s : string) : option ascii := match s with String a _ => Some a | EmptyString => None end.

(** Repetition takes as much as it can first; a round that consumes nothing ends it. *)
Fixpoint star (m : position → list position) (fuel : nat) (st : position) : list position :=
  match fuel with
  | O => [st]
  | S fuel => (m st ≫= λ st', if decide (String.length st'.2 < String.length st.2) then star m fuel st' else []) ++ [st]
  end.

(** The ends of the matches from a position, in the order [re] tries them. *)
Fixpoint ends (r : re) (st : position) : list position :=
  match r with
  | Eps => [st]
  | Set_ p => match st.2 with String a s => if p a then [(Some a, s)] else [] | EmptyString => [] end
  | Seq r1 r2 => ends r1 st ≫= ends r2
  | Alt r1 r2 => ends r1 st ++ ends r2 st
  | Star r => star (ends r) (String.length st.2) st
  | WordB => if xorb (word_at st.1) (word_at (first_char st.2)) then [st] else []
  | Bol => match st.1 with None => [st] | Some _ => [] end
  | Eol => if decide (st.2 = "" ∨ st.2 = String "010" "") then [st] else []
  | NotBehind p => match st.1 with Some a => if p a then [] else [st] | None => [st] end
  | NotAhead r => match ends r st with [] => [st] | _ => [] end
  end.

Definition Opt (r : re) : re := Alt r Eps.
Definition Plus (r : re) : re := Seq r (Star r).
Definition Alts (rs : list re) : re := match rs with [] => Set_ (λ _, false) | r :: rs => foldl Alt r rs end.
Definition Seqs (rs : list re) : re := foldr Seq Eps rs.

Fixpoint lit (s : string) : re := match s with EmptyString => Eps | String a s => Seq (Set_ (λ b, bool_decide (b = a))) (lit s) end.

(** A literal under [re.IGNORECASE]. *)
Fixpoint lit_i (s : string) : re :=
  match s with EmptyString => Eps | String a s => Seq (Set_ (λ b, bool_decide (lower b = lower a))) (lit_i s) end.

(** ** Matching *)

(** Each position of a text, the end included. *)
Fixpoint positions (prev : option ascii) (s : string) : list position :=
  (prev, s) :: match s with EmptyString => [] | String a s => positions (Some a) s end.

Definition match_here (r : re) (st : position) : option position := head (ends r st).

(** [r.search(s)] *)
Definition re_search (r : re) (s : string) : bool := existsb (λ st, negb (bool_decide (ends r st = []))) (positions None s).

(** [r.match(s)] *)
Definition match_start (r : re) (s : string) : bool := negb (bool_decide (ends r (None, s) = [])).

(** [r.fullmatch(s)] *)
Definition fullmatch (r : re) (s : string) : bool := existsb (λ st : position, bool_decide (st.2 = "")) (ends r (None, s)).

(** The text between two positions. *)
Definition consumed (s rest : string) : string := String.substring 0 (String.length s - String.length rest) s.

(** The chunks of a text: matches, leftmost first and apart from each other, and the
    text between them. For patterns that match no empty text. *)
Fixpoint chunks (r : re) (fuel : nat) (st : position) : list (ascii + string) :=
  match fuel with
  | O => []
  | S fuel =>
      match st.2 with
      | EmptyString => []
      | String a s =>
          match match_here r st with
          | Some st' => inr (consumed st.2 st'.2) :: chunks r fuel st'
          | None => inl a :: chunks r fuel (Some a, s)
          end
      end
  end.

Definition match_chunks (r : re) (s : string) : list (ascii + string) := chunks r (S (String.length s)) (None, s).

Fixpoint concat_chunks (new : string) (l : list (ascii + string)) : string :=
  match l with
  | [] => ""
  | inl a :: l => String a (concat_chunks new l)
  | inr _ :: l => new +:+ concat_chunks new l
  end.

(** [r.sub(new, s)] *)
Definition sub (r : re) (new s : string) : string := concat_chunks new (match_chunks r s).

(** [r.findall(s)] *)
Definition findall (r : re) (s : string) : list string := omap (λ c, match c with inr m => Some m | inl _ => None end) (match_chunks r s).

(** [re.split] on single characters. *)
Fixpoint split_any (p : ascii → bool) (s : string) : list string :=
  match s with
  | EmptyString => [""]
  | String a s =>
      if p a then "" :: split_any p s
      else match split_any p s with [] => [String a ""] | w :: ws => String a w :: ws end
  end.

Example greedy : sub (Plus (Set_ is_digit)) "#" "a12b3" = "a#b#".
Proof. by vm_compute. Qed.

Example boundary : re_search (Seqs [WordB; lit_i "key"; WordB]) "the KEY." = true ∧ re_search (Seqs [WordB; lit_i "key"; WordB]) "keys" = false.
Proof. by vm_compute. Qed.

End Regex.

Import Regex.

#[local] Arguments String.append !_ _ / : simpl nomatch.

Module PublicOutputs.

(** ** Patterns *)

(** What goes on with a URL: no white space, quote, closing bracket or comma; and what
    goes on with a path. *)
Definition url_tail (a : ascii) : bool := negb (is_space a || among ["034"; "'"; ")"; ">"; ","]%char a).
Definition path_tail (a : ascii) : bool := url_tail a && negb (bool_decide (a = ";"%char)).
Definition scheme_char (a : ascii) : bool := is_letter a || is_digit a || among ["+"; "."; "-"]%char a.

Definition _PUBLIC_URL_RE : re :=
  Seqs [WordB; Set_ is_letter; Star (Set_ scheme_char); lit "://"; Plus (Set_ url_tail)].

Definition _PUBLIC_WIN_PATH_RE : re := Seqs [WordB; Set_ is_letter; lit ":"; Set_ path_sep; Plus (Set_ url_tail)].

Definition _PUBLIC_POSIX_PATH_RE : re :=
  Seqs [NotBehind (λ a, is_word a || among ["."; ":"; "/"]%char a); lit "/";
        NotAhead (Alt (Seqs [lit "v"; Plus (Set_ is_digit); Alt (lit "/") Eol]) (lit "/")); Star (Set_ path_tail)].

Definition _PUBLIC_BACKSLASH_PATH_RE : re :=
  Seqs [NotBehind (λ a, is_word a || among ["."; ":"; "/"; "\"]%char a); lit "\"; Star (Set_ path_tail)].

(** [a[sep]?b] in any case. *)
Definition joint (seps : list ascii) (a b : string) : re := Seqs [lit_i a; Opt (Set_ (among seps)); lit_i b].
Definition dashed : string → string → re := joint ["_"; "-"]%char.

Definition _PUBLIC_DROP_KEY_RE : re :=
  Alts ([joint ["_"]%char "host" "path"; joint ["_"]%char "local" "path"; joint ["_"]%char "sealed" "path"] ++
        (lit_i <$> ["workspace"; "mount"; "env"; "secret"; "token"; "password"; "authorization"; "cookie"]) ++
        [dashed "api" "key"; dashed "access" "key"; lit_i "accesskey"; lit_i "credential"; lit_i "credentials"; lit_i "bearer";
         dashed "private" "key"; dashed "client" "secret"] ++
        (lit_i <$> ["x-amz"; "x-goog-signature"; "awsaccesskeyid"; "googleaccessid"; "signature"; "sigv4"]) ++
        [Seqs [Bol; lit_i "sig"; Eol]; lit_i "response_body"; lit_i "body"]).

Definition _PUBLIC_SENSITIVE_KEY_RE : re :=
  Alts (lit_i <$> ["url"; "uri"; "path"; "root"; "key"; "secret"; "credential"; "authorization"; "bearer"]).

Definition _PUBLIC_PRIVATE_MARKERS : list string :=
  ["SFMAPI_"; "_container_services"; "_bridge_backend_actions"; "host_path"; "sealed_path"].

Definition _PUBLIC_SECRET_TEXT_RE : re :=
  Alts ((lit_i <$> ["SECRET"; "TOKEN"; "PASSWORD"; "AUTHORIZATION"; "BEARER"]) ++
        [dashed "API" "KEY"; dashed "ACCESS" "KEY"; dashed "CLIENT" "SECRET"; dashed "PRIVATE" "KEY"; lit_i "CREDENTIAL"; lit_i "SFMAPI_"]).

Definition _REMOTE_URI_SENSITIVE_QUERY_RE : re :=
  Alts ((lit_i <$> ["token"; "secret"; "password"; "signature"; "credential"; "credentials"; "authorization"]) ++
        [dashed "access" "key"; lit_i "accesskey"; dashed "api" "key"; lit_i "apikey"; dashed "private" "key"; dashed "client" "secret"] ++
        (lit_i <$> ["x-amz"; "x-goog-signature"; "awsaccesskeyid"; "googleaccessid"; "sigv4"; "sig"; "bearer"]) ++
        [Seqs [Bol; lit_i "key"; Eol]]).

Definition _SIGNED_PARAM_TEXT_RE : re :=
  Seqs [Alt Bol (Set_ (λ a, among ["?"; "&"; "#"; ";"; ","]%char a || is_space a));
        Alts (Seqs [lit_i "x-amz-"; Star (Set_ (λ a, is_word a || bool_decide (a = "-"%char)))] ::
              (lit_i <$> ["x-goog-signature"; "awsaccesskeyid"; "googleaccessid"; "signature"; "sigv4"; "sig"]));
        Star (Set_ is_space); Set_ (among [":"; "="]%char)].

Definition lower_hex (a : ascii) : bool := is_digit a || between "a" "f" a.
Definition _LEGACY_IPV4_LABEL_RE : re := Alt (Seq (lit "0x") (Plus (Set_ lower_hex))) (Plus (Set_ is_digit)).

(** ** Texts *)

(** [part in s] *)
Fixpoint contains (part s : string) : bool :=
  starts_with part s || match s with EmptyString => false | String _ s => contains part s end.

Definition _contains_public_private_marker (text : string) : bool :=
  existsb (λ marker, contains (str_lower marker) (str_lower text)) _PUBLIC_PRIVATE_MARKERS.

Definition _legacy_numeric_ipv4_host (normalized : string) : bool :=
  let labels := split_on "." normalized in
  (1 <? length labels) && forallb (fullmatch _LEGACY_IPV4_LABEL_RE) labels.

(** *** [urllib.parse] *)

Definition percent_digit (a : ascii) : option nat :=
  if is_digit a then Some (nat_of_ascii a - 48)
  else if between "a" "f" a then Some (nat_of_ascii a - 87)
  else if between "A" "F" a then Some (nat_of_ascii a - 55)
  else None.

Fixpoint unquote (s : string) : string :=
  match s with
  | String "%" (String a (String b rest) as tail) =>
      match percent_digit a, percent_digit b with
      | Some x, Some y => String (ascii_of_nat (16 * x + y)) (unquote rest)
      | _, _ => String "%" (unquote tail)
      end
  | String a s => String a (unquote s)
  | EmptyString => ""
  end.

Fixpoint replace_char (old new : ascii) (s : string) : string :=
  match s with EmptyString => "" | String a s => String (if decide (a = old) then new else a) (replace_char old new s) end.

Definition unquote_plus (s : string) : string := unquote (replace_char "+" " " s).

Fixpoint drop_chars (p : ascii → bool) (s : string) : string :=
  match s with EmptyString => "" | String a s => if p a then drop_chars p s else String a (drop_chars p s) end.
Fixpoint lstrip_chars (p : ascii → bool) (s : string) : string :=
  match s with EmptyString => "" | String a rest => if p a then lstrip_chars p rest else s end.

(** The text before the first character of a class, and the rest from it on. *)
Fixpoint span (stop : ascii → bool) (s : string) : string * string :=
  match s with
  | EmptyString => ("", "")
  | String a rest => if stop a then ("", s) else (String a (span stop rest).1, (span stop rest).2)
  end.

Definition is_char (c : ascii) : ascii → bool := λ a, bool_decide (a = c).
Definition tail (s : string) : string := match s with EmptyString => "" | String _ s => s end.

(** [s.split(c, 1)]: the text before [c] and after it. *)
Definition cut (c : ascii) (s : string) : string * string := let '(a, b) := span (is_char c) s in (a, tail b).

Record parsed_url : Type := mkUrl {
  scheme : string;
  netloc : string;
  path : string;
  params : string;
  query : string;
  fragment : string
}.

Definition uses_params : list string :=
  [""; "ftp"; "hdl"; "prospero"; "http"; "imap"; "https"; "shttp"; "rtsp"; "rtspu"; "sip"; "sips"; "mms"; "sftp"; "tel"].

Definition _splitparams (url : string) : string * string :=
  match rsplit1 slash url with
  | Some (before, last) => let '(a, b) := cut ";" last in (before +:+ "/" +:+ a, b)
  | None => cut ";" url
  end.

(** How a value is read: as it comes, as an artifact descriptor, as a file reference. *)
Inductive mode : Type := Plain | Descriptor | FileRef.

(** A member of a dict with what each mode makes of its value. *)
Abbreviation member := (string * value * (mode → res string value))%type.

Section with_stdlib.
(** [_check_bracketed_netloc] of a netloc with both brackets; the classification of
    [ipaddress.ip_address]: [None] for no address, else whether it is private,
    loopback, link-local, reserved, multicast, unspecified or carrier NAT; and
    [normcase(abspath(p))]. *)
Context (bracketed_ok : string → bool) (internal_ip : string → option bool) (absolute : string → string).

Definition urlparse (url : string) : res string parsed_url :=
  let url := lstrip_chars (between "000" " ") url in
  let url := drop_chars (among ["009"; "013"; "010"]%char) url in
  let '(before, after) := span (is_char ":") url in
  let '(scheme, url) :=
    if first_is is_letter before && Manifest.all_chars scheme_char before && negb (bool_decide (after = ""))
    then (str_lower before, tail after) else ("", url) in
  let '(netloc, url) :=
    if starts_with "//" url then span (among ["/"; "?"; "#"]%char) (remove_prefix "//" url) else ("", url) in
  let opened := str_mem "[" netloc in
  let closed := str_mem "]" netloc in
  _ ← raise_if (xorb opened closed || (opened && closed && negb (bracketed_ok netloc))) "Invalid IPv6 URL";
  let '(url, fragment) := cut "#" url in
  let '(url, query) := cut "?" url in
  let '(path, params) := if bool_decide (scheme ∈ uses_params) && str_mem ";" url then _splitparams url else (url, "") in
  Ok (mkUrl scheme netloc path params query fragment).

(** [netloc.rpartition("@")]: the part before, if there is one, and after. *)
Definition userinfo (u : parsed_url) : option string := fst <$> rsplit1 "@" (netloc u).
Definition hostinfo (u : parsed_url) : string := match rsplit1 "@" (netloc u) with Some (_, h) => h | None => netloc u end.

Definition username (u : parsed_url) : string := match userinfo u with Some i => (cut ":" i).1 | None => "" end.
Definition password (u : parsed_url) : string := match userinfo u with Some i => (cut ":" i).2 | None => "" end.

Definition hostname (u : parsed_url) : option string :=
  let h := hostinfo u in
  let name := if str_mem "[" h then (cut "]" (cut "[" h).2).1 else (cut ":" h).1 in
  if decide (name = "") then None
  else let '(host, zone) := span (is_char "%") name in Some (str_lower host +:+ zone).

(** *** Pairs of a query *)

Definition query_pair (part : string) : string * string := let '(k, v) := cut "=" part in (unquote_plus k, unquote_plus v).

Definition _remote_query_pairs (query : string) : list (string * string) :=
  query_pair <$> filter (λ part, part ≠ "") (split_any (among ["&"; ";"]%char) query).

(** The text and its decodings, twice at most. *)
Fixpoint decodings (decode : string → string) (rounds : nat) (current : string) (variants : list string) : list string :=
  match rounds with
  | O => variants
  | S rounds =>
      let decoded := decode current in
      if decide (decoded = current) then variants
      else decodings decode rounds decoded (if decide (decoded ∈ variants) then variants else variants ++ [decoded])
  end.

Definition add_pair (pairs : list (string * string)) (p : string * string) : list (string * string) :=
  if decide (p ∈ pairs) then pairs else pairs ++ [p].

Definition param_parts (variant : string) (delimiter : ascii) : list string :=
  if str_mem delimiter variant
  then filter (λ part, part ≠ "") (split_any (among ["&"; ";"; "#"]%char) (cut delimiter variant).2) else [].

Definition _remote_path_param_pairs (path : string) : list (string * string) :=
  foldl add_pair []
    (query_pair <$> (decodings unquote 2 path [path] ≫= λ variant, [";"; "?"; "#"]%char ≫= param_parts variant)).

Definition sensitive_part (re : re) (key item : string) : bool :=
  let decoded_item := unquote_plus item in re_search re key || re_search re item || re_search re decoded_item.

Definition _public_remote_pair_is_sensitive (p : string * string) : bool :=
  let '(key, item) := p in
  sensitive_part _REMOTE_URI_SENSITIVE_QUERY_RE key item || sensitive_part _PUBLIC_SECRET_TEXT_RE key item ||
  _contains_public_private_marker key || _contains_public_private_marker item ||
  _contains_public_private_marker (unquote_plus item).

(** ** Artifact references *)

Definition path_with_params (u : parsed_url) : string :=
  path u +:+ (if decide (params u = "") then "" else ";" +:+ params u).

Definition private_text (text : string) : bool := re_search _PUBLIC_SECRET_TEXT_RE text || _contains_public_private_marker text.

Definition is_drive (s : string) : bool :=
  match s with String a (String ":" _) => is_letter a | _ => false end.

(** The path a local reference names. *)
Definition _local_reference_path (s : string) : res string (option string) :=
  if decide (s = "") then Ok None
  else if _PUBLIC_API_PATH_RE s then Ok None
  else if starts_with "file://" (str_lower s) then
    u ← urlparse s;
    let raw := unquote (path u) in
    let raw := if decide (netloc u = "") then raw else "//" +:+ netloc u +:+ raw in
    Ok (Some (match raw with String "/" rest => if is_drive rest then rest else raw | _ => raw end))
  else if _has_url_scheme s then Ok None
  else if first_is path_sep s || str_mem backslash s then Ok (Some s)
  else if is_drive s then Ok (Some s)
  else Ok None.

Definition _same_local_reference (s public_content_path : string) : res string bool :=
  candidate ← _local_reference_path s;
  match candidate with
  | None => Ok false
  | Some c =>
      if decide (public_content_path = "") then Ok false
      else Ok (bool_decide (absolute c = absolute public_content_path))
  end.

Definition ends_with (suffix s : string) : bool :=
  bool_decide (String.length suffix ≤ String.length s) &&
  bool_decide (String.substring (String.length s - String.length suffix) (String.length suffix) s = suffix).

Fixpoint rstrip_dots (s : string) : string :=
  match s with
  | EmptyString => ""
  | String a rest => if Manifest.all_chars (is_char ".") s then "" else String a (rstrip_dots rest)
  end.

Definition _private_network_artifact_host (u : parsed_url) : bool :=
  if decide (scheme u = "http") then true
  else if decide (scheme u ≠ "https") then false
  else
    match hostname u with
    | None => true
    | Some host =>
        let normalized := str_lower (rstrip_dots host) in
        if negb (Manifest.all_chars (between "000" "127") normalized) then true
        else if decide (normalized ∈ ["localhost"; "host.docker.internal"; "gateway.docker.internal"]) then true
        else if str_mem "%" normalized then true
        else if ends_with ".localhost" normalized || ends_with ".local" normalized || ends_with ".internal" normalized ||
                negb (str_mem "." normalized) then true
        else
          match internal_ip normalized with
          | None => fullmatch (Plus (Set_ (λ a, is_digit a || bool_decide (a = "."%char)))) normalized ||
                    _legacy_numeric_ipv4_host normalized
          | Some internal => internal
          end
    end.

Definition sanitize_public_artifact_uri (s : string) : res string (option string) :=
  if decide (s = "") then Ok None
  else if _is_local_artifact_reference s || _is_local_uri s then Ok None
  else if private_text s then Ok None
  else
    u ← urlparse s;
    Ok (if decide (scheme u = "file") then None
        else if _private_network_artifact_host u then None
        else if private_text (unquote (path_with_params u)) then None
        else if existsb _public_remote_pair_is_sensitive (_remote_path_param_pairs (path_with_params u)) then None
        else if negb (bool_decide (username u = "") && bool_decide (password u = "")) then None
        else if existsb _public_remote_pair_is_sensitive (_remote_query_pairs (query u)) then None
        else if existsb _public_remote_pair_is_sensitive (_remote_query_pairs (fragment u)) then None
        else Some (py_take 2048 s)).

(** ** Redaction *)

(** As [decodings], stopping at long texts. *)
Fixpoint text_decodings (rounds : nat) (current : string) (variants : list string) : list string :=
  match rounds with
  | O => variants
  | S rounds =>
      if decide (4096 < py_len current) then variants
      else
        let decoded := unquote_plus current in
        if decide (decoded = current) then variants
        else text_decodings rounds decoded (if decide (decoded ∈ variants) then variants else variants ++ [decoded])
  end.

Definition _public_text_variants (text : string) : list string := text_decodings 2 text [text].

(** [any(f(x) for x in l)], where [f] may raise. *)
Fixpoint any_res {A} (f : A → res string bool) (l : list A) : res string bool :=
  match l with
  | [] => Ok false
  | x :: l => f x ≫= λ b : bool, if b then Ok true else any_res f l
  end.

Definition url_is_sensitive (url : string) : res string bool :=
  u ← urlparse url;
  Ok (negb (bool_decide (username u = "")) || negb (bool_decide (password u = "")) ||
      private_text (unquote (path_with_params u)) ||
      existsb _public_remote_pair_is_sensitive (_remote_path_param_pairs (path_with_params u)) ||
      existsb _public_remote_pair_is_sensitive (_remote_query_pairs (query u)) ||
      existsb _public_remote_pair_is_sensitive (_remote_query_pairs (fragment u))).

Definition _remote_uri_text_is_sensitive (text : string) : res string bool := any_res url_is_sensitive (findall _PUBLIC_URL_RE text).

Definition _signed_param_text_is_sensitive (text : string) : bool := re_search _SIGNED_PARAM_TEXT_RE text.

Definition url_or_path (text : string) : bool :=
  re_search _PUBLIC_URL_RE text || re_search _PUBLIC_WIN_PATH_RE text || re_search _PUBLIC_POSIX_PATH_RE text ||
  re_search _PUBLIC_BACKSLASH_PATH_RE text.

Definition redacted : string := "<redacted>".

Definition replace_private (text : string) : string :=
  let text := sub _PUBLIC_URL_RE redacted text in
  let text := sub _PUBLIC_WIN_PATH_RE redacted text in
  let text := sub _PUBLIC_POSIX_PATH_RE redacted text in
  sub _PUBLIC_BACKSLASH_PATH_RE redacted text.

Definition hard_private (raw_had_url_or_path : bool) (variant : string) : res string bool :=
  if private_text variant || _signed_param_text_is_sensitive variant then Ok true
  else sensitive ← _remote_uri_text_is_sensitive variant; Ok (sensitive && negb raw_had_url_or_path).

(** On a text; [key] is [None] or the key it is stored under. *)
Definition _redact_public_text (key : option string) (text : string) : res string string :=
  let key_sensitive := match key with Some k => negb (bool_decide (k = "")) && re_search _PUBLIC_SENSITIVE_KEY_RE k | None => false end in
  let variants := _public_text_variants text in
  let raw_had_url_or_path := url_or_path text in
  let had_url_or_path := existsb url_or_path variants in
  hard ← any_res (hard_private raw_had_url_or_path) variants;
  let text := replace_private text in
  if hard || (had_url_or_path && negb raw_had_url_or_path) || (key_sensitive && had_url_or_path) then Ok redacted
  else Ok (py_take 2000 text).

Definition sanitize_public_artifact_name (s : string) : res string (option string) :=
  let text := if _is_local_artifact_reference s || _is_local_uri s then _base_name s else s in
  text ← _redact_public_text (Some "name") text;
  Ok (if decide (text = "") then None else Some (py_take 255 text)).

(** ** Outputs *)

Definition _PUBLIC_FILE_REF_KEYS : list string := ["media_type"; "sha256"; "byte_size"].

Definition m_key (m : member) : string := m.1.1.
Definition m_value (m : member) : value := m.1.2.
Definition m_read (m : member) (how : mode) : res string value := m.2 how.

Fixpoint member_get (k : string) (ms : list member) : option member :=
  match ms with [] => None | m :: ms => if decide (m_key m = k) then Some m else member_get k ms end.

(** [out[key] = text], if there is a text. *)
Definition put_text (key : string) (text : option string) (out : dict value) : dict value :=
  match text with Some t => if decide (t = "") then out else dict_set key (VStr t) out | None => out end.

Definition str_of (v : option value) : option string := match v with Some (VStr s) => Some s | _ => None end.

Definition lifted_name (s : string) (out : dict value) : res string (dict value) :=
  name ← sanitize_public_artifact_name s; Ok (put_text "name" name out).

Definition put_file_key (ms : list member) (out : dict value) (key : string) : res string (dict value) :=
  match member_get key ms with
  | Some m => v ← m_read m Plain; Ok (dict_set key v out)
  | None => Ok out
  end.

Definition _sanitize_public_file_ref (ms : list member) : res string value :=
  let get k := str_of (m_value <$> member_get k ms) in
  out ← match get "name", get "path" with
        | Some name, _ => lifted_name name []
        | None, Some path => if _is_local_uri path then lifted_name path [] else Ok []
        | None, None => Ok []
        end;
  out ← match get "uri" with
        | Some uri =>
            if _is_local_uri uri then if dict_mem "name" out then Ok out else lifted_name uri out
            else public ← sanitize_public_artifact_uri uri; Ok (put_text "uri" public out)
        | None => Ok out
        end;
  out ← fold_res (put_file_key ms) out _PUBLIC_FILE_REF_KEYS;
  Ok (VDict out).

Definition dropped_key (key : string) : bool := re_search _PUBLIC_DROP_KEY_RE key || _contains_public_private_marker key.

(** Each item of a list member. *)
Definition is_list_value (v : value) : bool := match v with VList _ => true | _ => false end.
Definition is_dict_value (v : value) : bool := match v with VDict _ => true | _ => false end.

Definition sanitize_member (how : mode) (ms : list member) (out : dict value) (m : member) : res string (dict value) :=
  let key := m_key m in
  let descriptor := match how with Descriptor => true | _ => false end in
  let has k := match member_get k ms with Some _ => true | None => false end in
  if dropped_key key then Ok out
  else if decide (key ∈ ["host_path"; "workspace"]) then Ok out
  else if bool_decide (key = "url") && has "plugin_id" && has "provider" then Ok out
  else
    match m_value m with
    | VStr s =>
        if bool_decide (key ∈ ["path"; "uri"]) && _is_local_uri s then
          if decide (key = "path") then
            Ok (match str_of (m_value <$> member_get "name" ms) with Some _ => out | None => dict_set "name" (VStr (_base_name s)) out end)
          else Ok (dict_set key VNone out)
        else if descriptor && bool_decide (key = "uri") && negb (_is_local_artifact_reference s) then
          public ← sanitize_public_artifact_uri s; Ok (put_text key public out)
        else if _is_local_uri s && (contains "path" key || contains "file" key) then
          if descriptor then Ok (dict_set key (VStr (_base_name s)) out)
          else text ← _redact_public_text (Some key) s; Ok (dict_set key (VStr text) out)
        else text ← _redact_public_text (Some key) s; Ok (dict_set key (VStr text) out)
    | v =>
        let reading :=
          if bool_decide (key = "artifacts") && is_list_value v then Descriptor
          else if descriptor && bool_decide (key = "files") && is_list_value v then FileRef
          else if descriptor && bool_decide (key = "metadata") && is_dict_value v then Descriptor
          else Plain in
        v ← m_read m reading; Ok (dict_set key v out)
    end.

Fixpoint _sanitize_public_outputs (v : value) (how : mode) : res string value :=
  match v with
  | VList l =>
      items ← (fix go (l : list value) : res string (list value) :=
                 match l with [] => Ok [] | v :: l => x ← _sanitize_public_outputs v how; xs ← go l; Ok (x :: xs) end) l;
      Ok (VList items)
  | VStr s => text ← _redact_public_text None s; Ok (VStr text)
  | VDict d =>
      let ms := (fix go (d : list (string * value)) : list member :=
                   match d with [] => [] | (k, v) :: d => (k, v, _sanitize_public_outputs v) :: go d end) d in
      match how with
      | FileRef => _sanitize_public_file_ref ms
      | _ => out ← fold_res (sanitize_member how ms) [] ms; Ok (VDict out)
      end
  | v => Ok v
  end.

Definition sanitize_public_outputs (v : value) : res string value := _sanitize_public_outputs v Plain.

(** *** The files of an artifact *)

(** The name of a text value. *)
Definition name_of (v : option value) : res string (option string) :=
  match str_of v with Some s => sanitize_public_artifact_name s | None => Ok None end.

(** The first of the candidates that gives a name. *)
Fixpoint first_name (candidates : list (option value)) : res string (option string) :=
  match candidates with
  | [] => Ok None
  | v :: candidates => name ← name_of v; match name with Some n => Ok (Some n) | None => first_name candidates end
  end.

Definition content_uri (href content_path reference : string) : res string (option string) :=
  same ← _same_local_reference reference content_path; Ok (if (same : bool) then Some href else None).

Definition public_file_uri (href content_path : string) (file_ref : dict value) : res string (option string) :=
  match str_of (dict_get "uri" file_ref), str_of (dict_get "path" file_ref) with
  | Some uri, _ => if _is_local_artifact_reference uri then content_uri href content_path uri else sanitize_public_artifact_uri uri
  | None, Some path => if _is_local_artifact_reference path then content_uri href content_path path else Ok None
  | None, None => Ok None
  end.

Definition public_file_ref (href content_path : string) (file_ref : dict value) : res string (option value) :=
  name ← name_of (dict_get "name" file_ref);
  public_uri ← public_file_uri href content_path file_ref;
  name ← match name with Some n => Ok (Some n) | None => first_name [dict_get "path" file_ref; dict_get "uri" file_ref] end;
  match public_uri with
  | None | Some "" => Ok None
  | Some uri =>
      item ← fold_res (λ item key, match dict_get key file_ref with
                                   | Some v => v ← _sanitize_public_outputs v Plain; Ok (dict_set key v item)
                                   | None => Ok item
                                   end)
               [("name", VStr (default "artifact" name)); ("uri", VStr uri)] _PUBLIC_FILE_REF_KEYS;
      Ok (Some (VDict item))
  end.

Definition sanitize_public_artifact_file_refs (href content_path : string) (files : value) : res string (list value) :=
  match files with
  | VList l =>
      fold_res (λ public file_ref,
        match file_ref with
        | VDict d => item ← public_file_ref href content_path d; Ok (public ++ match item with Some v => [v] | None => [] end)
        | _ => Ok public
        end) [] l
  | _ => Ok []
  end.

(** *** Metadata: [None] drops the value *)

Fixpoint _sanitize_public_artifact_metadata_value (key : option string) (v : value) : res string (option value) :=
  match v with
  | VStr s =>
      if decide (key = Some "name") then
        name ← sanitize_public_artifact_name s; Ok (Some (match name with Some n => VStr n | None => VNone end))
      else if _is_local_artifact_reference s then Ok None
      else text ← _redact_public_text key s; Ok (Some (VStr text))
  | VList l =>
      items ← (fix go (l : list value) : res string (list value) :=
                 match l with
                 | [] => Ok []
                 | v :: l => x ← _sanitize_public_artifact_metadata_value key v; xs ← go l;
                             Ok (match x with Some x => x :: xs | None => xs end)
                 end) l;
      Ok (Some (VList items))
  | VDict d =>
      items ← (fix go (d : list (string * value)) : res string (list (string * value)) :=
                 match d with
                 | [] => Ok []
                 | (k, v) :: d =>
                     if dropped_key k then go d
                     else x ← _sanitize_public_artifact_metadata_value (Some k) v; xs ← go d;
                          Ok (match x with Some x => (k, x) :: xs | None => xs end)
                 end) d;
      Ok (Some (VDict items))
  | v => Ok (Some v)
  end.

Definition sanitize_public_artifact_metadata (v : value) : res string value :=
  public ← _sanitize_public_artifact_metadata_value None v; Ok (default VNone public).

Definition sanitize_public_artifact_metadata_dict (v : value) : res string (option (dict value)) :=
  match v with
  | VDict _ => public ← sanitize_public_artifact_metadata v; Ok (Some (match public with VDict d => d | _ => [] end))
  | _ => Ok None
  end.

(** *** Errors *)

(** [str(value or "")] *)
Definition text_or_empty (v : value) : string := if truthy v then Conversion.py_str v else "".

Definition sanitize_public_error_message (v : value) : res string string :=
  text ← _redact_public_text None (text_or_empty v);
  Ok (if decide (text = redacted) then "task execution failed" else text).

Definition sanitize_public_error (v : value) : res string (option (dict value)) :=
  match v with
  | VDict d =>
      public ← sanitize_public_outputs v;
      let out := match public with VDict d => d | _ => [] end in
      match dict_get "message" d with
      | Some m => message ← sanitize_public_error_message m; Ok (Some (dict_set "message" (VStr message) out))
      | None => Ok (Some out)
      end
  | _ => Ok None
  end.
End with_stdlib.
End PublicOutputs.
