(* ===== verification/PublicGuarantees.v ===== *)
(** What the sanitizer of public outputs promises: no secret word and no private member
    reaches a client. *)
From S2P Require Import Prelude PyValue JsonFacts PublicOutputs HubManifest ArtifactVocab Conversion Artifacts.
From stdpp Require Import options.
Import Regex Artifacts PublicOutputs.

#[local] Arguments String.append !_ _ / : simpl nomatch.

(** ** Texts with parts replaced *)

(** [out] copies [s] but for stretches replaced by [new]. *)
Inductive replaced (new : string) : string → string → Prop :=
  | replaced_nil : replaced new "" ""
  | replaced_char a s out : replaced new s out → replaced new (String a s) (String a out)
  | replaced_part m s out : replaced new s out → replaced new (m +:+ s) (new +:+ out).

Lemma ends_suffix r st st' : st' ∈ ends r st → ∃ m, st.2 = m +:+ st'.2.
Proof.
  revert st st'. induction r as [|p|r1 IH1 r2 IH2|r1 IH1 r2 IH2|r IH| | | |p|r IH]; intros st st'; cbn.
  - intros ->%list_elem_of_singleton. by exists "".
  - destruct st as [q [|a s]]; cbn; [by intros ?%elem_of_nil|]. destruct (p a); [|by intros ?%elem_of_nil].
    intros ->%list_elem_of_singleton. by exists (String a "").
  - intros (st1 & H2 & H1)%list_elem_of_bind. apply IH1 in H1 as [m1 H1]. apply IH2 in H2 as [m2 H2].
    exists (m1 +:+ m2). by rewrite H1, H2, str_app_assoc.
  - intros [H|H]%elem_of_app; [by apply IH1|by apply IH2].
  - generalize (String.length st.2). intros fuel. revert st. induction fuel as [|fuel IHf]; intros st; cbn.
    + intros ->%list_elem_of_singleton. by exists "".
    + intros [(st1 & H2 & H1)%list_elem_of_bind| ->%list_elem_of_singleton]%elem_of_app; [|by exists ""].
      case_decide; [|by apply elem_of_nil in H2]. apply IH in H1 as [m1 H1]. apply IHf in H2 as [m2 H2].
      exists (m1 +:+ m2). by rewrite H1, H2, str_app_assoc.
  - destruct (xorb _ _); [|by intros ?%elem_of_nil]. intros ->%list_elem_of_singleton. by exists "".
  - destruct (st.1); [by intros ?%elem_of_nil|]. intros ->%list_elem_of_singleton. by exists "".
  - case_decide; [|by intros ?%elem_of_nil]. intros ->%list_elem_of_singleton. by exists "".
  - destruct (st.1) as [a|]; [destruct (p a); [by intros ?%elem_of_nil|]|]; intros ->%list_elem_of_singleton; by exists "".
  - destruct (ends r st); [|by intros ?%elem_of_nil]. intros ->%list_elem_of_singleton. by exists "".
Qed.

Lemma match_here_suffix r st st' : match_here r st = Some st' → ∃ m, st.2 = m +:+ st'.2.
Proof. unfold match_here. intros H%head_Some_elem_of. by eapply ends_suffix. Qed.

(** A pattern every match of which takes a character. *)
Fixpoint consuming (r : re) : bool :=
  match r with
  | Set_ _ => true
  | Seq r1 r2 => consuming r1 || consuming r2
  | Alt r1 r2 => consuming r1 && consuming r2
  | _ => false
  end.

Lemma ends_shorter r st st' : st' ∈ ends r st → String.length st'.2 ≤ String.length st.2.
Proof. intros [m ->]%ends_suffix. rewrite str_length_app. lia. Qed.

Lemma consuming_ends r st st' : consuming r = true → st' ∈ ends r st → String.length st'.2 < String.length st.2.
Proof.
  revert st st'. induction r as [|p|r1 IH1 r2 IH2|r1 IH1 r2 IH2| | | | | |]; intros st st'; cbn; try done.
  - intros _. destruct st as [q [|a s]]; cbn; [by intros ?%elem_of_nil|]. destruct (p a); [|by intros ?%elem_of_nil].
    intros ->%list_elem_of_singleton. cbn. lia.
  - intros Hc (st1 & H2 & H1)%list_elem_of_bind. apply orb_true_iff in Hc as [Hc|Hc].
    + pose proof (IH1 _ _ Hc H1). pose proof (ends_shorter _ _ _ H2). lia.
    + pose proof (IH2 _ _ Hc H2). pose proof (ends_shorter _ _ _ H1). lia.
  - intros [Hc1 Hc2]%andb_true_iff [H|H]%elem_of_app; [by apply IH1|by apply IH2].
Qed.

Lemma chunks_replaced new r fuel st :
  consuming r = true → String.length st.2 < fuel → replaced new st.2 (concat_chunks new (chunks r fuel st)).
Proof.
  intros Hr. revert st. induction fuel as [|fuel IH]; intros [q s] Hf; [cbn in Hf; lia|]. destruct s as [|a s]; [constructor|].
  cbn [chunks snd]. destruct (match_here r (q, String a s)) as [st'|] eqn:Hm.
  - destruct (match_here_suffix _ _ _ Hm) as [m Hs]. cbn [snd] in Hs. rewrite Hs. cbn [concat_chunks]. apply replaced_part, IH.
    unfold match_here in Hm. apply head_Some_elem_of, (consuming_ends _ _ _ Hr) in Hm. cbn [snd] in *. lia.
  - cbn [concat_chunks]. apply replaced_char. apply (IH (Some a, s)). cbn in *. lia.
Qed.

Lemma sub_replaced r new s : consuming r = true → replaced new s (sub r new s).
Proof. intros Hr. apply (chunks_replaced new r _ (None, s)); [done|]. cbn. lia. Qed.

(** ** Patterns without assertions or repetition *)

Fixpoint plain (avoid : list ascii) (r : re) : bool :=
  match r with
  | Eps => true
  | Set_ p => forallb (λ c, negb (p c)) avoid
  | Seq r1 r2 | Alt r1 r2 => plain avoid r1 && plain avoid r2
  | _ => false
  end.

(** They look at the text ahead only, *)
Lemma ends_prev avoid r q q' s st :
  plain avoid r = true → st ∈ ends r (q, s) → ∃ p, (p, st.2) ∈ ends r (q', s).
Proof.
  revert q q' s st. induction r as [|p|r1 IH1 r2 IH2|r1 IH1 r2 IH2| | | | | |]; intros q q' s st; cbn; try done.
  - intros _ ->%list_elem_of_singleton. exists q'. list_in.
  - intros _. destruct s as [|a s]; [by intros ?%elem_of_nil|]. destruct (p a); [|by intros ?%elem_of_nil].
    intros ->%list_elem_of_singleton. exists (Some a). list_in.
  - intros [Hp1 Hp2]%andb_true_iff ([p1 s1] & H2 & H1)%list_elem_of_bind. destruct (IH1 q q' s _ Hp1 H1) as [p1' H1'].
    destruct (IH2 p1 p1' s1 st Hp2 H2) as [p2 H2']. exists p2. apply list_elem_of_bind. by exists (p1', s1).
  - intros [Hp1 Hp2]%andb_true_iff [H|H]%elem_of_app.
    + destruct (IH1 q q' s st Hp1 H) as [p H']. exists p. apply elem_of_app. by left.
    + destruct (IH2 q q' s st Hp2 H) as [p H']. exists p. apply elem_of_app. by right.
Qed.

(** match as much in a longer text, *)
Lemma ends_longer avoid r q x y st :
  plain avoid r = true → st ∈ ends r (q, x) → (st.1, st.2 +:+ y) ∈ ends r (q, x +:+ y).
Proof.
  revert q x st. induction r as [|p|r1 IH1 r2 IH2|r1 IH1 r2 IH2| | | | | |]; intros q x st; cbn; try done.
  - intros _ ->%list_elem_of_singleton. list_in.
  - intros _. destruct x as [|a x]; cbn; [by intros ?%elem_of_nil|]. destruct (p a); [|by intros ?%elem_of_nil].
    intros ->%list_elem_of_singleton. list_in.
  - intros [Hp1 Hp2]%andb_true_iff ([p1 s1] & H2 & H1)%list_elem_of_bind. apply list_elem_of_bind. exists (p1, s1 +:+ y).
    split; [by apply IH2|by apply (IH1 _ _ (p1, s1))].
  - intros [Hp1 Hp2]%andb_true_iff [H|H]%elem_of_app; apply elem_of_app; [left; by apply IH1|right; by apply IH2].
Qed.

(** and stop at a character none of their sets has. *)
Lemma ends_stop avoid c r q x y st :
  plain avoid r = true → c ∈ avoid → st ∈ ends r (q, x +:+ String c y) →
  ∃ x', st.2 = x' +:+ String c y ∧ (st.1, x') ∈ ends r (q, x).
Proof.
  revert q x st. induction r as [|p|r1 IH1 r2 IH2|r1 IH1 r2 IH2| | | | | |]; intros q x st Hr Hc; cbn in *; try done.
  - intros ->%list_elem_of_singleton. exists x. split; [done|list_in].
  - rewrite forallb_forall in Hr. specialize (Hr c (proj1 (list_elem_of_In _ _) Hc)). apply negb_true_iff in Hr.
    destruct x as [|a x]; cbn; [rewrite Hr; by intros ?%elem_of_nil|]. destruct (p a); [|by intros ?%elem_of_nil].
    intros ->%list_elem_of_singleton. exists x. split; [done|list_in].
  - apply andb_true_iff in Hr as [Hp1 Hp2]. intros ([p1 s1] & H2 & H1)%list_elem_of_bind.
    destruct (IH1 _ _ _ Hp1 Hc H1) as (x1 & Hx1 & H1'). cbn in Hx1. subst s1.
    destruct (IH2 _ _ _ Hp2 Hc H2) as (x2 & Hx2 & H2'). exists x2. split; [done|]. apply list_elem_of_bind. by exists (p1, x1).
  - apply andb_true_iff in Hr as [Hp1 Hp2]. intros [H|H]%elem_of_app.
    + destruct (IH1 _ _ _ Hp1 Hc H) as (x' & Hx & H'). exists x'. split; [done|]. apply elem_of_app. by left.
    + destruct (IH2 _ _ _ Hp2 Hc H) as (x' & Hx & H'). exists x'. split; [done|]. apply elem_of_app. by right.
Qed.

(** *** Searching *)

Definition begins (r : re) (s : string) : Prop := ∃ st, st ∈ ends r (None, s).

Section searching.
Context (avoid : list ascii) (r : re) (Hr : plain avoid r = true).

Lemma search_iff s : re_search r s = true ↔ ∃ l t, s = l +:+ t ∧ begins r t.
Proof using Hr.
  unfold re_search. assert (∀ q, existsb (λ st, negb (bool_decide (ends r st = []))) (positions q s) = true ↔ ∃ l t, s = l +:+ t ∧ begins r t) as H; [|apply H].
  assert (∀ q t, negb (bool_decide (ends r (q, t) = [])) = true ↔ begins r t) as Hb.
  { intros q t. rewrite negb_true_iff, bool_decide_eq_false. split.
    - intros Hne. destruct (ends r (q, t)) as [|st l] eqn:E; [done|]. destruct (ends_prev avoid r q None t st Hr) as [p Hp]; [rewrite E; list_in|].
      by exists (p, st.2).
    - intros [st Hst] Hn. destruct (ends_prev avoid r None q t st Hr Hst) as [p Hp]. rewrite Hn in Hp. by apply elem_of_nil in Hp. }
  induction s as [|a s IH]; intros q; cbn [positions existsb].
  - rewrite orb_false_r, Hb. split; [intros H; by exists "", ""|]. intros (l & t & Heq & H). destruct l; [|done]. cbn in Heq. by subst.
  - rewrite orb_true_iff, Hb, IH. split.
    + intros [H|(l & t & -> & H)]; [by exists "", (String a s)|by exists (String a l), t].
    + intros ([|b l] & t & Heq & H); cbn in Heq; [left; by subst|]. injection Heq as -> ->. right. by exists l, t.
Qed.

Lemma search_app_r l s : re_search r s = true → re_search r (l +:+ s) = true.
Proof using Hr. rewrite !search_iff. intros (l' & t & -> & H). exists (l +:+ l'), t. by rewrite str_app_assoc. Qed.

Lemma search_prefix s t : re_search r s = true → re_search r (s +:+ t) = true.
Proof using Hr.
  rewrite !search_iff. intros (l & u & -> & st & H). exists l, (u +:+ t). split; [by rewrite str_app_assoc|].
  eexists. by apply (ends_longer avoid).
Qed.

Lemma str_app_split (l t x : string) c y : l +:+ t = x +:+ String c y →
  (∃ x', t = x' +:+ String c y ∧ x = l +:+ x') ∨ ∃ l', y = l' +:+ t.
Proof using Type.
  revert x. induction l as [|a l IH]; intros [|b x]; cbn.
  - intros ->. left. by exists "".
  - intros ->. left. by exists (String b x).
  - intros [= -> H]. right. by exists l.
  - intros [= -> H]. destruct (IH _ H) as [(x' & -> & ->)|Hl]; [left; by exists x'|by right].
Qed.

Lemma search_stop c x y : c ∈ avoid → re_search r (x +:+ String c y) = true → re_search r x = true ∨ re_search r y = true.
Proof using Hr.
  intros Hc. rewrite !search_iff. intros (l & t & Heq & st & H). destruct (str_app_split _ _ _ _ _ (eq_sym Heq)) as [(x' & -> & ->)|[l' ->]].
  - left. destruct (ends_stop avoid c r _ _ _ _ Hr Hc H) as (x2 & _ & H2). exists l, x'. split; [done|]. by eexists.
  - right. exists l', t. split; [done|]. by exists st.
Qed.

(** *** Searching a text with parts replaced *)

Context (mark last : ascii) (body : string) (Hmark : mark ∈ avoid) (Hlast : last ∈ avoid) (Hbody : re_search r body = false).

Abbreviation new := (String mark (body +:+ String last "")).

Lemma replaced_split s out : replaced new s out → s = out ∨ ∃ x y z, out = x +:+ String mark y ∧ s = x +:+ z.
Proof using Type.
  induction 1 as [|a s out _ [->|(x & y & z & -> & ->)]|m s out _ _]; [by left|by left|right; by exists (String a x), y, z|].
  right. exists "", (body +:+ String last "" +:+ out), (m +:+ s). split; [|done]. cbn. by rewrite <-str_app_assoc.
Qed.

Lemma search_replaced s out : replaced new s out → re_search r out = true → re_search r s = true.
Proof using Hr Hmark Hlast Hbody.
  intros H. induction H as [|a s out H IH|m s out H IH]; [done| |].
  - intros ([|b l] & t & Heq & Hb)%search_iff; cbn in Heq.
    + subst t. apply search_iff. exists "", (String a s). split; [done|].
      destruct (replaced_split _ _ (replaced_char _ a _ _ H)) as [E|(x & y & z & Hx & E)]; rewrite E; [done|]. rewrite Hx in Hb.
      destruct Hb as [st Hst]. destruct (ends_stop avoid mark r _ _ _ _ Hr Hmark Hst) as (x' & _ & H'). eexists. by apply (ends_longer avoid).
    + injection Heq as <- ->. apply (search_app_r (String a "")), IH, search_iff. by exists l, t.
  - cbn. intros Hs. apply (search_stop mark "") in Hs as [Hs|Hs]; [by apply (search_prefix "")| |done].
    rewrite <-str_app_assoc in Hs. cbn in Hs. apply (search_stop last) in Hs as [Hs|Hs]; [congruence| |done].
    by apply search_app_r, IH.
Qed.
End searching.

Lemma search_cons avoid r a s : plain avoid r = true → re_search r (String a s) = true ↔ begins r (String a s) ∨ re_search r s = true.
Proof.
  intros Hr. rewrite !(search_iff avoid r Hr). split.
  - intros ([|b l] & t & Heq & H); cbn in Heq; [left; by subst|]. injection Heq as -> ->. right. by exists l, t.
  - intros [H|(l & t & -> & H)]; [by exists "", (String a s)|by exists (String a l), t].
Qed.

(** ** Private texts *)

Lemma lit_i_plain avoid m : forallb (λ c, negb (existsb (λ a, bool_decide (lower c = lower a)) (String.list_ascii_of_string m))) avoid = true → plain avoid (lit_i m) = true.
Proof.
  intros H. induction m as [|a m IH]; cbn; [done|]. rewrite forallb_forall in H. apply andb_true_iff. split.
  - apply forallb_forall. intros c Hc. specialize (H c Hc). cbn in H. rewrite negb_orb in H. by apply andb_true_iff in H as [H _].
  - apply IH, forallb_forall. intros c Hc. specialize (H c Hc). cbn in H. rewrite negb_orb in H. by apply andb_true_iff in H as [_ H].
Qed.

Lemma begins_lit_i m s : begins (lit_i m) s ↔ starts_with (str_lower m) (str_lower s) = true.
Proof.
  assert (∀ q, (∃ st, st ∈ ends (lit_i m) (q, s)) ↔ starts_with (str_lower m) (str_lower s) = true) as H; [|apply (H None)].
  revert s. induction m as [|a m IH]; intros s q; cbn.
  - split; [done|]. intros _. exists (q, s). list_in.
  - destruct s as [|b s]; cbn; [split; [by intros (? & ?%elem_of_nil)|done]|]. change (ascii_lower ?c) with (lower c).
    destruct (decide (lower a = lower b)) as [E|E].
    + rewrite bool_decide_true by done. cbn. rewrite app_nil_r. apply IH.
    + rewrite bool_decide_false by congruence. cbn. split; [by intros (? & ?%elem_of_nil)|done].
Qed.

Lemma contains_search m s : contains (str_lower m) (str_lower s) = re_search (lit_i m) s.
Proof.
  assert (plain [] (lit_i m) = true) as Hp by (by apply lit_i_plain).
  apply eq_true_iff_eq. induction s as [|a s IH].
  - cbn [str_lower contains]. rewrite orb_false_r. rewrite (search_iff [] _ Hp), <-(begins_lit_i m ""). split.
    + intros H. by exists "", "".
    + by intros ([|] & t & [= <-] & H).
  - cbn [str_lower contains]. rewrite orb_true_iff, IH, (search_cons []) by done. by rewrite begins_lit_i.
Qed.

Definition private_patterns : list re := _PUBLIC_SECRET_TEXT_RE :: (lit_i <$> _PUBLIC_PRIVATE_MARKERS).

Lemma private_text_patterns s : private_text s = existsb (λ r, re_search r s) private_patterns.
Proof.
  unfold private_text, _contains_public_private_marker, private_patterns. cbn [existsb]. f_equal.
  induction _PUBLIC_PRIVATE_MARKERS as [|m l IH]; [done|]. cbn [existsb fmap list_fmap]. by rewrite contains_search, IH.
Qed.

Definition brackets : list ascii := ["<"; ">"]%char.

Lemma private_plain r : r ∈ private_patterns → plain brackets r = true ∧ re_search r "redacted" = false.
Proof.
  revert r. apply (Forall_forall (λ r, plain brackets r = true ∧ re_search r "redacted" = false)). repeat constructor; by vm_compute.
Qed.

(** A text with parts redacted is as clean as the text. *)
Lemma private_replaced s out : replaced redacted s out → private_text s = false → private_text out = false.
Proof.
  intros Hr. rewrite !private_text_patterns. intros Hs. apply not_true_is_false. intros Ho.
  apply existsb_exists in Ho as (r & Hin & Ho). apply list_elem_of_In in Hin. destruct (private_plain r Hin) as [Hp Hb].
  assert (existsb (λ r, re_search r s) private_patterns = true) as Ht; [|congruence]. apply existsb_exists. exists r.
  split; [by apply list_elem_of_In|]. apply (search_replaced brackets r Hp "<" ">" "redacted") with out; [list_in|list_in|done|done|done].
Qed.

Lemma private_prefix s t : private_text (s +:+ t) = false → private_text s = false.
Proof.
  rewrite !private_text_patterns. intros Hs. apply not_true_is_false. intros Ho.
  apply existsb_exists in Ho as (r & Hin & Ho). apply list_elem_of_In in Hin. destruct (private_plain r Hin) as [Hp _].
  assert (existsb (λ r, re_search r (s +:+ t)) private_patterns = true) as Ht; [|congruence]. apply existsb_exists. exists r.
  split; [by apply list_elem_of_In|]. by apply (search_prefix brackets r Hp).
Qed.

Lemma py_take_prefix n s : ∃ t, s = py_take n s +:+ t.
Proof.
  revert n. induction s as [|a s IH]; intros n; cbn; [by exists ""|].
  destruct (continuation a).
  - destruct (IH n) as [t Ht]. exists t. cbn. by rewrite <-Ht.
  - destruct n as [|n]; [by exists (String a s)|]. destruct (IH n) as [t Ht]. exists t. cbn. by rewrite <-Ht.
Qed.

Lemma private_take n s : private_text s = false → private_text (py_take n s) = false.
Proof. intros H. destruct (py_take_prefix n s) as [t Ht]. rewrite Ht in H. by apply private_prefix in H. Qed.

Lemma replace_private_clean s : private_text s = false → private_text (replace_private s) = false.
Proof. intros H. unfold replace_private. by repeat (eapply private_replaced; [by apply sub_replaced|]). Qed.

(** ** Redaction *)

Section redaction.
Context (bracketed_ok : string → bool) (internal_ip : string → option bool).

Lemma any_res_false {A} (f : A → res string bool) l : any_res f l = Ok false → ∀ x, x ∈ l → f x = Ok false.
Proof using Type.
  induction l as [|y l IH]; cbn; [by intros _ x ?%elem_of_nil|]. intros ([] & Hy & Hl)%bind_Ok x; [done|].
  intros [->|Hx]%elem_of_cons; [done|by apply IH].
Qed.

Lemma text_decodings_keeps rounds current variants x : x ∈ variants → x ∈ text_decodings rounds current variants.
Proof using Type.
  revert current variants. induction rounds as [|n IH]; intros current variants Hx; cbn; [done|].
  case_decide; [done|]. case_decide; [done|]. apply IH. case_decide; [done|]. apply elem_of_app. by left.
Qed.

Lemma redact_Ok key text out :
  _redact_public_text bracketed_ok key text = Ok out →
  out = redacted ∨ (out = py_take 2000 (replace_private text) ∧ ∀ v, v ∈ _public_text_variants text → private_text v = false).
Proof using Type.
  unfold _redact_public_text. cbv zeta. intros (hard & Hh & H)%bind_Ok. destruct (hard || _ || _) eqn:E; [left; congruence|right].
  injection H as <-. split; [done|]. rewrite !orb_false_iff in E. destruct E as [[-> _] _]. intros v Hv.
  pose proof (any_res_false _ _ Hh v Hv) as Hf. unfold hard_private in Hf. destruct (private_text v); [done|done].
Qed.

Lemma redact_clean key text out : _redact_public_text bracketed_ok key text = Ok out → private_text out = false.
Proof using Type.
  intros [->|[-> Hv]]%redact_Ok; [by vm_compute|]. apply private_take, replace_private_clean, Hv.
  unfold _public_text_variants. apply text_decodings_keeps. list_in.
Qed.

Lemma name_clean s n : sanitize_public_artifact_name bracketed_ok s = Ok (Some n) → private_text n = false.
Proof using Type.
  unfold sanitize_public_artifact_name. cbv zeta. intros (text & Ht%redact_clean & H)%bind_Ok. case_decide; [done|]. injection H as <-.
  by apply private_take.
Qed.

Lemma uri_clean s u : sanitize_public_artifact_uri bracketed_ok internal_ip s = Ok (Some u) → private_text u = false.
Proof using Type.
  unfold sanitize_public_artifact_uri. case_decide; [done|]. destruct (_ || _); [done|]. destruct (private_text s) eqn:Hs; [done|].
  intros (p & _ & Hok)%bind_Ok. repeat case_match; simplify_eq/=. by apply private_take.
Qed.
End redaction.

(** ** Outputs *)

(** A text a client may see: free of secret words, or a bare file name. *)
Definition public_text (s : string) : bool := negb (private_text s) || negb (str_mem slash s || str_mem backslash s).

(** A value whose texts are public and whose members, at any depth, are not private. *)
Fixpoint public_value (v : value) : bool :=
  match v with
  | VStr s => public_text s
  | VList l => (fix go (l : list value) : bool := match l with [] => true | v :: l => public_value v && go l end) l
  | VDict d =>
      (fix go (d : list (string * value)) : bool :=
         match d with [] => true | (k, v) :: d => negb (dropped_key k) && public_value v && go d end) d
  | _ => true
  end.

Definition public_member (kv : string * value) : bool := negb (dropped_key kv.1) && public_value kv.2.

Lemma public_list l : public_value (VList l) = forallb public_value l.
Proof. cbn. induction l as [|v l IH]; [done|]. cbn. by rewrite IH. Qed.

Lemma public_dict d : public_value (VDict d) = forallb public_member d.
Proof. cbn. induction d as [|[k v] d IH]; [done|]. cbn. by rewrite IH. Qed.

Lemma clean_public s : private_text s = false → public_text s = true.
Proof. unfold public_text. by intros ->. Qed.

Lemma base_name_bare s : str_mem slash (_base_name s) || str_mem backslash (_base_name s) = false.
Proof.
  induction s as [|a s IH]; [done|]. cbn [_base_name]. destruct (str_mem slash s || str_mem backslash s) eqn:E; [done|].
  destruct (path_sep a) eqn:Ha; [done|]. unfold path_sep in Ha. apply orb_false_iff in Ha as [H1%bool_decide_eq_false H2%bool_decide_eq_false].
  cbn. by rewrite !decide_False.
Qed.

Lemma base_name_public s : public_text (_base_name s) = true.
Proof. unfold public_text. by rewrite base_name_bare, orb_true_r. Qed.

Lemma public_set k v d :
  dropped_key k = false → public_value v = true → forallb public_member d = true → forallb public_member (dict_set k v d) = true.
Proof.
  rewrite !forallb_forall. intros Hk Hv Hd [k' v'] Hin%list_elem_of_In. apply dict_set_elem in Hin as [Hin|[-> ->]].
  - by apply Hd, list_elem_of_In.
  - unfold public_member. cbn. by rewrite Hk, Hv.
Qed.

(** The members the sanitizer writes itself. *)
Lemma own_keys_kept k : k ∈ ["name"; "uri"; "path"; "media_type"; "sha256"; "byte_size"; "message"] → dropped_key k = false.
Proof. revert k. apply (Forall_forall (λ k, dropped_key k = false)). repeat constructor; by vm_compute. Qed.


(** ** When nothing raises *)

(** [t] has no character [s] has not. *)
Definition part_of (t s : string) : Prop := ∀ c, str_mem c t = true → str_mem c s = true.

Lemma part_refl s : part_of s s.
Proof. by intros c. Qed.

Lemma part_trans s t u : part_of s t → part_of t u → part_of s u.
Proof. intros H1 H2 c Hc. by apply H2, H1. Qed.

Lemma part_empty s : part_of "" s.
Proof. by intros c. Qed.

Lemma part_cons a s t : part_of s t → part_of s (String a t).
Proof. intros H c Hc. cbn. case_decide; [done|by apply H]. Qed.

Lemma part_both a s t : part_of s t → part_of (String a s) (String a t).
Proof. intros H c. cbn. case_decide; [done|]. apply H. Qed.

Lemma part_absent c s t : part_of s t → str_mem c t = false → str_mem c s = false.
Proof. intros H Ht. apply not_true_is_false. intros Hs%H. congruence. Qed.

Create HintDb parts.
#[export] Hint Resolve part_refl part_empty part_cons part_both : parts.

Lemma part_span stop s : part_of (span stop s).1 s ∧ part_of (span stop s).2 s.
Proof. induction s as [|a s [IH1 IH2]]; cbn; [done|]. destruct (stop a); cbn; auto with parts. Qed.

Lemma part_tail s : part_of (tail s) s.
Proof. destruct s; cbn; auto with parts. Qed.

Lemma part_lstrip p s : part_of (lstrip_chars p s) s.
Proof. induction s as [|a s IH]; cbn; [done|]. destruct (p a); auto with parts. Qed.

Lemma part_drop p s : part_of (drop_chars p s) s.
Proof. induction s as [|a s IH]; cbn; [done|]. destruct (p a); auto with parts. Qed.

Lemma part_substring n m s : part_of (String.substring n m s) s.
Proof. revert n m. induction s as [|a s IH]; intros [|n] [|m]; cbn; auto with parts. Qed.

Lemma part_remove_prefix p s : part_of (remove_prefix p s) s.
Proof.
  unfold remove_prefix. destruct (starts_with p s); [apply part_substring|apply part_refl].
Qed.

Lemma part_base_name s : part_of (_base_name s) s.
Proof.
  induction s as [|a s IH]; cbn [_base_name]; [done|]. destruct (_ || _); [by apply part_cons|]. destruct (path_sep a); auto with parts.
Qed.

Lemma part_findall r x s : x ∈ findall r s → part_of x s.
Proof.
  unfold findall, match_chunks. generalize (S (String.length s)). intros fuel.
  assert (∀ st, x ∈ omap (λ c, match c with inr m => Some m | inl _ => None end) (chunks r fuel st) → part_of x st.2) as H; [|apply (H (None, s))].
  induction fuel as [|fuel IH]; intros [q t]; cbn [chunks snd]; [by intros ?%elem_of_nil|]. destruct t as [|a t]; [by intros ?%elem_of_nil|].
  destruct (match_here r (q, String a t)) as [st'|] eqn:Hm; cbn [omap list_omap].
  - intros [->|Hx]%elem_of_cons; [apply part_substring|]. apply match_here_suffix in Hm as [m Hm]. cbn [snd] in Hm. rewrite Hm.
    intros c Hc. rewrite str_mem_app. apply orb_true_iff. right. by apply (IH st').
  - intros Hx. apply part_cons. by apply (IH (Some a, t)).
Qed.

(** A text without brackets. *)
Definition bracketless (s : string) : bool := negb (str_mem "[" s || str_mem "]" s).

Lemma bracketless_part s t : part_of s t → bracketless t = true → bracketless s = true.
Proof.
  unfold bracketless. rewrite !negb_true_iff, !orb_false_iff. intros H [H1 H2]. split; by eapply part_absent.
Qed.

Lemma urlparse_total ok url : bracketless url = true → ∃ u, urlparse ok url = Ok u.
Proof.
  intros Hb. unfold urlparse. cbv zeta.
  set (u1 := drop_chars _ _). assert (part_of u1 url) as H1 by (eapply part_trans; [apply part_drop|apply part_lstrip]).
  pose proof (part_span (is_char ":") u1) as [_ Hs2]. destruct (span (is_char ":") u1) as [before after]. cbn in Hs2.
  set (c := _ && negb _).
  assert (∀ k : string * string → Prop, (∀ sch u, part_of u url → k (sch, u)) → k (if c then (str_lower before, tail after) else ("", u1))) as Hif.
  { intros k Hk. destruct c; apply Hk; [|exact H1]. eapply part_trans; [apply part_tail|]. by eapply part_trans. }
  apply Hif. intros sch u Hu. destruct (if starts_with "//" u then _ else _) as [netloc rest] eqn:E.
  assert (part_of netloc url) as Hn.
  { destruct (starts_with "//" u); [|injection E as <- <-; apply part_empty]. pose proof (part_span (among ["/"; "?"; "#"]%char) (remove_prefix "//" u)) as [Hp _].
    rewrite E in Hp. cbn in Hp. eapply part_trans; [exact Hp|]. eapply part_trans; [apply part_remove_prefix|done]. }
  pose proof (bracketless_part _ _ Hn Hb) as Hb'. unfold bracketless in Hb'. apply negb_true_iff, orb_false_iff in Hb' as [-> ->]. cbn [xorb orb andb raise_if].
  change (raise_if false "Invalid IPv6 URL") with (Ok (E:=string) ()). cbn. destruct (cut "#" rest) as [a f]. destruct (cut "?" a) as [b q]. destruct (if _ && _ then _ else _). by eexists.
Qed.

Lemma fold_res_total {E A S} (f : S → A → res E S) l s :
  (∀ s x, x ∈ l → ∃ s', f s x = Ok s') → ∃ s', fold_res f s l = Ok s'.
Proof.
  revert s. induction l as [|x l IH]; intros s Hf; cbn; [by eexists|]. destruct (Hf s x) as [s' ->]; [list_in|]. cbn.
  apply IH. intros s2 y Hy. apply Hf. by right.
Qed.

Lemma any_res_total {A} (f : A → res string bool) l : (∀ x, x ∈ l → ∃ b, f x = Ok b) → ∃ b, any_res f l = Ok b.
Proof.
  induction l as [|x l IH]; cbn; intros Hf; [by eexists|]. destruct (Hf x) as [b ->]; [list_in|]. cbn. destruct b; [by eexists|].
  apply IH. intros y Hy. apply Hf. by right.
Qed.

(** A text without brackets and percent signs. *)
Definition simple_text (s : string) : bool := bracketless s && negb (str_mem "%" s).

Lemma simple_part s t : part_of s t → simple_text t = true → simple_text s = true.
Proof.
  unfold simple_text. rewrite !andb_true_iff, !negb_true_iff. intros H [Hb Hp]. split; [by eapply bracketless_part|by eapply part_absent].
Qed.

Lemma unquote_simple s : str_mem "%" s = false → unquote s = s.
Proof.
  induction s as [|a s IH]; [done|]. cbn [str_mem]. case_decide as Ha; [done|]. intros Hs.
  transitivity (String a (unquote s)); [|by rewrite IH].
  clear IH Hs. destruct a as [[] [] [] [] [] [] [] []]; try reflexivity. by destruct Ha.
Qed.

Lemma replace_char_mem c s : str_mem c (replace_char "+" " " s) = true → c = " "%char ∨ str_mem c s = true.
Proof.
  induction s as [|a s IH]; cbn; [by right|]. destruct (decide (a = "+"%char)) as [->|Ha]; case_decide as Hc.
  - by left.
  - intros [?|Hs]%IH; [by left|right]. by case_decide.
  - right. done.
  - intros [?|Hs]%IH; [by left|by right].
Qed.

Lemma simple_unquote s : simple_text s = true → simple_text (unquote_plus s) = true.
Proof.
  unfold simple_text, bracketless, unquote_plus. rewrite !andb_true_iff, !negb_true_iff, !orb_false_iff. intros [[H1 H2] H3].
  assert (∀ c, c ≠ " "%char → str_mem c s = false → str_mem c (replace_char "+" " " s) = false) as H.
  { intros c Hc Hs. apply not_true_is_false. intros [?|?]%replace_char_mem; congruence. }
  rewrite unquote_simple; [split_and!|]; by apply H.
Qed.

Lemma simple_variants s v : simple_text s = true → v ∈ _public_text_variants s → simple_text v = true.
Proof.
  intros Hs. unfold _public_text_variants. generalize 2. intros rounds.
  assert (∀ current variants, simple_text current = true → (∀ x, x ∈ variants → simple_text x = true) →
    ∀ x, x ∈ text_decodings rounds current variants → simple_text x = true) as H.
  { induction rounds as [|n IH]; intros current variants Hc Hv; cbn; [done|]. case_decide; [done|]. case_decide; [done|].
    apply IH; [by apply simple_unquote|]. case_decide; [done|]. intros x [Hx| ->%list_elem_of_singleton]%elem_of_app; [by apply Hv|by apply simple_unquote]. }
  apply H; [done|]. by intros x ->%list_elem_of_singleton.
Qed.

Lemma redact_total ok key s : simple_text s = true → ∃ out, _redact_public_text ok key s = Ok out.
Proof.
  intros Hs. unfold _redact_public_text. cbv zeta. destruct (any_res_total (hard_private ok (url_or_path s)) (_public_text_variants s)) as [hard ->].
  - intros v Hv%simple_variants; [|done]. unfold hard_private. destruct (private_text v || _); [by eexists|].
    unfold _remote_uri_text_is_sensitive. destruct (any_res_total (url_is_sensitive ok) (findall _PUBLIC_URL_RE v)) as [b ->]; [|by eexists].
    intros url Hu%part_findall. unfold url_is_sensitive. destruct (urlparse_total ok url) as [u ->]; [|by eexists].
    apply (bracketless_part _ v); [done|]. unfold simple_text in Hv. by apply andb_true_iff in Hv as [Hv _].
  - cbn. destruct (hard || _ || _); by eexists.
Qed.

Lemma name_total ok s : simple_text s = true → ∃ out, sanitize_public_artifact_name ok s = Ok out.
Proof.
  intros Hs. unfold sanitize_public_artifact_name. cbv zeta. destruct (redact_total ok (Some "name") (if _is_local_artifact_reference s || _is_local_uri s then _base_name s else s)) as [t ->].
  - destruct (_ || _); [|done]. eapply simple_part; [apply part_base_name|done].
  - by eexists.
Qed.

Lemma uri_total ok ip s : simple_text s = true → ∃ out, sanitize_public_artifact_uri ok ip s = Ok out.
Proof.
  intros Hs. unfold sanitize_public_artifact_uri. case_decide; [by eexists|]. destruct (_ || _); [by eexists|]. destruct (private_text s); [by eexists|].
  destruct (urlparse_total ok s) as [u ->]; [|by eexists]. unfold simple_text in Hs. by apply andb_true_iff in Hs as [Hs _].
Qed.

#[local] Opaque dropped_key private_text _redact_public_text sanitize_public_artifact_name sanitize_public_artifact_uri.

Section outputs.
Context (bracketed_ok : string → bool) (internal_ip : string → option bool).

Abbreviation sanitize := (_sanitize_public_outputs bracketed_ok internal_ip).

(** Members whose values any mode makes public. *)
Definition readable (ms : list member) : Prop := ∀ m how v, m ∈ ms → m_read m how = Ok v → public_value v = true.

Lemma put_text_public key text out :
  dropped_key key = false → (∀ t, text = Some t → private_text t = false) → forallb public_member out = true →
  forallb public_member (put_text key text out) = true.
Proof using Type.
  intros Hk Ht Ho. destruct text as [t|]; [|done]. cbn. case_decide; [done|]. apply public_set; [done| |done]. by apply clean_public, Ht.
Qed.

Lemma lifted_name_public s out out' :
  lifted_name bracketed_ok s out = Ok out' → forallb public_member out = true → forallb public_member out' = true.
Proof using Type.
  intros (name & Hn & [= <-])%bind_Ok Ho. apply put_text_public; [apply own_keys_kept; list_in| |done]. intros t ->. by apply name_clean in Hn.
Qed.

Lemma member_get_elem k ms m : member_get k ms = Some m → m ∈ ms ∧ m_key m = k.
Proof using Type.
  induction ms as [|x ms IH]; cbn; [done|]. case_decide; [intros [= <-]; split; [list_in|done]|].
  intros [Hin Hk]%IH. split; [by right|done].
Qed.

Lemma file_keys_public ms out out' keys :
  readable ms → (∀ k, k ∈ keys → dropped_key k = false) → fold_res (put_file_key ms) out keys = Ok out' →
  forallb public_member out = true → forallb public_member out' = true.
Proof using Type.
  intros Hms Hk H Ho. revert H. apply (fold_res_ind _ (λ o, forallb public_member o = true)); [done|].
  intros o k o' Hin Hp. unfold put_file_key. destruct (member_get k ms) as [m|] eqn:Hm; [|by intros [= <-]].
  intros (v & Hv & [= <-])%bind_Ok. apply member_get_elem in Hm as [Hm _]. apply public_set; [by apply Hk|by eapply Hms|done].
Qed.

Lemma file_ref_public ms v : readable ms → _sanitize_public_file_ref bracketed_ok internal_ip ms = Ok v → public_value v = true.
Proof using Type.
  intros Hms. unfold _sanitize_public_file_ref. cbv zeta. intros (o1 & H1 & (o2 & H2 & (o3 & H3 & [= <-])%bind_Ok)%bind_Ok)%bind_Ok.
  rewrite public_dict. eapply file_keys_public; [done| |exact H3|].
  { intros k Hk. apply own_keys_kept. unfold _PUBLIC_FILE_REF_KEYS in Hk. set_solver. }
  assert (forallb public_member o1 = true) as Ho1.
  { destruct (str_of _) as [name|]; [by eapply lifted_name_public|]. destruct (str_of _) as [path|]; [|by simplify_eq].
    destruct (_is_local_uri path); [by eapply lifted_name_public|by simplify_eq]. }
  clear H1. destruct (str_of _) as [uri|]; [|by simplify_eq]. destruct (_is_local_uri uri).
  - destruct (dict_mem _ _); [by simplify_eq|by eapply lifted_name_public].
  - apply bind_Ok in H2 as (public & Hu & [= <-]). apply put_text_public; [apply own_keys_kept; list_in| |done]. intros t ->. by eapply uri_clean.
Qed.

Lemma member_public how ms out m out' :
  readable ms → m ∈ ms → sanitize_member bracketed_ok internal_ip how ms out m = Ok out' → forallb public_member out = true →
  forallb public_member out' = true.
Proof using Type.
  intros Hms Hm. unfold sanitize_member. cbv zeta. destruct (dropped_key (m_key m)) eqn:Hk; [by intros [= <-]|].
  case_decide; [by intros [= <-]|]. destruct (_ && _ && _); [by intros [= <-]|].
  assert (∀ reading v o, m_read m reading = Ok v → forallb public_member o = true → forallb public_member (dict_set (m_key m) v o) = true) as Hread.
  { intros reading v o Hv Ho. apply public_set; [done|by eapply Hms|done]. }
  destruct (m_value m) as [| | | |s| |] eqn:Hv; try (intros (v & Hr & [= <-])%bind_Ok Ho; by eapply Hread).
  assert (∀ key text o, _redact_public_text bracketed_ok key s = Ok text → forallb public_member o = true →
    forallb public_member (dict_set (m_key m) (VStr text) o) = true) as Htext.
  { intros key text o Ht Ho. apply public_set; [done| |done]. apply clean_public. by eapply redact_clean. }
  destruct (_ && _is_local_uri s).
  { destruct (decide (m_key m = "path")).
    - destruct (str_of _); intros [= <-]; [done|]. intros Ho. apply public_set; [apply own_keys_kept; list_in|apply base_name_public|done].
    - intros [= <-] Ho. by apply public_set. }
  destruct (_ && _ && _).
  { intros (public & Hu & [= <-])%bind_Ok Ho. apply put_text_public; [done| |done]. intros t ->. by eapply uri_clean. }
  destruct (_ && _); [|intros (text & Ht & [= <-])%bind_Ok Ho; by eapply Htext].
  destruct how; [|intros [= <-] Ho; apply public_set; [done|apply base_name_public|done]|];
    intros (text & Ht & [= <-])%bind_Ok Ho; by eapply Htext.
Qed.

(** Each item of a list, and the members of a dict. *)
Lemma sanitize_list l how v : sanitize (VList l) how = Ok v → ∃ items, v = VList items ∧ Forall2 (λ x y, sanitize x how = Ok y) l items.
Proof using Type.
  cbn. intros (items & H & [= <-])%bind_Ok. exists items. split; [done|]. revert items H. induction l as [|x l IH]; intros items H.
  - injection H as <-. constructor.
  - apply bind_Ok in H as (y & Hy & (ys & Hys & [= <-])%bind_Ok). constructor; [done|by apply IH].
Qed.

Definition members_of (d : list (string * value)) : list member := (λ kv, (kv.1, kv.2, sanitize kv.2)) <$> d.

Lemma sanitize_dict d how :
  sanitize (VDict d) how =
    match how with
    | FileRef => _sanitize_public_file_ref bracketed_ok internal_ip (members_of d)
    | _ => out ← fold_res (sanitize_member bracketed_ok internal_ip how (members_of d)) [] (members_of d); Ok (VDict out)
    end.
Proof using Type.
  cbn. assert ((fix go (d : list (string * value)) : list member :=
    match d with [] => [] | (k, v) :: d => (k, v, sanitize v) :: go d end) d = members_of d) as ->; [|done].
  induction d as [|[k v] d IH]; [done|]. unfold members_of. cbn. by rewrite IH.
Qed.

Lemma sanitize_public v : ∀ how v', sanitize v how = Ok v' → public_value v' = true.
Proof using Type.
  induction v as [| | | |s|l IH|d IH] using value_nested_ind; intros how v'; try (by intros [= <-]).
  - cbn. intros (text & Ht & [= <-])%bind_Ok. cbn. apply clean_public. by eapply redact_clean.
  - intros (items & -> & H)%sanitize_list. rewrite public_list. induction H as [|x y l items Hxy _ IHl]; [done|].
    apply Forall_cons in IH as [Hx IH]. cbn. by rewrite (Hx how y Hxy), IHl.
  - rewrite sanitize_dict. assert (readable (members_of d)) as Hr.
    { intros m how' x Hm. apply list_elem_of_fmap in Hm as (kv & -> & Hkv). rewrite Forall_forall in IH. by apply IH. }
    assert (∀ how out, fold_res (sanitize_member bracketed_ok internal_ip how (members_of d)) [] (members_of d) = Ok out → forallb public_member out = true) as Hfold.
    { intros how' out. apply (fold_res_ind _ (λ o, forallb public_member o = true)); [done|]. intros o m o' Hm Ho Hs. by eapply member_public. }
    destruct how; [|intros (out & H & [= <-])%bind_Ok; rewrite public_dict; by eapply Hfold|by apply file_ref_public].
    intros (out & H & [= <-])%bind_Ok. rewrite public_dict. by eapply Hfold.
Qed.
(** *** Values the sanitizer returns on *)

Lemma lifted_total s out : simple_text s = true → ∃ out', lifted_name bracketed_ok s out = Ok out'.
Proof using Type. intros Hs. unfold lifted_name. destruct (name_total bracketed_ok s Hs) as [n ->]. by eexists. Qed.

(** Members every mode reads, whose texts are simple. *)
Definition total_members (ms : list member) : Prop :=
  ∀ m, m ∈ ms → (∀ how, ∃ v, m_read m how = Ok v) ∧ match m_value m with VStr s => simple_text s = true | _ => True end.

Lemma total_text k ms s : total_members ms → str_of (m_value <$> member_get k ms) = Some s → simple_text s = true.
Proof using Type.
  intros Hms. destruct (member_get k ms) as [m|] eqn:Hm; [|done]. apply member_get_elem in Hm as [Hm _]. destruct (Hms m Hm) as [_ Ht]. cbn.
  destruct (m_value m); try done. by intros [= ->].
Qed.

Lemma file_ref_total ms : total_members ms → ∃ v, _sanitize_public_file_ref bracketed_ok internal_ip ms = Ok v.
Proof using Type.
  intros Hms. pose proof (λ k s, total_text k ms s Hms) as Ht. unfold _sanitize_public_file_ref. cbv zeta.
  assert (∀ r : res string (dict value), (∃ o, r = Ok o) → ∀ g : dict value → res string value, (∀ o, ∃ v, g o = Ok v) → ∃ v, (r ≫= g) = Ok v) as Hb.
  { intros r [o ->] g Hg. apply Hg. }
  apply Hb; [|intros o; apply Hb; [|intros o2; apply Hb; [|by eexists]]].
  - destruct (str_of (m_value <$> member_get "name" ms)) as [name|] eqn:Hn; [eapply lifted_total, Ht, Hn|].
    destruct (str_of (m_value <$> member_get "path" ms)) as [path|] eqn:Hp; [|by eexists].
    destruct (_is_local_uri path); [eapply lifted_total, Ht, Hp|by eexists].
  - destruct (str_of (m_value <$> member_get "uri" ms)) as [uri|] eqn:Hu; [|by eexists]. destruct (_is_local_uri uri).
    + destruct (dict_mem _ _); [by eexists|]. eapply lifted_total, Ht, Hu.
    + destruct (uri_total bracketed_ok internal_ip uri) as [p ->]; [by eapply Ht|]. by eexists.
  - apply fold_res_total. intros o3 k _. unfold put_file_key. destruct (member_get k ms) as [m|] eqn:Hm; [|by eexists].
    apply member_get_elem in Hm as [Hm _]. destruct (Hms m Hm) as [Hr _]. destruct (Hr Plain) as [v ->]. by eexists.
Qed.

Lemma member_total how ms out m :
  total_members ms → m ∈ ms → ∃ out', sanitize_member bracketed_ok internal_ip how ms out m = Ok out'.
Proof using Type.
  intros Hms Hm. destruct (Hms m Hm) as [Hr Ht]. unfold sanitize_member. cbv zeta. destruct (dropped_key (m_key m)); [by eexists|].
  case_decide; [by eexists|]. destruct (_ && _ && _); [by eexists|].
  destruct (m_value m) as [| | | |s| |];
    try (match goal with |- context [m_read m ?x] => destruct (Hr x) as [v ->]; by eexists end).
  assert (∀ key, ∃ text, _redact_public_text bracketed_ok key s = Ok text) as Hred by (intros key; by apply redact_total).
  destruct (_ && _is_local_uri s); [case_decide; by eexists|]. destruct (_ && _ && _).
  { destruct (uri_total bracketed_ok internal_ip s Ht) as [p ->]. by eexists. }
  destruct (Hred (Some (m_key m))) as [text ->]. destruct (_ && _); [|by eexists]. destruct how; by eexists.
Qed.

(** All texts of the value are simple. *)
Fixpoint simple_value (v : value) : bool :=
  match v with
  | VStr s => simple_text s
  | VList l => (fix go (l : list value) : bool := match l with [] => true | v :: l => simple_value v && go l end) l
  | VDict d => (fix go (d : list (string * value)) : bool := match d with [] => true | (_, v) :: d => simple_value v && go d end) d
  | _ => true
  end.

Lemma simple_list l : simple_value (VList l) = forallb simple_value l.
Proof using Type. cbn. induction l as [|v l IH]; [done|]. cbn. by rewrite IH. Qed.

Lemma simple_dict d : simple_value (VDict d) = forallb (λ kv, simple_value kv.2) d.
Proof using Type. cbn. induction d as [|[k v] d IH]; [done|]. cbn. by rewrite IH. Qed.

Lemma sanitize_total v : simple_value v = true → ∀ how, ∃ v', sanitize v how = Ok v'.
Proof using Type.
  induction v as [| | | |s|l IH|d IH] using value_nested_ind; intros Hv how; try by eexists.
  - cbn. destruct (redact_total bracketed_ok None s Hv) as [t ->]. by eexists.
  - rewrite simple_list in Hv. assert (∃ items, Forall2 (λ x y, sanitize x how = Ok y) l items) as [items Hi].
    { induction IH as [|x l Hx _ IHl]; [by exists []; constructor|]. cbn in Hv. apply andb_true_iff in Hv as [Hv1 Hv2].
      destruct (Hx Hv1 how) as [y Hy]. destruct (IHl Hv2) as [ys Hys]. exists (y :: ys). by constructor. }
    exists (VList items). clear IH Hv. cbn. match goal with |- (?g ≫= _) = _ => assert (g = Ok items) as -> end; [|done].
    induction Hi as [|x y l items Hx _ IHl]; [done|]. by rewrite Hx, IHl.
  - rewrite sanitize_dict. rewrite simple_dict, forallb_forall in Hv. assert (total_members (members_of d)) as Ht.
    { intros m (kv & -> & Hkv)%list_elem_of_fmap. rewrite Forall_forall in IH. assert (simple_value kv.2 = true) as Hs by (by apply Hv, list_elem_of_In).
      split; [by apply IH|]. unfold m_value. cbn. destruct (kv.2); try done. }
    assert (∀ how, ∃ out, fold_res (sanitize_member bracketed_ok internal_ip how (members_of d)) [] (members_of d) = Ok out) as Hf.
    { intros how'. apply fold_res_total. intros out m Hm. by apply member_total. }
    destruct how; [destruct (Hf Plain) as [o ->]|destruct (Hf Descriptor) as [o ->]|by apply file_ref_total]; by eexists.
Qed.

(** *** Metadata and errors *)

Lemma metadata_public v : ∀ key v', _sanitize_public_artifact_metadata_value bracketed_ok key v = Ok (Some v') → public_value v' = true.
Proof using Type.
  induction v as [| | | |s|l IH|d IH] using value_nested_ind; intros key v'; try (by intros [= <-]).
  - cbn. case_decide.
    + intros ([n|] & Hn & [= <-])%bind_Ok; [|done]. apply clean_public. by eapply name_clean.
    + destruct (_is_local_artifact_reference s); [done|]. intros (t & Ht & [= <-])%bind_Ok. apply clean_public. by eapply redact_clean.
  - cbn. intros (items & H & [= <-])%bind_Ok. rewrite public_list. revert items H. induction IH as [|x l Hx _ IHl]; intros items H; [by simplify_eq|].
    apply bind_Ok in H as (y & Hy & (ys & Hys & [= <-])%bind_Ok). specialize (IHl _ Hys). destruct y as [y|]; [|done]. cbn. by rewrite (Hx _ _ Hy), IHl.
  - cbn. intros (items & H & [= <-])%bind_Ok. rewrite public_dict. revert items H. induction IH as [|[k x] d Hx _ IHd]; intros items H; [by simplify_eq|].
    destruct (dropped_key k) eqn:Hk; [by apply IHd|]. apply bind_Ok in H as (y & Hy & (ys & Hys & [= <-])%bind_Ok). specialize (IHd _ Hys).
    destruct y as [y|]; [|done]. cbn [forallb public_member fst snd]. rewrite IHd, andb_true_r. unfold public_member. cbn. by rewrite Hk, (Hx _ _ Hy).
Qed.

Lemma message_clean v m : sanitize_public_error_message bracketed_ok v = Ok m → private_text m = false.
Proof using Type.
  unfold sanitize_public_error_message. intros (text & Ht%redact_clean & [= <-])%bind_Ok. by case_decide; [vm_compute|].
Qed.

Lemma error_public v e : sanitize_public_error bracketed_ok internal_ip v = Ok (Some e) → public_value (VDict e) = true.
Proof using Type.
  destruct v as [| | | | | |d]; cbn [sanitize_public_error]; try done. intros (public & Hp & H)%bind_Ok. apply sanitize_public in Hp.
  assert (forallb public_member (match public with VDict d => d | _ => [] end) = true) as Ho.
  { destruct public; try done. by rewrite <-public_dict. }
  rewrite public_dict. destruct (dict_get "message" d) as [m|]; [|by simplify_eq]. apply bind_Ok in H as (text & Ht & [= <-]).
  apply public_set; [apply own_keys_kept; list_in| |done]. apply clean_public. by eapply message_clean.
Qed.
End outputs.

(** A value as a task may report it. *)
Definition leaky_outputs : value :=
  VDict [("workspace", VStr "/srv/ws"); ("note", VStr "see /data/x.ply, token=abc"); ("log", VStr "wrote /data/x.ply");
         ("artifacts", VList [VDict [("uri", VStr "https://cdn.example.org/a.ply"); ("path", VStr "/data/api_key.txt");
                                     ("files", VList [VDict [("path", VStr "/data/x.ply"); ("sha256", VStr "00ff")]])]])].

Example leaky_cleaned :
  sanitize_public_outputs (λ _, true) (λ _, None) leaky_outputs =
    Ok (VDict [("note", VStr "<redacted>"); ("log", VStr "wrote <redacted>");
               ("artifacts", VList [VDict [("uri", VStr "https://cdn.example.org/a.ply"); ("name", VStr "api_key.txt");
                                           ("files", VList [VDict [("name", VStr "x.ply"); ("sha256", VStr "00ff")]])]])]).
Proof. by vm_compute. Qed.

(** A text with an unbalanced bracket in a URL has no public form: [urlparse] raises. *)
Example bracket_raises :
  sanitize_public_error_message (λ _, true) (VStr "cannot reach http://[::1 (refused)") = Err "Invalid IPv6 URL".
Proof. by vm_compute. Qed.

(** A path right after a colon stays. *)
Example colon_path_kept :
  sanitize_public_error_message (λ _, true) (VStr "cannot open:/srv/data/x.ply") = Ok "cannot open:/srv/data/x.ply".
Proof. by vm_compute. Qed.


