(* ===== verification/Radiance.v ===== *)
(** [services/radiance_service.py]: radiance fields, their snapshots, variants and
    evaluations, and the submission of training and evaluation, with the request models
    of [schemas/api/radiance.py]. A call is one transaction on these tables and those of
    the stages. *)
From S2P Require Import Prelude PyValue Errors Store Hashing Service JobService HubState HubRouting HubManifest ArtifactVocab Conversion Artifacts Datasets Capabilities Backends Stages Snapshots PublicOutputs.
From stdpp Require Import options.
Import Errors Datasets Stages.

#[local] Open Scope Z_scope.
#[local] Arguments String.append !_ _ / : simpl nomatch.

Module Radiance.

(** ** Tables *)

Record RadianceField : Type := mkField {
  rf_id : string;
  rf_tenant_id : string;
  rf_project_id : string;
  rf_dataset_id : option string;
  rf_recon_id : option string;
  rf_name : string;
  rf_provider : string;
  rf_method : string;
  rf_status : string;
  rf_spec_json : dict value;
  rf_summary_json : option (dict value)
}.

Record RadianceSnapshot : Type := mkSnapshot {
  sn_id : string;
  sn_tenant_id : string;
  sn_field_id : string;
  sn_seq : Z;
  sealed_path : string;
  sn_summary_json : option (dict value)
}.

Record RadianceEvaluation : Type := mkEvaluation {
  ev_id : string;
  ev_tenant_id : string;
  ev_field_id : string;
  ev_snapshot_seq : Z;
  ev_dataset_id : option string;
  ev_provider : string;
  ev_method : string;
  ev_split : string;
  ev_status : string;
  config_json : dict value;
  metrics_json : option (dict value);
  artifacts_json : option (list value);
  error_json : option (dict value);
  ev_job_id : option string
}.

Record RadianceVariant : Type := mkVariant {
  vr_id : string;
  vr_tenant_id : string;
  vr_snapshot_id : string;
  vr_format : string;
  vr_uri : option string;
  vr_media_type : option string;
  vr_summary_json : option (dict value)
}.

Record Tables : Type := mkTables {
  base : World;
  fields : list RadianceField;
  snapshots : list RadianceSnapshot;
  evaluations : list RadianceEvaluation;
  variants : list RadianceVariant
}.

Definition set_base (x : World) (w : Tables) : Tables := mkTables x (fields w) (snapshots w) (evaluations w) (variants w).
Definition set_fields (x : list RadianceField) (w : Tables) : Tables := mkTables (base w) x (snapshots w) (evaluations w) (variants w).
Definition set_snapshots (x : list RadianceSnapshot) (w : Tables) : Tables := mkTables (base w) (fields w) x (evaluations w) (variants w).
Definition set_evaluations (x : list RadianceEvaluation) (w : Tables) : Tables := mkTables (base w) (fields w) (snapshots w) x (variants w).
Definition set_variants (x : list RadianceVariant) (w : Tables) : Tables := mkTables (base w) (fields w) (snapshots w) (evaluations w) x.

Abbreviation rcall := (svc exn Tables).

Definition not_found (detail : string) : exn := exn_of_api_error (api_error_init NotFoundError detail []).
Definition invalid (detail : string) : exn := Backends.invalid detail.
Definition unavailable (capability reason : string) : exn := exn_of_api_error (Capabilities.unavailable capability reason).

(** The sanitizer's [ValueError]. *)
Definition value_error {A} (r : res string A) : res exn A :=
  match r with Ok a => Ok a | Err text => Err (mkExn "ValueError" text false) end.

(** ** Requests ([schemas/api/radiance.py]) *)

Record RadianceEvalConfig : Type := mkEvalConfig {
  enabled : bool;
  split : string;
  every_steps : option Z;
  final : bool;
  metrics : list string;
  max_images : option Z;
  image_downscale : Z;
  crop_border_px : Z;
  save_images : bool;
  lpips_net : string;
  background : string
}.

Definition opt_int (x : option Z) : value := match x with Some z => VInt z | None => VNone end.
Definition opt_text (x : option string) : value := match x with Some s => VStr s | None => VNone end.

(** [model_dump(mode="json")] *)
Definition dump_eval (c : RadianceEvalConfig) : dict value :=
  [("enabled", VBool (enabled c)); ("split", VStr (split c)); ("every_steps", opt_int (every_steps c)); ("final", VBool (final c));
   ("metrics", VStrs (metrics c)); ("max_images", opt_int (max_images c)); ("image_downscale", VInt (image_downscale c));
   ("crop_border_px", VInt (crop_border_px c)); ("save_images", VBool (save_images c)); ("lpips_net", VStr (lpips_net c));
   ("background", VStr (background c))].

Record RadianceTrainRequest : Type := mkTrainRequest {
  tr_name : option string;
  tr_dataset_id : option string;
  tr_recon_id : option string;
  tr_provider : option string;
  tr_method : string;
  max_steps : Z;
  tr_eval : option RadianceEvalConfig;
  tr_backend_options : dict value;
  tr_request_id : option string
}.

Definition filled (x : option string) : bool := match x with Some "" | None => false | _ => true end.

(** Exactly one input. *)
Definition _one_input (body : RadianceTrainRequest) : bool := xorb (filled (tr_dataset_id body)) (filled (tr_recon_id body)).

Definition train_spec (body : RadianceTrainRequest) : dict value :=
  [("method", VStr (tr_method body)); ("max_steps", VInt (max_steps body))] ++
  match tr_eval body with Some c => [("eval", VDict (dump_eval c))] | None => [] end ++
  [("backend_options", VDict (tr_backend_options body)); ("request_id", opt_text (tr_request_id body))] ++
  match tr_provider body with Some p => [("provider", VStr p)] | None => [] end.

Record RadianceEvaluateRequest : Type := mkEvaluateRequest {
  er_snapshot_seq : option Z;
  er_dataset_id : option string;
  er_provider : option string;
  er_method : option string;
  er_eval : RadianceEvalConfig;
  er_backend_options : dict value;
  er_request_id : option string
}.

(** ** Misspelled options

    [difflib.get_close_matches]. Its shortcut for sequences of two hundred items cannot
    change an answer here: such a key is far from every canonical one. *)

Fixpoint common (a b : list ascii) : nat :=
  match a, b with x :: a, y :: b => if decide (x = y) then S (common a b) else O | _, _ => O end.

(** The longest common block, first in [a], then in [b]: its places and its length. *)
Definition find_longest_match (a b : list ascii) : nat * nat * nat :=
  foldl (λ best ij,
      let k := common (drop ij.1 a) (drop ij.2 b) in
      if (best.2 <? k)%nat then (ij.1, ij.2, k) else best)
    (0, 0, 0)%nat
    (seq 0 (length a) ≫= λ i, (i,.) <$> seq 0 (length b)).

(** The characters in matching blocks. *)
Fixpoint matching (fuel : nat) (a b : list ascii) : nat :=
  match fuel with
  | O => O
  | S fuel =>
      let '(i, j, k) := find_longest_match a b in
      if (k =? 0)%nat then O
      else (k + matching fuel (take i a) (take j b) + matching fuel (drop (i + k) a) (drop (j + k) b))%nat
  end.

(** A ratio, as twice the matched characters over all characters. *)
Definition ratio (a b : string) : nat * nat :=
  let a := String.list_ascii_of_string a in
  let b := String.list_ascii_of_string b in
  ((2 * matching (S (length a)) a b)%nat, (length a + length b)%nat).

(** [ratio >= 0.85] *)
Definition close (r : nat * nat) : bool := (r.2 =? 0)%nat || (17 * r.2 <=? 20 * r.1)%nat.

(** The better of two scored words: the higher ratio, then the greater word. *)
Definition better (x y : (nat * nat) * string) : (nat * nat) * string :=
  let l := (x.1.1 * y.1.2)%nat in
  let r := (y.1.1 * x.1.2)%nat in
  if (l <? r)%nat then y
  else if (r <? l)%nat then x
  else if decide (String.le x.2 y.2) then y else x.

(** [get_close_matches(word, possibilities, n=1, cutoff=0.85)] *)
Definition get_close_match (word : string) (possibilities : list string) : option string :=
  match filter (λ s : (nat * nat) * string, close s.1 = true) ((λ x, (ratio x word, x)) <$> possibilities) with
  | [] => None
  | s :: scored => Some (foldl better s scored).2
  end.

Definition canonical_options : list string :=
  match value_get "properties" Backends.radiance_train_option_schema with VDict d => dict_keys d | _ => [] end.

Definition suspicious (backend_options : dict value) : list (string * string) :=
  omap (λ key, if decide (key ∈ canonical_options) then None else (key,.) <$> get_close_match key canonical_options)
    (dict_keys backend_options).

Definition _check_radiance_canonical_typos (backend_options : dict value) : res exn unit :=
  let found := suspicious backend_options in
  raise_if (negb (is_nil found))
    (invalid ("radiance backend_options has possibly-misspelled canonical knob(s): " +:+
              join "; " ((λ kv, str_repr kv.1 +:+ " -> did you mean " +:+ str_repr kv.2 +:+ "?") <$> found))).

(** ** Paths and the disk *)

(** What a directory holds, as far as the scan for links looks: a directory that cannot
    be read is [Folder None]. *)
Inductive entry : Type :=
  | File
  | Link
  | Folder (children : option (list (string * entry))).

#[export] Instance path_eq_dec : EqDecision Path.
Proof. solve_decision. Defined.

(** The file system a transaction meets: [resolve] follows links and never fails. *)
Record Disk : Type := mkDisk {
  resolve : Path → Path;
  exists_ : Path → bool;
  is_link : Path → bool;
  is_dir : Path → bool;
  is_file : Path → bool;
  entry_at : Path → entry
}.

Inductive disk_action : Type :=
  | MakeDirs (p : Path)
  | CopyTree (source target : Path)
  | WriteJson (p : Path) (payload : dict value).

Definition netloc_drive (s : string) : bool := match s with String _ (String ":" EmptyString) => true | _ => false end.

Definition strip_drive_slash (path : string) : string :=
  match path with String "/" rest => if PublicOutputs.is_drive rest then rest else path | _ => path end.

(** [tail p root]: [p.relative_to(root)], if [p] is below. *)
Definition relative_to (p top : Path) : option (list string) :=
  if decide (root p = root top ∧ take (length (components top)) (components p) = components top)
  then Some (drop (length (components top)) (components p)) else None.

Definition is_absolute (p : Path) : bool := negb (bool_decide (root p = "")).

Definition _is_nonlocal_uri (s : string) : bool :=
  match Artifacts.before_scheme s with
  | None | Some "" => false
  | Some scheme =>
      if match s with String _ (String ":" (String c _)) => Artifacts.path_sep c | _ => false end then false
      else if negb (Manifest.all_chars PublicOutputs.scheme_char scheme) then false
      else negb (bool_decide (scheme = "file"))
  end.

Definition _valid_snapshot_seq (v : value) : option Z := match v with VInt z => if 1 <=? z then Some z else None | _ => None end.

Section disk.
Context (bracketed_ok : string → bool) (internal_ip : string → option bool) (disk : Disk) (env : Stages.Env).

Definition _file_uri_path (s : string) : res string (option string) :=
  if negb (starts_with "file://" s) then Ok None
  else
    u ← PublicOutputs.urlparse bracketed_ok s;
    let path := PublicOutputs.unquote (PublicOutputs.path u) in
    let host := PublicOutputs.netloc u in
    let path := if decide (host = "" ∨ host = "localhost") then path
                else if netloc_drive host then host +:+ path else "//" +:+ host +:+ path in
    Ok (Some (strip_drive_slash path)).

Definition _path_is_under (p top : Path) : bool :=
  match relative_to (resolve disk p) (resolve disk top) with Some _ => true | None => false end.

Definition _radiance_field_root (tenant : string) (f : RadianceField) : Path :=
  radiance_field_root (settings env) tenant (rf_project_id f) (rf_id f).

Definition _radiance_snapshot_root (tenant : string) (f : RadianceField) (seq : Z) : Path :=
  div (div (_radiance_field_root tenant f) "snapshots") (Snapshots.seq_name seq).

(** [_reject_snapshot_links]: a stack of directories, each with its path below the
    source; the children of one are checked in order and its directories pushed. *)
Definition has_links : exn := invalid "radiance_train snapshot_path must not contain symlinks or junctions".
Definition link_at (path : list string) : exn :=
  invalid ("radiance_train snapshot_path must not contain symlinks or junctions: " +:+ join "/" path).
Definition unreadable : exn := invalid "radiance_train snapshot_path could not be inspected for symlinks".

Definition check_child (path : list string) (stack : list (list string * entry)) (child : string * entry) :
    res exn (list (list string * entry)) :=
  match child.2 with
  | Link => Err (link_at (path ++ [child.1]))
  | Folder _ => Ok ((path ++ [child.1], child.2) :: stack)
  | File => Ok stack
  end.

Fixpoint reject_links (fuel : nat) (stack : list (list string * entry)) : res exn unit :=
  match fuel, stack with
  | _, [] => Ok tt
  | O, _ => Err unreadable
  | S fuel, (path, e) :: stack =>
      match e with
      | Link => Err has_links
      | File | Folder None => Err unreadable
      | Folder (Some children) => stack ← fold_res (check_child path) stack children; reject_links fuel stack
      end
  end.

(** The directories of an entry. *)
Fixpoint folders (e : entry) : nat :=
  match e with
  | Folder (Some children) =>
      S ((fix go (l : list (string * entry)) : nat := match l with [] => O | (_, e) :: l => (folders e + go l)%nat end) children)
  | Folder None => 1
  | _ => 0
  end.

Definition _reject_snapshot_links (e : entry) : res exn unit := reject_links (S (folders e)) [([], e)].

Definition _public_dict (v : value) : res exn (dict value) :=
  public ← value_error (PublicOutputs.sanitize_public_outputs bracketed_ok internal_ip (match v with VDict _ => v | _ => VDict [] end));
  Ok (match public with VDict d => d | _ => [] end).

Definition _public_artifact_list (v : value) : res exn (list value) :=
  public ← value_error (PublicOutputs.sanitize_public_outputs bracketed_ok internal_ip
             (VDict [("artifacts", match v with VList _ => v | _ => VList [] end)]));
  Ok (match public with VDict d => match value_get "artifacts" d with VList l => l | _ => [] end | _ => [] end).

(** What is done to the disk, and the outcome. [copied name] says whether the copy put an
    entry of that name into the directory. *)
Definition effect (A : Type) : Type := list disk_action * res exn A.

Definition _write_json_if_absent (copied : string → bool) (top : Path) (name : string) (payload : dict value) : effect unit :=
  let p := div top name in
  if is_link disk p then ([], Err (invalid ("radiance_train metadata path is a symlink or junction: " +:+ name)))
  else if exists_ disk p || copied name then ([], Ok tt)
  else ([WriteJson p payload], Ok tt).

Definition then_ {A B} (x : effect A) (f : A → effect B) : effect B :=
  match x.2 with Ok a => (x.1 ++ (f a).1, (f a).2) | Err e => (x.1, Err e) end.

Definition child_names (e : entry) : list string := match e with Folder (Some l) => l.*1 | _ => [] end.

(** The source directory of a local provider path, if it may be used. *)
Definition provider_source (tenant : string) (f : RadianceField) (managed_root provider : Path) : res exn Path :=
  _ ← raise_if (negb (exists_ disk provider) && negb (is_link disk provider))
        (invalid "radiance_train snapshot_path must reference an existing directory");
  _ ← raise_if (is_link disk provider) (invalid "radiance_train snapshot_path must not be a symlink or junction");
  let source := resolve disk provider in
  _ ← raise_if (negb (is_dir disk source)) (invalid "radiance_train snapshot_path must reference a directory");
  let managed := resolve disk managed_root in
  let live_root := resolve disk (div (resolve disk (_radiance_field_root tenant f)) "_live") in
  _ ← raise_if (negb (bool_decide (source = managed)) && negb (_path_is_under source managed) && negb (_path_is_under source live_root))
        (invalid "radiance_train snapshot_path must stay under the current radiance field root");
  _ ← _reject_snapshot_links (entry_at disk source);
  Ok source.

(** The copy of a local source, if there is one, and the names it brings. *)
Definition provider_copy (tenant : string) (f : RadianceField) (managed_root : Path) (provider_path : string) :
    effect (list string) :=
  match value_error (_file_uri_path provider_path) with
  | Err e => ([], Err e)
  | Ok local =>
      let provider := path_of (default provider_path (Conversion.nonempty local)) in
      if is_absolute provider then
        match provider_source tenant f managed_root provider with
        | Err e => ([], Err e)
        | Ok source =>
            if decide (source = resolve disk managed_root) then ([], Ok [])
            else ([CopyTree source managed_root], Ok (child_names (entry_at disk source)))
        end
      else if _is_nonlocal_uri provider_path then ([], Ok [])
      else ([], Err (invalid "radiance_train snapshot_path must be an absolute local path or an explicit non-local URI"))
  end.

Definition _seal_radiance_snapshot_path (tenant : string) (f : RadianceField) (seq : Z) (provider_path : string)
    (summary outputs : dict value) : effect string :=
  let managed_root := _radiance_snapshot_root tenant f seq in
  then_ ([MakeDirs managed_root], Ok tt) (λ _,
  then_ (provider_copy tenant f managed_root provider_path) (λ names,
  let copied name := bool_decide (name ∈ names) in
  then_ (_write_json_if_absent copied managed_root "summary.json" summary) (λ _,
  then_ (match value_get "metadata" outputs with
         | VDict _ as m =>
             then_ ([], _public_dict m) (λ public, _write_json_if_absent copied managed_root "metadata.json" public)
         | _ => ([], Ok tt)
         end) (λ _,
  ([], Ok (path_str (resolve disk managed_root))))))).

Definition resolve_radiance_snapshot_file (tenant : string) (f : RadianceField) (s : RadianceSnapshot) (name : string) : res exn Path :=
  let missing := not_found ("Snapshot file " +:+ str_repr name +:+ " not found") in
  let top := resolve disk (path_of (sealed_path s)) in
  _ ← raise_if (negb (_path_is_under top (resolve disk (_radiance_field_root tenant f)))) missing;
  let target := resolve disk (div top name) in
  _ ← raise_if (match relative_to target top with Some _ => false | None => true end) missing;
  _ ← raise_if (negb (is_file disk target)) missing;
  Ok target.

(** ** Reading rows *)

Definition get_radiance_field (tenant id : string) : rcall RadianceField :=
  r ← gets (λ w, row_get rf_id id (select (λ r, bool_decide (rf_tenant_id r = tenant)) (fields w)));
  found r (not_found ("RadianceField " +:+ id +:+ " not found")).

Definition seq_le (a b : RadianceSnapshot) : Prop := (sn_seq a <= sn_seq b)%Z.
#[local] Instance seq_le_dec a b : Decision (seq_le a b).
Proof. unfold seq_le. apply _. Defined.

Definition of_field (tenant id : string) (s : RadianceSnapshot) : bool :=
  bool_decide (sn_tenant_id s = tenant) && bool_decide (sn_field_id s = id).

Definition list_radiance_snapshots (tenant id : string) : rcall (list RadianceSnapshot) :=
  _ ← get_radiance_field tenant id;
  gets (λ w, merge_sort seq_le (select (of_field tenant id) (snapshots w))).

Definition get_radiance_evaluation (tenant id : string) : rcall RadianceEvaluation :=
  r ← gets (λ w, row_get ev_id id (select (λ r, bool_decide (ev_tenant_id r = tenant)) (evaluations w)));
  found r (not_found ("RadianceEvaluation " +:+ id +:+ " not found")).

Definition _require_project (tenant project : string) : rcall Project :=
  p ← gets (λ w, row_get p_project_id project (projects (w_data (base w))));
  found (p ← p; if decide (p_tenant_id p = tenant) then Some p else None) (not_found ("Project " +:+ project +:+ " not found")).

Definition require_dataset (tenant project id : string) : rcall unit :=
  d ← gets (λ w, row_get dataset_id id (datasets (w_data (base w))));
  guard (match d with Some d => bool_decide (d_tenant_id d = tenant) && bool_decide (d_project_id d = project) | None => false end)
    (not_found ("Dataset " +:+ id +:+ " not found")).

Definition _validate_input (tenant project : string) (body : RadianceTrainRequest) : rcall unit :=
  _ ← _require_project tenant project;
  _ ← match tr_dataset_id body with Some id => require_dataset tenant project id | None => mret tt end;
  match tr_recon_id body with
  | Some id =>
      r ← gets (λ w, row_get rc_id id (w_recons (base w)));
      guard (match r with Some r => bool_decide (rc_tenant_id r = tenant) && bool_decide (rc_project_id r = project) | None => false end)
        (not_found ("Reconstruction " +:+ id +:+ " not found"))
  | None => mret tt
  end.

(** ** Providers *)

Definition selected_rows (provider : string) : list Routing.ProviderRecord :=
  filter (λ row, Routing.selects provider row = true)
    (Routing.provider_records (discovered env) (hub_state env) (manifests env) true true).

Definition plugin_ids (rows : list Routing.ProviderRecord) : string := join ", " (py_sorted_set (Routing.r_plugin_id <$> rows)).

Definition missing_capability (offered : list string) (provider capability : string) : res exn unit :=
  raise_if (bool_decide (capability ∉ offered))
    (unavailable capability ("provider " +:+ str_repr provider +:+ " does not advertise " +:+ capability)).

Definition _require_radiance_provider_capabilities (provider capability : string) (metrics : list string) : res exn unit :=
  if decide (provider = "stub") then Ok tt
  else
    match selected_rows provider with
    | [] => Err (unavailable capability ("provider " +:+ str_repr provider +:+ " is not installed and enabled as a radiance plugin"))
    | [row] =>
        _ ← raise_if (bool_decide ("container_service" ∉ Routing.runtime_modes row))
              (unavailable capability ("provider " +:+ str_repr provider +:+ " advertises " +:+ capability +:+
                                       " but does not declare a container_service runtime"));
        for_each (missing_capability (Hub.capabilities (Routing.r_provider row)) provider)
          (capability :: ((λ m, "radiance.metrics." +:+ m) <$> metrics))
    | rows => Err (invalid ("provider " +:+ str_repr provider +:+ " is ambiguous across installed plugins: " +:+ plugin_ids rows))
    end.

(** ** Submission *)

Definition on_base {A} (m : Stages.call A) : rcall A := on_part base set_base m.

Definition draw_id : rcall string := on_base (new_id env).

Definition train_node (kind provider : string) (inputs spec : dict value) : rcall Dag.TaskNode :=
  id ← draw_id;
  mret (Dag.mkTaskNode id kind (Dag.hash_inputs (VDict inputs)) (Dag.hash_params (VDict spec)) []
          (negb (bool_decide (provider = "stub"))) [("inputs", VDict inputs); ("spec", VDict spec)]).

(** A field of the row's column, if it is there. *)
Definition add_evaluation (e : RadianceEvaluation) : rcall unit := modify (λ w, set_evaluations (evaluations w ++ [e]) w).
Definition put_evaluation (e : RadianceEvaluation) : rcall unit := modify (λ w, set_evaluations (put_row ev_id e (evaluations w)) w).
Definition put_field (f : RadianceField) : rcall unit := modify (λ w, set_fields (put_row rf_id f (fields w)) w).

Definition with_job (job : string) (e : RadianceEvaluation) : RadianceEvaluation :=
  mkEvaluation (ev_id e) (ev_tenant_id e) (ev_field_id e) (ev_snapshot_seq e) (ev_dataset_id e) (ev_provider e) (ev_method e)
    (ev_split e) (ev_status e) (config_json e) (metrics_json e) (artifacts_json e) (error_json e) (Some job).

Definition final_eval (body : RadianceTrainRequest) : option RadianceEvalConfig :=
  c ← tr_eval body; if enabled c && final c then Some c else None.

(** The spec with its provider. *)
Definition resolve_train (project : string) (body : RadianceTrainRequest) : res exn (dict value * string) :=
  let spec := train_spec body in
  spec ← (if decide (tr_provider body = Some "stub") then Ok spec
          else apply_provider_resolution env spec "radiance" (Some "radiance.train") (Some project));
  let provider := text_or (value_get "provider" spec) "stub" in
  let spec := dict_set "provider" (VStr provider) spec in
  let eval_metrics := match tr_eval body with Some c => if enabled c then metrics c else [] | None => [] end in
  _ ← _require_radiance_provider_capabilities provider "radiance.train" eval_metrics;
  Ok (spec, provider).

Definition new_evaluation (id tenant field : string) (seq : Z) (dataset : option string) (provider method : string) (config : dict value) :
    RadianceEvaluation :=
  mkEvaluation id tenant field seq dataset provider method (Conversion.py_str (value_get "split" config)) "running" config
    None None None None.

(** The job's id, its tasks' ids, the field's id and the evaluation's. *)
Definition submit_radiance_train (tenant project : string) (body : RadianceTrainRequest) :
    rcall (string * list string * string * option string) :=
  _ ← _validate_input tenant project body;
  _ ← lift (_check_radiance_canonical_typos (tr_backend_options body));
  '(spec, provider) ← lift (resolve_train project body);
  field_id ← draw_id;
  let name := default ("radiance-" +:+ Artifacts.py_take 8 field_id) (Conversion.nonempty (tr_name body)) in
  _ ← modify (λ w, set_fields (fields w ++
        [mkField field_id tenant project (tr_dataset_id body) (tr_recon_id body) name provider (tr_method body) "running" spec None]) w);
  evaluation ← match final_eval body with
               | Some c =>
                   id ← draw_id;
                   let e := new_evaluation id tenant field_id 1 (tr_dataset_id body) provider (tr_method body) (dump_eval c) in
                   _ ← add_evaluation e; mret (Some e)
               | None => mret None
               end;
  let inputs := [("project_id", VStr project); ("radiance_field_id", VStr field_id); ("dataset_id", opt_text (tr_dataset_id body));
                 ("recon_id", opt_text (tr_recon_id body))] ++
                match evaluation with Some e => [("evaluation_id", VStr (ev_id e))] | None => [] end in
  node ← train_node "radiance_train" provider inputs spec;
  '(job, tasks, _) ← on_base (Stages.submit_job_dag env tenant project "radiance.train"
                                (dict_merge [("radiance_field_id", VStr field_id)] spec) [node]);
  _ ← match evaluation with Some e => put_evaluation (with_job job e) | None => mret tt end;
  mret (job, task_id <$> tasks, field_id, ev_id <$> evaluation).

(** The provider of an evaluation. *)
Definition resolve_evaluate (f : RadianceField) (body : RadianceEvaluateRequest) : res exn string :=
  let provider := default (rf_provider f) (Conversion.nonempty (er_provider body)) in
  if decide (provider = "stub") then Ok provider
  else
    spec ← apply_provider_resolution env [("provider", VStr provider)] "radiance" (Some "radiance.evaluate") (Some (rf_project_id f));
    Ok (text_or (value_get "provider" spec) provider).

(** The snapshot to evaluate: the one asked for, or the last. *)
Definition chosen_seq (body : RadianceEvaluateRequest) (rows : list RadianceSnapshot) : Z :=
  match er_snapshot_seq body with
  | Some z => if z =? 0 then default 0 (sn_seq <$> last rows) else z
  | None => default 0 (sn_seq <$> last rows)
  end.

Definition submit_radiance_evaluate (tenant field_id : string) (body : RadianceEvaluateRequest) :
    rcall (string * list string * string) :=
  f ← get_radiance_field tenant field_id;
  rows ← list_radiance_snapshots tenant field_id;
  _ ← guard (negb (is_nil rows)) (invalid "radiance_field has no snapshots to evaluate");
  let seq := chosen_seq body rows in
  _ ← guard (existsb (λ r, sn_seq r =? seq) rows) (not_found ("RadianceSnapshot " +:+ field_id +:+ "/" +:+ pretty seq +:+ " not found"));
  let dataset := match Conversion.nonempty (er_dataset_id body) with Some d => Some d | None => rf_dataset_id f end in
  _ ← match er_dataset_id body with Some id => require_dataset tenant (rf_project_id f) id | None => mret tt end;
  provider ← lift (resolve_evaluate f body);
  let method := default (rf_method f) (Conversion.nonempty (er_method body)) in
  let config := dict_set "enabled" (VBool true) (dump_eval (er_eval body)) in
  _ ← lift (_require_radiance_provider_capabilities provider "radiance.evaluate" (metrics (er_eval body)));
  id ← draw_id;
  let e := new_evaluation id tenant field_id seq dataset provider method config in
  _ ← add_evaluation e;
  let spec := [("provider", VStr provider); ("method", VStr method); ("snapshot_seq", VInt seq); ("eval", VDict config);
               ("backend_options", VDict (er_backend_options body)); ("request_id", opt_text (er_request_id body))] in
  let inputs := [("project_id", VStr (rf_project_id f)); ("radiance_field_id", VStr field_id); ("evaluation_id", VStr id);
                 ("snapshot_seq", VInt seq); ("dataset_id", opt_text dataset)] in
  node ← train_node "radiance_eval" provider inputs spec;
  '(job, tasks, _) ← on_base (Stages.submit_job_dag env tenant (rf_project_id f) "radiance.evaluate"
                                (dict_merge [("radiance_field_id", VStr field_id); ("evaluation_id", VStr id)] spec) [node]);
  _ ← put_evaluation (with_job job e);
  mret (job, task_id <$> tasks, id).

(** ** Results *)

Definition with_field_status (status : string) (summary : option (dict value)) (f : RadianceField) : RadianceField :=
  mkField (rf_id f) (rf_tenant_id f) (rf_project_id f) (rf_dataset_id f) (rf_recon_id f) (rf_name f) (rf_provider f) (rf_method f)
    status (rf_spec_json f) summary.

Definition mark_radiance_field_status (tenant id status : string) (error : option string) : rcall unit :=
  f ← get_radiance_field tenant id;
  let summary := match Conversion.nonempty error with
                 | Some e => Some (dict_set "error" (VStr e) (default [] (rf_summary_json f)))
                 | None => rf_summary_json f
                 end in
  put_field (with_field_status status summary f).

Definition with_result (status : string) (metrics : option (dict value)) (artifacts : option (list value)) (err : option (dict value))
    (e : RadianceEvaluation) : RadianceEvaluation :=
  mkEvaluation (ev_id e) (ev_tenant_id e) (ev_field_id e) (ev_snapshot_seq e) (ev_dataset_id e) (ev_provider e) (ev_method e)
    (ev_split e) status (config_json e) metrics artifacts err (ev_job_id e).

Definition mark_radiance_evaluation_status (tenant id status : string) (error : option (dict value)) : rcall unit :=
  e ← get_radiance_evaluation tenant id;
  err ← match error with
        | Some d => lift (value_error (PublicOutputs.sanitize_public_error bracketed_ok internal_ip (VDict d)))
        | None => mret (error_json e)
        end;
  put_evaluation (with_result status (metrics_json e) (artifacts_json e) err e).

Definition record_radiance_evaluation_result (tenant id : string) (outputs : dict value) : rcall unit :=
  e ← get_radiance_evaluation tenant id;
  let m := value_get "metrics" outputs in
  _ ← guard (is_dict m) (invalid "radiance_eval output must include metrics");
  public ← lift (_public_dict m);
  rows ← lift (_public_artifact_list (value_get "artifacts" outputs));
  put_evaluation (with_result "succeeded" (Some public) (Some rows) None e).

(** One of the evaluations inside the outputs of a training. *)
Definition record_embedded (tenant expected field_id : string) (item : value) : rcall unit :=
  match item with
  | VDict d =>
      match value_get "evaluation_id" d, value_get "metrics" d with
      | VStr id, VDict _ =>
          _ ← guard (bool_decide (id = expected)) (invalid "radiance_train output includes metrics for an unexpected evaluation_id");
          _ ← guard (match value_get "radiance_field_id" d with VStr f => bool_decide (f = field_id) | _ => true end)
                (invalid "radiance_train output includes metrics for a different radiance_field_id");
          record_radiance_evaluation_result tenant id d
      | _, _ => mret tt
      end
  | _ => mret tt
  end.

Definition _record_embedded_evaluations (tenant : string) (expected : option string) (field_id : string) (outputs : dict value) :
    rcall unit :=
  match Conversion.nonempty expected, value_get "evaluations" outputs with
  | Some expected, VList items => each (record_embedded tenant expected field_id) items
  | _, _ => mret tt
  end.

Definition text_of (v : value) : option string := match v with VStr s => Some s | _ => None end.

Definition add_variant (tenant snapshot : string) (item : value) : rcall unit :=
  match item with
  | VDict d =>
      match value_get "format" d with
      | VStr "" => mret tt
      | VStr fmt =>
          summary ← match value_get "summary" d with VDict _ as v => public ← lift (_public_dict v); mret (Some public) | _ => mret None end;
          id ← draw_id;
          modify (λ w, set_variants (variants w ++
            [mkVariant id tenant snapshot fmt (text_of (value_get "uri" d)) (text_of (value_get "media_type" d)) summary]) w)
      | _ => mret tt
      end
  | _ => mret tt
  end.

Definition with_path (path : string) (summary : dict value) (s : RadianceSnapshot) : RadianceSnapshot :=
  mkSnapshot (sn_id s) (sn_tenant_id s) (sn_field_id s) (sn_seq s) path (Some summary).

(** The row of the snapshot, made or updated. *)
Definition store_snapshot (tenant field_id : string) (seq : Z) (path : string) (summary : dict value) : rcall string :=
  rows ← gets (λ w, select (λ s, of_field tenant field_id s && (sn_seq s =? seq)) (snapshots w));
  match head rows with
  | Some s => _ ← modify (λ w, set_snapshots (put_row sn_id (with_path path summary s) (snapshots w)) w); mret (sn_id s)
  | None =>
      id ← draw_id;
      _ ← modify (λ w, set_snapshots (snapshots w ++ [mkSnapshot id tenant field_id seq path (Some summary)]) w);
      mret id
  end.

(** The valid sequence number and path of the outputs. *)
Definition snapshot_of (outputs : dict value) : res exn (Z * string) :=
  match _valid_snapshot_seq (value_get "snapshot_seq" outputs), value_get "snapshot_path" outputs with
  | Some seq, VStr path =>
      if decide (path = "") then Err (invalid "radiance_train output must include snapshot_seq and snapshot_path") else Ok (seq, path)
  | _, _ => Err (invalid "radiance_train output must include snapshot_seq and snapshot_path")
  end.

Definition record_radiance_train_result (tenant field_id : string) (outputs : dict value) (expected : option string) : rcall unit :=
  f ← get_radiance_field tenant field_id;
  '(seq, provider_path) ← lift (snapshot_of outputs);
  summary ← lift (_public_dict (value_get "summary" outputs));
  path ← lift (_seal_radiance_snapshot_path tenant f seq provider_path summary outputs).2;
  _ ← put_field (with_field_status "succeeded" (Some summary) f);
  _ ← guard (match expected, value_get "evaluation_id" outputs with
             | Some expected, VStr id => bool_decide (id = expected)
             | _, _ => true
             end) (invalid "radiance_train output includes an unexpected evaluation_id");
  _ ← _record_embedded_evaluations tenant expected field_id outputs;
  snapshot ← store_snapshot tenant field_id seq path summary;
  match value_get "variants" outputs with
  | VList items => each (add_variant tenant snapshot) items
  | _ => mret tt
  end.
End disk.
(** ** Foreign keys ([db/models.py])

    Fields go with their project, snapshots and evaluations with their field, variants
    with their snapshot; a field forgets a dataset or a reconstruction that is gone. *)

Definition kept_id {A} (key : A → string) (rows : list A) (x : option string) : option string :=
  i ← x; if id_taken key i rows then Some i else None.

Definition forget (b : World) (f : RadianceField) : RadianceField :=
  mkField (rf_id f) (rf_tenant_id f) (rf_project_id f) (kept_id dataset_id (datasets (w_data b)) (rf_dataset_id f))
    (kept_id rc_id (w_recons b) (rf_recon_id f)) (rf_name f) (rf_provider f) (rf_method f) (rf_status f) (rf_spec_json f) (rf_summary_json f).

Definition cascade_fields (w : Tables) : Tables :=
  let b := base w in
  let fs := forget b <$> delete_where (λ f, negb (id_taken p_project_id (rf_project_id f) (projects (w_data b)))) (fields w) in
  let ss := delete_where (λ s, negb (id_taken rf_id (sn_field_id s) fs)) (snapshots w) in
  let es := delete_where (λ e, negb (id_taken rf_id (ev_field_id e) fs)) (evaluations w) in
  let vs := delete_where (λ v, negb (id_taken sn_id (vr_snapshot_id v) ss)) (variants w) in
  mkTables b fs ss es vs.
End Radiance.
