(* ===== verification/RadianceTasks.v ===== *)
(** [workers/tasks/radiance_train.py] and [workers/tasks/radiance_eval.py]: the tasks of
    radiance training and evaluation, their lifecycle hooks, and the checks on what a
    container provider returns; with [workers/_task_io.py]. *)
From S2P Require Import Prelude PyValue Errors Store Service HubState HubRouting HubManifest ArtifactVocab Conversion Artifacts Datasets Capabilities Backends Stages Snapshots Radiance.
From stdpp Require Import options.
Import Errors Stages Radiance.

#[local] Open Scope Z_scope.
#[local] Arguments String.append !_ _ / : simpl nomatch.

Module RadianceTasks.

(** ** The state of a task *)

Definition dict_of (v : value) : dict value := match v with VDict d => d | _ => [] end.

(** [task.task_state_json or {}] *)
Definition state_of (t : Task) : dict value := dict_of (default VNone (task_state_json t)).

(** [read_state(task)]: the inputs and the spec, objects or absent. *)
Definition read_inputs (t : Task) : dict value := dict_of (value_get "inputs" (state_of t)).
Definition read_state (t : Task) : dict value * dict value := (read_inputs t, dict_of (value_get "spec" (state_of t))).

Definition some_text (v : value) : option string := if truthy v then Some (Conversion.py_str v) else None.

Definition _task_radiance_field_id (t : Task) : option string := some_text (value_get "radiance_field_id" (read_inputs t)).
Definition _task_radiance_evaluation_id (t : Task) : option string := some_text (value_get "evaluation_id" (read_inputs t)).

(** A filled text. *)
Definition filled_str (v : value) : option string := match v with VStr "" => None | VStr s => Some s | _ => None end.

(** ** Stub outputs *)

Definition whole (z : Z) : pyfloat := PyFloat (FFinite (QArith_base.inject_Z z)) (pretty z +:+ ".0").

Definition _stub_metrics : dict value :=
  [("psnr_db", VFloat (whole 30)); ("ssim", VFloat (whole 1)); ("lpips", VFloat (whole 0)); ("num_images", VInt 1);
   ("duration_s", VFloat (whole 0)); ("render_time_s_total", VFloat (whole 0)); ("render_time_s_mean", VFloat (whole 0))].

Definition stub_eval_artifacts : value :=
  VList [VDict [("kind", VStr "radiance.evaluation.metrics"); ("name", VStr "metrics.json"); ("media_type", VStr "application/json");
                ("artifact_format", VStr "sfmapi.radiance.metrics.v1"); ("summary", VDict _stub_metrics)]].

Definition stub_summary (field_id : string) (spec : dict value) : dict value :=
  [("provider", VStr "stub"); ("method", VStr (text_or (value_get "method" spec) "stub")); ("radiance_field_id", VStr field_id);
   ("vertex_count", VInt 1); ("format", VStr "ply"); ("duration_s", VFloat (whole 0))].

Definition eval_enabled (spec : dict value) : bool :=
  match value_get "eval" spec with VDict c => match value_get "enabled" c with VBool true => true | _ => false end | _ => false end.

(** The evaluation a training task is asked for. *)
Definition expected_evaluation (inputs spec : dict value) : option string :=
  if eval_enabled spec then filled_str (value_get "evaluation_id" inputs) else None.

Definition newline : string := String "010" "".
Definition PLY : string :=
  join newline ["ply"; "format ascii 1.0"; "element vertex 1"; "property float x"; "property float y"; "property float z";
                "property uchar red"; "property uchar green"; "property uchar blue"; "end_header"; "0 0 0 255 255 255"; ""].

Definition failed_with (detail : string) : exn := Radiance.invalid detail.

Section handlers.
(** [json.dumps(d, sort_keys=True)] with an indent or without, and the order
    directories are walked in. *)
Context (dumps : option nat → dict value → string) (listing : Snapshots.tree → list string) (env : Stages.Env).

(** What the stub leaves in its live directory. *)
Definition live_files (summary : dict value) (evaluated : bool) : Snapshots.tree :=
  let files := <["metadata.json" := dumps None summary]> {["point_cloud.ply" := PLY]} in
  if evaluated then <["metrics.json" := dumps None _stub_metrics]> files else files.

Definition stub_outputs (field_id : string) (summary : dict value) (expected : option string) (sealed : Path) : dict value :=
  let variant_uri := path_str (div sealed "point_cloud.ply") in
  let metadata := VDict [("radiance_field_id", VStr field_id); ("snapshot_seq", VInt 1)] in
  [("radiance_field_id", VStr field_id); ("snapshot_seq", VInt 1); ("snapshot_path", VStr (path_str sealed));
   ("summary", VDict summary);
   ("evaluations", VList
      match expected with
      | Some e => [VDict [("evaluation_id", VStr e); ("radiance_field_id", VStr field_id); ("snapshot_seq", VInt 1);
                          ("metrics", VDict _stub_metrics); ("artifacts", stub_eval_artifacts)]]
      | None => []
      end);
   ("artifacts", VList
      [VDict [("kind", VStr "radiance.snapshot"); ("name", VStr "snapshot-1"); ("uri", VStr (path_str sealed));
              ("artifact_format", VStr "sfmapi.radiance.snapshot.v1"); ("metadata", metadata); ("summary", VDict summary)];
       VDict [("kind", VStr "radiance.variant.ply"); ("name", VStr "point_cloud.ply"); ("uri", VStr variant_uri);
              ("media_type", VStr "application/octet-stream"); ("artifact_format", VStr "sfmapi.radiance.variant.ply.v1");
              ("metadata", metadata); ("summary", VDict [("vertex_count", VInt 1)])]]);
   ("variants", VList
      [VDict [("format", VStr "ply"); ("uri", VStr variant_uri); ("media_type", VStr "application/octet-stream");
              ("summary", VDict [("vertex_count", VInt 1)])]])].

(** The stub's part of [run]: its outputs and the actions in the field's [snapshots]
    directory [d]. *)
Definition run_train_stub (t : Task) (d : Snapshots.directory) : res exn (dict value * list Snapshots.action) :=
  let '(inputs, spec) := read_state t in
  match filled_str (value_get "radiance_field_id" inputs), filled_str (value_get "project_id" inputs) with
  | None, _ => Err (failed_with "radiance_train missing radiance_field_id")
  | _, None => Err (failed_with "radiance_train missing project_id")
  | Some field_id, Some project =>
      let top := radiance_field_root (settings env) (t_tenant_id t) project field_id in
      let summary := stub_summary field_id spec in
      let expected := expected_evaluation inputs spec in
      let live := live_files summary match expected with Some _ => true | None => false end in
      match Snapshots.seal listing 1 (Some live) (Some (dumps (Some 2%nat) summary)) d with
      | Err text => Err (mkExn "FileExistsError" text false)
      | Ok actions => Ok (stub_outputs field_id summary expected (div (div top "snapshots") (Snapshots.seq_name 1)), actions)
      end
  end.

(** The number of the snapshot a stub evaluation reports. *)
Definition eval_seq (inputs spec : dict value) : value :=
  or_value (or_value (value_get "snapshot_seq" inputs) (value_get "snapshot_seq" spec)) (VInt 1).

Definition run_eval_stub (t : Task) : res exn (dict value) :=
  let '(inputs, spec) := read_state t in
  match filled_str (value_get "radiance_field_id" inputs), filled_str (value_get "evaluation_id" inputs) with
  | None, _ => Err (failed_with "radiance_eval missing radiance_field_id")
  | _, None => Err (failed_with "radiance_eval missing evaluation_id")
  | Some field_id, Some evaluation_id =>
      let seq := eval_seq inputs spec in
      _ ← raise_if (negb (is_int seq)) (failed_with "radiance_eval missing snapshot_seq");
      Ok [("radiance_field_id", VStr field_id); ("evaluation_id", VStr evaluation_id); ("snapshot_seq", seq);
          ("metrics", VDict _stub_metrics); ("artifacts", stub_eval_artifacts)]
  end.

(** ** Container providers *)

Definition artifact_key_char (a : ascii) : bool := Artifacts.letter a || Artifacts.digit a || Manifest.one_of ["_"; "."; "-"]%char a.

Definition _valid_artifact_key (v : value) : bool :=
  match v with
  | VStr (String a s) =>
      (Artifacts.letter a || Artifacts.digit a) && Manifest.all_chars artifact_key_char s && (String.length s <=? 95)%nat
  | _ => false
  end.

Section provider.
(** The arguments of [validate_artifact_descriptor]. *)
Context (artifact_types : list string) (plugin_formats : list Vocab.ArtifactFormatDefinition)
  (redact_name : string → string) (public_metadata : dict value → dict value).
Context (provider : string).

Definition refused (text : string) : exn := failed_with ("radiance provider " +:+ str_repr provider +:+ " " +:+ text).
Definition demand (ok : bool) (text : string) : res exn unit := raise_if (negb ok) (refused text).

(** [value is not None and (not isinstance(value, str) or len(value) > n)] *)
Definition demand_text (where_ : string) (d : dict value) (kn : string * nat) : res exn unit :=
  demand (Artifacts.text_upto kn.2 (value_get kn.1 d))
    (where_ +:+ "." +:+ kn.1 +:+ " must be a string of at most " +:+ pretty kn.2 +:+ " characters").

Definition check_file (where_ : string) (fi : nat * value) : res exn unit :=
  let file_where := where_ +:+ ".files[" +:+ pretty fi.1 +:+ "]" in
  match fi.2 with
  | VDict d =>
      _ ← demand (Artifacts.filled_text (value_get "name" d)) (file_where +:+ ".name must be a non-empty string");
      _ ← demand (Artifacts.filled_text (Artifacts.file_uri d)) (file_where +:+ ".uri must be a non-empty string");
      _ ← for_each (demand_text file_where d) [("name", 255); ("uri", 2048); ("path", 2048); ("media_type", 127); ("sha256", 128)]%nat;
      demand (Artifacts.opt_natural (value_get "byte_size" d)) (file_where +:+ ".byte_size must be a non-negative integer")
  | _ => Err (refused (file_where +:+ " must be an object"))
  end.

(** The artifact as its validation leaves it. *)
Definition check_artifact (context : string) (ia : nat * value) : res exn value :=
  let where_ := context +:+ ".artifacts[" +:+ pretty ia.1 +:+ "]" in
  match ia.2 with
  | VDict d =>
      _ ← demand (_valid_artifact_key (value_get "kind" d)) (where_ +:+ ".kind is invalid");
      d ← match Artifacts.validate_artifact_descriptor (vocabulary env) artifact_types plugin_formats redact_name public_metadata
                  (context +:+ ".artifacts") ia.1 (VDict d) with
          | Ok d => Ok d
          | Err e => Err (refused (err_detail e))
          end;
      _ ← for_each (λ key, demand (match value_get key d with VNone => true | v => _valid_artifact_key v end)
                              (where_ +:+ "." +:+ key +:+ " is invalid")) ["artifact_format"; "datatype"];
      _ ← for_each (demand_text where_ d) [("name", 255); ("uri", 2048); ("media_type", 127); ("sha256", 128)]%nat;
      _ ← demand (Artifacts.opt_positive (value_get "schema_version" d)) (where_ +:+ ".schema_version must be a positive integer");
      _ ← demand (Artifacts.opt_natural (value_get "byte_size" d)) (where_ +:+ ".byte_size must be a non-negative integer");
      _ ← for_each (λ key, demand (Artifacts.opt_dict (value_get key d)) (where_ +:+ "." +:+ key +:+ " must be an object when present"))
            ["summary"; "metadata"; "producer"];
      _ ← match value_get "files" d with
          | VNone => Ok tt
          | VList files => for_each (check_file where_) (Artifacts.enumerate files)
          | _ => Err (refused (where_ +:+ ".files must be a list"))
          end;
      Ok (VDict d)
  | _ => Err (refused (where_ +:+ " must be an object"))
  end.

(** [f] on each item, in order. *)
Fixpoint map_items {A B} (f : A → res exn B) (l : list A) : res exn (list B) :=
  match l with [] => Ok [] | x :: l => y ← f x; ys ← map_items f l; Ok (y :: ys) end.

Definition _validate_radiance_artifacts (artifacts : value) (context : string) : res exn value :=
  match artifacts with
  | VNone => Ok VNone
  | VList l => items ← map_items (check_artifact context) (Artifacts.enumerate l); Ok (VList items)
  | _ => Err (refused (context +:+ " artifacts must be a list"))
  end.

Definition check_evaluation (ii : nat * value) : res exn value :=
  match ii.2 with
  | VDict d =>
      match dict_get "artifacts" d with
      | Some a => a ← _validate_radiance_artifacts a ("outputs.evaluations[" +:+ pretty ii.1 +:+ "]"); Ok (VDict (dict_set "artifacts" a d))
      | None => Ok (VDict d)
      end
  | v => Ok v
  end.

(** The outputs as their validation leaves them. *)
Definition _validate_train_evaluation_artifacts (outputs : dict value) : res exn (dict value) :=
  match value_get "evaluations" outputs with
  | VNone => Ok outputs
  | VList l => items ← map_items check_evaluation (Artifacts.enumerate l); Ok (dict_set "evaluations" (VList items) outputs)
  | _ => Err (refused "outputs.evaluations must be a list")
  end.

(** An item with metrics. *)
Definition metrics_item (v : value) : option (dict value) :=
  match v with VDict d => if is_dict (value_get "metrics" d) then Some d else None | _ => None end.

Definition evaluations_of (outputs : dict value) : list value :=
  match value_get "evaluations" outputs with VList l => l | _ => [] end.

Definition _has_metric_evaluation (outputs : dict value) : bool :=
  existsb (λ v, match metrics_item v with Some _ => true | None => false end) (evaluations_of outputs).

(** Items with metrics and their places. *)
Definition metric_items (l : list value) : list (nat * dict value) :=
  omap (λ iv, (iv.1,.) <$> metrics_item iv.2) (Artifacts.enumerate l).

Definition names_evaluation (evaluation_id : string) (d : dict value) : bool :=
  match value_get "evaluation_id" d with VStr s => bool_decide (s = evaluation_id) | _ => false end.

(** The item that stands for the evaluation: one that names it, else the only one with
    metrics unless it names another. *)
Definition select_item (evaluation_id : string) (l : list value) : option (nat * dict value) :=
  match head (filter (λ id, names_evaluation evaluation_id id.2 = true) (metric_items l)) with
  | Some x => Some x
  | None =>
      match metric_items l with
      | [(i, d)] =>
          match filled_str (value_get "evaluation_id" d) with
          | None => Some (i, d)
          | Some s => if decide (s = evaluation_id) then Some (i, d) else None
          end
      | _ => None
      end
  end.

(** Whether another item may stay beside the selected one. *)
Definition tolerated (evaluation_id : string) (v : value) : bool :=
  match metrics_item v, v with
  | Some _, _ => false
  | None, VDict d =>
      negb (names_evaluation evaluation_id d) || forallb (λ k, bool_decide (k ∈ ["evaluation_id"; "radiance_field_id"])) (dict_keys d)
  | None, _ => true
  end.

Definition others (i : nat) (l : list value) : list value := (λ jv : nat * value, jv.2) <$> filter (λ jv, jv.1 ≠ i) (Artifacts.enumerate l).

Definition mentions (evaluation_id : string) (v : value) : bool :=
  match v with VDict d => names_evaluation evaluation_id d | _ => false end.

(** The outputs changed in place, if they can be. *)
Definition _normalize_train_evaluation_outputs (outputs : dict value) (field_id evaluation_id : value) : option (dict value) :=
  match filled_str evaluation_id, value_get "evaluations" outputs with
  | Some e, VList l =>
      '(i, d) ← select_item e l;
      if forallb (tolerated e) (others i l) then
        let d := dict_set "evaluation_id" (VStr e) d in
        let d := match filled_str field_id with Some f => dict_set "radiance_field_id" (VStr f) d | None => d end in
        Some (dict_set "evaluations" (VList (VDict d :: List.filter (λ v, negb (mentions e v)) (others i l))) outputs)
      else None
  | _, _ => None
  end.

(** The reply of the service: its parsed body, or what went wrong. *)
Inductive reply : Type :=
  | HTTPError (code : Z) (body : string)
  | URLError (text : string)
  | Body (json : option value).

Definition reply_body (capability url : string) (r : reply) : res exn (dict value) :=
  match r with
  | HTTPError code body =>
      Err (mkExn "RuntimeError" ("radiance provider " +:+ str_repr provider +:+ " returned HTTP " +:+ pretty code +:+ ": " +:+
                                 Artifacts.py_take 2000 body) false)
  | URLError text =>
      Err (Radiance.unavailable capability ("radiance provider " +:+ str_repr provider +:+ " endpoint " +:+ str_repr url +:+
                                            " is unavailable: " +:+ text))
  | Body None => Err (refused "returned invalid JSON")
  | Body (Some (VDict body)) => Ok body
  | Body (Some _) => Err (refused "must return a JSON object")
  end.

(** The outputs of a body that reports success. *)
Definition body_outputs (body : dict value) : res exn (dict value) :=
  let status := text_or (value_get "status" body) "succeeded" in
  let status := if decide (status = "ok") then "succeeded" else status in
  _ ← raise_if (negb (bool_decide (status = "succeeded")))
        (mkExn "RuntimeError" ("radiance provider " +:+ str_repr provider +:+ " failed: " +:+
           Conversion.py_str (or_value (or_value (value_get "error" body) (value_get "detail" body)) (VDict body))) false);
  Ok (match value_get "outputs" body with VDict o => o | _ => body end).

Definition with_field_id (inputs outputs : dict value) : dict value :=
  match filled_str (value_get "radiance_field_id" inputs) with
  | Some f => dict_set "radiance_field_id" (VStr f) outputs
  | None => outputs
  end.

(** The rest of an evaluation's outputs. *)
Definition eval_outputs (inputs outputs : dict value) : res exn (dict value) :=
  match filled_str (value_get "evaluation_id" inputs) with
  | None => Err (failed_with "radiance_eval missing evaluation_id")
  | Some e =>
      _ ← demand (is_dict (value_get "metrics" outputs)) "eval output must include metrics";
      let outputs := dict_set "evaluation_id" (VStr e) outputs in
      _ ← demand (negb (_has_metric_evaluation outputs)) "eval output includes duplicate nested evaluation metrics";
      _validate_train_evaluation_artifacts outputs
  end.

(** The rest of a training's outputs. *)
Definition train_outputs (inputs spec outputs : dict value) : res exn (dict value) :=
  let outputs := match filled_str (value_get "evaluation_id" inputs) with
                 | Some e => dict_set "evaluation_id" (VStr e) outputs
                 | None => outputs
                 end in
  let has_metrics := is_dict (value_get "metrics" outputs) in
  match expected_evaluation inputs spec with
  | None =>
      _ ← demand (negb (match filled_str (value_get "evaluation_id" outputs) with Some _ => true | None => has_metrics end))
            "train output includes top-level evaluation metrics but this train task did not request an evaluation";
      _ ← demand (negb (_has_metric_evaluation outputs))
            "train output includes evaluation metrics but this train task did not request an evaluation";
      _validate_train_evaluation_artifacts outputs
  | Some e =>
      _ ← demand (negb has_metrics) "train output must put evaluation metrics under outputs.evaluations";
      outputs ← _validate_train_evaluation_artifacts outputs;
      match _normalize_train_evaluation_outputs outputs (value_get "radiance_field_id" inputs) (VStr e) with
      | Some outputs => Ok outputs
      | None => Err (refused ("train output must include evaluation metrics for evaluation_id=" +:+ e))
      end
  end.

(** What the task does with the reply. *)
Definition provider_outputs (task_kind capability url : string) (inputs spec : dict value) (r : reply) : res exn (dict value) :=
  body ← reply_body capability url r;
  outputs ← body_outputs body;
  let outputs := with_field_id inputs outputs in
  if decide (task_kind = "radiance_eval") then eval_outputs inputs outputs
  else train_outputs inputs spec outputs.

(** The row that serves the provider. *)
Definition _radiance_provider_record (capability : string) : res exn Routing.ProviderRecord :=
  let same_provider := selected_rows env provider in
  match filter (λ row, capability ∈ Hub.capabilities (Routing.r_provider row)) same_provider with
  | [] =>
      Err (Radiance.unavailable capability
             (if is_nil same_provider
              then "provider " +:+ str_repr provider +:+ " is not installed and enabled as a radiance plugin"
              else "provider " +:+ str_repr provider +:+ " does not advertise " +:+ capability))
  | [row] => Ok row
  | rows => Err (Radiance.invalid ("provider " +:+ str_repr provider +:+ " is ambiguous across installed plugins: " +:+ plugin_ids rows))
  end.

(** [endpoint] gives the protocol, its version and the address of a provider's service,
    [call_service] makes the request. *)
Definition _run_container_service_provider (endpoint : Routing.ProviderRecord → res exn (string * string * string)) (call_service : string → value → reply)
    (t : Task) (task_kind capability : string) : res exn (dict value) :=
  let '(inputs, spec) := read_state t in
  match filled_str (value_get "radiance_field_id" inputs), filled_str (value_get "project_id" inputs) with
  | None, _ => Err (failed_with (task_kind +:+ " missing radiance_field_id"))
  | _, None => Err (failed_with (task_kind +:+ " missing project_id"))
  | Some _, Some _ =>
      row ← _radiance_provider_record capability;
      '(protocol, protocol_version, url) ← endpoint row;
      let payload := VDict [("protocol", VStr protocol); ("protocol_version", VStr protocol_version); ("task_kind", VStr task_kind); ("capability", VStr capability); ("tenant_id", VStr (t_tenant_id t));
                            ("job_id", VStr (t_job_id t)); ("task_id", VStr (task_id t)); ("provider", VStr provider);
                            ("inputs", VDict inputs); ("spec", VDict spec)] in
      provider_outputs task_kind capability url inputs spec (call_service url payload)
  end.
End provider.
End handlers.

(** ** Lifecycle hooks *)

Section hooks.
Context (bracketed_ok : string → bool) (internal_ip : string → option bool) (disk : Disk) (env : Stages.Env).

Definition train_on_status (t : Task) (status : string) : rcall unit :=
  match _task_radiance_field_id t with
  | None => mret tt
  | Some field_id =>
      _ ← mark_radiance_field_status (t_tenant_id t) field_id status None;
      match _task_radiance_evaluation_id t with
      | Some e =>
          if decide (status = "failed") then
            mark_radiance_evaluation_status bracketed_ok internal_ip (t_tenant_id t) e "failed"
              (Some [("code", VStr (default "TaskFailed" (Conversion.nonempty (t_error_class t))));
                     ("message", VStr (default "radiance_train failed" (Conversion.nonempty (t_error_message t))))])
          else mret tt
      | None => mret tt
      end
  end.

Definition train_on_success (t : Task) (outputs : dict value) : rcall unit :=
  match _task_radiance_field_id t with
  | None => mret tt
  | Some field_id =>
      record_radiance_train_result bracketed_ok internal_ip disk env (t_tenant_id t) field_id outputs (_task_radiance_evaluation_id t)
  end.

Definition eval_on_status (t : Task) (status : string) : rcall unit :=
  match _task_radiance_evaluation_id t with
  | None => mret tt
  | Some e => mark_radiance_evaluation_status bracketed_ok internal_ip (t_tenant_id t) e status None
  end.

Definition eval_on_success (t : Task) (outputs : dict value) : rcall unit :=
  match _task_radiance_evaluation_id t with
  | None => mret tt
  | Some e => record_radiance_evaluation_result bracketed_ok internal_ip (t_tenant_id t) e outputs
  end.
End hooks.
End RadianceTasks.
