(* ===== verification/RadianceFacts.v ===== *)
(** The invariant of the radiance tables and each operation's effect on it. *)
From S2P Require Import Prelude PyValue JsonFacts Errors Store Service JobService Scheduler Conversion Datasets DatasetFacts Stages StageFacts Snapshots PublicOutputs PublicGuarantees Radiance RadianceTasks.
From stdpp Require Import options.
Import Errors Datasets Stages Radiance RadianceTasks.

Lemma outputs_public b i v out : PublicOutputs.sanitize_public_outputs b i v = Ok out → public_value out = true.
Proof. apply sanitize_public. Qed.

#[local] Opaque PublicOutputs.sanitize_public_outputs PublicOutputs.sanitize_public_error Dag.hash_inputs Dag.hash_params.

(** ** Rows *)

Lemma put_row_map {A B} (key : A → string) (g : A → B) r rows :
  (∀ x, x ∈ rows → key x = key r → g x = g r) → g <$> put_row key r rows = g <$> rows.
Proof.
  intros Hg. unfold put_row, update_where. rewrite <-list_fmap_compose. apply list_fmap_ext. intros i x Hx%list_elem_of_lookup_2.
  cbn. case_bool_decide as Hk; [symmetry; by apply Hg|done].
Qed.

Lemma put_row_all {A} (key : A → string) (P : A → Prop) r rows :
  P r → (∀ x, x ∈ rows → P x) → ∀ x, x ∈ put_row key r rows → P x.
Proof. intros Hr Hall x [->|[Hx _]]%elem_of_put_row; [done|by apply Hall]. Qed.

(** A key of a row whose id is unique. *)
Lemma same_row {A} (key : A → string) rows x y : NoDup (key <$> rows) → x ∈ rows → y ∈ rows → key x = key y → x = y.
Proof. intros Hd Hx Hy He. by eapply row_get_unique. Qed.

(** ** The invariant *)

Definition dict_public (d : dict value) : Prop := public_value (VDict d) = true.
Definition public_opt (d : option (dict value)) : Prop := ∀ x, d = Some x → dict_public x.

Section invariant.
Context (env : Env).

(** Where the snapshots of a field are kept. *)
Definition managed_root (tenant project field : string) (seq : Z) : Path :=
  div (div (radiance_field_root (settings env) tenant project field) "snapshots") (Snapshots.seq_name seq).

Definition field_key (f : RadianceField) : string * string * string := (rf_id f, rf_tenant_id f, rf_project_id f).
Definition evaluation_key (e : RadianceEvaluation) : string * string := (ev_tenant_id e, ev_field_id e).
Definition snapshot_key (s : RadianceSnapshot) : string * string := (sn_id s, sn_tenant_id s).
Definition seq_key (s : RadianceSnapshot) : string * Z := (sn_field_id s, sn_seq s).

Definition ids (w : Tables) : list string :=
  (rf_id <$> fields w) ++ (sn_id <$> snapshots w) ++ (ev_id <$> evaluations w) ++ (vr_id <$> variants w).

Definition field_ok (f : RadianceField) : Prop :=
  rf_status f ∈ ["running"; "succeeded"; "failed"] ∧ public_opt (rf_summary_json f).

(** A snapshot lies where its field keeps it, on the disk it was sealed on. *)
Definition snapshot_ok (keys : list (string * string * string)) (s : RadianceSnapshot) : Prop :=
  (1 <= sn_seq s)%Z ∧ public_opt (sn_summary_json s) ∧
  ∃ project disk, (sn_field_id s, sn_tenant_id s, project) ∈ keys ∧
    sealed_path s = path_str (resolve disk (managed_root (sn_tenant_id s) project (sn_field_id s) (sn_seq s))).

Definition evaluation_ok (keys : list (string * string * string)) (e : RadianceEvaluation) : Prop :=
  ev_status e ∈ ["running"; "succeeded"; "failed"] ∧ (ev_status e = "succeeded" → is_Some (metrics_json e)) ∧
  public_opt (metrics_json e) ∧ public_opt (error_json e) ∧
  (∀ l, artifacts_json e = Some l → forallb public_value l = true) ∧
  ∃ project, (ev_field_id e, ev_tenant_id e, project) ∈ keys.

Definition variant_ok (keys : list (string * string)) (v : RadianceVariant) : Prop :=
  vr_format v ≠ "" ∧ public_opt (vr_summary_json v) ∧ (vr_snapshot_id v, vr_tenant_id v) ∈ keys.

Record radiance_ok (w : Tables) : Prop := {
  ok_drawn : ∀ i, i ∈ ids w → ∃ k, i = fresh env k ∧ (k < w_next (base w))%nat;
  ok_ids : NoDup (ids w);
  ok_seqs : NoDup (seq_key <$> snapshots w);
  ok_fields : ∀ f, f ∈ fields w → field_ok f;
  ok_snapshots : ∀ s, s ∈ snapshots w → snapshot_ok (field_key <$> fields w) s;
  ok_evaluations : ∀ e, e ∈ evaluations w → evaluation_ok (field_key <$> fields w) e;
  ok_variants : ∀ v, v ∈ variants w → variant_ok (snapshot_key <$> snapshots w) v
}.

(** An id not drawn yet. *)
Definition unused_id (w : Tables) (i : string) : Prop := (i ∉ ids w) ∧ ∃ k, i = fresh env k ∧ (k < w_next (base w))%nat.

Lemma ok_parts w : radiance_ok w →
  NoDup (rf_id <$> fields w) ∧ NoDup (sn_id <$> snapshots w) ∧ NoDup (ev_id <$> evaluations w) ∧ NoDup (vr_id <$> variants w).
Proof.
  intros Hw. pose proof (ok_ids w Hw) as H. unfold ids in H. apply NoDup_app in H as (H1 & _ & H). apply NoDup_app in H as (H2 & _ & H).
  by apply NoDup_app in H as (H3 & _ & H4).
Qed.

Lemma snapshot_ok_mono keys keys' s : keys ⊆ keys' → snapshot_ok keys s → snapshot_ok keys' s.
Proof. intros Hk (H1 & H2 & p & d & H3 & H4). split_and!; [done|done|]. exists p, d. split; [by apply Hk|done]. Qed.

Lemma evaluation_ok_mono keys keys' e : keys ⊆ keys' → evaluation_ok keys e → evaluation_ok keys' e.
Proof. intros Hk (H1 & H2 & H3 & H4 & H5 & p & H6). split_and!; [done..|]. exists p. by apply Hk. Qed.

(** ** Changes of one table *)

Lemma base_ok w b : (w_next (base w) ≤ w_next b)%nat → radiance_ok w → radiance_ok (set_base b w).
Proof.
  intros Hn [H1 H2 H3 H4 H5 H6 H7]. split; [|done..]. intros i Hi. destruct (H1 i Hi) as (k & -> & Hk). exists k. split; [done|cbn; lia].
Qed.

Lemma ids_permuted w w' i :
  ids w' ≡ₚ i :: ids w → base w' = base w → unused_id w i → radiance_ok w →
  (∀ i, i ∈ ids w' → ∃ k, i = fresh env k ∧ (k < w_next (base w'))%nat) ∧ NoDup (ids w').
Proof.
  intros Hp Hb (Hi & k & Hk) [H1 H2 _ _ _ _ _]. split.
  - intros j. rewrite Hp, Hb. intros [->|Hj]%elem_of_cons; [by exists k|by apply H1].
  - rewrite Hp. by constructor.
Qed.

Lemma add_field_ok w f : unused_id w (rf_id f) → field_ok f → radiance_ok w → radiance_ok (set_fields (fields w ++ [f]) w).
Proof.
  intros Hi Hf Hw. destruct (ids_permuted w (set_fields (fields w ++ [f]) w) (rf_id f)) as [Hd Hn]; [|done..|].
  { unfold ids. cbn. rewrite fmap_app. cbn. solve_Permutation. }
  destruct Hw as [H1 H2 H3 H4 H5 H6 H7]. split; [done|done|done|..]; cbn.
  - intros x [Hx|Hx%list_elem_of_singleton]%elem_of_app; [by apply H4|by subst].
  - intros s Hs. eapply snapshot_ok_mono; [|by apply H5]. rewrite fmap_app. set_solver.
  - intros e He. eapply evaluation_ok_mono; [|by apply H6]. rewrite fmap_app. set_solver.
  - done.
Qed.

Lemma put_field_ok w f f' :
  f ∈ fields w → field_key f' = field_key f → field_ok f' → radiance_ok w → radiance_ok (set_fields (put_row rf_id f' (fields w)) w).
Proof.
  intros Hf Hk Hok Hw. destruct (ok_parts w Hw) as (Hu & _). destruct Hw as [H1 H2 H3 H4 H5 H6 H7].
  assert (field_key <$> put_row rf_id f' (fields w) = field_key <$> fields w) as Hkeys.
  { apply put_row_map. intros x Hx He. assert (x = f) as ->; [|done]. apply (same_row rf_id (fields w)); [done..|]. injection Hk. congruence. }
  split; cbn; try rewrite Hkeys; try done; unfold ids in *; cbn; rewrite ?put_row_keys; try done. by apply put_row_all.
Qed.

Lemma add_snapshot_ok w s :
  unused_id w (sn_id s) → seq_key s ∉ seq_key <$> snapshots w → snapshot_ok (field_key <$> fields w) s → radiance_ok w →
  radiance_ok (set_snapshots (snapshots w ++ [s]) w).
Proof.
  intros Hi Hq Hs Hw. destruct (ids_permuted w (set_snapshots (snapshots w ++ [s]) w) (sn_id s)) as [Hd Hn]; [|done..|].
  { unfold ids. cbn. rewrite fmap_app. cbn. solve_Permutation. }
  destruct Hw as [H1 H2 H3 H4 H5 H6 H7]. split; [done|done|..]; cbn.
  - rewrite fmap_app. apply NoDup_app. split_and!; [done| |apply NoDup_singleton]. by intros x Hx ->%list_elem_of_singleton.
  - done.
  - intros x [Hx|Hx%list_elem_of_singleton]%elem_of_app; [by apply H5|by subst].
  - done.
  - intros v Hv. destruct (H7 v Hv) as (? & ? & ?). split_and!; [done|done|]. rewrite fmap_app. set_solver.
Qed.

Lemma put_snapshot_ok w s s' :
  s ∈ snapshots w → snapshot_key s' = snapshot_key s → seq_key s' = seq_key s → snapshot_ok (field_key <$> fields w) s' → radiance_ok w →
  radiance_ok (set_snapshots (put_row sn_id s' (snapshots w)) w).
Proof.
  intros Hin Hk Hq Hs Hw. destruct (ok_parts w Hw) as (_ & Hu & _). destruct Hw as [H1 H2 H3 H4 H5 H6 H7].
  assert (∀ x, x ∈ snapshots w → sn_id x = sn_id s' → x = s) as Hsame.
  { intros x Hx He. apply (same_row sn_id (snapshots w)); [done..|]. injection Hk. congruence. }
  assert (seq_key <$> put_row sn_id s' (snapshots w) = seq_key <$> snapshots w) as Hseqs by (apply put_row_map; by intros x Hx ->%Hsame).
  assert (snapshot_key <$> put_row sn_id s' (snapshots w) = snapshot_key <$> snapshots w) as Hkeys by (apply put_row_map; by intros x Hx ->%Hsame).
  split; cbn; try rewrite Hkeys; try rewrite Hseqs; try done; unfold ids in *; cbn; rewrite ?put_row_keys; try done. by apply put_row_all.
Qed.

Lemma add_evaluation_ok w e :
  unused_id w (ev_id e) → evaluation_ok (field_key <$> fields w) e → radiance_ok w → radiance_ok (set_evaluations (evaluations w ++ [e]) w).
Proof.
  intros Hi He Hw. destruct (ids_permuted w (set_evaluations (evaluations w ++ [e]) w) (ev_id e)) as [Hd Hn]; [|done..|].
  { unfold ids. cbn. rewrite fmap_app. cbn. solve_Permutation. }
  destruct Hw as [H1 H2 H3 H4 H5 H6 H7]. split; [done..| |done]. cbn. intros x [Hx|Hx%list_elem_of_singleton]%elem_of_app; [by apply H6|by subst].
Qed.

Lemma put_evaluation_ok w e :
  evaluation_ok (field_key <$> fields w) e → radiance_ok w → radiance_ok (set_evaluations (put_row ev_id e (evaluations w)) w).
Proof.
  intros He [H1 H2 H3 H4 H5 H6 H7]. split; cbn; try done; unfold ids in *; cbn; rewrite ?put_row_keys; try done. by apply put_row_all.
Qed.

Lemma add_variant_ok w v :
  unused_id w (vr_id v) → variant_ok (snapshot_key <$> snapshots w) v → radiance_ok w → radiance_ok (set_variants (variants w ++ [v]) w).
Proof.
  intros Hi Hv Hw. destruct (ids_permuted w (set_variants (variants w ++ [v]) w) (vr_id v)) as [Hd Hn]; [|done..|].
  { unfold ids. cbn. rewrite fmap_app. cbn. solve_Permutation. }
  destruct Hw as [H1 H2 H3 H4 H5 H6 H7]. split; [done..|]. cbn. intros x [Hx|Hx%list_elem_of_singleton]%elem_of_app; [by apply H7|by subst].
Qed.
End invariant.

(** ** Sanitized values *)

Section public.
Context (bracketed_ok : string → bool) (internal_ip : string → option bool).

Lemma public_opt_None : public_opt None.
Proof. by intros x. Qed.

Lemma public_opt_Some d : dict_public d → public_opt (Some d).
Proof. by intros Hd x [= <-]. Qed.

Lemma value_error_Ok {A} (r : res string A) a : value_error r = Ok a → r = Ok a.
Proof. destruct r; [by intros [= ->]|done]. Qed.

Lemma public_dict_ok v d : _public_dict bracketed_ok internal_ip v = Ok d → dict_public d.
Proof.
  unfold _public_dict. intros (p & Hp%value_error_Ok & [= <-])%bind_Ok. apply outputs_public in Hp. by destruct p.
Qed.

Lemma public_artifact_list_ok v l : _public_artifact_list bracketed_ok internal_ip v = Ok l → forallb public_value l = true.
Proof.
  unfold _public_artifact_list. intros (p & Hp%value_error_Ok & [= <-])%bind_Ok. apply outputs_public in Hp.
  destruct p as [| | | | | |d]; try done. rewrite public_dict in Hp. unfold value_get. destruct (dict_get "artifacts" d) as [x|] eqn:Hx; [|done].
  apply dict_get_elem in Hx. rewrite forallb_forall in Hp. specialize (Hp _ (proj1 (list_elem_of_In _ _) Hx)).
  apply andb_true_iff in Hp as [_ Hp]. destruct x; try done.
Qed.
End public.

(** ** Operations *)

Lemma hook_status s : s ∈ ["running"; "failed"] → s ∈ ["running"; "succeeded"; "failed"] ∧ s ≠ "succeeded".
Proof. set_solver. Qed.

Lemma succeeded_status : "succeeded" ∈ ["running"; "succeeded"; "failed"].
Proof. list_in. Qed.

Section operations.
Context (bracketed_ok : string → bool) (internal_ip : string → option bool) (disk : Disk) (env : Stages.Env).
Context (Hinj : ∀ j k, fresh env j = fresh env k → j = k).

Abbreviation ok := (radiance_ok env).

(** Ids are drawn from the base, and nothing else there changes. *)
Definition draws (w w' : Tables) : Prop := ∀ tenant, prep env tenant (base w) (base w').

Lemma draws_refl w : draws w w.
Proof using Type. intros tenant. constructor. Qed.

Lemma draws_base w w' : base w' = base w → draws w w'.
Proof using Type. intros H tenant. rewrite H. constructor. Qed.

Lemma draws_trans w1 w2 w3 : draws w1 w2 → draws w2 w3 → draws w1 w3.
Proof using Type. intros H1 H2 tenant. etrans; [apply H1|apply H2]. Qed.

Lemma draw_id_spec w i w' :
  draw_id env w = Ok (i, w') → i = fresh env (w_next (base w)) ∧ w' = set_base (set_next (S (w_next (base w))) (base w)) w.
Proof using Type. unfold draw_id, on_base, new_id. by intros (b & [= <- <-] & ->)%on_part_Ok. Qed.

Lemma draw_id_ok w i w' :
  draw_id env w = Ok (i, w') → ok w →
  w' = set_base (set_next (S (w_next (base w))) (base w)) w ∧ ok w' ∧ unused_id env w' i ∧ draws w w'.
Proof using Hinj.
  intros [-> ->]%draw_id_spec Hw. split_and!; [done|apply base_ok; [cbn; lia|done]| |].
  - split; cbn; [|exists (w_next (base w)); split; [done|lia]]. intros Hi.
    destruct (ok_drawn _ _ Hw _ Hi) as (k & Hk & Hlt). apply Hinj in Hk. lia.
  - intros tenant. apply rtc_once, prep_draw.
Qed.

Lemma get_field_spec tenant id w f w' :
  get_radiance_field tenant id w = Ok (f, w') → w' = w ∧ f ∈ fields w ∧ rf_tenant_id f = tenant ∧ rf_id f = id.
Proof using Type. unfold get_radiance_field. intros H. svc_inv H. by row_found. Qed.

Lemma get_evaluation_spec tenant id w e w' :
  get_radiance_evaluation tenant id w = Ok (e, w') → w' = w ∧ e ∈ evaluations w ∧ ev_tenant_id e = tenant ∧ ev_id e = id.
Proof using Type. unfold get_radiance_evaluation. intros H. svc_inv H. by row_found. Qed.

(** *** Statuses and results *)

(** Only evaluations differ. *)
Definition evaluations_only (w w' : Tables) : Prop := ∃ l, w' = set_evaluations l w.

Lemma evaluations_only_refl w : evaluations_only w w.
Proof using Type. exists (evaluations w). by destruct w. Qed.

Lemma evaluations_only_trans w1 w2 w3 : evaluations_only w1 w2 → evaluations_only w2 w3 → evaluations_only w1 w3.
Proof using Type. intros [l1 ->] [l2 ->]. by exists l2. Qed.

Lemma mark_field_ok tenant id status w u w' :
  status ∈ ["running"; "failed"] → mark_radiance_field_status tenant id status None w = Ok (u, w') → ok w → ok w' ∧ base w' = base w.
Proof using Type.
  intros Hs H Hw. unfold mark_radiance_field_status in H. apply svc_bind_Ok in H as (f & w1 & (-> & Hf & _)%get_field_spec & H).
  cbn in H. unfold put_field in H. svc_inv H. split; [|done]. eapply put_field_ok; [exact Hf|done| |done].
  destruct (ok_fields _ _ Hw f Hf) as [_ Hp]. split; [by apply hook_status|done].
Qed.

Lemma put_result_ok w e status metrics artifacts err :
  e ∈ evaluations w → status ∈ ["running"; "succeeded"; "failed"] → (status = "succeeded" → is_Some metrics) →
  public_opt metrics → public_opt err → (∀ l, artifacts = Some l → forallb public_value l = true) → ok w →
  ok (set_evaluations (put_row ev_id (with_result status metrics artifacts err e) (evaluations w)) w).
Proof using Type.
  intros He Hs Hm Hp Hr Ha Hw. apply put_evaluation_ok; [|done]. destruct (ok_evaluations _ _ Hw e He) as (_ & _ & _ & _ & _ & Hk).
  by split_and!.
Qed.

Lemma mark_evaluation_ok tenant id status error w u w' :
  status ∈ ["running"; "failed"] →
  mark_radiance_evaluation_status bracketed_ok internal_ip tenant id status error w = Ok (u, w') → ok w → ok w' ∧ evaluations_only w w'.
Proof using Type.
  intros Hs H Hw. unfold mark_radiance_evaluation_status in H.
  apply svc_bind_Ok in H as (e & w1 & (-> & He & _)%get_evaluation_spec & H). apply svc_bind_Ok in H as (err & w1 & Herr & H).
  destruct (ok_evaluations _ _ Hw e He) as (_ & _ & Hm & Hr & Ha & _).
  assert (w1 = w ∧ public_opt err) as [-> Hp].
  { destruct error as [d|]; [|by apply svc_ret_Ok in Herr as [<- <-]]. apply lift_Ok in Herr as [Herr%value_error_Ok <-]. split; [done|].
    intros x ->. by apply error_public in Herr. }
  unfold put_evaluation in H. svc_inv H. split; [|by eexists]. destruct (hook_status _ Hs) as [Hs1 Hs2]. by apply put_result_ok.
Qed.

Lemma record_evaluation_ok tenant id outputs w u w' :
  record_radiance_evaluation_result bracketed_ok internal_ip tenant id outputs w = Ok (u, w') → ok w → ok w' ∧ evaluations_only w w'.
Proof using Type.
  intros H Hw. unfold record_radiance_evaluation_result in H. apply svc_bind_Ok in H as (e & w1 & (-> & He & _)%get_evaluation_spec & H).
  cbv zeta in H. apply svc_bind_Ok in H as (? & w1 & [_ <-]%guard_Ok & H).
  apply svc_bind_Ok in H as (m & w1 & [Hm%public_dict_ok <-]%lift_Ok & H).
  apply svc_bind_Ok in H as (rows & w1 & [Hrows%public_artifact_list_ok <-]%lift_Ok & H).
  unfold put_evaluation in H. svc_inv H. split; [|by eexists]. apply put_result_ok; [done|apply succeeded_status|done|by apply public_opt_Some| |by intros l [= <-]|done].
  apply public_opt_None.
Qed.

Lemma record_embedded_ok tenant expected field_id item w u w' :
  record_embedded bracketed_ok internal_ip tenant expected field_id item w = Ok (u, w') → ok w → ok w' ∧ evaluations_only w w'.
Proof using Type.
  unfold record_embedded. intros H Hw. destruct item as [| | | | | |d]; try by (svc_inv H; split; [done|apply evaluations_only_refl]).
  destruct (value_get "evaluation_id" d); try by (svc_inv H; split; [done|apply evaluations_only_refl]). destruct (value_get "metrics" d); try by (svc_inv H; split; [done|apply evaluations_only_refl]).
  apply svc_bind_Ok in H as (? & w1 & [_ <-]%guard_Ok & H). apply svc_bind_Ok in H as (? & w1 & [_ <-]%guard_Ok & H).
  by eapply record_evaluation_ok.
Qed.

(** A call that keeps a property on each item of a list. *)
Lemma each_rel {A} (f : A → rcall unit) (R : Tables → Tables → Prop) l w u w' :
  (∀ w, R w w) → (∀ w1 w2 w3, R w1 w2 → R w2 w3 → R w1 w3) →
  (∀ x w u w', x ∈ l → ok w → f x w = Ok (u, w') → ok w' ∧ R w w') →
  each f l w = Ok (u, w') → ok w → ok w' ∧ R w w'.
Proof using Type.
  intros Hrefl Htrans. revert w. induction l as [|x l IH]; intros w Hf H Hw.
  - apply svc_ret_Ok in H as [_ <-]. by split.
  - apply svc_bind_Ok in H as (u1 & w1 & H1 & H2). destruct (Hf x w u1 w1) as [Hw1 HR]; [list_in|done|done|].
    destruct (IH w1) as [Hw2 HR2]; [|done|done|split; [done|by eapply Htrans]]. intros y ? ? ? Hy. apply Hf. by right.
Qed.

Lemma record_embedded_all_ok tenant expected field_id outputs w u w' :
  _record_embedded_evaluations bracketed_ok internal_ip tenant expected field_id outputs w = Ok (u, w') → ok w → ok w' ∧ evaluations_only w w'.
Proof using Type.
  unfold _record_embedded_evaluations. intros H Hw. destruct (Conversion.nonempty expected); [|svc_inv H; split; [done|apply evaluations_only_refl]].
  destruct (value_get "evaluations" outputs); try by (svc_inv H; split; [done|apply evaluations_only_refl]). revert H Hw.
  apply (each_rel _ evaluations_only); [apply evaluations_only_refl|apply evaluations_only_trans|]. intros x w1 u1 w2 _ Hw1 H1. by eapply record_embedded_ok.
Qed.

Lemma add_variant_call_ok tenant snapshot item w u w' :
  (snapshot, tenant) ∈ snapshot_key <$> snapshots w →
  add_variant bracketed_ok internal_ip env tenant snapshot item w = Ok (u, w') → ok w →
  ok w' ∧ draws w w' ∧ snapshots w' = snapshots w.
Proof using Hinj.
  intros Hkey H Hw. unfold add_variant in H.
  assert (∀ w0 : Tables, w0 = w → ok w0 ∧ draws w w0 ∧ snapshots w0 = snapshots w) as Hsame.
  { intros w0 ->. split_and!; [done|apply draws_refl|done]. }
  destruct item as [| | | | | |d]; try by (svc_inv H; apply Hsame).
  destruct (value_get "format" d) as [| | | |fmt| |]; try by (svc_inv H; apply Hsame).
  destruct (decide (fmt = "")) as [->|Hfmt]; [svc_inv H; by apply Hsame|].
  assert (∃ (m : rcall (option (dict value))) g, (m ≫= g) w = Ok (u, w') ∧
    (∀ s w1, m w = Ok (s, w1) → w1 = w ∧ public_opt s) ∧
    g = λ summary, id ← draw_id env; modify (λ w, set_variants (variants w ++
            [mkVariant id tenant snapshot fmt (text_of (value_get "uri" d)) (text_of (value_get "media_type" d)) summary]) w))
    as (m & g & Hmg & Hm & ->).
  { destruct fmt as [|a fmt]; [done|]. eexists _, _. split; [exact H|]. split; [|done]. intros s w1.
    destruct (value_get "summary" d); try by (intros [<- <-]%svc_ret_Ok; split; [|apply public_opt_None]).
    intros (p & w2 & [Hp%public_dict_ok <-]%lift_Ok & [<- <-]%svc_ret_Ok)%svc_bind_Ok. split; [done|by apply public_opt_Some]. }
  clear H. apply svc_bind_Ok in Hmg as (summary & w1 & [-> Hsum]%Hm & H).
  apply svc_bind_Ok in H as (id & w1 & Hd & H). destruct (draw_id_ok _ _ _ Hd Hw) as (-> & Hw1 & Hun & Hdraw). svc_inv H.
  split_and!; [|done|done]. apply (add_variant_ok env _ (mkVariant _ _ _ _ _ _ _)); [done| |done]. by split_and!.
Qed.

(** The row the snapshot is stored in. *)
Lemma store_snapshot_ok tenant field_id seq path summary w id w' :
  store_snapshot env tenant field_id seq path summary w = Ok (id, w') → ok w →
  (∀ i, snapshot_ok env (field_key <$> fields w) (mkSnapshot i tenant field_id seq path (Some summary))) →
  (∃ project, (field_id, tenant, project) ∈ field_key <$> fields w) →
  ok w' ∧ draws w w' ∧ (id, tenant) ∈ snapshot_key <$> snapshots w'.
Proof using Hinj.
  intros H Hw Hs [project Hproject]. unfold store_snapshot in H. apply svc_bind_Ok in H as (rows & w1 & [<- <-]%gets_Ok & H).
  destruct (head _) as [s|] eqn:Hhead.
  - apply head_Some_elem_of, elem_of_select in Hhead as [Hp Hin]. apply andb_true_iff in Hp as [Hp Hseq%Z.eqb_eq].
    apply andb_true_iff in Hp as [Ht%bool_decide_eq_true Hf%bool_decide_eq_true]. svc_inv H.
    assert (with_path path summary s = mkSnapshot (sn_id s) (sn_tenant_id s) (sn_field_id s) (sn_seq s) path (Some summary)) as Hr by done.
    split_and!; [|by apply draws_base|].
    + apply (put_snapshot_ok env w s); [done..| |done]. rewrite Hr. apply Hs.
    + cbn. rewrite (put_row_map sn_id snapshot_key); [by apply (list_elem_of_fmap_2 snapshot_key)|].
      intros x Hx He. destruct (ok_parts _ _ Hw) as (_ & Hu & _). by assert (x = s) as -> by by eapply (same_row sn_id).
  - apply svc_bind_Ok in H as (i & w1 & Hd & H). destruct (draw_id_ok _ _ _ Hd Hw) as (-> & Hw1 & Hun & Hdraw). svc_inv H.
    split_and!; [|done|cbn; rewrite fmap_app; apply elem_of_app; right; list_in].
    apply (add_snapshot_ok env _ (mkSnapshot _ _ _ _ _ _)); [done| |apply Hs|done]. cbn.
    intros (s & [= Hf Hq] & Hin)%list_elem_of_fmap. destruct (ok_snapshots _ _ Hw s Hin) as (_ & _ & p & dk & Hk & _).
    assert (sn_tenant_id s = tenant) as Ht.
    { apply list_elem_of_fmap in Hk as (f1 & Hk1 & Hf1). apply list_elem_of_fmap in Hproject as (f2 & Hk2 & Hf2).
      destruct (ok_parts _ _ Hw) as (Hu & _). assert (f1 = f2) as ->; [|unfold field_key in *; congruence].
      eapply (same_row rf_id); [done..|]. unfold field_key in *. congruence. }
    assert (s ∈ select (λ s, of_field tenant field_id s && (sn_seq s =? seq)%Z) (snapshots w)) as Hsel.
    { apply elem_of_select. split; [|done]. unfold of_field. rewrite !bool_decide_true by congruence. cbn. by apply Z.eqb_eq. }
    destruct (select _ _); [by apply elem_of_nil in Hsel|done].
Qed.

(** The path a seal gives. *)
Lemma seal_path tenant f seq provider_path summary outputs path :
  (_seal_radiance_snapshot_path bracketed_ok internal_ip disk env tenant f seq provider_path summary outputs).2 = Ok path →
  path = path_str (resolve disk (_radiance_snapshot_root env tenant f seq)).
Proof using Type.
  unfold _seal_radiance_snapshot_path, then_. cbv zeta. cbn [snd]. destruct (provider_copy _ _ _ _ _ _ _) as [a1 [names|]]; [|done]. cbn [fst snd].
  destruct (_write_json_if_absent _ _ _ _ _) as [a2 [[]|]]; [|done]. cbn [fst snd].
  destruct (match value_get "metadata" outputs with VDict _ => _ | _ => _ end) as [a3 [[]|]]; [|done]. cbn. by intros [= <-].
Qed.

Lemma snapshot_of_spec outputs seq path : snapshot_of outputs = Ok (seq, path) → (1 <= seq)%Z.
Proof using Type.
  unfold snapshot_of, _valid_snapshot_seq. destruct (value_get "snapshot_seq" outputs); try done. destruct (1 <=? z)%Z eqn:Hz; [|done].
  destruct (value_get "snapshot_path" outputs); try done. case_decide; [done|]. intros [= <- _]. by apply Z.leb_le.
Qed.

Lemma record_train_ok tenant field_id outputs expected w u w' :
  record_radiance_train_result bracketed_ok internal_ip disk env tenant field_id outputs expected w = Ok (u, w') → ok w →
  ok w' ∧ draws w w'.
Proof using Hinj.
  intros H Hw. unfold record_radiance_train_result in H. apply svc_bind_Ok in H as (f & w1 & (-> & Hf & Ht & Hid)%get_field_spec & H).
  apply svc_bind_Ok in H as ([seq provider_path] & w1 & [Hseq <-]%lift_Ok & H).
  apply svc_bind_Ok in H as (summary & w1 & [Hsum%public_dict_ok <-]%lift_Ok & H).
  apply svc_bind_Ok in H as (path & w1 & [Hpath <-]%lift_Ok & H).
  apply svc_bind_Ok in H as (? & w1 & Hput & H). unfold put_field in Hput. apply modify_Ok in Hput.
  assert (ok w1 ∧ field_key <$> fields w1 = field_key <$> fields w ∧ base w1 = base w) as (Hw1 & Hkeys & Hb1).
  { subst w1. split_and!; [|cbn; apply put_row_map|done].
    - eapply put_field_ok; [exact Hf|done| |done]. split; [apply succeeded_status|by apply public_opt_Some].
    - intros y Hx He. destruct (ok_parts _ _ Hw) as (Hu & _). by assert (y = f) as -> by by eapply (same_row rf_id). }
  clear Hput. apply svc_bind_Ok in H as (? & w2 & [_ <-]%guard_Ok & H).
  apply svc_bind_Ok in H as (? & w2 & Hemb & H). destruct (record_embedded_all_ok _ _ _ _ _ _ _ Hemb Hw1) as [Hw2 [l ->]].
  apply svc_bind_Ok in H as (snapshot & w3 & Hstore & H).
  destruct (store_snapshot_ok _ _ _ _ _ _ _ _ Hstore Hw2) as (Hw3 & Hd3 & Hkey3).
  { intros i. cbn. rewrite Hkeys. split_and!; [by eapply snapshot_of_spec|by apply public_opt_Some|]. exists (rf_project_id f), disk. cbn.
    apply seal_path in Hpath. subst. split; [by apply (list_elem_of_fmap_2 field_key)|done]. }
  { exists (rf_project_id f). cbn. rewrite Hkeys. subst. by apply (list_elem_of_fmap_2 field_key). }
  assert (draws w w3) as Hd.
  { eapply draws_trans; [|exact Hd3]. apply draws_base. exact Hb1. }
  destruct (value_get "variants" outputs) as [| | | | |items|]; try by (svc_inv H).
  assert (preserves (λ w', ok w' ∧ draws w w' ∧ snapshots w' = snapshots w3)
            (each (add_variant bracketed_ok internal_ip env tenant snapshot) items)) as Hp.
  { apply preserves_each. intros item _ w4 u4 w5 (Hw4 & Hd4 & Hs4) H4.
    destruct (add_variant_call_ok tenant snapshot item w4 u4 w5) as (Hw5 & Hd5 & Hs5); [by rewrite Hs4|done|done|].
    split_and!; [done|by eapply draws_trans|congruence]. }
  destruct (Hp w3 u w') as (Hw' & Hd' & _); done.
Qed.

(** *** Submissions *)

Lemma validate_reads tenant project body w u w' : _validate_input tenant project body w = Ok (u, w') → w' = w.
Proof using Type.
  unfold _validate_input. intros (p & w1 & Hp & (u1 & w2 & Hd & Hr)%svc_bind_Ok)%svc_bind_Ok.
  assert (w1 = w) as -> by (unfold _require_project in Hp; by svc_inv Hp).
  assert (w2 = w) as -> by (destruct (tr_dataset_id body); [unfold require_dataset in Hd|]; by svc_inv Hd).
  destruct (tr_recon_id body); by svc_inv Hr.
Qed.

Lemma submission_next tenant b b' : submission env tenant b b' → w_next b ≤ w_next b'.
Proof using Type.
  intros (b1 & rv & project & recipe & spec & nodes & r & db & (_ & _ & _ & _ & Hn & _)%prep_keeps & _ & _ & _ & ->). cbn. lia.
Qed.

(** The node of one task, and its submission. *)
Lemma submit_one tenant project kind provider inputs spec recipe jspec w acc w' w0 :
  (node ← train_node env kind provider inputs spec;
   on_base (Stages.submit_job_dag env tenant project recipe jspec [node])) w = Ok (acc, w') →
  draws w0 w → ok w → ok w' ∧ submission env tenant (base w0) (base w') ∧ w' = set_base (base w') w.
Proof using Hinj.
  intros H Hd0 Hw. apply svc_bind_Ok in H as (node & w1 & Hn & H). unfold train_node in Hn.
  apply svc_bind_Ok in Hn as (id & w2 & Hd & Hn). destruct (draw_id_ok _ _ _ Hd Hw) as (-> & Hw1 & Hun & Hdraw).
  apply svc_ret_Ok in Hn as [<- <-]. unfold on_base in H. apply on_part_Ok in H as (b & Hs & ->).
  apply draw_id_spec in Hd as [Hid _].
  assert (∀ w0, draws w0 w → submission env tenant (base w0) b) as Hsub.
  { clear Hd0. intros w0' Hd0. eapply submit_after; [| |exact Hs].
    - etrans; [apply Hd0|apply rtc_once, prep_draw].
    - exists [w_next (base w)]. pose proof (prep_keeps _ _ _ _ (Hd0 tenant)) as (_ & _ & _ & _ & Hn & _). split_and!.
      + cbn. by rewrite Hid.
      + apply NoDup_singleton.
      + intros k ->%list_elem_of_singleton. cbn. lia.
      + intros n dep ->%list_elem_of_singleton ?%elem_of_nil. done. }
  split_and!; [|by apply Hsub|done]. apply (base_ok env w b); [|done]. eapply (submission_next tenant), Hsub, draws_refl.
Qed.

Lemma new_evaluation_ok keys id tenant field seq dataset provider method config project :
  (field, tenant, project) ∈ keys → evaluation_ok keys (new_evaluation id tenant field seq dataset provider method config).
Proof using Type.
  intros Hk. split_and!; [list_in|done|apply public_opt_None|apply public_opt_None|done|by exists project].
Qed.

(** The job of an evaluation. *)
Lemma with_job_ok w e job : evaluation_ok (field_key <$> fields w) e → ok w → ok (set_evaluations (put_row ev_id (with_job job e) (evaluations w)) w).
Proof using Type. intros (H1 & H2 & H3 & H4 & H5 & H6) Hw. apply put_evaluation_ok; [|done]. by split_and!. Qed.

Lemma submit_train_ok tenant project body w a w' :
  submit_radiance_train env tenant project body w = Ok (a, w') → ok w → ok w' ∧ submission env tenant (base w) (base w').
Proof using Hinj.
  intros H Hw. unfold submit_radiance_train in H. apply svc_bind_Ok in H as (u & w1 & ->%validate_reads & H).
  apply svc_bind_Ok in H as (u1 & w1 & [_ <-]%lift_Ok & H). apply svc_bind_Ok in H as ([spec provider] & w1 & [_ <-]%lift_Ok & H).
  apply svc_bind_Ok in H as (field_id & w1 & Hd & H). destruct (draw_id_ok _ _ _ Hd Hw) as (_ & Hw1 & Hun & Hdraw1).
  cbv zeta in H. apply svc_bind_Ok in H as (u2 & w2 & Hadd%modify_Ok & H).
  set (f := mkField field_id tenant project _ _ _ _ _ _ _ _) in Hadd.
  assert (ok w2 ∧ draws w w2 ∧ (field_id, tenant, project) ∈ field_key <$> fields w2) as (Hw2 & Hdraw2 & Hkey).
  { subst w2. split_and!; [|done|cbn; rewrite fmap_app; apply elem_of_app; right; list_in].
    apply (add_field_ok env w1 f); [done| |done]. split; [list_in|apply public_opt_None]. }
  clear Hadd. apply svc_bind_Ok in H as (evaluation & w3 & He & H).
  assert (ok w3 ∧ draws w w3 ∧ ∀ e, evaluation = Some e → evaluation_ok (field_key <$> fields w3) e) as (Hw3 & Hdraw3 & Hev).
  { destruct (final_eval body) as [c|]; [|apply svc_ret_Ok in He as [<- <-]; by split_and!].
    apply svc_bind_Ok in He as (id & w4 & Hd4 & He). destruct (draw_id_ok _ _ _ Hd4 Hw2) as (Hw4e & Hw4 & Hun4 & Hdraw4).
    unfold add_evaluation in He. cbv zeta in He. apply svc_bind_Ok in He as (u3 & w5 & Hadd%modify_Ok & [<- <-]%svc_ret_Ok).
    assert (field_key <$> fields w4 = field_key <$> fields w2) as Hk by by subst.
    subst w5. split_and!.
    - apply (add_evaluation_ok env w4); [done| |done]. rewrite Hk. by eapply new_evaluation_ok.
    - eapply draws_trans; [exact Hdraw2|]. eapply draws_trans; [exact Hdraw4|]. by apply draws_base.
    - intros e [= <-]. cbn. rewrite Hk. by eapply new_evaluation_ok. }
  apply svc_bind_Ok in H as (node & w4 & Hnode & H). apply svc_bind_Ok in H as ([[job tasks] queued] & w5 & Hsub & H).
  assert (ok w5 ∧ submission env tenant (base w) (base w5) ∧ w5 = set_base (base w5) w3) as (Hw5 & Hs5 & He5).
  { eapply submit_one; [|exact Hdraw3|exact Hw3]. apply svc_bind_Ok. exists node, w4. split; [exact Hnode|exact Hsub]. }
  apply svc_bind_Ok in H as (u4 & w6 & Hput & [_ <-]%svc_ret_Ok).
  destruct evaluation as [e|]; [|by apply svc_ret_Ok in Hput as [_ <-]].
  unfold put_evaluation in Hput. apply modify_Ok in Hput as <-. split; [|done]. apply with_job_ok; [|done]. rewrite He5. by apply Hev.
Qed.

Lemma list_snapshots_reads tenant id w rows w' : list_radiance_snapshots tenant id w = Ok (rows, w') → w' = w.
Proof using Type.
  unfold list_radiance_snapshots. intros (f & w1 & (-> & _)%get_field_spec & [_ <-]%gets_Ok)%svc_bind_Ok. done.
Qed.

Lemma submit_evaluate_ok tenant field_id body w a w' :
  submit_radiance_evaluate env tenant field_id body w = Ok (a, w') → ok w → ok w' ∧ submission env tenant (base w) (base w').
Proof using Hinj.
  intros H Hw. unfold submit_radiance_evaluate in H. apply svc_bind_Ok in H as (f & w1 & (-> & Hf & Ht & Hid)%get_field_spec & H).
  apply svc_bind_Ok in H as (rows & w1 & ->%list_snapshots_reads & H). apply svc_bind_Ok in H as (u & w1 & [_ <-]%guard_Ok & H).
  cbv zeta in H. apply svc_bind_Ok in H as (u1 & w1 & [_ <-]%guard_Ok & H). apply svc_bind_Ok in H as (u2 & w1 & Hds & H).
  assert (w1 = w) as -> by (destruct (er_dataset_id body); [unfold require_dataset in Hds|]; by svc_inv Hds). clear Hds.
  apply svc_bind_Ok in H as (provider & w1 & [_ <-]%lift_Ok & H). apply svc_bind_Ok in H as (u3 & w1 & [_ <-]%lift_Ok & H).
  apply svc_bind_Ok in H as (id & w1 & Hd & H). destruct (draw_id_ok _ _ _ Hd Hw) as (Hw1e & Hw1 & Hun & Hdraw1).
  apply svc_bind_Ok in H as (u4 & w2 & Hadd & H). unfold add_evaluation in Hadd. apply modify_Ok in Hadd.
  set (e := new_evaluation id _ _ _ _ _ _ _) in *.
  assert (evaluation_ok (field_key <$> fields w1) e) as He.
  { apply (new_evaluation_ok _ _ _ _ _ _ _ _ _ (rf_project_id f)). subst. by apply (list_elem_of_fmap_2 field_key). }
  assert (ok w2 ∧ draws w w2 ∧ fields w2 = fields w1) as (Hw2 & Hdraw2 & Hf2).
  { subst w2. split_and!; [by apply (add_evaluation_ok env w1)|done|done]. }
  clear Hadd. apply svc_bind_Ok in H as (node & w4 & Hnode & H). apply svc_bind_Ok in H as ([[job tasks] queued] & w5 & Hsub & H).
  assert (ok w5 ∧ submission env tenant (base w) (base w5) ∧ w5 = set_base (base w5) w2) as (Hw5 & Hs5 & He5).
  { eapply submit_one; [|exact Hdraw2|exact Hw2]. apply svc_bind_Ok. exists node, w4. split; [exact Hnode|exact Hsub]. }
  apply svc_bind_Ok in H as (u5 & w6 & Hput & [_ <-]%svc_ret_Ok).
  unfold put_evaluation in Hput. apply modify_Ok in Hput as <-. split; [|done]. apply with_job_ok; [|done]. rewrite He5. cbn. by rewrite Hf2.
Qed.

(** *** Hooks *)

Lemma base_only w w' : evaluations_only w w' → base w' = base w.
Proof using Type. by intros [l ->]. Qed.

Lemma train_on_status_ok t status w u w' :
  status ∈ ["running"; "failed"] → train_on_status bracketed_ok internal_ip t status w = Ok (u, w') → ok w → ok w' ∧ draws w w'.
Proof using Type.
  intros Hs H Hw. unfold train_on_status in H. destruct (_task_radiance_field_id t) as [f|]; [|svc_inv H; split; [done|apply draws_refl]].
  apply svc_bind_Ok in H as (u1 & w1 & Hm & H). destruct (mark_field_ok _ _ _ _ _ _ Hs Hm Hw) as [Hw1 Hb].
  destruct (_task_radiance_evaluation_id t) as [e|]; [|svc_inv H; split; [done|by apply draws_base]].
  case_decide; [|svc_inv H; split; [done|by apply draws_base]].
  destruct (mark_evaluation_ok (t_tenant_id t) e "failed" _ _ _ _ ltac:(list_in) H Hw1) as [Hw' Hb'%base_only]. split; [done|]. apply draws_base. congruence.
Qed.

Lemma train_on_success_ok t outputs w u w' :
  train_on_success bracketed_ok internal_ip disk env t outputs w = Ok (u, w') → ok w → ok w' ∧ draws w w'.
Proof using Hinj.
  unfold train_on_success. intros H Hw. destruct (_task_radiance_field_id t); [|svc_inv H; split; [done|apply draws_refl]]. by eapply record_train_ok.
Qed.

Lemma eval_on_status_ok t status w u w' :
  status ∈ ["running"; "failed"] → eval_on_status bracketed_ok internal_ip t status w = Ok (u, w') → ok w → ok w' ∧ draws w w'.
Proof using Type.
  unfold eval_on_status. intros Hs H Hw. destruct (_task_radiance_evaluation_id t); [|svc_inv H; split; [done|apply draws_refl]].
  destruct (mark_evaluation_ok _ _ _ _ _ _ _ Hs H Hw) as [Hw' Hb%base_only]. split; [done|by apply draws_base].
Qed.

Lemma eval_on_success_ok t outputs w u w' :
  eval_on_success bracketed_ok internal_ip t outputs w = Ok (u, w') → ok w → ok w' ∧ draws w w'.
Proof using Type.
  unfold eval_on_success. intros H Hw. destruct (_task_radiance_evaluation_id t); [|svc_inv H; split; [done|apply draws_refl]].
  destruct (record_evaluation_ok _ _ _ _ _ _ H Hw) as [Hw' Hb%base_only]. split; [done|by apply draws_base].
Qed.
End operations.

(** ** The scan for links *)

(** No link below, and every directory can be read. *)
Fixpoint link_free (e : entry) : bool :=
  match e with
  | File => true
  | Link | Folder None => false
  | Folder (Some l) => (fix go (l : list (string * entry)) : bool := match l with [] => true | (_, e) :: l => link_free e && go l end) l
  end.

Definition is_folder (e : entry) : bool := match e with Folder _ => true | _ => false end.

Lemma link_free_children l : link_free (Folder (Some l)) = forallb (λ c, link_free c.2) l.
Proof. cbn. induction l as [|[n e] l IH]; [done|]. cbn. by rewrite IH. Qed.

Lemma folders_children l : folders (Folder (Some l)) = S (sum_list ((λ c, folders c.2) <$> l)).
Proof. cbn. f_equal. induction l as [|[n e] l IH]; [done|]. cbn. by rewrite IH. Qed.

(** The directories still to be read. *)
Definition pending (stack : list (list string * entry)) : nat := sum_list ((λ pe, folders pe.2) <$> stack).
Definition good (stack : list (list string * entry)) : bool := forallb (λ pe, is_folder pe.2 && link_free pe.2) stack.

Lemma pending_cons path e stack : pending ((path, e) :: stack) = (folders e + pending stack)%nat.
Proof. done. Qed.

(** Checking the children of a directory: they are clean with the rest of the stack
    exactly when the new stack is. *)
Lemma check_children path l stack :
  match fold_res (check_child path) stack l with
  | Ok stack' => pending stack' = (pending stack + sum_list ((λ c, folders c.2) <$> l))%nat ∧
                 good stack' = good stack && forallb (λ c, link_free c.2) l
  | Err _ => forallb (λ c, link_free c.2) l = false
  end.
Proof.
  revert stack. induction l as [|[n e] l IH]; intros stack; cbn [fold_res]; [cbn; by rewrite andb_true_r, Nat.add_0_r|].
  assert (check_child path stack (n, e) = match e with Link => Err (link_at (path ++ [n])) | Folder _ => Ok ((path ++ [n], e) :: stack) | File => Ok stack end) as -> by by destruct e.
  destruct e as [| |c]; cbn [mbind res_bind]; [specialize (IH stack)|done|specialize (IH ((path ++ [n], Folder c) :: stack))].
  - destruct (fold_res _ _ _) as [stack'|]; [|cbn; by rewrite IH, ?andb_false_r]. destruct IH as [H1 H2]. split; [by rewrite H1|done].
  - destruct (fold_res _ _ _) as [stack'|].
    + destruct IH as [H1 H2]. rewrite H1, H2, pending_cons. unfold good. cbn [forallb snd is_folder]. split.
      * change (sum_list ((λ c : string * entry, folders c.2) <$> (n, Folder c) :: l)) with (folders (Folder c) + sum_list ((λ c : string * entry, folders c.2) <$> l))%nat. lia.
      * generalize (link_free (Folder c)) as x, (forallb (λ pe : list string * entry, is_folder pe.2 && link_free pe.2) stack) as y. intros x y.
        cbn. rewrite <-andb_assoc. by destruct x, y.
    + cbn [forallb snd]. by rewrite IH, andb_false_r.
Qed.

Lemma reject_links_decides fuel stack :
  (pending stack < fuel)%nat → (reject_links fuel stack = Ok tt ↔ good stack = true) ∧ (∀ x, reject_links fuel stack = Err x → good stack = false).
Proof.
  revert stack. induction fuel as [|fuel IH]; intros [|[path e] stack] Hf; try (cbn; split; [done|done]); [lia|].
  destruct e as [| |[l|]]; cbn [reject_links]; try (split; [split; [done|]|intros _ _]; unfold good; cbn; done).
  pose proof (check_children path l stack) as Hc. destruct (fold_res _ _ _) as [stack'|] eqn:E.
  - destruct Hc as [Hp Hg]. cbn [mbind res_bind]. destruct (IH stack') as [H1 H2].
    { rewrite pending_cons, folders_children in Hf. lia. }
    assert (good ((path, Folder (Some l)) :: stack) = good stack') as ->; [|done].
    rewrite Hg. unfold good. cbn [forallb snd is_folder andb]. rewrite link_free_children. apply andb_comm.
  - cbn [mbind res_bind]. unfold good. cbn [forallb snd is_folder andb]. rewrite link_free_children, Hc. split; [by split|done].
Qed.

(** The scan of a directory accepts exactly the trees without links. *)
Lemma scan_decides e : _reject_snapshot_links e = Ok tt ↔ is_folder e && link_free e = true.
Proof.
  unfold _reject_snapshot_links. destruct (reject_links_decides (S (folders e)) [([], e)]) as [H _].
  - unfold pending. cbn. lia.
  - rewrite H. unfold good. cbn. by rewrite andb_true_r.
Qed.
