(* ===== verification/RadianceGuarantees.v ===== *)
(** What the radiance tables promise next to the rest of the server, and what the worker
    records of a training. *)
From S2P Require Import Prelude PyValue JsonFacts Errors Store Hashing Service JobService Dispatcher Datasets DatasetFacts System HubState ArtifactVocab Conversion Capabilities Backends Stages StageFacts Server ServerInvariant ArtifactFacts DatasetGuarantees StageGuarantees Snapshots PublicOutputs PublicGuarantees Radiance RadianceTasks RadianceFacts.
From stdpp Require Import options.
Import Errors Datasets Stages Radiance RadianceTasks.

#[local] Open Scope Z_scope.
#[local] Opaque hash_dict Dag.hash_inputs Dag.hash_params.

(** ** The server with its radiance tables *)

Record RadianceState : Type := mkRadianceState {
  tables : Tables;
  r_clock : Z;
  r_runs : list (string * Task)
}.

Section system.
Context (dep : Server.Deployment) (bracketed_ok : string → bool) (internal_ip : string → option bool).

(** The rest of the server. *)
Definition server_part (s : RadianceState) : Server.State := Server.mkState (base (tables s)) (r_clock s) (r_runs s).

Definition now_env (s : RadianceState) : Stages.Env := Server.at_time (r_clock s) (Server.stage_env dep).

Definition cascaded (w : Tables) : Tables := if Server.enforced dep then cascade_fields w else w.

(** A hook runs as a step of its own, for any task; the disk may differ each time. *)
Inductive radiance_step (s : RadianceState) : RadianceState → Prop :=
  | step_server s' :
      Server.server_step dep (server_part s) s' →
      radiance_step s (mkRadianceState (cascaded (set_base (Server.world s') (tables s))) (Server.clock s') (Server.runs s'))
  | step_train tenant project body a w :
      _one_input body = true → submit_radiance_train (now_env s) tenant project body (tables s) = Ok (a, w) →
      radiance_step s (mkRadianceState w (r_clock s) (r_runs s))
  | step_evaluate tenant field body a w :
      submit_radiance_evaluate (now_env s) tenant field body (tables s) = Ok (a, w) →
      radiance_step s (mkRadianceState w (r_clock s) (r_runs s))
  | step_status hook t status u w :
      hook ∈ [train_on_status bracketed_ok internal_ip; eval_on_status bracketed_ok internal_ip] →
      status ∈ ["running"; "failed"] → hook t status (tables s) = Ok (u, w) →
      radiance_step s (mkRadianceState w (r_clock s) (r_runs s))
  | step_trained disk t outputs u w :
      train_on_success bracketed_ok internal_ip disk (now_env s) t outputs (tables s) = Ok (u, w) →
      radiance_step s (mkRadianceState w (r_clock s) (r_runs s))
  | step_evaluated t outputs u w :
      eval_on_success bracketed_ok internal_ip t outputs (tables s) = Ok (u, w) →
      radiance_step s (mkRadianceState w (r_clock s) (r_runs s)).

Definition radiance_start (t : Z) : RadianceState := mkRadianceState (mkTables (Server.world (Server.start t)) [] [] [] []) t [].

Inductive radiance_reachable : RadianceState → Prop :=
  | radiance_reach_start t : radiance_reachable (radiance_start t)
  | radiance_reach_step s s' : radiance_reachable s → radiance_step s s' → radiance_reachable s'.

Record system_ok (s : RadianceState) : Prop := {
  sys_server : server_ok dep (server_part s);
  sys_radiance : radiance_ok (Server.stage_env dep) (tables s)
}.

(** *** Cascades *)

Abbreviation ok := (radiance_ok (Server.stage_env dep)).

Lemma forget_keys b (l : list RadianceField) : field_key <$> (forget b <$> l) = field_key <$> l.
Proof using Type. by rewrite <-list_fmap_compose. Qed.

Lemma cascade_ids w : ids (cascade_fields w) `sublist_of` ids w.
Proof using Type.
  unfold ids, cascade_fields. cbv zeta. cbn. rewrite <-(list_fmap_compose (forget (base w)) rf_id).
  repeat apply sublist_app; apply fmap_sublist, delete_where_sublist.
Qed.

(** A row whose owner is kept. *)
Lemma kept_owner {A} (key : A → string) rows id :
  negb (id_taken key id rows) = false → ∃ r, r ∈ rows ∧ key r = id.
Proof using Type.
  intros H%negb_false_iff. apply existsb_exists in H as (r & Hr%list_elem_of_In & Hk%bool_decide_eq_true). by exists r.
Qed.

(** A key of a row whose id is kept. *)
Lemma kept_key {A B} (key : A → string) (g : A → B) (id_of : B → string) rows kept k :
  NoDup (key <$> rows) → (∀ r, id_of (g r) = key r) → g <$> kept ⊆ g <$> rows → k ∈ g <$> rows →
  (∃ r, r ∈ kept ∧ key r = id_of k) → k ∈ g <$> kept.
Proof using Type.
  intros Hd Hid Hsub (x & -> & Hx)%list_elem_of_fmap (r & Hr & Hk). rewrite Hid in Hk.
  assert (g r ∈ g <$> rows) as (y & Hy & Hin)%list_elem_of_fmap by (apply Hsub; by apply list_elem_of_fmap_2).
  assert (key y = key x) as He by (rewrite <-Hk, <-!Hid; by rewrite Hy).
  assert (y = x) as -> by by eapply (same_row key). rewrite <-Hy. by apply list_elem_of_fmap_2.
Qed.

Lemma fmap_delete_subset {A B} (g : A → B) p rows : g <$> delete_where p rows ⊆ g <$> rows.
Proof using Type. intros x (y & -> & Hy%delete_where_subset)%list_elem_of_fmap. by apply list_elem_of_fmap_2. Qed.

Lemma cascade_ok w : ok w → ok (cascade_fields w).
Proof using Type.
  intros Hw. destruct (ok_parts _ w Hw) as (Hf & Hs & _). pose proof (cascade_ids w) as Hsub.
  destruct Hw as [H1 H2 H3 H4 H5 H6 H7].
  set (fs := fields (cascade_fields w)). set (ss := snapshots (cascade_fields w)).
  assert (field_key <$> fs ⊆ field_key <$> fields w) as Hfs.
  { unfold fs, cascade_fields. cbv zeta. cbn. rewrite forget_keys. apply fmap_delete_subset. }
  assert (∀ k, k ∈ field_key <$> fields w → (∃ f, f ∈ fs ∧ rf_id f = k.1.1) → k ∈ field_key <$> fs) as Hfield.
  { intros k Hk He. by apply (kept_key rf_id field_key (λ k, k.1.1) (fields w)). }
  assert (∀ k, k ∈ snapshot_key <$> snapshots w → (∃ s, s ∈ ss ∧ sn_id s = k.1) → k ∈ snapshot_key <$> ss) as Hsnap.
  { intros k Hk He. apply (kept_key sn_id snapshot_key (λ k, k.1) (snapshots w)); [done|done| |done|done]. apply fmap_delete_subset. }
  split.
  - intros i Hi. apply H1. by eapply elem_of_sublist.
  - eapply sublist_NoDup; [exact H2|exact Hsub].
  - by apply fmap_delete_NoDup.
  - intros f (f0 & -> & Hin%delete_where_subset%H4)%list_elem_of_fmap. exact Hin.
  - intros s [Hp Hin]%elem_of_delete_where. destruct (H5 s Hin) as (? & ? & p & d & Hk & Hpath). split_and!; [done|done|].
    exists p, d. split; [|done]. apply Hfield; [done|]. by apply kept_owner.
  - intros e [Hp Hin]%elem_of_delete_where. destruct (H6 e Hin) as (? & ? & ? & ? & ? & p & Hk). split_and!; [done..|].
    exists p. apply Hfield; [done|]. by apply kept_owner.
  - intros v [Hp Hin]%elem_of_delete_where. destruct (H7 v Hin) as (? & ? & Hk). split_and!; [done|done|].
    apply Hsnap; [done|]. by apply kept_owner.
Qed.

(** *** Steps *)

Context (Hinj : ∀ j k, fresh (Server.stage_env dep) j = fresh (Server.stage_env dep) k → j = k).
Context (Hnonempty : ∀ k, fresh (Server.stage_env dep) k ≠ "").

(** The invariant does not depend on the clock. *)
Lemma ok_now s w : radiance_ok (now_env s) w ↔ ok w.
Proof using Type. split; intros [H1 H2 H3 H4 H5 H6 H7]; split; assumption. Qed.

Lemma server_step_next s s' : Server.server_step dep s s' → (w_next (Server.world s) ≤ w_next (Server.world s'))%nat.
Proof using Type.
  intros [s1 Hw|o|tenant o acc w H]; cbn; [done| |].
  - unfold Server.with_data. by destruct (Server.enforced dep).
  - eapply submission_next, submits_stage_op, H.
Qed.

(** A radiance call that only draws ids. *)
Lemma system_ok_draws s w : system_ok s → radiance_ok (now_env s) w → draws (now_env s) (tables s) w → system_ok (mkRadianceState w (r_clock s) (r_runs s)).
Proof using Hinj.
  intros [Hs _] Hw Hd. split; [|by apply (ok_now s)]. eapply (server_ok_prep dep Hinj (r_clock s) "" (server_part s)); [done|]. apply Hd.
Qed.

Lemma system_ok_submits s tenant w :
  system_ok s → radiance_ok (now_env s) w → submission (now_env s) tenant (base (tables s)) (base w) → system_ok (mkRadianceState w (r_clock s) (r_runs s)).
Proof using Hinj Hnonempty. intros [Hs _] Hw Hd. split; [|by apply (ok_now s)]. by eapply (server_ok_submission dep Hinj Hnonempty (server_part s)). Qed.

Lemma system_ok_step s s' : system_ok s → radiance_step s s' → system_ok s'.
Proof using Hinj Hnonempty.
  intros Hs Hstep. pose proof Hs as [Hsrv Hrad]. pose proof (proj2 (ok_now s _) Hrad) as Hnow. destruct Hstep.
  - split.
    + assert (server_part (mkRadianceState (cascaded (set_base (Server.world s') (tables s))) (Server.clock s') (Server.runs s')) = s') as ->.
      { unfold server_part, cascaded. destruct s'. by destruct (Server.enforced dep). }
      destruct H as [s1 Hw|o|tenant o acc w H]; [by apply server_ok_work|by apply server_ok_data|by eapply server_ok_stage].
    + cbn. assert (ok (set_base (Server.world s') (tables s))) as Hb by (apply base_ok; [by apply (server_step_next _ _ H)|done]).
      unfold cascaded. destruct (Server.enforced dep); [by apply cascade_ok|done].
  - destruct (submit_train_ok (now_env s) Hinj _ _ _ _ _ _ H0 Hnow). by eapply system_ok_submits.
  - destruct (submit_evaluate_ok (now_env s) Hinj _ _ _ _ _ _ H Hnow). by eapply system_ok_submits.
  - assert (radiance_ok (now_env s) w ∧ draws (now_env s) (tables s) w) as [? ?]; [|by apply system_ok_draws].
    apply elem_of_cons in H as [->| ->%list_elem_of_singleton]; [by eapply train_on_status_ok|by eapply eval_on_status_ok].
  - destruct (train_on_success_ok _ _ _ (now_env s) Hinj _ _ _ _ _ H Hnow). by apply system_ok_draws.
  - destruct (eval_on_success_ok _ _ (now_env s) _ _ _ _ _ H Hnow). by apply system_ok_draws.
Qed.

Lemma radiance_start_ok t : system_ok (radiance_start t).
Proof using Hinj Hnonempty.
  split; [exact (reachable_server_ok dep Hinj Hnonempty _ (Server.reach_start dep t))|].
  split; cbn; [by intros i ?%elem_of_nil|apply NoDup_nil_2|apply NoDup_nil_2|by intros x ?%elem_of_nil..].
Qed.

Lemma radiance_reachable_ok s : radiance_reachable s → system_ok s.
Proof using Hinj Hnonempty. induction 1; [apply radiance_start_ok|by eapply system_ok_step]. Qed.
End system.

(** ** What the worker records of a training *)

(** Outputs with one evaluation of [e] of field [f], first, and no other metrics. *)
Definition carries (e f : string) (d outputs : dict value) : Prop :=
  ∃ rest, value_get "evaluations" outputs = VList (VDict d :: rest) ∧ value_get "evaluation_id" d = VStr e ∧
    is_dict (value_get "metrics" d) = true ∧ value_get "radiance_field_id" d = VStr f ∧ ∀ v, v ∈ rest → metrics_item v = None.

Lemma filled_str_spec v s : filled_str v = Some s → v = VStr s ∧ s ≠ "".
Proof. destruct v as [| | | |[|a t]| |]; cbn; try done. by intros [= <-]. Qed.

Lemma metric_items_spec l i d : (i, d) ∈ metric_items l → metrics_item (VDict d) = Some d.
Proof.
  unfold metric_items. intros ([j v] & _ & H)%list_elem_of_omap. cbn in H. destruct (metrics_item v) as [d'|] eqn:Hm; [|done].
  injection H as _ <-. unfold metrics_item in Hm. destruct v as [| | | | | |d2]; try done. destruct (is_dict (value_get "metrics" d2)) eqn:E; [|done].
  injection Hm as <-. cbn. by rewrite E.
Qed.

Lemma select_item_spec e l i d : select_item e l = Some (i, d) → is_dict (value_get "metrics" d) = true.
Proof.
  intros H. assert ((i, d) ∈ metric_items l) as Hin.
  { unfold select_item in H. destruct (head _) as [x|] eqn:Hh.
    - injection H as ->. apply head_Some_elem_of in Hh. by apply list_elem_of_filter in Hh as [_ ?].
    - destruct (metric_items l) as [|[j d'] [|]]; try done. destruct (filled_str _) as [s|].
      + case_decide; [|done]. injection H as -> ->. list_in.
      + injection H as -> ->. list_in. }
  apply metric_items_spec in Hin. cbn in Hin. by destruct (is_dict _).
Qed.

Lemma normalize_carries outputs f e out :
  f ≠ "" → _normalize_train_evaluation_outputs outputs (VStr f) (VStr e) = Some out → ∃ d, carries e f d out.
Proof.
  intros Hf. unfold _normalize_train_evaluation_outputs. destruct (filled_str (VStr e)) as [e'|] eqn:He; [|done].
  apply filled_str_spec in He as [[= <-] _]. destruct (value_get "evaluations" outputs) as [| | | | |l|]; try done.
  intros ([i d] & Hsel%select_item_spec & H)%bind_Some. destruct (forallb (tolerated e) (others i l)) eqn:Hall; [|done].
  destruct f as [|a f]; [done|]. injection H as <-. eexists _, _. rewrite value_get_set_eq. split; [done|]. split_and!.
  - rewrite value_get_set_ne by done. apply value_get_set_eq.
  - by rewrite !value_get_set_ne by done.
  - apply value_get_set_eq.
  - intros v [_ Hv]%elem_of_select. rewrite forallb_forall in Hall. specialize (Hall v (proj1 (list_elem_of_In _ _) Hv)).
    unfold tolerated in Hall. by destruct (metrics_item v).
Qed.

Definition stub_item (e f : string) : dict value :=
  [("evaluation_id", VStr e); ("radiance_field_id", VStr f); ("snapshot_seq", VInt 1); ("metrics", VDict _stub_metrics);
   ("artifacts", stub_eval_artifacts)].

Lemma stub_carries e f summary sealed : carries e f (stub_item e f) (stub_outputs f summary (Some e) sealed).
Proof. exists []. split; [done|]. split_and!; try done. by intros v ?%elem_of_nil. Qed.

Section recording.
Context (bracketed_ok : string → bool) (internal_ip : string → option bool).

Abbreviation record_all tenant e f := (_record_embedded_evaluations bracketed_ok internal_ip tenant (Some e) f).

(** The row with the metrics and the artifacts of an item. *)
Definition scored (m : dict value) (l : list value) (row : RadianceEvaluation) (w : Tables) : Tables :=
  set_evaluations (put_row ev_id (with_result "succeeded" (Some m) (Some l) None row) (evaluations w)) w.

Lemma record_no_metrics tenant e f v w : metrics_item v = None → record_embedded bracketed_ok internal_ip tenant e f v w = Ok (tt, w).
Proof using Type.
  intros Hv. destruct v as [| | | | | |d]; try done. cbn in *. destruct (value_get "evaluation_id" d); try done.
  by destruct (value_get "metrics" d).
Qed.

Lemma record_rest tenant e f rest w :
  (∀ v, v ∈ rest → metrics_item v = None) → each (record_embedded bracketed_ok internal_ip tenant e f) rest w = Ok (tt, w).
Proof using Type.
  induction rest as [|v rest IH]; intros H; [done|]. cbn [each]. unfold mbind, svc_bind. rewrite record_no_metrics by (apply H; list_in).
  apply IH. intros x Hx. apply H. by right.
Qed.

Lemma public_dict_err v x : _public_dict bracketed_ok internal_ip v = Err x → exn_class x = "ValueError".
Proof using Type. unfold _public_dict, value_error. destruct (PublicOutputs.sanitize_public_outputs _ _ _); [done|]. by intros [= <-]. Qed.

Lemma public_list_err v x : _public_artifact_list bracketed_ok internal_ip v = Err x → exn_class x = "ValueError".
Proof using Type. unfold _public_artifact_list, value_error. destruct (PublicOutputs.sanitize_public_outputs _ _ _); [done|]. by intros [= <-]. Qed.

(** Recording one evaluation's result. *)
Lemma record_result tenant e d w row :
  get_radiance_evaluation tenant e w = Ok (row, w) → is_dict (value_get "metrics" d) = true →
  match record_radiance_evaluation_result bracketed_ok internal_ip tenant e d w with
  | Ok (_, w') => ∃ m l, _public_dict bracketed_ok internal_ip (value_get "metrics" d) = Ok m ∧
                    _public_artifact_list bracketed_ok internal_ip (value_get "artifacts" d) = Ok l ∧ w' = scored m l row w
  | Err x => exn_class x = "ValueError" ∧
      ¬ ∃ m l, _public_dict bracketed_ok internal_ip (value_get "metrics" d) = Ok m ∧
               _public_artifact_list bracketed_ok internal_ip (value_get "artifacts" d) = Ok l
  end.
Proof using Type.
  intros Hrow Hm. unfold record_radiance_evaluation_result, mbind, svc_bind. rewrite Hrow, Hm. cbn.
  destruct (_public_dict _ _ _) as [m|x] eqn:E1; cbn; [|split; [by eapply public_dict_err|by intros (? & ? & ? & ?)]].
  destruct (_public_artifact_list _ _ _) as [l|x] eqn:E2; cbn; [|split; [by eapply public_list_err|by intros (? & ? & ? & ?)]].
  by exists m, l.
Qed.

(** Recording outputs that carry the evaluation records that one. *)
Lemma record_carried tenant e f d outputs w :
  e ≠ "" → carries e f d outputs →
  record_all tenant e f outputs w = record_radiance_evaluation_result bracketed_ok internal_ip tenant e d w.
Proof using Type.
  intros He (rest & Hev & Hid & Hm & Hf & Hrest). unfold _record_embedded_evaluations. rewrite Hev.
  destruct e as [|a e]; [done|]. cbn [Conversion.nonempty]. set (name := String a e) in *. cbn [each]. unfold mbind at 1, svc_bind at 1.
  assert (record_embedded bracketed_ok internal_ip tenant name f (VDict d) w = record_radiance_evaluation_result bracketed_ok internal_ip tenant name d w) as ->.
  { cbn [record_embedded]. rewrite Hid, Hf. destruct (value_get "metrics" d); try done. by rewrite !bool_decide_true by done. }
  destruct (record_radiance_evaluation_result _ _ _ _ _ _) as [[[] w']|x]; [|done]. by apply record_rest.
Qed.
End recording.

(** *** Container providers *)

Section provider.
Context (env : Stages.Env) (artifact_types : list string) (plugin_formats : list Vocab.ArtifactFormatDefinition)
  (redact_name : string → string) (public_metadata : dict value → dict value) (provider : string).

Abbreviation outputs_of := (provider_outputs env artifact_types plugin_formats redact_name public_metadata provider).

Lemma train_outputs_carries inputs spec outputs e f out :
  expected_evaluation inputs spec = Some e → filled_str (value_get "radiance_field_id" inputs) = Some f →
  train_outputs env artifact_types plugin_formats redact_name public_metadata provider inputs spec outputs = Ok out →
  ∃ d, carries e f d out.
Proof using Type.
  intros He Hf. unfold train_outputs. rewrite He. intros (u & _ & (o & _ & H)%bind_Ok)%bind_Ok.
  apply filled_str_spec in Hf as [Heq Hf]. rewrite Heq in H. destruct (_normalize_train_evaluation_outputs _ _ _) as [o'|] eqn:Hn; [|done].
  injection H as <-. by eapply normalize_carries.
Qed.

Lemma provider_carries capability url inputs spec r e f out :
  expected_evaluation inputs spec = Some e → filled_str (value_get "radiance_field_id" inputs) = Some f →
  outputs_of "radiance_train" capability url inputs spec r = Ok out → ∃ d, carries e f d out.
Proof using Type.
  intros He Hf. unfold provider_outputs. intros (body & _ & (o & _ & H)%bind_Ok)%bind_Ok. cbv zeta in H. rewrite decide_False in H by done.
  by eapply train_outputs_carries.
Qed.
End provider.

(** *** The stub *)

#[local] Opaque stub_eval_artifacts _stub_metrics.

Lemma stub_values_simple : simple_value (VDict _stub_metrics) = true ∧ simple_value (VDict [("artifacts", stub_eval_artifacts)]) = true.
Proof. split; vm_compute; reflexivity. Qed.

Lemma stub_item_values e f :
  value_get "metrics" (stub_item e f) = VDict _stub_metrics ∧ value_get "artifacts" (stub_item e f) = stub_eval_artifacts.
Proof. done. Qed.

Lemma value_error_total {A} (r : res string A) : (∃ a, r = Ok a) → ∃ a, value_error r = Ok a.
Proof. intros [a ->]. by exists a. Qed.

Lemma stub_metrics_public b i : ∃ m, _public_dict b i (VDict _stub_metrics) = Ok m.
Proof.
  destruct (sanitize_total b i _ (proj1 stub_values_simple) PublicOutputs.Plain) as [v Hv]. unfold _public_dict, PublicOutputs.sanitize_public_outputs.
  rewrite Hv. by eexists.
Qed.

Lemma stub_artifacts_public b i : ∃ l, _public_artifact_list b i stub_eval_artifacts = Ok l.
Proof.
  destruct (sanitize_total b i _ (proj2 stub_values_simple) PublicOutputs.Plain) as [v Hv]. unfold _public_artifact_list, PublicOutputs.sanitize_public_outputs.
  assert (match stub_eval_artifacts with VList _ => stub_eval_artifacts | _ => VList [] end = stub_eval_artifacts) as -> by done.
  rewrite Hv. by eexists.
Qed.


(** ** A run *)

#[local] Transparent stub_eval_artifacts _stub_metrics hash_dict Dag.hash_inputs Dag.hash_params.

Definition radiance_data (s : RadianceState) (o : data_op) : RadianceState :=
  let s' := do_data (server_part s) o in
  mkRadianceState (cascaded demo_deployment (set_base (Server.world s') (tables s))) (Server.clock s') (Server.runs s').

Definition radiance_stocked : RadianceState := foldl radiance_data (radiance_start 5) demo_ops1.

Definition demo_eval : RadianceEvalConfig := mkEvalConfig true "test" None true ["psnr"] None 1 0 false "alex" "dataset".

Definition demo_training : RadianceTrainRequest :=
  mkTrainRequest (Some "fox") (Some "d") None (Some "stub") "stub" 1 (Some demo_eval) [("num_gaussians", VInt 5)] None.

(** A call and the state after it, the same one if it raises. *)
Definition after {A} (m : RadianceState → rcall A) (s : RadianceState) : RadianceState :=
  match m s (tables s) with Ok (_, w) => mkRadianceState w (r_clock s) (r_runs s) | Err _ => s end.

Definition ask_training (s : RadianceState) : rcall (string * list string * string * option string) := submit_radiance_train (now_env demo_deployment s) "t" "p" demo_training.

Definition demo_disk : Disk := mkDisk (λ p, p) (λ _, true) (λ _, false) (λ _, true) (λ _, true) (λ _, Folder (Some [])).

Definition no_task : Task := mkTask "" "" "" "" "" "" "" "" None false "" None None None None None None None None 0.
Definition training_task (s : RadianceState) : Task := default no_task (head (db_tasks (w_db (base (tables s))))).

(** What the stub returns for the task, in an empty directory. *)
Definition training_outputs (s : RadianceState) : dict value :=
  match run_train_stub (λ _ _, "{}") Snapshots.name_order (now_env demo_deployment s) (training_task s) ∅ with
  | Ok (outputs, _) => outputs
  | Err _ => []
  end.

Definition plain_text (_ : string) : bool := true.
Definition no_address (_ : string) : option bool := None.

Definition finish_training (s : RadianceState) : rcall unit :=
  train_on_success plain_text no_address demo_disk (now_env demo_deployment s) (training_task s) (training_outputs s).

Definition trained : RadianceState := after finish_training (after ask_training radiance_stocked).

Example trained_rows :
  (rf_status <$> fields (tables trained), (λ s, (sn_seq s, sealed_path s)) <$> snapshots (tables trained),
   (λ e, (Radiance.ev_status e, (λ m, m.*1) <$> metrics_json e)) <$> evaluations (tables trained), vr_uri <$> variants (tables trained)) =
  (["succeeded"], [(1, "/w/t/projects/p/radiance_fields/i/snapshots/00000001")],
   [("succeeded", Some ["psnr_db"; "ssim"; "lpips"; "num_images"; "duration_s"; "render_time_s_total"; "render_time_s_mean"])],
   [Some "/w/t/projects/p/radiance_fields/i/snapshots/00000001/point_cloud.ply"]).
Proof. vm_compute. reflexivity. Qed.

(** A training that sealed its snapshot and was not recorded cannot run again. *)
Example stub_retry_fails :
  run_train_stub (λ _ _, "{}") Snapshots.name_order (now_env demo_deployment radiance_stocked)
    (training_task (after ask_training radiance_stocked)) {[ "00000001" := Snapshots.Dir ∅ ]} =
  Err (mkExn "FileExistsError" "Snapshot seq 1 already sealed" false).
Proof. vm_compute. reflexivity. Qed.

Abbreviation demo_step := (radiance_step demo_deployment plain_text no_address).
Abbreviation demo_reachable := (radiance_reachable demo_deployment plain_text no_address).

Lemma stocked_reachable : demo_reachable radiance_stocked.
Proof.
  unfold radiance_stocked. generalize demo_ops1. intros ops.
  assert (demo_reachable (radiance_start 5)) as H by constructor. revert H. generalize (radiance_start 5).
  induction ops as [|o ops IH]; intros s Hs; [exact Hs|]. apply IH. eapply radiance_reach_step; [exact Hs|].
  apply (step_server _ _ _ s (do_data (server_part s) o)), Server.server_data.
Qed.

(** A call that is a step when it returns. *)
Lemma after_reachable {A} (m : RadianceState → rcall A) s :
  (∀ a w, m s (tables s) = Ok (a, w) → demo_step s (mkRadianceState w (r_clock s) (r_runs s))) → demo_reachable s → demo_reachable (after m s).
Proof.
  intros Hm Hs. unfold after. destruct (m s (tables s)) as [[a w]|]; [|exact Hs]. by eapply radiance_reach_step, Hm.
Qed.

Lemma finish_step s a w : finish_training s (tables s) = Ok (a, w) → demo_step s (mkRadianceState w (r_clock s) (r_runs s)).
Proof. unfold finish_training. apply step_trained. Qed.

Lemma ask_step s a w : ask_training s (tables s) = Ok (a, w) → demo_step s (mkRadianceState w (r_clock s) (r_runs s)).
Proof. unfold ask_training. by apply step_train. Qed.

Lemma trained_reachable : demo_reachable trained.
Proof.
  apply after_reachable; [intros a w; apply finish_step|]. apply after_reachable; [intros a w; apply ask_step|apply stocked_reachable].
Qed.

(** C18: with any radiance requests, task hooks and server steps in any order, the rest
    of the server stays a reachable state of the orchestrator, and the radiance tables stay
    well-formed: ids are unique and drawn, a field has one snapshot per number, snapshots
    and evaluations belong to a field and variants to a snapshot of the same tenant, every
    snapshot lies under its field's root, a succeeded evaluation has metrics, and every
    stored summary, metric, artifact and error is fit for clients. *)
Theorem radiance_tables_kept dep bracketed_ok internal_ip s :
  (∀ j k, fresh (Server.stage_env dep) j = fresh (Server.stage_env dep) k → j = k) →
  (∀ k, fresh (Server.stage_env dep) k ≠ "") →
  radiance_reachable dep bracketed_ok internal_ip s →
  System.reachable (Server.sys_env dep) (Server.sys_of (server_part s)) ∧
  radiance_ok (Server.stage_env dep) (tables s).
Proof.
  intros Hinj Hne Hs. destruct (radiance_reachable_ok dep bracketed_ok internal_ip Hinj Hne s Hs) as [[Hsys _ _ _ _] Hrad]. by split.
Qed.

Lemma radiance_tables_kept_witness :
  length (snapshots (tables trained)) = 1%nat ∧ radiance_ok stage_demo_env (tables trained).
Proof.
  split; [vm_compute; reflexivity|].
  exact (proj2 (radiance_tables_kept demo_deployment plain_text no_address trained ticks_inj ticks_nonempty trained_reachable)).
Defined.

Definition asked_training : RadianceState := after ask_training radiance_stocked.
Definition training_inputs : dict value := read_inputs (training_task asked_training).
Definition training_spec : dict value := (read_state (training_task asked_training)).2.
Definition running_evaluation : RadianceEvaluation := default (new_evaluation "" "" "" 0 None "" "" []) (head (evaluations (tables asked_training))).

