(* ===== verification/ArtifactJobs.v ===== *)
(** [services/artifact_conversion_service.py] beyond planning: submission of a
    conversion, import of an artifact and validation of one; with the task
    [workers/tasks/convert_artifact.py] that carries a plan out and the manifest schemas
    of [core/artifacts.py]. *)
From S2P Require Import Prelude PyValue Errors Store Hashing Service JobService HubState HubRouting HubManifest ArtifactVocab Conversion Artifacts Datasets Capabilities Backends Stages PublicOutputs Radiance RadianceTasks.
From stdpp Require Import options.
Import Errors Datasets Stages Radiance RadianceTasks.

#[local] Open Scope Z_scope.
#[local] Arguments String.append !_ _ / : simpl nomatch.

Module ArtifactJobs.

Definition refuse (detail : string) : exn := Backends.invalid detail.
Definition absent (detail : string) : exn := exn_of_api_error (api_error_init NotFoundError detail []).

(** An exception of the planning part; the [KeyError] of a step without formats, which a
    listed contract does not have. *)
Definition exn_of_raised (x : Conversion.raised) : exn :=
  match x with Some e => exn_of_api_error e | None => mkExn "KeyError" "" false end.

(** ** Rows of [stage_artifact] *)

Definition opt_col (s : option string) : value := match s with Some s => VStr s | None => VNone end.
Definition dict_col (d : option (dict value)) : value := match d with Some d => VDict d | None => VNone end.

(** The columns the orchestrator's statements do not mention. *)
Definition stored (r : Artifacts.ArtifactRow) : StageArtifact :=
  mkStageArtifact (Artifacts.ar_tenant_id r) (Artifacts.ar_job_id r) (Artifacts.ar_task_id r)
    (VDict [("artifact_id", VStr (Artifacts.ar_id r)); ("recon_id", opt_col (Artifacts.ar_recon_id r));
            ("dataset_id", opt_col (Artifacts.ar_dataset_id r)); ("kind", VStr (Artifacts.ar_kind r));
            ("name", opt_col (Artifacts.ar_name r)); ("uri", opt_col (Artifacts.ar_uri r));
            ("media_type", opt_col (Artifacts.ar_media_type r)); ("summary_json", dict_col (Artifacts.summary_json r));
            ("metadata_json", dict_col (Artifacts.ar_metadata r))]).

Definition col_text (d : dict value) (key : string) : option string := Artifacts.text_of (value_get key d).
Definition col_dict (d : dict value) (key : string) : option (dict value) := match value_get key d with VDict x => Some x | _ => None end.

Definition read_row (a : StageArtifact) : Artifacts.ArtifactRow :=
  let d := dict_of (sa_payload a) in
  Artifacts.mkRow (default "" (col_text d "artifact_id")) (sa_tenant_id a) (sa_job_id a) (sa_task_id a) (col_text d "recon_id")
    (col_text d "dataset_id") (default "" (col_text d "kind")) (col_text d "name") (col_text d "uri") (col_text d "media_type")
    (col_dict d "summary_json") (col_dict d "metadata_json").

(** ** What a row says of itself *)

Section rows.
Context (v : Vocab.Vocabulary).

Definition _metadata (r : Artifacts.ArtifactRow) : dict value := default [] (Artifacts.ar_metadata r).

(** The artifact as planning reads it. *)
Definition plannable (r : Artifacts.ArtifactRow) : Conversion.StageArtifact :=
  Conversion.mkArtifact (Artifacts.ar_id r) (Artifacts.ar_kind r) (dict_col (Artifacts.ar_metadata r)).

Definition _artifact_format (r : Artifacts.ArtifactRow) : option string := Conversion._artifact_format (plannable r).

Definition _datatype (r : Artifacts.ArtifactRow) : option string :=
  match filled_str (value_get "datatype" (_metadata r)) with
  | Some t => Some t
  | None =>
      match f ← _artifact_format r; Vocab.datatype_for_format v f with
      | Some t => Some t
      | None => Vocab.datatype_for_kind v (Artifacts.ar_kind r)
      end
  end.

Definition _datatype_conflict_message (kind : string) (fmt datatype : option string) : option string :=
  match datatype with
  | None => None
  | Some t =>
      if negb (Conversion.is_valid_artifact_key t) then Some "datatype is malformed"
      else
        let of_kind :=
          match Vocab.datatype_for_kind v kind with
          | Some k => if decide (t = k) then None
                      else Some ("datatype " +:+ str_repr t +:+ " is not compatible with kind " +:+ str_repr kind)
          | None => None
          end in
        match fmt with
        | Some f =>
            match Vocab.datatype_for_format v f with
            | Some ft => if decide (t = ft) then of_kind
                         else Some ("datatype " +:+ str_repr t +:+ " is not compatible with artifact_format " +:+ str_repr f)
            | None => of_kind
            end
        | None => of_kind
        end
  end.

Definition _artifact_ref (r : Artifacts.ArtifactRow) : dict value :=
  let m := _metadata r in
  [("artifact_id", VStr (Artifacts.ar_id r)); ("kind", VStr (Artifacts.ar_kind r)); ("name", opt_col (Artifacts.ar_name r));
   ("uri", opt_col (Artifacts.ar_uri r)); ("media_type", opt_col (Artifacts.ar_media_type r));
   ("artifact_format", opt_col (_artifact_format r)); ("datatype", opt_col (_datatype r));
   ("schema_version", value_get "schema_version" m);
   ("files", match value_get "files" m with VList l => VList l | _ => VList [] end);
   ("summary", VDict (default [] (Artifacts.summary_json r))); ("metadata", VDict m);
   ("job_id", VStr (Artifacts.ar_job_id r)); ("task_id", VStr (Artifacts.ar_task_id r));
   ("recon_id", opt_col (Artifacts.ar_recon_id r)); ("dataset_id", opt_col (Artifacts.ar_dataset_id r))].
End rows.

(** [model_dump(mode="json")] of a plan. *)
Definition dump_step (s : Conversion.ArtifactConversionStepOut) : value :=
  VDict [("contract_id", opt_col (Conversion.st_contract_id s)); ("backend", opt_col (Conversion.st_backend s));
         ("provider", opt_col (Conversion.st_provider s)); ("from_format", VStr (Conversion.from_format s));
         ("to_format", VStr (Conversion.to_format s)); ("lossless", VBool (Conversion.lossless s));
         ("description", opt_col (Conversion.st_description s))].

Definition dump_plan (p : Conversion.ArtifactConversionPlanOut) : dict value :=
  [("artifact_id", VStr (Conversion.p_artifact_id p)); ("source_format", opt_col (Conversion.source_format p));
   ("target_format", VStr (Conversion.target_format p)); ("conversion_required", VBool (Conversion.conversion_required p));
   ("executable", VBool (Conversion.executable p)); ("reason", opt_col (Conversion.reason p));
   ("steps", VList (dump_step <$> Conversion.steps p))].

(** ** Requests ([schemas/api/artifacts.py]) *)

Record ArtifactConvertRequest : Type := mkConvert {
  cv_plan : Conversion.ArtifactConversionPlanRequest;
  cv_name : option string;
  cv_to_kind : option string;
  cv_options : dict value
}.

Record ArtifactFileRef : Type := mkFileRef {
  fr_name : string;
  fr_uri : string;
  fr_media_type : option string;
  fr_sha256 : option string;
  fr_byte_size : option Z
}.

Record ArtifactImportRequest : Type := mkImport {
  im_project_id : string;
  im_recon_id : option string;
  im_dataset_id : option string;
  im_kind : string;
  im_name : option string;
  im_uri : option string;
  im_media_type : option string;
  im_artifact_format : option string;
  im_datatype : option string;
  im_schema_version : option Z;
  im_files : list ArtifactFileRef;
  im_sha256 : option string;
  im_byte_size : option Z;
  im_coordinate_frame : option string;
  im_producer : option (dict value);
  im_summary : option (dict value);
  im_metadata : dict value
}.

(** A field that [exclude_none] leaves out when it is absent. *)
Definition field (key : string) (x : option value) : dict value := match x with Some v => [(key, v)] | None => [] end.

Definition dump_file (f : ArtifactFileRef) : value :=
  VDict ([("name", VStr (fr_name f)); ("uri", VStr (fr_uri f))] ++ field "media_type" (VStr <$> fr_media_type f) ++
         field "sha256" (VStr <$> fr_sha256 f) ++ field "byte_size" (VInt <$> fr_byte_size f)).

(** [model_dump(mode="json", exclude={"project_id"}, exclude_none=True)] *)
Definition descriptor_of (r : ArtifactImportRequest) : dict value :=
  field "recon_id" (VStr <$> im_recon_id r) ++ field "dataset_id" (VStr <$> im_dataset_id r) ++ [("kind", VStr (im_kind r))] ++
  field "name" (VStr <$> im_name r) ++ field "uri" (VStr <$> im_uri r) ++ field "media_type" (VStr <$> im_media_type r) ++
  field "artifact_format" (VStr <$> im_artifact_format r) ++ field "datatype" (VStr <$> im_datatype r) ++
  field "schema_version" (VInt <$> im_schema_version r) ++ [("files", VList (dump_file <$> im_files r))] ++
  field "sha256" (VStr <$> im_sha256 r) ++ field "byte_size" (VInt <$> im_byte_size r) ++
  field "coordinate_frame" (VStr <$> im_coordinate_frame r) ++ field "producer" (VDict <$> im_producer r) ++
  field "summary" (VDict <$> im_summary r) ++ [("metadata", VDict (im_metadata r))].

(** ** Backends *)

Section service.
(** The artifact contracts of a backend, normalized, and whether it can convert. *)
Context (contracts : Backends.Backend → list Conversion.ArtifactContract) (converts : Backends.Backend → bool).
Context (env : Stages.Env).

(** [_resolve_backend] up to its [KeyError]. *)
Definition find_backend (provider : option string) : res string Backends.Backend :=
  _ ← match provider with Some p => ensure_enabled env p | None => Ok tt end;
  backend_for env provider.

Definition _resolve_backend (provider : option string) : res exn Backends.Backend :=
  match find_backend provider with Ok b => Ok b | Err text => Err (refuse (str_repr text)) end.

Definition backend_contracts (provider : option string) : res string (list Conversion.ArtifactContract) :=
  b ← find_backend provider; Ok (contracts b).

(** The plan; the search always has fuel enough ([ArtifactJobGuarantees.planned_plan]). *)
Definition planned (r : Artifacts.ArtifactRow) (q : Conversion.ArtifactConversionPlanRequest) :
    res exn Conversion.ArtifactConversionPlanOut :=
  match Conversion.plan_conversion_for_artifact backend_contracts (plannable r) q with
  | Some (Ok p) => Ok p
  | Some (Err x) => Err (exn_of_raised x)
  | None => Err (mkExn "RecursionError" "" false)
  end.

Definition get_artifact (tenant id : string) : call Artifacts.ArtifactRow :=
  rows ← gets (λ w, artifact_row env <$> db_artifacts (w_db w));
  lift (api (Artifacts.get_artifact tenant id rows)).

Definition get_conversion_plan (tenant id : string) (q : Conversion.ArtifactConversionPlanRequest) :
    call Conversion.ArtifactConversionPlanOut :=
  a ← get_artifact tenant id;
  lift (planned a q).

(** ** Submission of a conversion *)

Definition _target_kind : string → string → option string → string :=
  Conversion._target_kind (Vocab.kind_for_default_format (vocabulary env)).

Definition conversion_inputs (a : Artifacts.ArtifactRow) (project : string) (p : Conversion.ArtifactConversionPlanOut) : dict value :=
  [("artifact", VDict (_artifact_ref (vocabulary env) a)); ("project_id", VStr project); ("plan", VDict (dump_plan p))].

Definition conversion_spec (q : ArtifactConvertRequest) (target kind : string) : dict value :=
  [("target_format", VStr target); ("target_kind", VStr kind); ("name", opt_col (cv_name q)); ("options", VDict (cv_options q))] ++
  field "provider" (VStr <$> Conversion.rq_provider (cv_plan q)).

(** The plan to carry out, the project and the kind of the result. *)
Definition check_conversion (a : Artifacts.ArtifactRow) (q : ArtifactConvertRequest) :
    call (Conversion.ArtifactConversionPlanOut * string * string) :=
  p ← lift (planned a (cv_plan q));
  _ ← guard (Conversion.executable p) (refuse (default "artifact conversion is not executable" (Conversion.nonempty (Conversion.reason p))));
  _ ← guard (Conversion.conversion_required p) (refuse "artifact already uses the selected format; no conversion job created");
  job ← gets (λ w, get_job (Artifacts.ar_job_id a) (w_db w));
  job ← found job (absent ("source job not found for artifact " +:+ Artifacts.ar_id a));
  let target := Conversion.target_format p in
  let kind := _target_kind (Artifacts.ar_kind a) target (cv_to_kind q) in
  _ ← guard (Vocab.is_format_compatible_with_kind (vocabulary env) kind target)
        (refuse ("target format " +:+ str_repr target +:+ " is not compatible with kind " +:+ str_repr kind));
  mret (p, project_id job, kind).

Definition cannot_convert (b : Backends.Backend) : exn :=
  exn_of_api_error (Capabilities.unavailable "artifacts.convert"
    ("Backend " +:+ str_repr (Backends.b_name b) +:+ " advertises a conversion contract but does not implement convert_artifact().")).

(** The spec with its provider, whose backend can convert. *)
Definition route_conversion (project : string) (spec : dict value) : res exn (dict value) :=
  spec ← apply_provider_resolution env spec "convert_artifact" (Some "artifacts.convert") (Some project);
  b ← _resolve_backend (provider_of spec);
  _ ← raise_if (negb (converts b)) (cannot_convert b);
  Ok spec.

Definition conversion_node (id : string) (inputs spec : dict value) : Dag.TaskNode :=
  Dag.mkTaskNode id "convert_artifact" (Dag.hash_inputs (VDict inputs)) (Dag.hash_params (VDict spec)) [] false
    [("inputs", VDict inputs); ("spec", VDict spec)].

(** The job, its tasks, the format of the result and the provider. *)
Definition submit_conversion (tenant id : string) (q : ArtifactConvertRequest) :
    call (string * list Task * string * option string) :=
  a ← get_artifact tenant id;
  '(p, project, kind) ← check_conversion a q;
  let target := Conversion.target_format p in
  spec ← lift (route_conversion project (conversion_spec q target kind));
  node ← new_id env;
  '(job, tasks, _) ← Stages.submit_job_dag env tenant project "artifact_conversion"
     [("artifact_id", VStr id); ("source_format", opt_col (Conversion.source_format p)); ("target_format", VStr target);
      ("target_kind", VStr kind); ("options_hash", VStr (hash_dict (VDict (cv_options q))))]
     [conversion_node node (conversion_inputs a project p) spec];
  mret (job, tasks, target, provider_of spec).

(** ** Import *)

Section import.
(** The arguments of the artifact service. *)
Context (artifact_types : list string) (plugin_formats : list Vocab.ArtifactFormatDefinition)
  (redact_name : string → string) (public_metadata : dict value → dict value).

Definition own_project (tenant id : string) : call Project :=
  p ← gets (λ w, row_get p_project_id id (projects (w_data w)));
  found (p ← p; if decide (p_tenant_id p = tenant) then Some p else None) (absent ("Project " +:+ id +:+ " not found")).

Definition own_dataset (tenant project id : string) : call unit :=
  d ← gets (λ w, row_get dataset_id id (datasets (w_data w)));
  d ← found (d ← d; if decide (d_tenant_id d = tenant) then Some d else None) (absent ("Dataset " +:+ id +:+ " not found"));
  guard (bool_decide (d_project_id d = project)) (refuse "dataset_id does not belong to project_id").

Definition own_recon (tenant project : string) (dataset : option string) (id : string) : call unit :=
  r ← gets (λ w, row_get rc_id id (w_recons w));
  r ← found (r ← r; if decide (rc_tenant_id r = tenant) then Some r else None) (absent ("Reconstruction " +:+ id +:+ " not found"));
  _ ← guard (bool_decide (rc_project_id r = project)) (refuse "recon_id does not belong to project_id");
  guard (match dataset with Some d => bool_decide (rc_dataset_id r = d) | None => true end)
    (refuse "recon_id does not belong to dataset_id").

Definition when_given (x : option string) (f : string → call unit) : call unit := match x with Some s => f s | None => mret tt end.

Definition import_job (id tenant : string) (q : ArtifactImportRequest) : Job :=
  mkJob id tenant (im_project_id q) "artifact_import"
    (Some (VDict [("kind", VStr (im_kind q)); ("artifact_format", opt_col (im_artifact_format q));
                  ("dataset_id", opt_col (im_dataset_id q)); ("recon_id", opt_col (im_recon_id q))]))
    "succeeded" false false false (now env) (Some (now env)) (Some (now env)) None None.

Definition import_state (q : ArtifactImportRequest) : dict value :=
  [("inputs", VDict [("project_id", VStr (im_project_id q)); ("dataset_id", opt_col (im_dataset_id q)); ("recon_id", opt_col (im_recon_id q))]);
   ("spec", VDict [])].

Definition import_task (id job tenant : string) (q : ArtifactImportRequest) (outputs : dict value) : Task :=
  mkTask id tenant job "import_artifact"
    (hash_dict (VDict [("project_id", VStr (im_project_id q))]))
    (hash_dict (VDict [("kind", VStr (im_kind q)); ("uri", opt_col (im_uri q)); ("artifact_format", opt_col (im_artifact_format q));
                       ("metadata", VDict (im_metadata q))]))
    "import" (hash_dict (VDict [("job_id", VStr job); ("task", VStr "import")])) None true "succeeded" None None
    (Some (VDict (import_state q))) (Some (VDict outputs)) None None (Some (now env)) (Some (now env)) (now env).

Definition in_db (f : Db → Db) : call unit := modify (λ w, set_db (f (w_db w)) w).
Definition with_artifacts (rows : list StageArtifact) (db : Db) : Db :=
  mkDb (db_tasks db) (db_jobs db) rows (db_events db) (db_recons db) (db_other db).

Definition of_task_row (t : Task) (a : StageArtifact) : bool :=
  bool_decide (sa_tenant_id a = t_tenant_id t) && bool_decide (sa_task_id a = task_id t).

(** [record_task_artifacts]: the rows of the task are replaced, the new ones draw their ids. *)
Definition record_artifacts (t : Task) (outputs : dict value) : call unit := λ w,
  match Artifacts.record_task_artifacts (vocabulary env) artifact_types plugin_formats redact_name public_metadata
          (t_tenant_id t) (t_job_id t) (task_id t) (default VNone (task_state_json t)) (λ k, fresh env (w_next w + k)%nat) outputs [] with
  | Ok rows =>
      Ok (tt, set_next (w_next w + length rows)%nat
                (set_db (with_artifacts (delete_where (of_task_row t) (db_artifacts (w_db w)) ++ (stored <$> rows)) (w_db w)) w))
  | Err e => Err (exn_of_api_error e)
  end.

Definition scalar_one {A} (rows : list A) : res exn A :=
  match rows with
  | [r] => Ok r
  | [] => Err (mkExn "NoResultFound" "No row was found when one was required" false)
  | _ => Err (mkExn "MultipleResultsFound" "Multiple rows were found when exactly one was required" false)
  end.

Definition normalize_import (q : ArtifactImportRequest) : res exn (dict value) :=
  api (Artifacts.normalize_task_outputs (vocabulary env) artifact_types plugin_formats redact_name public_metadata
         "import_artifact" (VDict [("artifacts", VList [VDict (descriptor_of q)])])).

(** The rows an import leaves, its checks done. *)
Definition store_import (tenant : string) (q : ArtifactImportRequest) : call StageArtifact :=
  job ← new_id env;
  _ ← in_db (λ db, with_jobs (db_jobs db ++ [import_job job tenant q]) db);
  id ← new_id env;
  _ ← in_db (λ db, with_tasks (db_tasks db ++ [import_task id job tenant q []]) db);
  outputs ← lift (normalize_import q);
  let t := import_task id job tenant q outputs in
  _ ← in_db (put_task t);
  _ ← record_artifacts t outputs;
  rows ← gets (λ w, select (of_task_row t) (db_artifacts (w_db w)));
  lift (scalar_one rows).

Definition import_artifact (tenant : string) (q : ArtifactImportRequest) : call StageArtifact :=
  p ← own_project tenant (im_project_id q);
  _ ← when_given (im_dataset_id q) (own_dataset tenant (p_project_id p));
  _ ← when_given (im_recon_id q) (own_recon tenant (p_project_id p) (im_dataset_id q));
  store_import tenant q.
End import.
End service.

(** ** Schemas of manifests ([core/artifacts.py]) *)

Definition SHA256_PATTERN : string := "^[0-9a-f]{64}$".

Definition _manifest_schema (fmt datatype : string) (required : list string) : dict value :=
  let text := VDict [("type", VStr "string")] in
  let filled := VDict [("type", VStr "string"); ("minLength", VInt 1)] in
  [("$schema", VStr "https://json-schema.org/draft/2020-12/schema");
   ("$id", VStr ("https://sfmapi.github.io/schemas/artifacts/" +:+ fmt +:+ ".schema.json"));
   ("type", VStr "object");
   ("required", VStrs (["format_id"; "schema_version"] ++ required));
   ("properties", VDict
      [("format_id", VDict [("const", VStr fmt)]);
       ("schema_version", VDict [("const", VInt 1)]);
       ("datatype", VDict [("const", VStr datatype)]);
       ("coordinate_frame", text);
       ("producer", VDict [("type", VStr "object"); ("additionalProperties", VBool true)]);
       ("files", VDict
          [("type", VStr "array");
           ("items", VDict
              [("type", VStr "object");
               ("required", VStrs ["name"; "uri"]);
               ("properties", VDict
                  [("name", filled); ("uri", filled); ("media_type", text);
                   ("sha256", VDict [("type", VStr "string"); ("pattern", VStr SHA256_PATTERN)]);
                   ("byte_size", VDict [("type", VStr "integer"); ("minimum", VInt 0)])]);
               ("additionalProperties", VBool true)])])]);
   ("additionalProperties", VBool true)].

(** [schema_required] of [_CORE_FORMAT_WIRE_DETAILS]. *)
Definition schema_required : dict (list string) := [
  ("sfmapi.features.local.v1", ["images"]);
  ("sfmapi.features.global.v1", ["images"]);
  ("sfmapi.pairs.image_names.v1", ["pairs"]);
  ("sfmapi.matches.indexed.v1", ["pairs"]);
  ("sfmapi.matches.coordinates.v1", ["pairs"]);
  ("sfmapi.matches.dense.v1", ["tiles"]);
  ("sfmapi.matches.verified.v1", ["pairs"]);
  ("sfmapi.reconstruction.sparse.v1", ["files"]);
  ("sfmapi.reconstruction.snapshot.v1", ["files"]);
  ("sfmapi.reconstruction.submodel.v1", ["files"]);
  ("sfmapi.projection.images.v1", ["source_images"; "output_images"])
].

Definition json_schema (f : Vocab.ArtifactFormatDefinition) : dict value :=
  _manifest_schema (Vocab.format_id f) (Vocab.f_datatype f) (default [] (dict_get (Vocab.format_id f) schema_required)).

(** ** Validation *)

Record Issue : Type := mkIssue { level : string; i_field : option string; message : string }.

Definition error_at (field message : string) : Issue := mkIssue "error" (Some field) message.
Definition warning_at (field message : string) : Issue := mkIssue "warning" (Some field) message.

Definition _schema_type_matches (expected : string) (v : value) : bool :=
  if decide (expected = "object") then is_dict v
  else if decide (expected = "array") then is_list v
  else if decide (expected = "string") then is_str v
  else if decide (expected = "integer") then is_int v && negb (is_bool v)
  else if decide (expected = "number") then (is_int v || is_float v) && negb (is_bool v)
  else if decide (expected = "boolean") then is_bool v
  else if decide (expected = "null") then is_none v
  else true.

(** [re.fullmatch] of the one pattern the schemas have. *)
Definition fullmatch (pattern s : string) : bool := bool_decide (pattern = SHA256_PATTERN) && Artifacts._SHA256_RE s.

(** [f] of a member, if it is there. *)
Definition with_member {A} (key : string) (f : value → A) (absent : A) : dict value → A :=
  fix go d := match d with [] => absent | (k, x) :: d => if decide (key = k) then f x else go d end.

Definition expected_types (schema : dict value) : list value :=
  match value_get "type" schema with VStr t => [VStr t] | VList l => l | _ => [] end.

Definition type_matches (v : value) (expected : value) : bool :=
  match expected with VStr t => _schema_type_matches t v | _ => false end.

Definition child_field (field name : string) : string := if decide (field = "") then name else field +:+ "." +:+ name.

Definition const_issues (schema : dict value) (v : value) (field : string) : list Issue :=
  match dict_get "const" schema with
  | Some c => if Backends.value_eq v c then [] else [error_at field ("value must be " +:+ Conversion.py_repr c)]
  | None => []
  end.

Definition required_issues (schema d : dict value) (field : string) : list Issue :=
  match value_get "required" schema with
  | VList names =>
      names ≫= λ n, match n with
                    | VStr n => if dict_mem n d then [] else [error_at (child_field field n) ("required field " +:+ str_repr n +:+ " is missing")]
                    | _ => []
                    end
  | _ => []
  end.

Definition length_issues (schema : dict value) (s field : string) : list Issue :=
  match value_get "minLength" schema with
  | (VInt _ | VBool _) as n =>
      match as_number n with
      | Some z => if float_lt (FFinite (QArith_base.inject_Z (Z.of_nat (Artifacts.py_len s)))) z
                  then [error_at field ("value must be at least " +:+ Conversion.py_str n +:+ " characters")] else []
      | None => []
      end
  | _ => []
  end.

Definition pattern_issues (schema : dict value) (s field : string) : list Issue :=
  match value_get "pattern" schema with
  | VStr p => if fullmatch p s then [] else [error_at field ("value must match pattern " +:+ str_repr p)]
  | _ => []
  end.

Definition number_issues (schema : dict value) (v : value) (field : string) : list Issue :=
  match as_number v, as_number (value_get "minimum" schema) with
  | Some x, Some m => if float_lt x m then [error_at field ("value must be at least " +:+ Conversion.py_str (value_get "minimum" schema))] else []
  | _, _ => []
  end.

Definition type_issue (schema : dict value) (v : value) (field : string) : option Issue :=
  let types := expected_types schema in
  if is_nil types || existsb (type_matches v) types then None
  else Some (error_at field ("value must be " +:+ join " or " (Conversion.py_str <$> types))).

(** Structural in the schema, whose members are found by walking it. *)
Fixpoint _validate_json_schema_subset (schema : value) (v : value) (field : string) : list Issue :=
  match schema with
  | VDict s =>
      const_issues s v field ++
      match type_issue s v field with
      | Some i => [i]
      | None =>
          match v with
          | VDict d =>
              required_issues s d field ++
              with_member "properties" (λ ps,
                match ps with
                | VDict ps =>
                    List.flat_map (λ nc, match nc with (n, c) =>
                      match dict_get n d with
                      | Some x => if is_dict c then _validate_json_schema_subset c x (child_field field n) else []
                      | None => []
                      end end) ps
                | _ => []
                end) [] s
          | VList l =>
              with_member "items" (λ c,
                if is_dict c then
                  List.flat_map (λ ix, _validate_json_schema_subset c ix.2 (field +:+ "[" +:+ pretty ix.1 +:+ "]")) (Artifacts.enumerate l)
                else []) [] s
          | VStr t => length_issues s t field ++ pattern_issues s t field
          | VInt _ | VFloat _ => number_issues s v field
          | _ => []
          end
      end
  | _ => []
  end.

Definition _validate_manifest_dict (v : Vocab.Vocabulary) (id fmt : string) (body : value) : list Issue :=
  match body with
  | VDict d =>
      match dict_get fmt (Vocab.CORE_ARTIFACT_FORMATS v) with
      | None => []
      | Some def =>
          let content_format := value_get "format_id" d in
          let content_version := value_get "schema_version" d in
          let version := VInt (Vocab.f_schema_version def) in
          (if is_none content_format || Backends.value_eq content_format (VStr fmt) then []
           else [error_at "format_id" ("content format_id " +:+ Conversion.py_repr content_format +:+ " does not match artifact_format " +:+ str_repr fmt)]) ++
          (if is_none content_version || Backends.value_eq content_version version then []
           else [error_at "schema_version" ("content schema_version " +:+ Conversion.py_repr content_version +:+ " does not match " +:+ Conversion.py_repr version)]) ++
          _validate_json_schema_subset (VDict (json_schema def)) body "content" ++
          (if is_none (value_get "artifact_id" d) || Backends.value_eq (value_get "artifact_id" d) (VStr id) then []
           else [warning_at "artifact_id" "content artifact_id does not match this artifact"])
      end
  | _ => [mkIssue "error" None "JSON artifact content must be an object"]
  end.

(** The size and the digest of a file's content. *)
Definition size_issues (content : string) (expected : value) (field : string) : list Issue :=
  match expected with
  | VNone => []
  | VInt z =>
      let actual := Z.of_nat (String.length content) in
      if actual =? z then [] else [error_at field ("byte_size " +:+ pretty z +:+ " does not match actual size " +:+ pretty actual)]
  | _ => [error_at field "byte_size must be an integer"]
  end.

Definition sha_issues (content : string) (expected : value) (field : string) : list Issue :=
  match expected with
  | VNone => []
  | VStr s =>
      if Artifacts._SHA256_RE s then if decide (sha256_hex content = s) then [] else [error_at field "sha256 does not match file content"]
      else [error_at field "sha256 must be a lowercase hex SHA-256 digest"]
  | _ => [error_at field "sha256 must be a lowercase hex SHA-256 digest"]
  end.

Definition _compare_file_integrity (content : string) (expected_sha256 expected_byte_size : value) (field : string) : list Issue :=
  size_issues content expected_byte_size field ++ sha_issues content expected_sha256 field.

Definition path_suffix (p : Path) : string :=
  let name := default "" (last (components p)) in
  let dots := filter (λ i, String.get i name = Some "."%char) (seq 0 (String.length name)) in
  match last dots with
  | Some i => if ((0 <? i) && (i <? String.length name - 1))%nat then String.substring i (String.length name - i) name else ""
  | None => ""
  end.

Section validation.
(** The disk, the content of a file, and what reading it as JSON gives. *)
Context (bracketed_ok : string → bool) (disk : Disk) (content : Path → string) (parsed : Path → res string value) (env : Stages.Env).

Definition drive_path (s : string) : bool :=
  match s with String a (String ":" (String c _)) => Artifacts.letter a && Artifacts.path_sep c | _ => false end.

Definition _path_from_file_uri_or_local (uri : string) : res string (option Path) :=
  if drive_path uri || starts_with "\\" uri then Ok (Some (path_of uri))
  else
    u ← PublicOutputs.urlparse bracketed_ok uri;
    if decide (PublicOutputs.scheme u = "file") then
      let raw := PublicOutputs.unquote (PublicOutputs.path u) in
      let raw := if decide (PublicOutputs.netloc u = "") then raw else "//" +:+ PublicOutputs.netloc u +:+ raw in
      Ok (Some (path_of (strip_drive_slash raw)))
    else if decide (PublicOutputs.scheme u = "") then Ok (Some (path_of uri))
    else Ok None.

Definition allowed_roots : list Path :=
  resolve disk <$> [workspace_root (settings env); blob_root (settings env); s3_cache_root (settings env)].

Definition below (top p : Path) : bool := match relative_to p top with Some _ => true | None => false end.

(** The path, or why it is not looked at. *)
Definition _managed_path (uri : option string) : res string (Path + string) :=
  match Conversion.nonempty uri with
  | None => Ok (inr "artifact has no content URI")
  | Some uri =>
      candidate ← _path_from_file_uri_or_local uri;
      Ok (match candidate with
          | None => inr "remote artifact URI was not dereferenced"
          | Some p => let target := resolve disk p in
                      if existsb (λ top, below top target) allowed_roots then inl target
                      else inr "artifact content is outside sfmapi-managed storage"
          end)
  end.

Definition _resolve_manifest_file (base : Path) (item : dict value) : res string (Path + string) :=
  match or_value (value_get "uri" item) (value_get "name" item) with
  | VStr "" => Ok (inr "file entry requires uri or name")
  | VStr rel =>
      u ← PublicOutputs.urlparse bracketed_ok rel;
      if negb (bool_decide (PublicOutputs.scheme u = "")) && negb (bool_decide (PublicOutputs.scheme u = "file"))
      then Ok (inr "remote manifest file URI was not dereferenced")
      else
        raw ← _path_from_file_uri_or_local rel;
        Ok (match raw with
            | None => inr "remote manifest file URI was not dereferenced"
            | Some raw =>
                let candidate := if is_absolute raw then raw else mkPath (root base) (components base ++ components raw) in
                let target := resolve disk candidate in
                if below base target then inl target else inr "file entry escapes artifact directory"
            end)
  | _ => Ok (inr "file entry requires uri or name")
  end.

(** One entry of the files of a directory. *)
Definition file_issues (base : Path) (ix : nat * value) : res string (list Issue) :=
  let where_ := "files[" +:+ pretty ix.1 +:+ "]" in
  match ix.2 with
  | VDict item =>
      target ← _resolve_manifest_file base item;
      Ok (match target with
          | inr reason => [warning_at where_ reason]
          | inl p =>
              if negb (exists_ disk p) then [error_at where_ "file entry does not exist"]
              else if negb (is_file disk p) then [error_at where_ "file entry is not a file"]
              else _compare_file_integrity (content p) (value_get "sha256" item) (value_get "byte_size" item) where_
          end)
  | _ => Ok [error_at where_ "file entry must be an object"]
  end.

Fixpoint all_issues {A} (f : A → res string (list Issue)) (l : list A) : res string (list Issue) :=
  match l with [] => Ok [] | x :: l => a ← f x; b ← all_issues f l; Ok (a ++ b) end.

(** What the descriptor says. *)
Definition descriptor_issues (r : Artifacts.ArtifactRow) : list Issue :=
  let v := vocabulary env in
  let fmt := _artifact_format r in
  (if Conversion.is_valid_artifact_key (Artifacts.ar_kind r) then [] else [error_at "kind" "artifact kind is malformed"]) ++
  match fmt with
  | None => [warning_at "artifact_format" "artifact has no artifact_format metadata"]
  | Some f =>
      if negb (Conversion.is_valid_artifact_key f) then [error_at "artifact_format" "artifact_format is malformed"]
      else if negb (Vocab.is_format_compatible_with_kind v (Artifacts.ar_kind r) f) then
        [error_at "artifact_format" ("artifact_format " +:+ str_repr f +:+ " is not compatible with kind " +:+ str_repr (Artifacts.ar_kind r))]
      else []
  end ++
  match _datatype_conflict_message v (Artifacts.ar_kind r) fmt (_datatype v r) with Some text => [error_at "datatype" text] | None => [] end ++
  match f ← fmt; dict_get f (Vocab.CORE_ARTIFACT_FORMATS v) with
  | Some def =>
      let given := value_get "schema_version" (_metadata r) in
      let version := VInt (Vocab.f_schema_version def) in
      if is_none given || Backends.value_eq given version then []
      else [error_at "schema_version" ("metadata schema_version " +:+ Conversion.py_repr given +:+ " does not match " +:+ Conversion.py_repr version)]
  | None => []
  end.

Definition json_issues (r : Artifacts.ArtifactRow) (p : Path) : list Issue :=
  if bool_decide (Artifacts.ar_media_type r = Some "application/json") || bool_decide (Artifacts.str_lower (path_suffix p) = ".json") then
    match parsed p with
    | Err text => [error_at "uri" ("artifact JSON content could not be parsed: " +:+ text)]
    | Ok body => match _artifact_format r with
                 | Some f => _validate_manifest_dict (vocabulary env) (Artifacts.ar_id r) f body
                 | None => []
                 end
    end
  else [].

(** What its content says, and whether it was looked at. *)
Definition content_issues (r : Artifacts.ArtifactRow) : res string (list Issue * bool) :=
  let m := _metadata r in
  target ← _managed_path (Artifacts.ar_uri r);
  match target with
  | inr reason => Ok ([warning_at "uri" reason], false)
  | inl p =>
      if is_dir disk p then
        match value_get "files" m with
        | VList files => issues ← all_issues (file_issues p) (Artifacts.enumerate files); Ok (issues, true)
        | _ => Ok ([warning_at "files" "directory artifact has no files manifest"], true)
        end
      else if is_file disk p then
        Ok (_compare_file_integrity (content p) (value_get "sha256" m) (value_get "byte_size" m) "metadata" ++ json_issues r p, true)
      else Ok ([error_at "uri" "artifact content URI does not exist"], false)
  end.

Record ArtifactValidationOut : Type := mkValidation {
  va_artifact_id : string;
  valid : bool;
  va_artifact_format : option string;
  va_datatype : option string;
  checked_content : bool;
  issues : list Issue
}.

Definition is_error (i : Issue) : bool := bool_decide (level i = "error").

Definition validate_row (r : Artifacts.ArtifactRow) : res exn ArtifactValidationOut :=
  '(more, checked) ← value_error (content_issues r);
  let all := descriptor_issues r ++ more in
  Ok (mkValidation (Artifacts.ar_id r) (negb (existsb is_error all)) (_artifact_format r) (_datatype (vocabulary env) r) checked all).

Definition validate_artifact (tenant id : string) : call ArtifactValidationOut :=
  r ← get_artifact env tenant id;
  lift (validate_row r).
End validation.

(** ** The task ([workers/tasks/convert_artifact.py]) *)

(** A call of the backend's [convert_artifact]. *)
Record ConvertCall : Type := mkCall {
  cc_artifact : dict value;
  cc_dir : Path;
  cc_format : string;
  cc_kind : string;
  cc_options : dict value
}.

Definition _first_artifact (output : dict value) : option (dict value) :=
  match value_get "artifacts" output with VList (VDict d :: _) => Some d | _ => None end.

(** [d.setdefault(key, x)] *)
Definition set_default (key : string) (x : value) (d : dict value) : dict value := if dict_mem key d then d else dict_set key x d.

(** [str(Path(uri))] of the first of [uri] and [path] that is given, else the directory. *)
Definition result_uri (output : dict value) (dir : Path) : string :=
  match or_value (value_get "uri" output) (value_get "path" output) with
  | VStr "" => path_str dir
  | VStr s => path_str (path_of s)
  | v => if truthy v then Conversion.py_str v else path_str dir
  end.

Definition _synthesized_artifact (current output : dict value) (dir : Path) (to_format to_kind : string) (name : option string)
    (backend : string) (plan : dict value) : dict value :=
  [("kind", VStr to_kind); ("name", VStr (default ("converted-" +:+ to_format) (Conversion.nonempty name)));
   ("uri", VStr (result_uri output dir)); ("artifact_format", VStr to_format); ("schema_version", VInt 1);
   ("producer", VDict [("backend", VStr backend)]);
   ("metadata", VDict [("source_artifact_id", value_get "artifact_id" current); ("conversion", VDict plan)])].

(** What metadata is completed with. *)
Definition with_source (source : value) (plan m : dict value) : dict value :=
  set_default "conversion" (VDict plan) (set_default "source_artifact_id" source m).

Definition complete_metadata (source : value) (plan d : dict value) : dict value :=
  dict_set "metadata" (VDict (with_source source plan (dict_of (value_get "metadata" d)))) d.

(** The artifact a step leaves. When the backend returned it, its metadata is shared with
    the output, whose items are completed in the same way at the end. *)
Definition complete_current (source : value) (plan : dict value) (to_format to_kind : string) (d : dict value) : dict value :=
  set_default "kind" (VStr to_kind) (set_default "artifact_format" (VStr to_format) (complete_metadata source plan d)).

Definition complete_item (source : value) (plan : dict value) (to_format to_kind backend : string) (v : value) : value :=
  match v with
  | VDict d =>
      VDict (set_default "schema_version" (VInt 1)
               (set_default "producer" (VDict [("backend", VStr backend)]) (complete_current source plan to_format to_kind d)))
  | _ => v
  end.

Definition key_error (key : string) : exn := mkExn "KeyError" (str_repr key) false.
Definition required_key (key : string) (d : dict value) : res exn value :=
  match dict_get key d with Some v => Ok v | None => Err (key_error key) end.

Section convert_task.
Context (converts : Backends.Backend → bool) (convert : Backends.Backend → ConvertCall → res exn (option (dict value))).
Context (env : Stages.Env).

Definition _target_kind_for_step (current_kind target_format final_target_kind : string) (is_final_step : bool) : string :=
  if is_final_step then final_target_kind
  else default current_kind (Conversion.nonempty (Vocab.kind_for_default_format (vocabulary env) target_format)).

Definition backend_for_stage (spec : dict value) : res exn Backends.Backend :=
  _resolve_backend env (Backends.optional_str (value_get "provider" spec)).

Definition does_not_implement (b : Backends.Backend) : exn :=
  exn_of_api_error (Capabilities.unavailable "artifacts.convert"
    ("Backend " +:+ str_repr (Backends.b_name b) +:+ " does not implement convert_artifact().")).

(** What a run keeps fixed. *)
Record Conversion_ : Type := mkConversion {
  source : value;
  cn_plan : dict value;
  cn_target_format : string;
  cn_target_kind : string;
  workspace : Path;
  cn_spec : dict value;
  cn_backend : Backends.Backend;
  total : nat
}.

(** [f"step-{index + 1:02d}"] *)
Definition step_dir (index : nat) : string := let t := pretty (S index) in "step-" +:+ pad_left (2 - String.length t) t.

Definition step_format (c : Conversion_) (step : dict value) : string := text_or (value_get "to_format" step) (cn_target_format c).

Definition step_call (c : Conversion_) (index : nat) (step current : dict value) : ConvertCall :=
  let to_format := step_format c step in
  mkCall current (div (workspace c) (step_dir index)) to_format
    (_target_kind_for_step (text_or (value_get "kind" current) (cn_target_kind c)) to_format (cn_target_kind c) (S index =? total c)%nat)
    (dict_of (or_value (value_get "options" (cn_spec c)) (VDict []))).

(** The artifact a call's result stands for. *)
Definition step_result (c : Conversion_) (k : ConvertCall) (output : dict value) : dict value :=
  let made := _synthesized_artifact (cc_artifact k) output (cc_dir k) (cc_format k) (cc_kind k)
                (Backends.optional_str (value_get "name" (cn_spec c))) (Backends.b_name (cn_backend c)) (cn_plan c) in
  let current := match _first_artifact output with Some [] | None => made | Some d => d end in
  complete_current (source c) (cn_plan c) (cc_format k) (cc_kind k) current.

(** The steps in order: the last artifact and output, and the calls made. *)
Fixpoint run_steps (c : Conversion_) (index : nat) (steps : list (dict value)) (current output : dict value) :
    res exn (dict value * dict value * list ConvertCall) :=
  match steps with
  | [] => Ok (current, output, [])
  | step :: steps =>
      let k := step_call c index step current in
      result ← convert (cn_backend c) k;
      let output := default [] result in
      '(current, output, calls) ← run_steps c (S index) steps (step_result c k output) output;
      Ok (current, output, k :: calls)
  end.

Definition final_artifacts (c : Conversion_) (current output : dict value) : list value :=
  complete_item (source c) (cn_plan c) (cn_target_format c) (cn_target_kind c) (Backends.b_name (cn_backend c)) <$>
  match value_get "artifacts" output with VList (x :: l) => x :: l | _ => [VDict current] end.

Definition dump_conversion_step (step : dict value) : value :=
  VDict [("from_format", value_get "from_format" step); ("to_format", value_get "to_format" step);
         ("lossless", value_get "lossless" step); ("contract_id", value_get "contract_id" step)].

Definition step_dicts (plan : dict value) (target_format : string) : list (dict value) :=
  match value_get "steps" plan with
  | VList l => match omap (λ v, match v with VDict d => Some d | _ => None end) l with
               | [] => [[("to_format", VStr target_format)]]
               | l => l
               end
  | _ => [[("to_format", VStr target_format)]]
  end.

(** What the task is to do: what it keeps fixed, the artifact and the steps. *)
Definition read_conversion (t : Task) : res exn (Conversion_ * dict value * list (dict value)) :=
  let '(inputs, spec) := read_state t in
  artifact ← required_key "artifact" inputs;
  artifact ← (match artifact with VDict a => Ok a | _ => Err (Backends.type_error "artifact is not an object") end);
  target_format ← required_key "target_format" spec;
  target_kind ← required_key "target_kind" spec;
  project ← required_key "project_id" inputs;
  let target_format := Conversion.py_str target_format in
  let top := div (div (job_root (settings env) (t_tenant_id t) (Conversion.py_str project) (t_job_id t)) "artifact_conversions") (task_id t) in
  b ← backend_for_stage spec;
  _ ← raise_if (negb (converts b)) (does_not_implement b);
  let plan := dict_of (value_get "plan" inputs) in
  let steps := step_dicts plan target_format in
  Ok (mkConversion (value_get "artifact_id" artifact) plan target_format (Conversion.py_str target_kind) top spec b (length steps),
      artifact, steps).

Definition conversion_outputs (c : Conversion_) (steps : list (dict value)) (calls : list ConvertCall) (current output : dict value) : dict value :=
  dict_set "artifacts" (VList (final_artifacts c current output))
    (dict_merge [("source_artifact_id", source c); ("target_format", VStr (cn_target_format c)); ("target_kind", VStr (cn_target_kind c));
                 ("workspace", VStr (path_str (workspace c))); ("step_workspaces", VStrs (path_str ∘ cc_dir <$> calls));
                 ("conversion_steps", VList (dump_conversion_step <$> steps))] output).

(** The outputs of the task, and the calls it made. *)
Definition run_convert (t : Task) : res exn (dict value * list ConvertCall) :=
  '(c, artifact, steps) ← read_conversion t;
  '(current, output, calls) ← run_steps c 0 steps artifact [];
  Ok (conversion_outputs c steps calls current output, calls).
End convert_task.
End ArtifactJobs.
