(* ===== verification/ArtifactValidation.v ===== *)
(** What validation of artifacts guarantees: it is exact. *)
From S2P Require Import Prelude PyValue Errors Store Hashing Service JobService HubState HubRouting ArtifactVocab Conversion Artifacts ArtifactFacts ArtifactGuarantees Guarantees Datasets Capabilities Backends Stages StageGuarantees PublicOutputs Radiance RadianceTasks ArtifactJobs.
From stdpp Require Import options.
Import Errors Datasets Stages Radiance RadianceTasks ArtifactJobs.

#[local] Open Scope Z_scope.

(** ** Schemas *)

(** The values a schema describes, by the keywords the subset reads. *)
Definition length_ok (s : dict value) (t : string) : Prop :=
  ∀ z, is_int (value_get "minLength" s) = true → as_number (value_get "minLength" s) = Some z →
    float_lt (FFinite (QArith_base.inject_Z (Z.of_nat (Artifacts.py_len t)))) z = false.

Definition minimum_ok (s : dict value) (v : value) : Prop :=
  ∀ x m, as_number v = Some x → as_number (value_get "minimum" s) = Some m → float_lt x m = false.

Inductive conforms : value → value → Prop :=
  | Conforms s v :
      (∀ c, dict_get "const" s = Some c → Backends.value_eq v c = true) →
      (expected_types s ≠ [] → ∃ t, VStr t ∈ expected_types s ∧ _schema_type_matches t v = true) →
      (∀ d names n, v = VDict d → value_get "required" s = VList names → VStr n ∈ names → n ∈ dict_keys d) →
      (∀ d ps n c x, v = VDict d → value_get "properties" s = VDict ps → (n, VDict c) ∈ ps → dict_get n d = Some x →
         conforms (VDict c) x) →
      (∀ l c x, v = VList l → value_get "items" s = VDict c → x ∈ l → conforms (VDict c) x) →
      (∀ t, v = VStr t → length_ok s t ∧ ∀ p, value_get "pattern" s = VStr p → fullmatch p t = true) →
      (is_bool v = false → minimum_ok s v) →
      conforms (VDict s) v.

Lemma with_member_get {A} key (f : value → A) z d :
  with_member key f z d = match dict_get key d with Some x => f x | None => z end.
Proof. induction d as [|[k x] d IH]; cbn; [done|]. by destruct (decide (key = k)). Qed.

Lemma app_nil {A} (l k : list A) : l ++ k = [] ↔ l = [] ∧ k = [].
Proof. destruct l; naive_solver. Qed.

Lemma flat_map_nil {A B} (f : A → list B) l : List.flat_map f l = [] ↔ ∀ x, x ∈ l → f x = [].
Proof.
  induction l as [|a l IH]; cbn; [set_solver|]. rewrite app_nil, IH. setoid_rewrite elem_of_cons. naive_solver.
Qed.

Lemma const_nil s v field : const_issues s v field = [] ↔ ∀ c, dict_get "const" s = Some c → Backends.value_eq v c = true.
Proof.
  unfold const_issues. destruct (dict_get _ s) as [c|]; [|by split]. destruct (Backends.value_eq v c) eqn:E; split; try done.
  - by intros _ ? [= <-].
  - intros H. specialize (H c eq_refl). congruence.
Qed.

Lemma type_none s v field :
  type_issue s v field = None ↔ (expected_types s ≠ [] → ∃ t, VStr t ∈ expected_types s ∧ _schema_type_matches t v = true).
Proof.
  unfold type_issue. generalize (expected_types s) as ts. intros ts. destruct (is_nil ts || existsb (type_matches v) ts) eqn:E.
  - split; [|done]. intros _ Hne. destruct ts as [|t0 ts]; [done|]. cbn [is_nil orb] in E.
    apply existsb_exists in E as (x & Hx%list_elem_of_In & Hm). destruct x; try done. by eexists.
  - split; [done|]. intros H. exfalso. apply orb_false_iff in E as [E1 E2]. destruct H as (t & Ht & Hm); [by intros ->|].
    assert (existsb (type_matches v) ts = true); [|congruence]. apply existsb_exists. exists (VStr t). split; [by apply list_elem_of_In|done].
Qed.

Lemma required_nil s d field :
  required_issues s d field = [] ↔ ∀ names n, value_get "required" s = VList names → VStr n ∈ names → n ∈ dict_keys d.
Proof.
  unfold required_issues. destruct (value_get "required" s) as [| | | | |names|]; try naive_solver.
  change (names ≫= ?f) with (mbind f names).
  assert (∀ l, (l ≫= λ n, match n with
                    | VStr n => if dict_mem n d then [] else [error_at (child_field field n) ("required field " +:+ str_repr n +:+ " is missing")]
                    | _ => []
                    end) = [] ↔ ∀ n, VStr n ∈ l → n ∈ dict_keys d) as ->.
  { induction l as [|x l IH]; cbn; [set_solver|]. rewrite app_nil, IH. setoid_rewrite elem_of_cons.
    destruct x as [| | | |n| |]; try naive_solver. destruct (dict_mem n d) eqn:E; [apply dict_mem_true in E; naive_solver|].
    split; [naive_solver|]. intros H. assert (n ∈ dict_keys d) as Hn by naive_solver. apply dict_mem_true in Hn. congruence. }
  naive_solver.
Qed.

Lemma length_nil s t field : length_issues s t field = [] ↔ length_ok s t.
Proof.
  unfold length_issues, length_ok. destruct (value_get "minLength" s) as [|b|z| | | |]; cbn [is_int as_number]; try by split.
  all: destruct (float_lt _ _) eqn:E; split; try done; [intros H; specialize (H _ eq_refl eq_refl); congruence|by intros _ ? _ [= <-]].
Qed.

Lemma pattern_nil s t field : pattern_issues s t field = [] ↔ ∀ p, value_get "pattern" s = VStr p → fullmatch p t = true.
Proof.
  unfold pattern_issues. destruct (value_get "pattern" s) as [| | | |p| |]; try by split.
  destruct (fullmatch p t) eqn:E; split; try done; [by intros _ ? [= <-]|]. intros H. specialize (H p eq_refl). congruence.
Qed.

Lemma number_nil s v field : number_issues s v field = [] ↔ minimum_ok s v.
Proof.
  unfold number_issues, minimum_ok. destruct (as_number v) as [x|]; [|by split]. destruct (as_number _) as [m|]; [|by split].
  destruct (float_lt x m) eqn:E; split; try done; [intros H; specialize (H _ _ eq_refl eq_refl); congruence|by intros _ ? ? [= <-] [= <-]].
Qed.

(** The lists and the members of a schema's checks. *)
Definition member_issues (s d : dict value) (field : string) : list Issue :=
  match value_get "properties" s with
  | VDict ps =>
      List.flat_map (λ nc, match nc with (n, c) =>
        match dict_get n d with
        | Some x => if is_dict c then _validate_json_schema_subset c x (child_field field n) else []
        | None => []
        end end) ps
  | _ => []
  end.

Definition item_issues (s : dict value) (l : list value) (field : string) : list Issue :=
  let c := value_get "items" s in
  if is_dict c then
    List.flat_map (λ ix, _validate_json_schema_subset c ix.2 (field +:+ "[" +:+ pretty ix.1 +:+ "]")) (Artifacts.enumerate l)
  else [].

Lemma schema_subset_eq s v field :
  _validate_json_schema_subset (VDict s) v field =
  const_issues s v field ++
  match type_issue s v field with
  | Some i => [i]
  | None =>
      match v with
      | VDict d => required_issues s d field ++ member_issues s d field
      | VList l => item_issues s l field
      | VStr t => length_issues s t field ++ pattern_issues s t field
      | VInt _ | VFloat _ => number_issues s v field
      | _ => []
      end
  end.
Proof.
  cbn [_validate_json_schema_subset]. f_equal. destruct (type_issue s v field); [done|]. destruct v as [| | | | |l|d]; try done.
  - rewrite with_member_get. unfold item_issues, value_get. by destruct (dict_get "items" s).
  - f_equal. rewrite with_member_get. unfold member_issues, value_get. by destruct (dict_get "properties" s).
Qed.

(** Schemas nest to a finite depth. *)
Fixpoint vsize (v : value) : nat :=
  match v with
  | VList l => S (foldr (λ x n, vsize x + n)%nat 0%nat l)
  | VDict d => S (foldr (λ kx n, match kx with (_, x) => vsize x + n end)%nat 0%nat d)
  | _ => 1
  end.

Lemma vsize_member k x d : (k, x) ∈ d → (vsize x < vsize (VDict d))%nat.
Proof.
  induction d as [|[k' x'] d IH]; [by intros ?%elem_of_nil|]. cbn in IH |- *. intros [[= -> ->]|H]%elem_of_cons; [lia|].
  specialize (IH H). lia.
Qed.

Lemma vsize_get k s v : value_get k s = v → v ≠ VNone → (vsize v < vsize (VDict s))%nat.
Proof.
  unfold value_get. destruct (dict_get k s) as [x|] eqn:E; [|by intros <-]. intros <- _. by eapply vsize_member, dict_get_elem.
Qed.

Lemma elem_of_zip_seq {A} n (l : list A) x : x ∈ l → ∃ i, (i, x) ∈ zip (seq n (length l)) l.
Proof.
  revert n. induction l as [|a l IH]; intros n; cbn; [by intros ?%elem_of_nil|]. intros [->|H]%elem_of_cons.
  - exists n. by left.
  - destruct (IH (S n) H) as [i Hi]. exists i. by right.
Qed.

(** What the checks after the type ask of a value. *)
Definition shape_ok (s : dict value) (v : value) : Prop :=
  match v with
  | VDict d =>
      (∀ names n, value_get "required" s = VList names → VStr n ∈ names → n ∈ dict_keys d) ∧
      (∀ ps n c x, value_get "properties" s = VDict ps → (n, VDict c) ∈ ps → dict_get n d = Some x → conforms (VDict c) x)
  | VList l => ∀ c x, value_get "items" s = VDict c → x ∈ l → conforms (VDict c) x
  | VStr t => length_ok s t ∧ ∀ p, value_get "pattern" s = VStr p → fullmatch p t = true
  | VInt _ | VFloat _ => minimum_ok s v
  | _ => True
  end.

Lemma conforms_alt s v :
  conforms (VDict s) v ↔
  (∀ c, dict_get "const" s = Some c → Backends.value_eq v c = true) ∧
  (expected_types s ≠ [] → ∃ t, VStr t ∈ expected_types s ∧ _schema_type_matches t v = true) ∧ shape_ok s v.
Proof.
  split.
  - intros H. inversion H as [? ? H1 H2 H3 H4 H5 H6 H7]; subst. split; [exact H1|]. split; [exact H2|].
    destruct v as [|b|z|f|t|l|d]; cbn [shape_ok]; [exact I|exact I|by apply H7..|by apply H6| |].
    + intros c x Hc Hx. by eapply H5.
    + split; [intros names n Hr Hn; by eapply H3|]. intros ps n c x Hp Hc Hx. by eapply H4.
  - intros (H1 & H2 & H3). constructor; [done..| | | | |].
    + intros d names n ->. apply H3.
    + intros d ps n c x ->. apply H3.
    + intros l c x ->. apply H3.
    + intros t ->. apply H3.
    + intros Hb. destruct v; try discriminate Hb; first [exact H3|intros x m [=]].
Qed.

Section nested.
Context (s : dict value).
Hypothesis IH : ∀ c x f, (vsize (VDict c) < vsize (VDict s))%nat → _validate_json_schema_subset (VDict c) x f = [] ↔ conforms (VDict c) x.

Lemma member_nil d field :
  member_issues s d field = [] ↔
  ∀ ps n c x, value_get "properties" s = VDict ps → (n, VDict c) ∈ ps → dict_get n d = Some x → conforms (VDict c) x.
Proof using IH.
  unfold member_issues. destruct (value_get "properties" s) as [| | | | | |ps] eqn:Ep; try (split; [intros _ ? ? ? ? [=]|reflexivity]).
  apply vsize_get in Ep; [|done]. rewrite flat_map_nil. split.
  - intros H ? n c x [= <-] Hc Hx. specialize (H _ Hc). cbn in H. rewrite Hx in H. apply IH in H; [done|].
    pose proof (vsize_member _ _ _ Hc). lia.
  - intros H [n c] Hc. destruct (dict_get n d) as [x|] eqn:Hx; [|done]. destruct c as [| | | | | |c]; try done. cbn [is_dict].
    apply IH; [pose proof (vsize_member _ _ _ Hc); lia|]. by eapply H.
Qed.

Lemma item_nil l field :
  item_issues s l field = [] ↔ ∀ c x, value_get "items" s = VDict c → x ∈ l → conforms (VDict c) x.
Proof using IH.
  unfold item_issues. destruct (value_get "items" s) as [| | | | | |c] eqn:Ec; try (split; [intros _ ? ? [=]|reflexivity]).
  apply vsize_get in Ec; [|done]. cbn [is_dict]. rewrite flat_map_nil. split.
  - intros H ? x [= <-] [i Hx]%(elem_of_zip_seq 0). specialize (H _ Hx). cbn in H. by apply IH in H.
  - intros H [i x] Hx%elem_of_zip_r. by apply IH, (H c).
Qed.
End nested.

(** The checks decide it. *)
Lemma conforms_exact s : ∀ v field, _validate_json_schema_subset (VDict s) v field = [] ↔ conforms (VDict s) v.
Proof.
  remember (vsize (VDict s)) as n eqn:Hn. revert s Hn. induction (lt_wf n) as [n _ IH]. intros s -> v field.
  assert (∀ c x f, (vsize (VDict c) < vsize (VDict s))%nat → _validate_json_schema_subset (VDict c) x f = [] ↔ conforms (VDict c) x) as IH'.
  { intros c x f Hc. by eapply IH. }
  rewrite schema_subset_eq, app_nil, const_nil, conforms_alt, <-(type_none s v field).
  destruct (type_issue s v field); [by split; [intros [_ [=]]|intros (_ & [=] & _)]|].
  assert (match v with
          | VDict d => required_issues s d field ++ member_issues s d field
          | VList l => item_issues s l field
          | VStr t => length_issues s t field ++ pattern_issues s t field
          | VInt _ | VFloat _ => number_issues s v field
          | _ => []
          end = [] ↔ shape_ok s v) as ->; [|naive_solver].
  destruct v; cbn [shape_ok]; try (split; [intros _; exact I|reflexivity]).
  - apply number_nil.
  - apply number_nil.
  - by rewrite app_nil, length_nil, pattern_nil.
  - by apply item_nil.
  - by rewrite app_nil, required_nil, member_nil.
Qed.

(** ** Issues that are errors *)

Definition clean (l : list Issue) : Prop := existsb is_error l = false.

Lemma clean_app l k : clean (l ++ k) ↔ clean l ∧ clean k.
Proof. unfold clean. by rewrite existsb_app, orb_false_iff. Qed.

Lemma clean_spec l : clean l ↔ ∀ i, i ∈ l → level i ≠ "error".
Proof.
  unfold clean. rewrite <-not_true_iff_false, existsb_exists. setoid_rewrite <-list_elem_of_In. unfold is_error.
  setoid_rewrite bool_decide_eq_true. naive_solver.
Qed.

(** One issue or none. *)
Lemma clean_error (b : bool) field text : clean (if b then [] else [error_at field text]) ↔ b = true.
Proof. by destruct b. Qed.

Definition all_errors (l : list Issue) : Prop := ∀ i, i ∈ l → level i = "error".

Lemma all_errors_clean l : all_errors l → clean l ↔ l = [].
Proof.
  intros H. split; [|by intros ->]. destruct l as [|i l]; [done|]. rewrite clean_spec. intros Hc. exfalso.
  apply (Hc i); [by left|]. apply H. by left.
Qed.

Lemma all_errors_app l k : all_errors l → all_errors k → all_errors (l ++ k).
Proof. intros H1 H2 i [?|?]%elem_of_app; naive_solver. Qed.

Lemma all_errors_one field text : all_errors [error_at field text].
Proof. by intros i ->%list_elem_of_singleton. Qed.

Lemma all_errors_nil : all_errors [].
Proof. by intros i ?%elem_of_nil. Qed.

Lemma all_errors_flat {A} (f : A → list Issue) l : (∀ x, x ∈ l → all_errors (f x)) → all_errors (List.flat_map f l).
Proof. intros H i (x & Hx & Hi)%list_elem_of_In%in_flat_map. apply list_elem_of_In in Hx, Hi. by eapply H. Qed.

#[local] Hint Resolve all_errors_app all_errors_one all_errors_nil : core.

(** One check: nothing or one error. *)
Ltac one_check := repeat case_match; eauto using all_errors_app, all_errors_one, all_errors_nil.

Lemma schema_errors s : ∀ v field, all_errors (_validate_json_schema_subset s v field).
Proof.
  remember (vsize s) as n eqn:Hn. revert s Hn. induction (lt_wf n) as [n _ IH]. intros s -> v field. destruct s as [| | | | | |s]; eauto.
  rewrite schema_subset_eq. apply all_errors_app; [unfold const_issues; one_check|].
  unfold type_issue. destruct (_ || _); [|eauto]. destruct v as [| | | |t|l|d]; eauto.
  - unfold number_issues. one_check.
  - unfold number_issues. one_check.
  - apply all_errors_app; [unfold length_issues|unfold pattern_issues]; one_check.
  - unfold item_issues. destruct (value_get "items" s) as [| | | | | |c] eqn:Ec; cbn [is_dict]; eauto. apply vsize_get in Ec; [|done].
    apply all_errors_flat. intros x _. by eapply IH.
  - apply all_errors_app.
    + unfold required_issues. destruct (value_get "required" s); eauto. intros i (x & Hi & _)%list_elem_of_bind. revert i Hi.
      destruct x; try apply all_errors_nil. destruct (dict_mem _ _); [apply all_errors_nil|apply all_errors_one].
    + unfold member_issues. destruct (value_get "properties" s) as [| | | | | |ps] eqn:Ep; eauto. apply vsize_get in Ep; [|done].
      apply all_errors_flat. intros [k c] Hc%vsize_member. destruct (dict_get k d) as [x|]; eauto. destruct c; eauto.
      cbn [is_dict]. eapply IH; [|done]. lia.
Qed.

Lemma schema_clean s v field : clean (_validate_json_schema_subset (VDict s) v field) ↔ conforms (VDict s) v.
Proof. by rewrite all_errors_clean, conforms_exact by apply schema_errors. Qed.

(** ** Descriptors and contents *)

Record descriptor_ok (v : Vocab.Vocabulary) (r : Artifacts.ArtifactRow) : Prop := {
  do_kind : Conversion.is_valid_artifact_key (Artifacts.ar_kind r) = true;
  do_format f : _artifact_format r = Some f →
    Conversion.is_valid_artifact_key f = true ∧ Vocab.is_format_compatible_with_kind v (Artifacts.ar_kind r) f = true;
  do_datatype t : _datatype v r = Some t →
    Conversion.is_valid_artifact_key t = true ∧
    (∀ f ft, _artifact_format r = Some f → Vocab.datatype_for_format v f = Some ft → t = ft) ∧
    (∀ kt, Vocab.datatype_for_kind v (Artifacts.ar_kind r) = Some kt → t = kt);
  do_version f def : _artifact_format r = Some f → dict_get f (Vocab.CORE_ARTIFACT_FORMATS v) = Some def →
    let given := value_get "schema_version" (_metadata r) in
    is_none given = true ∨ Backends.value_eq given (VInt (Vocab.f_schema_version def)) = true
}.

(** A file is what its entry says. *)
Definition intact (content : string) (sha size : value) : Prop :=
  (size = VNone ∨ size = VInt (Z.of_nat (String.length content))) ∧
  (sha = VNone ∨ ∃ s, sha = VStr s ∧ Artifacts._SHA256_RE s = true ∧ sha256_hex content = s).

Definition manifest_ok (v : Vocab.Vocabulary) (fmt : string) (body : value) : Prop :=
  ∃ d, body = VDict d ∧ ∀ def, dict_get fmt (Vocab.CORE_ARTIFACT_FORMATS v) = Some def →
    (is_none (value_get "format_id" d) = true ∨ Backends.value_eq (value_get "format_id" d) (VStr fmt) = true) ∧
    (is_none (value_get "schema_version" d) = true ∨
     Backends.value_eq (value_get "schema_version" d) (VInt (Vocab.f_schema_version def)) = true) ∧
    conforms (VDict (json_schema def)) body.

#[local] Opaque sha256_hex.

Lemma intact_clean content sha size field : clean (_compare_file_integrity content sha size field) ↔ intact content sha size.
Proof.
  unfold _compare_file_integrity, intact. rewrite clean_app. split; intros [H1 H2]; split.
  - destruct size as [| |z| | | |]; try done; [by left|]. cbn in H1. apply clean_error, Z.eqb_eq in H1 as <-. by right.
  - destruct sha as [| | | |s| |]; try done; [by left|]. right. exists s. cbn in H2.
    destruct (Artifacts._SHA256_RE s); [|done]. by destruct (decide _).
  - destruct H1 as [->| ->]; [done|]. cbn. by apply clean_error, Z.eqb_eq.
  - destruct H2 as [->|(s & -> & Hs & He)]; [done|]. cbn. rewrite Hs. by rewrite decide_True.
Qed.

Lemma conflict_none v kind fmt datatype :
  _datatype_conflict_message v kind fmt datatype = None ↔
  ∀ t, datatype = Some t →
    Conversion.is_valid_artifact_key t = true ∧
    (∀ f ft, fmt = Some f → Vocab.datatype_for_format v f = Some ft → t = ft) ∧
    (∀ kt, Vocab.datatype_for_kind v kind = Some kt → t = kt).
Proof.
  destruct datatype as [t|]; [|by split; [intros _ ? [=]|]]. unfold _datatype_conflict_message.
  destruct (Conversion.is_valid_artifact_key t) eqn:Ek; cbn [negb].
  2: { split; [done|]. intros H. destruct (H t eq_refl) as [? _]. congruence. }
  set (of_kind := match Vocab.datatype_for_kind v kind with Some _ => _ | None => _ end).
  assert (of_kind = None ↔ ∀ kt, Vocab.datatype_for_kind v kind = Some kt → t = kt) as Hkind.
  { unfold of_kind. destruct (Vocab.datatype_for_kind v kind) as [kt|]; [|by split; [intros _ ? [=]|]].
    destruct (decide (t = kt)) as [->|Hne]; split; try done; [by intros _ ? [= <-]|]. intros H. by specialize (H kt eq_refl). }
  destruct fmt as [f|]; [destruct (Vocab.datatype_for_format v f) as [ft|] eqn:Ef; [destruct (decide (t = ft)) as [->|Hne]|]|].
  - rewrite Hkind. split; [|naive_solver]. intros H ? [= <-]. split_and!; [done| |done]. intros f' ft' [= <-] ?. congruence.
  - split; [done|]. intros H. destruct (H t eq_refl) as (_ & H' & _). by specialize (H' f ft eq_refl Ef).
  - rewrite Hkind. split; [|naive_solver]. intros H ? [= <-]. split_and!; [done| |done]. intros f' ft' [= <-] ?. congruence.
  - rewrite Hkind. split; [|naive_solver]. intros H ? [= <-]. by split_and!.
Qed.

Lemma manifest_clean v id fmt body : clean (_validate_manifest_dict v id fmt body) ↔ manifest_ok v fmt body.
Proof.
  unfold manifest_ok. destruct body as [| | | | | |d]; try (split; [done|by intros (? & [=] & _)]). cbn [_validate_manifest_dict].
  destruct (dict_get fmt _) as [def|].
  2: { split; [|done]. intros _. by exists d. }
  rewrite !clean_app, !clean_error, schema_clean, !orb_true_iff. split.
  - intros (H1 & H2 & H3 & _). exists d. split; [done|]. by intros ? [= <-].
  - intros (? & [= <-] & H). destruct (H def eq_refl) as (H1 & H2 & H3). split_and!; [done..|]. by destruct (_ || _).
Qed.

Section content.
Context (bracketed_ok : string → bool) (disk : Disk) (content : Path → string) (parsed : Path → res string value) (env : Stages.Env).

Abbreviation managed uri := (_managed_path bracketed_ok disk env uri).

Definition entry_ok (base : Path) (x : value) : Prop :=
  ∃ item, x = VDict item ∧ ∀ p, _resolve_manifest_file bracketed_ok disk base item = Ok (inl p) →
    exists_ disk p = true ∧ is_file disk p = true ∧ intact (content p) (value_get "sha256" item) (value_get "byte_size" item).

Definition json_ok (r : Artifacts.ArtifactRow) (p : Path) : Prop :=
  Artifacts.ar_media_type r = Some "application/json" ∨ Artifacts.str_lower (path_suffix p) = ".json" →
  ∃ body, parsed p = Ok body ∧ ∀ f, _artifact_format r = Some f → manifest_ok (vocabulary env) f body.

(** What the content must be, where the server manages it. *)
Definition content_ok (r : Artifacts.ArtifactRow) : Prop :=
  ∀ p, managed (Artifacts.ar_uri r) = Ok (inl p) →
    if is_dir disk p then ∀ files x, value_get "files" (_metadata r) = VList files → x ∈ files → entry_ok p x
    else is_file disk p = true ∧ intact (content p) (value_get "sha256" (_metadata r)) (value_get "byte_size" (_metadata r)) ∧ json_ok r p.

Lemma descriptor_clean r : clean (descriptor_issues env r) ↔ descriptor_ok (vocabulary env) r.
Proof using Type.
  unfold descriptor_issues. rewrite !clean_app, clean_error. set (v := vocabulary env).
  assert (clean match _datatype_conflict_message v (Artifacts.ar_kind r) (_artifact_format r) (_datatype v r) with
                | Some text => [error_at "datatype" text] | None => [] end ↔
          _datatype_conflict_message v (Artifacts.ar_kind r) (_artifact_format r) (_datatype v r) = None) as ->
    by by destruct (_datatype_conflict_message _ _ _ _).
  rewrite conflict_none. split.
  - intros (H1 & H2 & H3 & H4). split; [done| |done|].
    + intros f Hf. rewrite Hf in H2. destruct (Conversion.is_valid_artifact_key f); [|done]. cbn [negb] in H2.
      by destruct (Vocab.is_format_compatible_with_kind _ _ _).
    + intros f def Hf Hd. rewrite Hf in H4. cbn [mbind option_bind] in H4. rewrite Hd in H4. by apply clean_error, orb_true_iff in H4.
  - intros [H1 H2 H3 H4]. split_and!; [done| |done|].
    + destruct (_artifact_format r) as [f|]; [|done]. destruct (H2 f eq_refl) as [-> ->]. done.
    + destruct (_artifact_format r) as [f|]; [|done]. cbn [mbind option_bind]. destruct (dict_get f _) as [def|] eqn:Ed; [|done].
      apply clean_error, orb_true_iff. by eapply H4.
Qed.

Lemma file_clean base ix l : file_issues bracketed_ok disk content base ix = Ok l → clean l ↔ entry_ok base ix.2.
Proof using Type.
  unfold file_issues, entry_ok. destruct ix.2 as [| | | | | |item]; try (intros [= <-]; split; [done|by intros (? & [=] & _)]).
  intros (target & Ht & [= <-])%bind_Ok. destruct target as [p|reason].
  2: { split; [|done]. intros _. exists item. split; [done|]. intros p Hp. congruence. }
  transitivity (exists_ disk p = true ∧ is_file disk p = true ∧ intact (content p) (value_get "sha256" item) (value_get "byte_size" item)).
  - destruct (exists_ disk p); cbn [negb]; [|by split; [|intros (? & _)]]. destruct (is_file disk p); cbn [negb]; [|by split; [|intros (_ & ? & _)]].
    rewrite intact_clean. split; [by intros H|by intros (_ & _ & H)].
  - split; [intros H; exists item; split; [done|]; intros p' Hp; congruence|]. intros (? & [= <-] & H). by apply H.
Qed.

Lemma all_files_clean base l ixs :
  all_issues (file_issues bracketed_ok disk content base) ixs = Ok l → clean l ↔ ∀ ix, ix ∈ ixs → entry_ok base ix.2.
Proof using Type.
  revert l. induction ixs as [|ix ixs IH]; intros l; cbn; [intros [= <-]; by split; [intros _ ? ?%elem_of_nil|]|].
  intros (a & Ha & (b & Hb & [= <-])%bind_Ok)%bind_Ok. rewrite clean_app, (IH _ Hb), (file_clean _ _ _ Ha).
  setoid_rewrite elem_of_cons. split.
  - intros [H1 H2] x [->|Hx]; [exact H1|exact (H2 x Hx)].
  - intros H. split; [exact (H _ (or_introl eq_refl))|intros x Hx; exact (H x (or_intror Hx))].
Qed.

Lemma json_clean r p : clean (json_issues parsed env r p) ↔ json_ok r p.
Proof using Type.
  unfold json_issues, json_ok.
  assert (Artifacts.ar_media_type r = Some "application/json" ∨ Artifacts.str_lower (path_suffix p) = ".json" ↔
          bool_decide (Artifacts.ar_media_type r = Some "application/json") ||
          bool_decide (Artifacts.str_lower (path_suffix p) = ".json") = true) as ->
    by by rewrite orb_true_iff, !bool_decide_eq_true.
  destruct (_ || _); [|split; [intros _ [=]|reflexivity]]. destruct (parsed p) as [body|text].
  2: { split; [discriminate|]. intros H. destruct (H eq_refl) as (? & [=] & _). }
  destruct (_artifact_format r) as [f|].
  - rewrite manifest_clean. split.
    + intros H _. exists body. split; [reflexivity|]. intros ? [= <-]. exact H.
    + intros H. destruct (H eq_refl) as (? & [= <-] & Hf). exact (Hf f eq_refl).
  - split; [|reflexivity]. intros _ _. exists body. split; [reflexivity|]. intros ? [=].
Qed.

Lemma content_clean r l checked :
  content_issues bracketed_ok disk content parsed env r = Ok (l, checked) →
  (clean l ↔ content_ok r) ∧
  (checked = true ↔ ∃ p, managed (Artifacts.ar_uri r) = Ok (inl p) ∧ is_dir disk p || is_file disk p = true).
Proof using Type.
  unfold content_issues, content_ok. intros (target & Ht & H)%bind_Ok. rewrite Ht. destruct target as [p|reason].
  2: { injection H as <- <-. split; (split; [|reflexivity || intros (? & [=] & _)]); [intros _ ? [=]|discriminate]. }
  assert (∀ P : Path → Prop, (∀ p', Ok (E := string) (inl (B := string) p) = Ok (inl p') → P p') ↔ P p) as Hone.
  { intros P. split; [intros H'; exact (H' p eq_refl)|]. intros H' ? [= <-]. exact H'. }
  assert (∀ b : Path → bool, (∃ p', Ok (E := string) (inl (B := string) p) = Ok (inl p') ∧ b p' = true) ↔ b p = true) as Hex.
  { intros b. split; [intros (? & [= <-] & Hb); exact Hb|]. intros Hb. exists p. split; [reflexivity|exact Hb]. }
  rewrite Hone, (Hex (λ p, is_dir disk p || is_file disk p)). clear Hone Hex Ht. destruct (is_dir disk p); cbn [orb].
  - destruct (value_get "files" (_metadata r)) as [| | | | |files|];
      try (injection H as <- <-; split; [split; [intros _ ? ? [=]|reflexivity]|split; reflexivity]).
    apply bind_Ok in H as (issues & Hi & [= <- <-]). split; [|split; reflexivity]. rewrite (all_files_clean _ _ _ Hi). split.
    + intros H ? x [= <-] [i Hx]%(elem_of_zip_seq 0). exact (H _ Hx).
    + intros H [i x] Hx%elem_of_zip_r. exact (H files x eq_refl Hx).
  - destruct (is_file disk p); injection H as <- <-; (split; [|split; (reflexivity || discriminate)]).
    + rewrite clean_app, intact_clean, json_clean. split; [intros H; split; [reflexivity|exact H]|intros [_ H]; exact H].
    + split; [discriminate|intros [[=] _]].
Qed.
End content.

(** Validation raises the sanitizer's [ValueError] at most. *)
Lemma validate_row_Ok bracketed_ok disk content parsed env r out :
  validate_row bracketed_ok disk content parsed env r = Ok out ↔
  ∃ more checked, content_issues bracketed_ok disk content parsed env r = Ok (more, checked) ∧
    out = mkValidation (Artifacts.ar_id r) (negb (existsb is_error (descriptor_issues env r ++ more))) (_artifact_format r)
            (_datatype (vocabulary env) r) checked (descriptor_issues env r ++ more).
Proof.
  unfold validate_row. destruct (content_issues _ _ _ _ _ _) as [[more checked]|text]; cbn.
  - split; [intros [= <-]; by exists more, checked|]. by intros (? & ? & [= <- <-] & ->).
  - split; [done|]. by intros (? & ? & [=] & _).
Qed.

(** C19: validation of an artifact is exact. When it answers, the artifact is reported
    valid exactly when its descriptor is coherent (kind, format, datatype and schema
    version agree with the vocabulary) and its content, where the server manages it, is
    what the descriptor says: the file, or each listed file of a directory, exists with
    the recorded size and digest, and the JSON of a core format conforms to the schema of
    its manifest, as defined on its own by [conforms]. The content counts as checked
    exactly when the location resolves inside managed storage to a file or a directory,
    and nothing outside the managed roots, or outside the artifact's directory, is
    looked at. *)
Theorem artifact_validation_exact bracketed_ok disk content parsed env r out :
  validate_row bracketed_ok disk content parsed env r = Ok out →
  (valid out = true ↔ descriptor_ok (vocabulary env) r ∧ content_ok bracketed_ok disk content parsed env r) ∧
  (checked_content out = true ↔
    ∃ p, _managed_path bracketed_ok disk env (Artifacts.ar_uri r) = Ok (inl p) ∧ is_dir disk p || is_file disk p = true) ∧
  (∀ p, _managed_path bracketed_ok disk env (Artifacts.ar_uri r) = Ok (inl p) →
    ∃ top, top ∈ allowed_roots disk env ∧ below top p = true) ∧
  (∀ base item p, _resolve_manifest_file bracketed_ok disk base item = Ok (inl p) → below base p = true).
Proof.
  intros (more & checked & Hc & ->)%validate_row_Ok. destruct (content_clean _ _ _ _ _ _ _ _ Hc) as [Hcontent Hchecked].
  cbn [valid checked_content]. split_and!; [|exact Hchecked| |].
  - rewrite negb_true_iff. fold (clean (descriptor_issues env r ++ more)). by rewrite clean_app, descriptor_clean, Hcontent.
  - intros p. unfold _managed_path. destruct (Conversion.nonempty _) as [uri|]; [|done].
    intros (candidate & _ & H)%bind_Ok. destruct candidate as [c|]; [|done]. destruct (existsb _ _) eqn:E; [|done].
    injection H as <-. apply existsb_exists in E as (top & Htop%list_elem_of_In & Hb). by exists top.
  - intros base item p. unfold _resolve_manifest_file. destruct (or_value _ _) as [| | | |[|a s]| |]; try done.
    intros (u & _ & H)%bind_Ok. destruct (_ && _); [done|]. apply bind_Ok in H as (raw & _ & H). destruct raw as [raw|]; [|done].
    destruct (below base _) eqn:E; [|done]. by injection H as <-.
Qed.

(** ** Witnesses *)

(** A server with the core vocabulary. *)
Definition job_env : Stages.Env :=
  Stages.mkEnv plain_services ticks 0 stage_settings (λ _, true) Hub.empty_state []
    (λ _, Ok (Backends.mkBackend "stub" None None))
    (Capabilities.mkDeployment "stub" "1" "v" None [] None false false false false false false)
    example_vocabulary read_row.

(** An artifact on the server's disk. *)
Definition art_text : string := "{}".
Definition art_disk : Disk := mkDisk id (λ _, true) (λ _, false) (λ _, false) (λ _, true) (λ _, Folder None).
Definition art_body : value :=
  VDict [("format_id", VStr "sfmapi.pairs.image_names.v1"); ("schema_version", VInt 1); ("pairs", VList [])].

Definition pairs_row (size : Z) : Artifacts.ArtifactRow :=
  Artifacts.mkRow "a2" "t" "j" "k" None None "pairs.image_names.v1" None (Some "/w/out/pairs.json") (Some "application/json") None
    (Some [("artifact_format", VStr "sfmapi.pairs.image_names.v1"); ("schema_version", VInt 1); ("byte_size", VInt size)]).

Definition validate_pairs (size : Z) : res exn ArtifactValidationOut :=
  validate_row (λ _, true) art_disk (λ _, art_text) (λ _, Ok art_body) job_env (pairs_row size).

Lemma artifact_validation_exact_witness :
  (∃ out, validate_pairs 2 = Ok out ∧ valid out = true ∧ checked_content out = true ∧
     descriptor_ok example_vocabulary (pairs_row 2) ∧
     content_ok (λ _, true) art_disk (λ _, art_text) (λ _, Ok art_body) job_env (pairs_row 2)) ∧
  ∃ out, validate_pairs 3 = Ok out ∧ valid out = false ∧
    ¬ (descriptor_ok example_vocabulary (pairs_row 3) ∧
       content_ok (λ _, true) art_disk (λ _, art_text) (λ _, Ok art_body) job_env (pairs_row 3)).
Proof.
  split.
  - destruct (validate_pairs 2) as [out|e] eqn:E; [|by vm_compute in E].
    destruct (artifact_validation_exact (λ _, true) art_disk (λ _, art_text) (λ _, Ok art_body) job_env (pairs_row 2) out E) as [[Hv _] _].
    assert (valid out = true ∧ checked_content out = true) as [H1 H2] by (vm_compute in E; by injection E as <-).
    exists out. destruct (Hv H1) as [H3 H4]. by split_and!.
  - destruct (validate_pairs 3) as [out|e] eqn:E; [|by vm_compute in E].
    destruct (artifact_validation_exact (λ _, true) art_disk (λ _, art_text) (λ _, Ok art_body) job_env (pairs_row 3) out E) as [Hv _].
    assert (valid out = false) as H1 by (vm_compute in E; by injection E as <-).
    exists out. split_and!; [done|done|]. rewrite <-Hv, H1. done.
Defined.
