(* ===== verification/ArtifactJobGuarantees.v ===== *)
(** What conversion jobs and imports of artifacts guarantee: a conversion accepted is
    carried out as planned, and imports are exact. *)
From S2P Require Import Prelude PyValue Errors Store Hashing Service JobService HubState HubRouting ArtifactVocab Conversion ConversionGuarantees Artifacts ArtifactFacts ArtifactGuarantees Scheduler Submission Guarantees Datasets DatasetFacts Capabilities Backends Stages StageFacts StageGuarantees PublicOutputs Radiance RadianceTasks ArtifactJobs ArtifactValidation.
From stdpp Require Import options.
Import Errors Dag JobService Scheduler Datasets Stages Radiance RadianceTasks ArtifactJobs.

#[local] Open Scope Z_scope.

(** ** Plans *)

Section plans.
Context (contracts : Backends.Backend → list Conversion.ArtifactContract) (converts : Backends.Backend → bool) (env : Stages.Env).

(** What is planned and needed is a chain of listed steps from the artifact's format to
    the target. *)
Lemma planned_chain a q p :
  planned contracts env a q = Ok p → Conversion.executable p = true → Conversion.conversion_required p = true →
  ∃ src l, _artifact_format a = Some src ∧ Conversion.source_format p = Some src ∧
    Conversion._iter_conversion_steps (backend_contracts contracts env) (Conversion.rq_provider q) = Ok l ∧
    chain (Conversion.usable (Conversion.require_lossless q) l) src (Conversion.steps p) (Conversion.target_format p) ∧
    Conversion.target_format p ≠ src.
Proof using Type.
  unfold planned, Conversion.plan_conversion_for_artifact. destruct (Conversion._target_formats q) as [targets|]; [|done].
  unfold _artifact_format. destruct (Conversion._artifact_format (plannable a)) as [src|]; [|by intros [= <-]].
  destruct (decide (src ∈ targets)) as [|Hs]; [by intros [= <-]|].
  destruct (Conversion._iter_conversion_steps (backend_contracts contracts env) (Conversion.rq_provider q)) as [l|x] eqn:El.
  2: { unfold Conversion._find_conversion_path. rewrite decide_False, El by done. done. }
  destruct (find_path_spec _ src targets (Conversion.require_lossless q) _ l Hs El) as (found & -> & Hok).
  destruct found as [[t path]|]; intros [= <-]; [|done]. intros _ _. destruct Hok as (Ht & Hc & _). cbn.
  exists src, l. split_and!; [done|done|done|exact Hc|]. by intros ->.
Qed.

(** The search has fuel enough. *)
Lemma planned_plan a q : Conversion.plan_conversion_for_artifact (backend_contracts contracts env) (plannable a) q ≠ None.
Proof using Type.
  unfold Conversion.plan_conversion_for_artifact. destruct (Conversion._target_formats q) as [targets|]; [|done].
  destruct (Conversion._artifact_format (plannable a)) as [src|]; [|done]. destruct (decide (src ∈ targets)) as [|Hs]; [done|].
  destruct (Conversion._iter_conversion_steps (backend_contracts contracts env) (Conversion.rq_provider q)) as [l|x] eqn:El.
  - destruct (find_path_spec _ src targets (Conversion.require_lossless q) _ l Hs El) as (found & -> & _). by destruct found as [[]|].
  - unfold Conversion._find_conversion_path. by rewrite decide_False, El by done.
Qed.

Lemma chain_last edges src l t : chain edges src l t → l ≠ [] → ∃ s, last l = Some s ∧ Conversion.to_format s = t.
Proof. intros H. destruct H as [|l s]; [done|]. intros _. exists s. by rewrite last_snoc. Qed.

(** ** Routing *)

Lemma resolution_keeps spec spec' stage capability project :
  apply_provider_resolution env spec stage capability project = Ok spec' →
  (∀ k, k ≠ "provider" → dict_get k spec' = dict_get k spec) ∧
  (value_get "provider" spec' = value_get "provider" spec ∨ ∃ p, value_get "provider" spec' = VStr p).
Proof using Type.
  unfold apply_provider_resolution. destruct (Routing.resolve_provider _ _ _ _ _ _ _ _) as [r|]; [|done].
  intros [= <-]. destruct (Routing.asked r) as [p|]; [|by split; [|left]]. split.
  - intros k Hk. by apply dict_get_set_ne.
  - right. exists p. apply value_get_set_eq.
Qed.

Lemma route_conversion_Ok project spec spec' :
  route_conversion converts env project spec = Ok spec' → is_none (value_get "provider" spec) || is_str (value_get "provider" spec) = true →
  (∀ k, k ≠ "provider" → dict_get k spec' = dict_get k spec) ∧
  ∃ b, _resolve_backend env (provider_of spec') = Ok b ∧ backend_for_stage env spec' = Ok b ∧ converts b = true.
Proof using Type.
  unfold route_conversion. intros (s & [Hk Hp]%resolution_keeps & (b & Hb & H)%bind_Ok)%bind_Ok Hnone.
  apply bind_unit in H as [Hc [= <-]]. split; [done|]. exists b. apply raise_if_Ok, negb_false_iff in Hc. split; [done|]. split; [|done].
  rewrite <-Hb. unfold backend_for_stage, provider_of. destruct Hp as [->|[p ->]]; [|done].
  by destruct (value_get "provider" spec).
Qed.
End plans.

(** ** The job *)

(** Ids not yet drawn are in use nowhere. *)
Record undrawn (env : Stages.Env) (w : World) : Prop := {
  un_keys : keys_unique (w_db w);
  un_tasks k : (w_next w ≤ k)%nat → fresh env k ∉ task_id <$> db_tasks (w_db w);
  un_jobs k : (w_next w ≤ k)%nat → fresh env k ∉ job_id <$> db_jobs (w_db w);
  un_rows k : (w_next w ≤ k)%nat → fresh env k ∉ sa_task_id <$> db_artifacts (w_db w);
  un_filled k : fresh env k ≠ ""
}.

#[local] Opaque hash_dict Dag.hash_inputs Dag.hash_params.

Lemma get_artifact_keeps env tenant id w a w' : get_artifact env tenant id w = Ok (a, w') → w' = w.
Proof. unfold get_artifact. intros H. by svc_inv H. Qed.

(** One node submitted is one task with the node's state. *)
Lemma submit_node env tenant project recipe spec n w job tasks queued w' :
  undrawn env w → n_task_id n ≠ "" → n_task_id n ∉ task_id <$> db_tasks (w_db w) →
  Stages.submit_job_dag env tenant project recipe spec [n] w = Ok ((job, tasks, queued), w') →
  ∃ t, tasks = [t] ∧ task_id t = n_task_id n ∧ t_tenant_id t = tenant ∧ t_job_id t = job ∧ kind t = n_kind n ∧
    task_state_json t = match n_metadata n with [] => None | m => Some (VDict m) end ∧
    db_tasks (w_db w') = db_tasks (w_db w) ++ [t].
Proof.
  intros Hu Hne Hn. unfold Stages.submit_job_dag. intros (rv & w1 & Hrv & H)%svc_bind_Ok.
  apply (ensure_version_spec _ _ _ _ tenant) in Hrv as (Hp & _ & _). pose proof (prep_keeps _ _ _ _ Hp) as (_ & Ht & Hj & _ & Hw & _).
  assert (keys_unique (w_db w1)) as Hk. { destruct (un_keys _ _ Hu). split; [by rewrite Ht|by rewrite Hj]. }
  destruct (Scheduler.submit_job_dag _ _ _ _ _ _ _ _ _ _) as [[[[j ts] ids] db]|] eqn:Hs; [|done]. injection H as <- <- <- <-.
  assert (Scheduler.assign_ids (λ k, fresh env (w_next w1 + k)) 1 [n] = [n]) as Ha by (cbn; by rewrite decide_False).
  apply submit_spec in Hs as (-> & _ & Hts & Hrows & _).
  - rewrite Ha in Hrows. apply Forall2_cons_inv_l in Hrows as (t & ? & [] & ->%Forall2_nil_inv_l & ->).
    exists t. split_and!; [done..|]. cbn. by rewrite Hts, Ht.
  - done.
  - apply row_get_None. intros x Hx He. rewrite Hj in Hx. apply (un_jobs _ _ Hu (w_next w1 + 0)%nat); [lia|].
    rewrite <-He. by apply list_elem_of_fmap_2.
  - rewrite Ha, Ht. cbn. apply NoDup_app. split_and!; [apply Hu| |apply NoDup_singleton].
    by intros x Hx ->%list_elem_of_singleton.
Qed.

Section submission.
Context (contracts : Backends.Backend → list Conversion.ArtifactContract) (converts : Backends.Backend → bool) (env : Stages.Env).

Lemma check_conversion_Ok a q w p project kind w' :
  check_conversion contracts env a q w = Ok ((p, project, kind), w') →
  w' = w ∧ planned contracts env a (cv_plan q) = Ok p ∧ Conversion.executable p = true ∧ Conversion.conversion_required p = true ∧
  (∃ j, get_job (Artifacts.ar_job_id a) (w_db w) = Some j ∧ project_id j = project) ∧
  kind = _target_kind env (Artifacts.ar_kind a) (Conversion.target_format p) (cv_to_kind q) ∧
  Vocab.is_format_compatible_with_kind (vocabulary env) kind (Conversion.target_format p) = true.
Proof using Type.
  unfold check_conversion. intros H. svc_inv H. simplify_eq. split_and!; eauto.
Qed.

(** What a submission leaves: the task with the artifact, the plan and the routed spec. *)
Lemma submitted_task tenant id q w job tasks target provider w' :
  undrawn env w → submit_conversion contracts converts env tenant id q w = Ok ((job, tasks, target, provider), w') →
  ∃ a p project kind spec t,
    get_artifact env tenant id w = Ok (a, w) ∧ check_conversion contracts env a q w = Ok ((p, project, kind), w) ∧
    target = Conversion.target_format p ∧ provider = provider_of spec ∧
    route_conversion converts env project (conversion_spec q target kind) = Ok spec ∧
    tasks = [t] ∧ t_tenant_id t = tenant ∧ t_job_id t = job ∧ Store.kind t = "convert_artifact" ∧
    read_state t = (conversion_inputs env a project p, spec) ∧ db_tasks (w_db w') = db_tasks (w_db w) ++ [t].
Proof using Type.
  intros Hu. unfold submit_conversion. intros (a & w1 & Ha & H)%svc_bind_Ok. pose proof (get_artifact_keeps _ _ _ _ _ _ Ha) as ->.
  apply svc_bind_Ok in H as ([[p project] kind] & w1 & Hc & H). pose proof (check_conversion_Ok _ _ _ _ _ _ _ Hc) as [-> _].
  apply svc_bind_Ok in H as (spec & w1 & [Hr <-]%lift_Ok & H). apply svc_bind_Ok in H as (node & w1 & Hn & H).
  unfold new_id in Hn. injection Hn as <- <-. apply svc_bind_Ok in H as ([[j ts] queued] & w2 & Hs & [[= <- <- <- <-] <-]%svc_ret_Ok).
  apply submit_node in Hs as (t & -> & _ & Ht & Hj & Hk & Hst & Hts).
  - exists a, p, project, kind, spec, t. split_and!; try done. unfold read_state, read_inputs, state_of. rewrite Hst. done.
  - destruct Hu as [H1 H2 H3 H4 H5]. split; try done; cbn; intros k Hk; [apply H2|apply H3|apply H4]; lia.
  - apply Hu.
  - apply Hu. lia.
Qed.
End submission.

(** ** The run *)

Section run.
Context (converts : Backends.Backend → bool) (convert : Backends.Backend → ConvertCall → res exn (option (dict value))) (env : Stages.Env).

(** The calls of a run: one per step, in its format, the first on the artifact, each
    other on what the previous one left; the last, which makes the result, in the kind
    asked for. *)
Inductive calls_of (c : Conversion_) : nat → list (dict value) → dict value → dict value → dict value → dict value → list ConvertCall → Prop :=
  | calls_done i current output : calls_of c i [] current output current output []
  | calls_step i step steps current output r current' output' calls :
      convert (cn_backend c) (step_call env c i step current) = Ok r →
      calls_of c (S i) steps (step_result c (step_call env c i step current) (default [] r)) (default [] r) current' output' calls →
      calls_of c i (step :: steps) current output current' output' (step_call env c i step current :: calls).

Lemma run_steps_calls c i steps current output :
  match run_steps convert env c i steps current output with
  | Ok (current', output', calls) => calls_of c i steps current output current' output' calls
  | Err e => ∃ k, convert (cn_backend c) k = Err e
  end.
Proof using Type.
  revert i current output. induction steps as [|step steps IH]; intros i current output; cbn [run_steps]; [constructor|].
  destruct (convert (cn_backend c) (step_call env c i step current)) as [r|e] eqn:Hr; cbn [mbind res_bind]; [|by eexists].
  specialize (IH (S i) (step_result c (step_call env c i step current) (default [] r)) (default [] r)).
  destruct (run_steps _ _ _ _ _ _ _) as [[[current' output'] calls]|e]; cbn [mbind res_bind]; [|done]. by econstructor.
Qed.

Lemma calls_formats c i steps current output current' output' calls :
  calls_of c i steps current output current' output' calls → cc_format <$> calls = step_format c <$> steps.
Proof using Type. induction 1 as [|? ? ? ? ? ? ? ? ? _ _ IH]; [done|]. cbn. by rewrite IH. Qed.

Lemma calls_kind c i steps current output current' output' calls k :
  calls_of c i steps current output current' output' calls → (i + length steps = total c)%nat → last calls = Some k → cc_kind k = cn_target_kind c.
Proof using Type.
  induction 1 as [|i step steps current output r current' output' calls _ H IH]; [done|]. cbn [length]. intros Hi Hk.
  destruct calls as [|k' calls]; [|apply IH; [lia|exact Hk]]. inversion H; subst. injection Hk as <-. cbn in Hi.
  unfold step_call, _target_kind_for_step. cbn [cc_kind]. by replace (S i =? total c)%nat with true by (symmetry; apply Nat.eqb_eq; lia).
Qed.

Lemma calls_first c i steps current output current' output' calls k :
  calls_of c i steps current output current' output' calls → head calls = Some k → cc_artifact k = current.
Proof using Type. by destruct 1; [|intros [= <-]]. Qed.

(** ** What is returned *)

Lemma mem_set_default k k' x d : dict_mem k d = true ∨ k = k' → dict_mem k (set_default k' x d) = true.
Proof using Type.
  unfold set_default. rewrite !dict_mem_true. destruct (dict_mem k' d) eqn:E.
  - intros [?| ->]; [done|]. by apply dict_mem_true.
  - rewrite <-!dict_get_is_Some. intros H. destruct (decide (k = k')) as [->|Hne]; [by rewrite dict_get_set_eq|].
    rewrite dict_get_set_ne by done. by destruct H.
Qed.

Lemma mem_dict_set k k' (x : value) d : dict_mem k d = true → dict_mem k (dict_set k' x d) = true.
Proof using Type.
  rewrite !dict_mem_true, <-!dict_get_is_Some. intros H. destruct (decide (k = k')) as [->|]; [by rewrite dict_get_set_eq|].
  by rewrite dict_get_set_ne.
Qed.

Lemma get_set_default_ne k k' x d : k ≠ k' → value_get k (set_default k' x d) = value_get k d.
Proof using Type. intros H. unfold set_default. destruct (dict_mem k' d); [done|]. by apply value_get_set_ne. Qed.

(** A completed item names its format, kind, producer and version, and its metadata the
    source and the plan. *)
Definition complete (d : dict value) : Prop :=
  (∀ key, key ∈ ["artifact_format"; "kind"; "producer"; "schema_version"] → dict_mem key d = true) ∧
  ∃ m, value_get "metadata" d = VDict m ∧ dict_mem "source_artifact_id" m = true ∧ dict_mem "conversion" m = true.

Lemma complete_item_complete source plan to_format to_kind backend d d' :
  complete_item source plan to_format to_kind backend (VDict d) = VDict d' → complete d'.
Proof using Type.
  cbn. intros [= <-]. split.
  - intros key Hk. repeat (apply elem_of_cons in Hk as [->|Hk]); [..|by apply elem_of_nil in Hk];
      repeat (apply mem_set_default; first [by right|left]).
  - unfold complete_current. rewrite !get_set_default_ne by done. unfold complete_metadata. rewrite value_get_set_eq. eexists.
    split; [done|]. unfold with_source. split; repeat (apply mem_set_default; first [by right|left]).
Qed.
End run.
(** ** The whole *)

Section whole.
Context (contracts : Backends.Backend → list Conversion.ArtifactContract) (converts : Backends.Backend → bool).
Context (convert : Backends.Backend → ConvertCall → res exn (option (dict value))) (env : Stages.Env).

Lemma step_dicts_plan p target : Conversion.steps p ≠ [] → step_dicts (dump_plan p) target = dict_of ∘ dump_step <$> Conversion.steps p.
Proof using Type.
  intros Hne. unfold step_dicts. change (value_get "steps" (dump_plan p)) with (VList (dump_step <$> Conversion.steps p)). cbv iota.
  assert (omap (λ v, match v with VDict d => Some d | _ => None end) (dump_step <$> Conversion.steps p) = dict_of ∘ dump_step <$> Conversion.steps p) as ->.
  { generalize (Conversion.steps p) as l. induction l as [|s l IH]; [done|]. cbn. by rewrite <-IH. }
  by destruct (Conversion.steps p).
Qed.

Lemma step_format_dump c s : Conversion.to_format s ≠ "" → step_format c (dict_of (dump_step s)) = Conversion.to_format s.
Proof using Type. intros H. unfold step_format, text_or, or_value. cbn. by destruct (Conversion.to_format s). Qed.

(** What a run reads from the inputs and spec of a submission. *)
Lemma read_submitted t a project p spec b format kind :
  read_state t = (conversion_inputs env a project p, spec) → backend_for_stage env spec = Ok b → converts b = true →
  dict_get "target_format" spec = Some (VStr format) → dict_get "target_kind" spec = Some (VStr kind) → Conversion.steps p ≠ [] →
  ∃ c, read_conversion converts env t = Ok (c, _artifact_ref (vocabulary env) a, dict_of ∘ dump_step <$> Conversion.steps p) ∧
    cn_backend c = b ∧ cn_target_kind c = kind ∧ total c = length (Conversion.steps p).
Proof using Type.
  intros Hst Hb Hc Hf Hk Hne. unfold read_conversion, required_key. rewrite Hst, Hf, Hk.
  change (dict_get "artifact" (conversion_inputs env a project p)) with (Some (VDict (_artifact_ref (vocabulary env) a))).
  change (dict_get "project_id" (conversion_inputs env a project p)) with (Some (VStr project)).
  change (dict_of (value_get "plan" (conversion_inputs env a project p))) with (dump_plan p).
  unfold mbind, res_bind. cbn beta iota. rewrite Hb, Hc. cbn [negb raise_if]. rewrite step_dicts_plan by done.
  eexists. split; [reflexivity|]. cbn. by rewrite length_fmap.
Qed.

Lemma final_complete c current output :
  final_artifacts c current output ≠ [] ∧ ∀ d, VDict d ∈ final_artifacts c current output → complete d.
Proof using Type.
  split.
  - unfold final_artifacts. by destruct (value_get "artifacts" output) as [| | | | |[|x l]|].
  - unfold final_artifacts. intros d (v & Hv & _)%list_elem_of_fmap. destruct v; try done. by eapply complete_item_complete.
Qed.

End whole.

(** ** Import *)

Lemma read_stored r : read_row (stored r) = r.
Proof. by destruct r as [? ? ? ? [] [] ? [] [] [] [] []]. Qed.

Lemma delete_none {A} (p : A → bool) l : (∀ x, x ∈ l → p x = false) → delete_where p l = l.
Proof.
  unfold delete_where. induction l as [|x l IH]; intros H; cbn; [done|]. rewrite (H x) by constructor. cbn. f_equal. apply IH.
  intros y Hy. apply H. by constructor.
Qed.

Lemma put_row_last {A} (key : A → string) r old l :
  key old = key r → key r ∉ key <$> l → put_row key r (l ++ [old]) = l ++ [r].
Proof.
  intros Hk Hn. unfold put_row, update_where. rewrite fmap_app. cbn. rewrite bool_decide_eq_true_2 by done. f_equal.
  transitivity (id <$> l); [|by rewrite list_fmap_id]. apply list_fmap_ext. intros i x Hx. cbn. rewrite bool_decide_eq_false_2; [done|].
  intros E. apply Hn. rewrite <-E. apply list_elem_of_fmap_2. by eapply list_elem_of_lookup_2.
Qed.

(** The project, and the dataset and reconstruction if given, are the tenant's and belong together. *)
Definition owned (tenant : string) (q : ArtifactImportRequest) (w : World) : Prop :=
  ∃ p, row_get p_project_id (im_project_id q) (projects (w_data w)) = Some p ∧ p_tenant_id p = tenant ∧
    (∀ id, im_dataset_id q = Some id →
       ∃ d, row_get dataset_id id (datasets (w_data w)) = Some d ∧ d_tenant_id d = tenant ∧ d_project_id d = p_project_id p) ∧
    (∀ id, im_recon_id q = Some id →
       ∃ r, row_get rc_id id (w_recons w) = Some r ∧ rc_tenant_id r = tenant ∧ rc_project_id r = p_project_id p ∧
         ∀ d, im_dataset_id q = Some d → rc_dataset_id r = d).

Lemma own_row {A} (x : option A) (tenant : A → string) t a :
  (x ≫= λ p, if decide (tenant p = t) then Some p else None) = Some a ↔ x = Some a ∧ tenant a = t.
Proof. destruct x as [y|]; cbn; [|naive_solver]. destruct (decide (tenant y = t)); naive_solver. Qed.

Lemma own_project_Ok tenant id w p w' :
  own_project tenant id w = Ok (p, w') ↔ row_get p_project_id id (projects (w_data w)) = Some p ∧ p_tenant_id p = tenant ∧ w' = w.
Proof.
  unfold own_project. rewrite svc_bind_Ok. setoid_rewrite gets_Ok. setoid_rewrite found_Ok. split.
  - by intros (a & w1 & (<- & <-) & [? ?]%own_row & <-).
  - intros (H1 & H2 & ->). eexists _, _. split; [done|]. split; [|done]. by apply own_row.
Qed.

Lemma own_dataset_Ok tenant project id w u w' :
  own_dataset tenant project id w = Ok (u, w') ↔
  (∃ d, row_get dataset_id id (datasets (w_data w)) = Some d ∧ d_tenant_id d = tenant ∧ d_project_id d = project) ∧ w' = w.
Proof.
  unfold own_dataset. rewrite svc_bind_Ok. setoid_rewrite gets_Ok. setoid_rewrite svc_bind_Ok. setoid_rewrite found_Ok. setoid_rewrite guard_Ok. split.
  - intros (a & w1 & (<- & <-) & d & w2 & ([? ?]%own_row & <-) & ?%bool_decide_eq_true & <-). split; [|done]. by exists d.
  - intros [(d & H1 & H2 & H3) ->]. eexists _, _. split; [done|]. eexists d, _. split; [split; [by apply own_row|done]|].
    split; [by apply bool_decide_eq_true|done].
Qed.

Lemma own_recon_Ok tenant project dataset id w u w' :
  own_recon tenant project dataset id w = Ok (u, w') ↔
  (∃ r, row_get rc_id id (w_recons w) = Some r ∧ rc_tenant_id r = tenant ∧ rc_project_id r = project ∧
     ∀ d, dataset = Some d → rc_dataset_id r = d) ∧ w' = w.
Proof.
  unfold own_recon. rewrite svc_bind_Ok. setoid_rewrite gets_Ok. setoid_rewrite svc_bind_Ok. setoid_rewrite found_Ok.
  setoid_rewrite svc_bind_Ok. setoid_rewrite guard_Ok. split.
  - intros (a & w1 & (<- & <-) & r & w2 & ([? ?]%own_row & <-) & u1 & w3 & (?%bool_decide_eq_true & <-) & Hd & <-). split; [|done].
    exists r. split_and!; [done..|]. intros d ->. by apply bool_decide_eq_true in Hd.
  - intros [(r & H1 & H2 & H3 & H4) ->]. eexists _, _. split; [done|]. eexists r, _. split; [split; [by apply own_row|done]|].
    exists tt. eexists. split; [split; [by apply bool_decide_eq_true|done]|]. split; [|done]. destruct dataset; [|done].
    apply bool_decide_eq_true. by apply H4.
Qed.

Lemma when_given_Ok (x : option string) (f : string → call unit) (P : string → Prop) w u w' :
  (∀ s u w', f s w = Ok (u, w') ↔ P s ∧ w' = w) →
  when_given x f w = Ok (u, w') ↔ (∀ s, x = Some s → P s) ∧ w' = w.
Proof.
  intros Hf. destruct x as [s|]; cbn.
  - rewrite Hf. split; intros [H ->]; (split; [|done]); [by intros ? [= <-]|by apply H].
  - rewrite svc_ret_Ok. destruct u. naive_solver.
Qed.

#[local] Arguments Artifacts.validate_artifact_descriptor : simpl never.
Section import.
Context (env : Stages.Env) (artifact_types : list string) (plugin_formats : list Vocab.ArtifactFormatDefinition).
Context (redact_name : string → string) (public_metadata : dict value → dict value).

#[local] Abbreviation validate :=
  (Artifacts.validate_artifact_descriptor (vocabulary env) artifact_types plugin_formats redact_name public_metadata "outputs.artifacts" 0).
#[local] Abbreviation import := (import_artifact env artifact_types plugin_formats redact_name public_metadata).
#[local] Abbreviation store := (store_import env artifact_types plugin_formats redact_name public_metadata).

Lemma import_checked tenant q w row w' :
  import tenant q w = Ok (row, w') ↔ owned tenant q w ∧ store tenant q w = Ok (row, w').
Proof using Type.
  unfold import_artifact. split.
  - intros (p & w1 & (Hp & Ht & ->)%own_project_Ok & H)%svc_bind_Ok.
    apply svc_bind_Ok in H as (u & w2 & Hd & H). apply svc_bind_Ok in H as (u' & w3 & Hr & H).
    eapply when_given_Ok in Hd as [Hd ->]; [|intros; apply own_dataset_Ok].
    eapply when_given_Ok in Hr as [Hr ->]; [|intros; apply own_recon_Ok]. split; [|done]. by exists p.
  - intros [(p & Hp & Ht & Hd & Hr) H]. apply svc_bind_Ok. exists p, w. split; [by apply own_project_Ok|].
    apply svc_bind_Ok. exists tt, w. split; [eapply when_given_Ok; [intros; apply own_dataset_Ok|done]|].
    apply svc_bind_Ok. exists tt, w. split; [eapply when_given_Ok; [intros; apply own_recon_Ok|done]|done].
Qed.

Lemma normalize_import_spec q :
  match validate (VDict (descriptor_of q)) with
  | Ok item => normalize_import env artifact_types plugin_formats redact_name public_metadata q = Ok [("artifacts", VList [VDict item])]
  | Err e => normalize_import env artifact_types plugin_formats redact_name public_metadata q = Err (exn_of_api_error e)
  end.
Proof using Type.
  unfold normalize_import, Artifacts.normalize_task_outputs, Artifacts.listed_artifacts.
  change (value_get "artifacts" _) with (VList [VDict (descriptor_of q)]). cbn [truthy is_nil negb mbind res_bind].
  change (Artifacts.enumerate [VDict (descriptor_of q)]) with [(0%nat, VDict (descriptor_of q))]. cbn [fold_res].
  unfold Artifacts.collect. cbn [fst snd]. destruct (validate (VDict (descriptor_of q))) as [item|e]; [|done].
  cbn [mbind res_bind]. unfold Artifacts._append_unique. by rewrite decide_False by apply not_elem_of_nil.
Qed.

(** The row of an import whose checked descriptor is [d]. *)
Definition import_row (tenant : string) (q : ArtifactImportRequest) (w : World) (d : dict value) : Artifacts.ArtifactRow :=
  Artifacts.artifact_row public_metadata tenant (fresh env (w_next w)) (fresh env (S (w_next w))) (fresh env (S (S (w_next w)) + 0))
    (Artifacts._task_inputs (VDict (import_state q))) d.

(** The rows of one artifact of a task. *)
Lemma record_one t item d w :
  validate (VDict item) = Ok d →
  record_artifacts env artifact_types plugin_formats redact_name public_metadata t [("artifacts", VList [VDict item])] w =
  Ok (tt, set_next (w_next w + 1) (set_db (with_artifacts (delete_where (of_task_row t) (db_artifacts (w_db w)) ++
            [stored (Artifacts.artifact_row public_metadata (t_tenant_id t) (t_job_id t) (task_id t) (fresh env (w_next w + 0))
               (Artifacts._task_inputs (default VNone (task_state_json t))) d)]) (w_db w)) w)).
Proof using Type.
  intros Hd. unfold record_artifacts, Artifacts.record_task_artifacts, Artifacts.listed_artifacts.
  change (value_get "artifacts" _) with (VList [VDict item]). cbn [truthy is_nil negb mbind res_bind].
  change (Artifacts.enumerate [VDict item]) with [(0%nat, VDict item)]. cbn [fold_res fst snd]. by rewrite Hd.
Qed.

#[local] Ltac fields :=
  unfold put_task, with_tasks, with_jobs, with_artifacts, set_next, set_db in *;
  cbn [w_data w_db w_rvs w_recons w_next db_tasks db_jobs db_artifacts db_events db_recons db_other] in *.

Lemma store_import_Ok tenant q w :
  undrawn env w →
  match validate (VDict (descriptor_of q)) with
  | Err e => store tenant q w = Err (exn_of_api_error e)
  | Ok item => ∃ d, validate (VDict item) = Ok d ∧
      let row := stored (import_row tenant q w d) in
      store tenant q w = Ok (row, set_next (w_next w + 3) (set_db (with_artifacts (db_artifacts (w_db w) ++ [row])
        (with_tasks (db_tasks (w_db w) ++ [import_task env (fresh env (S (w_next w))) (fresh env (w_next w)) tenant q [("artifacts", VList [VDict item])]])
           (with_jobs (db_jobs (w_db w) ++ [import_job env (fresh env (w_next w)) tenant q]) (w_db w)))) w))
  end.
Proof using Type.
  intros Hu. pose proof (normalize_import_spec q) as Hnorm. unfold store_import.
  destruct (validate (VDict (descriptor_of q))) as [item|e] eqn:Hv.
  2: { unfold mbind, svc_bind, new_id, in_db, modify, lift. by rewrite Hnorm. }
  destruct (validate_checked _ _ _ _ _ _ _ _ _ Hv) as [(kind & m & Hc & Hm) _].
  destruct (checked_validates (vocabulary env) artifact_types plugin_formats redact_name public_metadata "outputs.artifacts" 0 _ _ _ Hc Hm) as [d Hd].
  exists d. split; [done|]. destruct Hu as [_ Ht _ Hr _]. specialize (Ht (S (w_next w)) (le_S _ _ (le_n _))).
  specialize (Hr (S (w_next w)) (le_S _ _ (le_n _))). unfold import_row.
  unfold mbind, svc_bind, new_id, in_db, modify, lift at 1. rewrite Hnorm. cbn zeta.
  destruct w as [data [tasks jobs rows events recs other] rvs recons next]. fields.
  rewrite put_row_last by done. rewrite (record_one _ _ d) by done. set (t := import_task _ _ _ _ _ _). fields.
  assert (∀ x, x ∈ rows → of_task_row t x = false) as Hnone.
  { intros x Hx. apply andb_false_intro2, bool_decide_eq_false_2. intros E. apply Hr. change (fresh env (S next)) with (task_id t).
    rewrite <-E. by apply list_elem_of_fmap_2. }
  rewrite (delete_none _ rows) by done. unfold gets. fields. unfold select. rewrite List.filter_app.
  fold (select (of_task_row t) rows). rewrite (select_none _ rows) by done. cbn [List.filter app].
  assert (∀ id inputs, of_task_row t (stored (Artifacts.artifact_row public_metadata (t_tenant_id t) (t_job_id t) (task_id t) id inputs d)) = true) as ->.
  { intros id inputs. by apply andb_true_iff; split; apply bool_decide_eq_true. }
  replace (S (S next) + 1)%nat with (next + 3)%nat by lia. done.
Qed.

Lemma get_field_ne k k' x d : k ≠ k' → value_get k (field k' x ++ d) = value_get k d.
Proof using Type. intros Hk. unfold value_get. destruct x as [x|]; cbn; [|done]. by rewrite decide_False by done. Qed.

Lemma get_field_eq k x d : dict_get k d = None → value_get k (field k x ++ d) = default VNone x.
Proof using Type. intros H. unfold value_get. destruct x as [x|]; cbn; [by rewrite decide_True|by rewrite H]. Qed.

Lemma no_field k k' x d : k ≠ k' → dict_get k d = None → dict_get k (field k' x ++ d) = None.
Proof using Type. intros Hk H. destruct x as [x|]; cbn; [by rewrite decide_False|done]. Qed.

Lemma descriptor_fields q :
  value_get "kind" (descriptor_of q) = VStr (im_kind q) ∧ value_get "recon_id" (descriptor_of q) = opt_col (im_recon_id q) ∧
  value_get "dataset_id" (descriptor_of q) = opt_col (im_dataset_id q).
Proof using Type.
  unfold descriptor_of. split_and!.
  - rewrite !get_field_ne by done. done.
  - rewrite get_field_eq; [by destruct (im_recon_id q)|]. repeat (apply no_field; [done|]; cbn [app dict_get decide]). done.
  - rewrite get_field_ne by done. rewrite get_field_eq; [by destruct (im_dataset_id q)|]. repeat (apply no_field; [done|]; cbn [app dict_get decide]). done.
Qed.

Lemma recorded_same v tenant job task item item' r :
  value_get "kind" item = value_get "kind" item' → value_get "uri" item = value_get "uri" item' →
  ArtifactGuarantees.recorded v tenant job task item r → ArtifactGuarantees.recorded v tenant job task item' r.
Proof using Type. intros Hk Hu []. split; [done|done|by rewrite <-Hk|by rewrite <-Hu|done|done|done]. Qed.

Lemma optional_col x : Artifacts._optional_str (opt_col x) = Conversion.nonempty x.
Proof using Type. by destruct x. Qed.

Lemma or_else_same {A} (x : option A) : Artifacts.or_else x x = x.
Proof using Type. by destruct x. Qed.

Lemma import_row_links tenant q w d :
  value_get "dataset_id" d = opt_col (im_dataset_id q) → value_get "recon_id" d = opt_col (im_recon_id q) →
  Artifacts.ar_dataset_id (import_row tenant q w d) = Conversion.nonempty (im_dataset_id q) ∧
  Artifacts.ar_recon_id (import_row tenant q w d) = Conversion.nonempty (im_recon_id q).
Proof using Type.
  intros Hd Hr. unfold import_row, Artifacts.artifact_row. cbn [Artifacts.ar_dataset_id Artifacts.ar_recon_id].
  change (Artifacts._task_inputs _) with (dict_of (value_get "inputs" (import_state q))).
  change (value_get "dataset_id" (dict_of _)) with (opt_col (im_dataset_id q)).
  change (value_get "recon_id" (dict_of _)) with (opt_col (im_recon_id q)).
  rewrite Hd, Hr, !optional_col. split; apply or_else_same.
Qed.

(** Imports are exact. An import is accepted exactly when its project is the
    tenant's, its dataset and reconstruction, if given, are the tenant's and belong to
    the project (and the reconstruction to the dataset), and its descriptor passes the
    validation of worker outputs; normalization and recording then never fail. It leaves
    one finished job of the project, one finished task of the job whose outputs are the
    normalized descriptor, and one artifact row of the task, and changes nothing else.
    Read back, the row has the descriptor's kind and location, the dataset and the
    reconstruction given, and a format and datatype its kind admits. *)
Theorem import_exact tenant q w :
  undrawn env w →
  ((∃ row w', import tenant q w = Ok (row, w')) ↔ owned tenant q w ∧ ∃ item, validate (VDict (descriptor_of q)) = Ok item) ∧
  ∀ row w', import tenant q w = Ok (row, w') → ∃ job t item,
    job_id job = fresh env (w_next w) ∧ j_tenant_id job = tenant ∧ project_id job = im_project_id q ∧ j_status job = "succeeded" ∧
    t_tenant_id t = tenant ∧ t_job_id t = job_id job ∧ t_status t = "succeeded" ∧
    validate (VDict (descriptor_of q)) = Ok item ∧ outputs_ref_json t = Some (VDict [("artifacts", VList [VDict item])]) ∧
    w' = set_next (w_next w + 3) (set_db (with_artifacts (db_artifacts (w_db w) ++ [row])
           (with_tasks (db_tasks (w_db w) ++ [t]) (with_jobs (db_jobs (w_db w) ++ [job]) (w_db w)))) w) ∧
    ArtifactGuarantees.recorded (vocabulary env) tenant (job_id job) (task_id t) (descriptor_of q) (read_row row) ∧
    Artifacts.ar_kind (read_row row) = im_kind q ∧
    Artifacts.ar_dataset_id (read_row row) = Conversion.nonempty (im_dataset_id q) ∧
    Artifacts.ar_recon_id (read_row row) = Conversion.nonempty (im_recon_id q).
Proof using Type.
  intros Hu. pose proof (store_import_Ok tenant q w Hu) as H. setoid_rewrite import_checked.
  destruct (validate (VDict (descriptor_of q))) as [item|e] eqn:Hv.
  2: { rewrite H. split; [|by intros ? ? [_ ?]]. split; [by intros (? & ? & _ & ?)|by intros [_ [? ?]]]. }
  destruct H as (d & Hd & H). cbv zeta in H. rewrite H. split.
  { split; [intros (? & ? & Ho & _); eauto|]. intros [Ho _]. eauto. }
  pose proof (λ key, proj2 (validate_checked _ _ _ _ _ _ _ _ _ Hv) (descriptor_of q) key eq_refl) as Hkeep.
  pose proof (λ key, proj2 (validate_checked _ _ _ _ _ _ _ _ _ Hd) item key eq_refl) as Hkeep'.
  intros row w' [Ho [= <- <-]].
  exists (import_job env (fresh env (w_next w)) tenant q),
    (import_task env (fresh env (S (w_next w))) (fresh env (w_next w)) tenant q [("artifacts", VList [VDict item])]), item. split_and!.
  all: try reflexivity.
  - rewrite read_stored. eapply recorded_same, row_recorded, Hd; apply Hkeep; list_in.
  - rewrite read_stored. cbn. rewrite Hkeep', Hkeep, (proj1 (descriptor_fields q)) by list_in. done.
  - rewrite read_stored. apply import_row_links; rewrite Hkeep', Hkeep by list_in; apply descriptor_fields.
  - rewrite read_stored. apply import_row_links; rewrite Hkeep', Hkeep by list_in; apply descriptor_fields.
Qed.
End import.

(** ** Witnesses *)

Definition listed_contracts (_ : Backends.Backend) : list Conversion.ArtifactContract :=
  [Conversion.mkContract "acme.convert" "acme" "matcher" None
     [ConversionGuarantees.convert "a" "b" true; ConversionGuarantees.convert "b" "c" true]].

Definition source_row : Artifacts.ArtifactRow :=
  Artifacts.mkRow "a1" "t" "j" "k" None None "custom.kind" None (Some "s3://bucket/a") None None
    (Some [("artifact_format", VStr "a")]).

Definition source_job : Job :=
  mkJob "j" "t" "p" "r" None "succeeded" false false false 0 None None None None.

Definition job_world : World :=
  mkWorld (mkData [mkProject "p" "t" "P" None] [] [] [] ∅) (mkDb [] [source_job] [stored source_row] [] [] ∅) [] [] 0.

Lemma job_world_undrawn : undrawn job_env job_world.
Proof.
  split; cbn.
  - split; [constructor|apply NoDup_singleton].
  - intros k _. apply not_elem_of_nil.
  - intros k _. destruct k as [|[|k]]; cbn; intros ?%list_elem_of_singleton; done.
  - intros k _. destruct k as [|[|k]]; cbn; intros ?%list_elem_of_singleton; done.
  - apply ticks_nonempty.
Qed.

Definition plain_convert (_ : Backends.Backend) (k : ConvertCall) : res exn (option (dict value)) :=
  Ok (Some [("uri", VStr (cc_format k +:+ ".bin"))]).

Definition to_c : ArtifactConvertRequest := mkConvert (Conversion.mkRequest None (Some "c") [] true) None None [].

Definition submitted : res exn ((string * list Task * string * option string) * World) :=
  submit_conversion listed_contracts (λ _, true) job_env "t" "a1" to_c job_world.

Lemma submitted_result : match submitted with Ok (_, _, target, provider, _) => target = "c" ∧ provider = None | Err _ => False end.
Proof. by vm_compute. Qed.

Lemma planned_route :
  match get_artifact job_env "t" "a1" job_world with
  | Ok (a, _) => match planned listed_contracts job_env a (cv_plan to_c) with
                 | Ok p => Conversion.to_format <$> Conversion.steps p = ["b"; "c"] | Err _ => False end
  | Err _ => False
  end.
Proof. by vm_compute. Qed.


(** An import into the project. *)
Definition to_import : ArtifactImportRequest :=
  mkImport "p" None None "pairs.image_names.v1" (Some "pairs") (Some "s3://bucket/pairs.json") (Some "application/json")
    None None None [] None None None None None [].

Lemma import_accepted :
  ∃ row w', import_artifact job_env [] [] id id "t" to_import job_world = Ok (row, w') ∧
    Artifacts.ar_kind (read_row row) = "pairs.image_names.v1" ∧ db_artifacts (w_db w') = [stored source_row; row].
Proof.
  destruct (import_exact job_env [] [] id id "t" to_import job_world job_world_undrawn) as [Hacc Hrow].
  destruct (proj2 Hacc) as (row & w' & Hi).
  - split; [|by eexists; vm_compute]. exists (mkProject "p" "t" "P" None). by split_and!.
  - destruct (Hrow _ _ Hi) as (job & t & item & _ & _ & _ & _ & _ & _ & _ & _ & _ & -> & _ & Hkind & _). exists row. eexists. split; [exact Hi|].
    split; [exact Hkind|reflexivity].
Qed.
